(** * NN_Key: a shallow embedding of the key / combo-key driver

    The development follows [NN_Key.h] and [NN_Key.c].

    - Integers of the C code are modelled in [Z]; the unsigned 32-bit
      subtraction [tick - key->key_last_time] is written out with its
      wrap-around ([sub32]), the 4-bit bit-fields with [mod 16], the
      8-bit mask with [mod 256].
    - Objects allocated by the caller ([nn_key_t], [nn_comb_t]) live in a
      store indexed by their address ([ptr]); a possibly-NULL pointer is an
      [option ptr].  Two registrations of the same address alias.
    - The module-level statics ([_nn_key_list], [_nn_combo_list], the
      function-level static [LastTick]) are fields of [nn_state].
    - User callbacks and read functions are identified by a number; invoking
      a callback appends a [call] to the [trace] of the state.  Callbacks are
      assumed not to re-enter the module.
    - Dereferencing NULL (a key without read function, an empty combo
      member slot) is undefined in C and is the [None] of the error monad;
      so are the store past the end of the array [_nn_combo_list] and the
      read of a variadic argument that was not passed.
    - An argument of type [uint8_t] or [uint16_t] is converted at the
      call ([uint8], [uint16]). *)

From Stdlib Require Import ZArith List Bool Lia String.
Import ListNotations.
Local Open Scope Z_scope.

(** ** Constants of [NN_Key.h] *)

Definition KEY_MAX_KEY_NUMBER : Z := 20.
Definition KEY_MAX_COMBO_NUMBER : Z := 20.
Definition KEY_DEBOUNCE_TIME : Z := 20.
Definition KEY_LONG_PRESS_TIME : Z := 500.
Definition KEY_LONG_PRESS_ALWS : Z := 1500.
Definition KEY_MULTI_PRESS_TIME : Z := 300.
Definition KEY_LONG_PRESS_ALWS_CB : Z := 50.
Definition KEY_MAX_COMBO_MEMBER : Z := 4.
Definition KEY_COMBO_WINDOW : Z := 300.

(** [uint32_t] subtraction. *)
Definition sub32 (a b : Z) : Z := (a - b) mod 2 ^ 32.

(** ** Enumerations *)

(** [nn_key_state_t], stored in a 3-bit field.  [KEY_STATE_UNNAMED] stands
    for the two bit patterns (6 and 7) that no enumerator names; they are
    what the [default:] branch of the state machine catches. *)
Inductive nn_key_state_t : Type :=
| KEY_STATE_INIT
| KEY_STATE_RELEASED
| KEY_STATE_PRESSED
| KEY_STATE_LONG_PRESSED
| KEY_STATE_LONG_PRESSED_ALWS
| KEY_STATE_MULTI_PRESSED
| KEY_STATE_UNNAMED.

(** [nn_key_event_t]; [KEY_EVENT_MAX] is the enumerator that counts them. *)
Inductive nn_key_event_t : Type :=
| KEY_EVENT_INIT
| KEY_EVENT_PRESSED
| KEY_EVENT_LONG_PRESSED
| KEY_EVENT_LONG_PRESSED_ALWS
| KEY_EVENT_DOUBLE_PRESSED
| KEY_EVENT_TRIPLE_PRESSED
| KEY_EVENT_MULTI_PRESSED
| KEY_EVENT_MAX.

Definition event_code (e : nn_key_event_t) : Z :=
  match e with
  | KEY_EVENT_INIT => 0
  | KEY_EVENT_PRESSED => 1
  | KEY_EVENT_LONG_PRESSED => 2
  | KEY_EVENT_LONG_PRESSED_ALWS => 3
  | KEY_EVENT_DOUBLE_PRESSED => 4
  | KEY_EVENT_TRIPLE_PRESSED => 5
  | KEY_EVENT_MULTI_PRESSED => 6
  | KEY_EVENT_MAX => 7
  end.

Definition event_eqb (a b : nn_key_event_t) : bool :=
  event_code a =? event_code b.

(** ** Data structures *)

Definition ptr : Type := nat.

(** [nn_key_callback_item_t]: the union of the two callback pointers is one
    field, [None] being NULL. *)
Record nn_key_callback_item_t : Type := mk_item {
  func : option nat;
  user_data : option nat
}.

Definition null_item : nn_key_callback_item_t := mk_item None None.

(** [nn_key_t].  The nested structs [key_paras], [key_flags] and
    [key_multi_paras] are flattened; the field names are kept. *)
Record nn_key_t : Type := mk_key {
  key_id : string;
  key_read : option nat;
  key_last_time : Z;
  debounce_time : Z;
  long_time : Z;
  long_alws_time : Z;
  multi_time : Z;
  state : nn_key_state_t;
  event : nn_key_event_t;
  is_member : bool;
  lock_flag : bool;
  multi_max : Z;
  multi_count : Z;
  callback_mask : Z;
  callbacks : list nn_key_callback_item_t
}.

Definition with_last_time (t : Z) (k : nn_key_t) : nn_key_t :=
  mk_key (key_id k) (key_read k) t (debounce_time k) (long_time k)
         (long_alws_time k) (multi_time k) (state k) (event k) (is_member k)
         (lock_flag k) (multi_max k) (multi_count k) (callback_mask k)
         (callbacks k).

Definition with_state (st : nn_key_state_t) (k : nn_key_t) : nn_key_t :=
  mk_key (key_id k) (key_read k) (key_last_time k) (debounce_time k)
         (long_time k) (long_alws_time k) (multi_time k) st (event k)
         (is_member k) (lock_flag k) (multi_max k) (multi_count k)
         (callback_mask k) (callbacks k).

Definition with_event (e : nn_key_event_t) (k : nn_key_t) : nn_key_t :=
  mk_key (key_id k) (key_read k) (key_last_time k) (debounce_time k)
         (long_time k) (long_alws_time k) (multi_time k) (state k) e
         (is_member k) (lock_flag k) (multi_max k) (multi_count k)
         (callback_mask k) (callbacks k).

Definition with_is_member (b : bool) (k : nn_key_t) : nn_key_t :=
  mk_key (key_id k) (key_read k) (key_last_time k) (debounce_time k)
         (long_time k) (long_alws_time k) (multi_time k) (state k) (event k)
         b (lock_flag k) (multi_max k) (multi_count k) (callback_mask k)
         (callbacks k).

Definition with_lock_flag (b : bool) (k : nn_key_t) : nn_key_t :=
  mk_key (key_id k) (key_read k) (key_last_time k) (debounce_time k)
         (long_time k) (long_alws_time k) (multi_time k) (state k) (event k)
         (is_member k) b (multi_max k) (multi_count k) (callback_mask k)
         (callbacks k).

Definition with_multi_count (c : Z) (k : nn_key_t) : nn_key_t :=
  mk_key (key_id k) (key_read k) (key_last_time k) (debounce_time k)
         (long_time k) (long_alws_time k) (multi_time k) (state k) (event k)
         (is_member k) (lock_flag k) (multi_max k) c (callback_mask k)
         (callbacks k).

Definition with_callbacks (m : Z) (cbs : list nn_key_callback_item_t)
           (k : nn_key_t) : nn_key_t :=
  mk_key (key_id k) (key_read k) (key_last_time k) (debounce_time k)
         (long_time k) (long_alws_time k) (multi_time k) (state k) (event k)
         (is_member k) (lock_flag k) (multi_max k) (multi_count k) m cbs.

(** ** The per-key state machine *)

(** [_NN_Key_StateMachine]; [key_val] is what [key->key_read()] returned.
    [multi_count++] acts on a 4-bit field. *)
Definition _NN_Key_StateMachine (key : nn_key_t) (tick : Z) (key_val : bool)
  : nn_key_t :=
  let now_tick := tick in
  let diff_tick := sub32 now_tick (key_last_time key) in
  match state key with
  | KEY_STATE_INIT =>
      if key_val then
        with_last_time now_tick (with_state KEY_STATE_PRESSED key)
      else
        with_event KEY_EVENT_INIT
          (with_last_time now_tick (with_state KEY_STATE_RELEASED key))
  | KEY_STATE_RELEASED =>
      if key_val && (debounce_time key <=? diff_tick) then
        with_event KEY_EVENT_INIT
          (with_last_time now_tick (with_state KEY_STATE_PRESSED key))
      else if negb key_val then
        with_state KEY_STATE_RELEASED key
      else key
  | KEY_STATE_PRESSED =>
      if negb key_val then
        let press_duration := sub32 now_tick (key_last_time key) in
        if long_time key <=? press_duration then
          with_multi_count 0
            (with_last_time now_tick
               (with_state KEY_STATE_RELEASED
                  (with_event KEY_EVENT_LONG_PRESSED key)))
        else
          with_last_time now_tick
            (with_multi_count ((multi_count key + 1) mod 16)
               (with_state KEY_STATE_MULTI_PRESSED key))
      else if (long_time key <=? diff_tick)
              && (diff_tick <? long_alws_time key)
              && (0 <? long_alws_time key) then
        with_state KEY_STATE_LONG_PRESSED key
      else if (long_alws_time key <=? diff_tick)
              && (0 <? long_alws_time key) then
        with_last_time now_tick
          (with_event KEY_EVENT_LONG_PRESSED_ALWS
             (with_state KEY_STATE_LONG_PRESSED_ALWS key))
      else key
  | KEY_STATE_LONG_PRESSED =>
      if negb key_val then
        with_multi_count 0
          (with_last_time now_tick
             (with_state KEY_STATE_RELEASED
                (with_event KEY_EVENT_LONG_PRESSED key)))
      else if (long_alws_time key <=? diff_tick)
              && (0 <? long_alws_time key) then
        with_last_time now_tick
          (with_event KEY_EVENT_LONG_PRESSED_ALWS
             (with_state KEY_STATE_LONG_PRESSED_ALWS key))
      else key
  | KEY_STATE_LONG_PRESSED_ALWS =>
      if negb key_val then
        with_multi_count 0
          (with_event KEY_EVENT_INIT
             (with_state KEY_STATE_RELEASED
                (with_last_time now_tick key)))
      else
        with_event KEY_EVENT_LONG_PRESSED_ALWS key
  | KEY_STATE_MULTI_PRESSED =>
      if key_val && (debounce_time key <=? diff_tick) then
        with_last_time now_tick (with_state KEY_STATE_PRESSED key)
      else if negb key_val && (multi_time key <=? diff_tick) then
        let key1 :=
          if multi_count key =? 1 then with_event KEY_EVENT_PRESSED key
          else if multi_count key =? 2 then
            with_event KEY_EVENT_DOUBLE_PRESSED key
          else if multi_count key =? 3 then
            with_event KEY_EVENT_TRIPLE_PRESSED key
          else if 3 <? multi_count key then
            with_event KEY_EVENT_MULTI_PRESSED key
          else key in
        with_multi_count 0
          (with_last_time now_tick (with_state KEY_STATE_RELEASED key1))
      else key
  | KEY_STATE_UNNAMED =>
      with_event KEY_EVENT_INIT
        (with_multi_count 0
           (with_last_time now_tick (with_state KEY_STATE_INIT key)))
  end.

(** The state machine of one key driven by a sequence of samples
    [(tick, raw input)]: the key after each sample. *)
Fixpoint run_samples (key : nn_key_t) (samples : list (Z * bool))
  : list nn_key_t :=
  match samples with
  | [] => []
  | (tick, v) :: rest =>
      let key' := _NN_Key_StateMachine key tick v in
      key' :: run_samples key' rest
  end.

(** The key after the whole sequence. *)
Definition after_samples (key : nn_key_t) (samples : list (Z * bool))
  : nn_key_t :=
  fold_left (fun k s => _NN_Key_StateMachine k (fst s) (snd s)) samples key.

(** ** Combos, the store and the module state *)

(** [nn_comb_t]; [combo_value_excepted] and [combo_value_now] are the 4-bit
    fields of [combo_value] ([KEY_MAX_COMBO_MEMBER <= 4]). *)
Record nn_comb_t : Type := mk_comb {
  combo_id : string;
  combo_value_excepted : Z;
  combo_value_now : Z;
  combo_mem_first : Z;
  combo_window : Z;
  combo_member_nbr : Z;
  combo_trigger : bool;
  combo_member : list (option ptr);
  combo_cb : nn_key_callback_item_t
}.

Definition with_value_excepted (v : Z) (c : nn_comb_t) : nn_comb_t :=
  mk_comb (combo_id c) v (combo_value_now c) (combo_mem_first c)
          (combo_window c) (combo_member_nbr c) (combo_trigger c)
          (combo_member c) (combo_cb c).

Definition with_value_now (v : Z) (c : nn_comb_t) : nn_comb_t :=
  mk_comb (combo_id c) (combo_value_excepted c) v (combo_mem_first c)
          (combo_window c) (combo_member_nbr c) (combo_trigger c)
          (combo_member c) (combo_cb c).

Definition with_mem_first (t : Z) (c : nn_comb_t) : nn_comb_t :=
  mk_comb (combo_id c) (combo_value_excepted c) (combo_value_now c) t
          (combo_window c) (combo_member_nbr c) (combo_trigger c)
          (combo_member c) (combo_cb c).

Definition with_window (w : Z) (c : nn_comb_t) : nn_comb_t :=
  mk_comb (combo_id c) (combo_value_excepted c) (combo_value_now c)
          (combo_mem_first c) w (combo_member_nbr c) (combo_trigger c)
          (combo_member c) (combo_cb c).

Definition with_trigger (b : bool) (c : nn_comb_t) : nn_comb_t :=
  mk_comb (combo_id c) (combo_value_excepted c) (combo_value_now c)
          (combo_mem_first c) (combo_window c) (combo_member_nbr c) b
          (combo_member c) (combo_cb c).

Definition with_member (m : list (option ptr)) (c : nn_comb_t) : nn_comb_t :=
  mk_comb (combo_id c) (combo_value_excepted c) (combo_value_now c)
          (combo_mem_first c) (combo_window c) (combo_member_nbr c)
          (combo_trigger c) m (combo_cb c).

Definition with_combo_cb (i : nn_key_callback_item_t) (c : nn_comb_t)
  : nn_comb_t :=
  mk_comb (combo_id c) (combo_value_excepted c) (combo_value_now c)
          (combo_mem_first c) (combo_window c) (combo_member_nbr c)
          (combo_trigger c) (combo_member c) i.

(** A callback invocation, as the user code sees it. *)
Inductive call : Type :=
| KeyCallback (f : nat) (key : ptr) (ev : nn_key_event_t) (ud : option nat)
| ComboCallback (f : nat) (comb : ptr) (ud : option nat).

(** The caller's objects, the registries ([_nn_key_num] and [_nn_combo_num]
    are the lengths of the lists), the static [LastTick] of
    [_NN_Key_Event], and the log of callback invocations, oldest first. *)
Record nn_state : Type := mk_state {
  keys : ptr -> nn_key_t;
  combs : ptr -> nn_comb_t;
  _nn_key_list : list ptr;
  _nn_combo_list : list ptr;
  LastTick : Z;
  trace : list call
}.

Definition upd {A : Type} (h : ptr -> A) (p : ptr) (a : A) : ptr -> A :=
  fun q => if Nat.eqb q p then a else h q.

Definition set_key (p : ptr) (k : nn_key_t) (s : nn_state) : nn_state :=
  mk_state (upd (keys s) p k) (combs s) (_nn_key_list s) (_nn_combo_list s)
           (LastTick s) (trace s).

Definition set_comb (c : ptr) (cb : nn_comb_t) (s : nn_state) : nn_state :=
  mk_state (keys s) (upd (combs s) c cb) (_nn_key_list s) (_nn_combo_list s)
           (LastTick s) (trace s).

Definition set_LastTick (t : Z) (s : nn_state) : nn_state :=
  mk_state (keys s) (combs s) (_nn_key_list s) (_nn_combo_list s) t (trace s).

Definition log (c : call) (s : nn_state) : nn_state :=
  mk_state (keys s) (combs s) (_nn_key_list s) (_nn_combo_list s)
           (LastTick s) (trace s ++ [c]).

(** [_nn_key_list[_nn_key_num++] = key] and
    [_nn_combo_list[_nn_combo_num++] = comb], for an index inside the
    array: [NN_Key_Add] tests the bound before the store, and
    [NN_Combo_Add] below is undefined where the index is not inside. *)
Definition push_key (p : ptr) (s : nn_state) : nn_state :=
  mk_state (keys s) (combs s) (_nn_key_list s ++ [p]) (_nn_combo_list s)
           (LastTick s) (trace s).

Definition push_combo (c : ptr) (s : nn_state) : nn_state :=
  mk_state (keys s) (combs s) (_nn_key_list s) (_nn_combo_list s ++ [c])
           (LastTick s) (trace s).

(** In-place write of an array slot; the C code guards every index. *)
Fixpoint upd_nth {A : Type} (n : nat) (x : A) (l : list A) : list A :=
  match l, n with
  | [], _ => []
  | _ :: t, O => x :: t
  | h :: t, S n' => h :: upd_nth n' x t
  end.

Definition is_null {A : Type} (o : option A) : bool :=
  match o with None => true | Some _ => false end.

(** The error monad: [None] is undefined behaviour (a NULL dereference,
    a store past the end of an array, a read of a missing variadic
    argument). *)
Definition bind {A B : Type} (m : option A) (f : A -> option B) : option B :=
  match m with Some a => f a | None => None end.

Notation "x <- m ;; k" := (bind m (fun x => k))
  (at level 61, m at next level, right associativity).

Fixpoint foldM {A S : Type} (f : S -> A -> option S) (l : list A) (s : S)
  : option S :=
  match l with
  | [] => Some s
  | a :: r => s' <- f s a ;; foldM f r s'
  end.

(** The indices [0 .. n-1] of a [for (uint8_t i = 0; i < n; i++)] loop; a
    negative bound (as [mem_nbr - 2], computed in [int]) gives no
    iteration. *)
Definition upto (n : Z) : list nat := seq 0 (Z.to_nat n).

(** The conversion of an integer argument to [uint8_t] and to
    [uint16_t]. *)
Definition uint8 (z : Z) : Z := z mod 2 ^ 8.

Definition uint16 (z : Z) : Z := z mod 2 ^ 16.

(** ** Registration *)

(** [NN_Key_Init]. *)
Definition NN_Key_Init (key : option ptr) (name : string)
           (pfunc : option nat) (s : nn_state) : bool * nn_state :=
  match key with
  | None => (false, s)
  | Some p =>
      (true,
       set_key p
         (mk_key name pfunc 0
                 KEY_DEBOUNCE_TIME KEY_LONG_PRESS_TIME KEY_LONG_PRESS_ALWS
                 KEY_MULTI_PRESS_TIME
                 KEY_STATE_INIT KEY_EVENT_INIT false false
                 4 0 0
                 (repeat null_item (Z.to_nat (event_code KEY_EVENT_MAX))))
         s)
  end.

(** [NN_Key_Add]. *)
Definition NN_Key_Add (key : option ptr) (id : string)
           (read_func : option nat) (s : nn_state) : bool * nn_state :=
  if is_null key || is_null read_func
     || (KEY_MAX_KEY_NUMBER <=? Z.of_nat (List.length (_nn_key_list s)))
  then (false, s)
  else
    let '(ok, s1) := NN_Key_Init key id read_func s in
    if negb ok then (false, s1)
    else
      match key with
      | Some p => (true, push_key p s1)
      | None => (false, s1)
      end.

(** [NN_Key_SetPara]; the arguments are [uint16_t] and [uint8_t]. *)
Definition NN_Key_SetPara (key : option ptr)
           (debounce_arg long_arg long_alws_arg multi_arg : Z) (max_arg : Z)
           (s : nn_state)
  : bool * nn_state :=
  let debounce := uint16 debounce_arg in
  let long := uint16 long_arg in
  let long_alws := uint16 long_alws_arg in
  let multi := uint16 multi_arg in
  let max := uint8 max_arg in
  match key with
  | None => (false, s)
  | Some p =>
      let k := keys s p in
      let k' :=
        mk_key (key_id k) (key_read k) (key_last_time k)
               (if debounce =? 0 then debounce_time k else debounce)
               (if long =? 0 then long_time k else long)
               (if long_alws =? 0 then long_alws_time k else long_alws)
               (if multi =? 0 then multi_time k else multi)
               (state k) (event k) (is_member k) (lock_flag k)
               (if max =? 0 then multi_max k
                else if 15 <? max then 15 else max)
               (multi_count k) (callback_mask k) (callbacks k) in
      (true, set_key p k' s)
  end.

(** [NN_Key_SetCb].  The mask update keeps both arms of the C [if]. *)
Definition NN_Key_SetCb (key : option ptr) (ev : nn_key_event_t)
           (cb : option nat) (ud : option nat) (s : nn_state)
  : bool * nn_state :=
  match key with
  | None => (false, s)
  | Some p =>
      if (event_code KEY_EVENT_MAX <=? event_code ev) || is_null cb
      then (false, s)
      else
        let k := keys s p in
        let cbs :=
          upd_nth (Z.to_nat (event_code ev)) (mk_item cb ud) (callbacks k) in
        let m :=
          if negb (is_null cb)
          then Z.lor (callback_mask k) (Z.shiftl 1 (event_code ev)) mod 256
          else Z.land (callback_mask k)
                      (Z.lnot (Z.shiftl 1 (event_code ev))) mod 256 in
        (true, set_key p (with_callbacks m cbs k) s)
  end.

(** [NN_Key_DeleteCb]. *)
Definition NN_Key_DeleteCb (key : option ptr) (ev : nn_key_event_t)
           (s : nn_state) : bool * nn_state :=
  match key with
  | None => (false, s)
  | Some p =>
      if event_code KEY_EVENT_MAX <=? event_code ev then (false, s)
      else
        let k := keys s p in
        let cbs :=
          upd_nth (Z.to_nat (event_code ev)) null_item (callbacks k) in
        let m := Z.land (callback_mask k)
                        (Z.lnot (Z.shiftl 1 (event_code ev))) mod 256 in
        (true, set_key p (with_callbacks m cbs k) s)
  end.

(** [key->key_flags.is_member = true]. *)
Definition mark_member (p : ptr) (s : nn_state) : nn_state :=
  set_key p (with_is_member true (keys s p)) s.

(** [NN_Combo_Add] up to [va_start]: the combo record is initialised, the
    expected mask is computed, the first two members are stored and
    marked. *)
Definition combo_add_init (c : ptr) (id : string) (mem_nbr : Z)
           (m1 m2 : ptr) (s : nn_state) : nn_state :=
  let c0 :=
    mk_comb id 0 0 0 KEY_COMBO_WINDOW mem_nbr false
            (repeat None (Z.to_nat KEY_MAX_COMBO_MEMBER))
            (combo_cb (combs s c)) in
  let c1 :=
    fold_left
      (fun cb i =>
         with_value_excepted
           (Z.lor (combo_value_excepted cb)
                  (Z.shiftl 1 (Z.of_nat i)) mod 16) cb)
      (upto mem_nbr) c0 in
  let s1 := set_comb c c1 s in
  let s2 :=
    set_comb c
      (with_member
         (upd_nth 1 (Some m2)
            (upd_nth 0 (Some m1) (combo_member (combs s1 c))))
         (combs s1 c)) s1 in
  mark_member m2 (mark_member m1 s2).

(** One iteration of the loop of [NN_Combo_Add] over the variadic
    members: [temp] is what [va_arg] returned for member [2 + i]. *)
Definition combo_add_member (c : ptr) (i : nat) (temp : option ptr)
           (st : nn_state) : nn_state :=
  match temp with
  | Some t =>
      let st' := mark_member t st in
      set_comb c
        (with_member
           (upd_nth (2 + i) (Some t) (combo_member (combs st' c)))
           (combs st' c)) st'
  | None => st
  end.

(** [NN_Combo_Add]; [mem_nbr_arg] is converted to [uint8_t], [rest] are
    the variadic arguments that the caller passed.  [va_arg] on an
    argument that was not passed is undefined, and so is the store
    [_nn_combo_list[_nn_combo_num++]] when [_nn_combo_num] is
    [KEY_MAX_COMBO_NUMBER], which the test with [>] lets through: the
    array has [KEY_MAX_COMBO_NUMBER] entries. *)
Definition NN_Combo_Add (comb : option ptr) (id : string) (mem_nbr_arg : Z)
           (member1 member2 : option ptr) (rest : list (option ptr))
           (s : nn_state) : option (bool * nn_state) :=
  let mem_nbr := uint8 mem_nbr_arg in
  if (KEY_MAX_COMBO_MEMBER <? mem_nbr)
     || (KEY_MAX_COMBO_NUMBER <? Z.of_nat (List.length (_nn_combo_list s)))
  then Some (false, s)
  else
    match comb, member1, member2 with
    | Some c, Some m1, Some m2 =>
        let s3 := combo_add_init c id mem_nbr m1 m2 s in
        s4 <- foldM
                (fun st i =>
                   temp <- nth_error rest i ;;
                   Some (combo_add_member c i temp st))
                (upto (mem_nbr - 2)) s3 ;;
        if Z.of_nat (List.length (_nn_combo_list s4)) <? KEY_MAX_COMBO_NUMBER
        then Some (true, push_combo c s4)
        else None
    | _, _, _ => Some (false, s)
    end.

(** The state after a call of [NN_Combo_Add] that registers the combo
    [c] with the members [m1], [m2] and [rest]. *)
Definition combo_add_result (c : ptr) (id : string) (mem_nbr : Z)
           (m1 m2 : ptr) (rest : list (option ptr)) (s : nn_state)
  : nn_state :=
  push_combo c
    (fold_left (fun st i => combo_add_member c i (nth i rest None) st)
               (upto (mem_nbr - 2)) (combo_add_init c id mem_nbr m1 m2 s)).

(** [NN_Combo_SetCb]. *)
Definition NN_Combo_SetCb (combo : option ptr) (cb : option nat)
           (para : option nat) (s : nn_state) : bool * nn_state :=
  match combo, cb with
  | Some c, Some f =>
      (true, set_comb c (with_combo_cb (mk_item (Some f) para) (combs s c)) s)
  | _, _ => (false, s)
  end.

(** [NN_Combo_SetWindowTime]; [time_ms_arg] is converted to [uint16_t],
    so the test [time_ms > UINT16_MAX] never holds. *)
Definition NN_Combo_SetWindowTime (combo : option ptr) (time_ms_arg : Z)
           (s : nn_state) : bool * nn_state :=
  let time_ms := uint16 time_ms_arg in
  match combo with
  | None => (false, s)
  | Some c =>
      if 65535 <? time_ms then (false, s)
      else (true, set_comb c (with_window time_ms (combs s c)) s)
  end.

(** ** Combo recognition *)

(** [comb->combo_member[k]]. *)
Definition member_at (cb : nn_comb_t) (k : nat) : option ptr :=
  nth k (combo_member cb) None.

(** What the member loop of [_NN_Combo_Process] does to the combo and to
    the local [combo_active] when member [k] has [KEY_EVENT_PRESSED]
    pending: open the window or accumulate the member's bit, then check
    for a full match. *)
Definition combo_accumulate (tick : Z) (k : nat) (comb : nn_comb_t)
           (combo_active : bool) : nn_comb_t * bool :=
  let '(comb1, active1) :=
    if combo_mem_first comb =? 0 then
      (with_value_now (Z.shiftl 1 (Z.of_nat k) mod 16)
         (with_mem_first tick comb),
       true)
    else if sub32 tick (combo_mem_first comb) <=? combo_window comb then
      (with_value_now
         (Z.lor (combo_value_now comb) (Z.shiftl 1 (Z.of_nat k)) mod 16)
         comb,
       combo_active)
    else (comb, combo_active) in
  let comb2 :=
    if combo_value_now comb1 =? combo_value_excepted comb1 then
      with_mem_first 0 (with_value_now 0 (with_trigger true comb1))
    else comb1 in
  (comb2, active1).

(** One iteration of the member loop of [_NN_Combo_Process] for the combo
    at address [c]; the loop carries the local [combo_active]. *)
Definition combo_check_member (tick : Z) (c : ptr) (st : nn_state * bool)
           (k : nat) : option (nn_state * bool) :=
  let '(s, combo_active) := st in
  mem <- member_at (combs s c) k ;;
  let mem_key := keys s mem in
  if negb (event_eqb (event mem_key) KEY_EVENT_PRESSED) then
    Some (s, combo_active)
  else
    let '(comb', active') :=
      combo_accumulate tick k (combs s c) combo_active in
    Some (set_comb c comb' s, active').

(** [for (j = 0; j < comb->combo_member_nbr; j++) body(comb->combo_member[j])]
    for a body that updates the member key. *)
Definition for_members (c : ptr) (body : nn_key_t -> nn_key_t)
           (s : nn_state) : option nn_state :=
  foldM (fun st j =>
           mem <- member_at (combs st c) j ;;
           Some (set_key mem (body (keys st mem)) st))
        (upto (combo_member_nbr (combs s c))) s.

(** The body of the outer loop of [_NN_Combo_Process] for one combo. *)
Definition combo_process_one (tick : Z) (s : nn_state) (c : ptr)
  : option nn_state :=
  let combo_active := negb (combo_mem_first (combs s c) =? 0) in
  st1 <- foldM (combo_check_member tick c)
               (upto (combo_member_nbr (combs s c))) (s, combo_active) ;;
  let '(s1, active1) := st1 in
  s2 <- (if active1 then for_members c (with_lock_flag true) s1
         else Some s1) ;;
  s3 <- (if combo_trigger (combs s2 c) then
           let s2a := set_comb c (with_trigger false (combs s2 c)) s2 in
           s2b <- for_members c
                    (fun k => with_lock_flag false
                                (with_event KEY_EVENT_INIT k)) s2a ;;
           match func (combo_cb (combs s2b c)) with
           | Some f =>
               Some (log (ComboCallback f c
                            (user_data (combo_cb (combs s2b c)))) s2b)
           | None => Some s2b
           end
         else Some s2) ;;
  let comb3 := combs s3 c in
  if negb (combo_mem_first comb3 =? 0)
     && (combo_window comb3 <? sub32 tick (combo_mem_first comb3)) then
    for_members c (with_lock_flag false)
      (set_comb c (with_value_now 0 (with_mem_first 0 comb3)) s3)
  else Some s3.

(** [_NN_Combo_Process]. *)
Definition _NN_Combo_Process (tick : Z) (s : nn_state) : option nn_state :=
  foldM (combo_process_one tick) (_nn_combo_list s) s.

(** ** Event dispatch *)

(** [key->callbacks[event]]; the event field never holds [KEY_EVENT_MAX],
    whose slot would lie past the array. *)
Definition callback_at (k : nn_key_t) (ev : nn_key_event_t)
  : nn_key_callback_item_t :=
  nth (Z.to_nat (event_code ev)) (callbacks k) null_item.

(** [key->callback_mask & (0x01 << event)]. *)
Definition mask_has (k : nn_key_t) (ev : nn_key_event_t) : bool :=
  negb (Z.land (callback_mask k) (Z.shiftl 1 (event_code ev)) =? 0).

(** [_NN_Key_Event]. *)
Definition _NN_Key_Event (key : option ptr) (tick : Z) (s : nn_state)
  : bool * nn_state :=
  match key with
  | None => (false, s)
  | Some p =>
      let k := keys s p in
      if event_eqb (event k) KEY_EVENT_INIT then (true, s)
      else
        let ev := event k in
        match (if mask_has k ev then func (callback_at k ev) else None) with
        | Some f =>
            if event_eqb ev KEY_EVENT_LONG_PRESSED_ALWS then
              if KEY_LONG_PRESS_ALWS_CB <=? sub32 tick (LastTick s) then
                (true,
                 log (KeyCallback f p ev (user_data (callback_at k ev)))
                     (set_LastTick tick s))
              else (true, s)
            else
              let s1 :=
                log (KeyCallback f p ev (user_data (callback_at k ev))) s in
              let s2 :=
                if negb (event_eqb ev KEY_EVENT_LONG_PRESSED_ALWS) then
                  set_key p (with_event KEY_EVENT_INIT (keys s1 p)) s1
                else s1 in
              (true, s2)
        | None =>
            if negb (event_eqb (event k) KEY_EVENT_LONG_PRESSED_ALWS) then
              (true, set_key p (with_event KEY_EVENT_INIT k) s)
            else (true, s)
        end
  end.

(** ** The periodic handler *)

(** First loop of [NN_Key_Handler]. *)
Definition reset_lock (s : nn_state) (p : ptr) : nn_state :=
  let key := keys s p in
  if is_member key then set_key p (with_lock_flag false key) s else s.

(** Second loop: [io f] is what the read function [f] returns during this
    call. *)
Definition run_state_machine (tick : Z) (io : nat -> bool) (s : nn_state)
           (p : ptr) : option nn_state :=
  let key := keys s p in
  f <- key_read key ;;
  Some (set_key p (_NN_Key_StateMachine key tick (io f)) s).

(** Third loop, carrying [result]. *)
Definition dispatch (tick : Z) (st : bool * nn_state) (p : ptr)
  : bool * nn_state :=
  let '(result, s) := st in
  if lock_flag (keys s p) then (result, s)
  else
    let '(r, s') := _NN_Key_Event (Some p) tick s in
    (result && r, s').

(** [NN_Key_Handler]. *)
Definition NN_Key_Handler (tick : Z) (io : nat -> bool) (s : nn_state)
  : option (bool * nn_state) :=
  let s1 := fold_left reset_lock (_nn_key_list s) s in
  s2 <- foldM (run_state_machine tick io) (_nn_key_list s1) s1 ;;
  s3 <- _NN_Combo_Process tick s2 ;;
  Some (fold_left (dispatch tick) (_nn_key_list s3) (true, s3)).

(** A sequence of handler calls, each with its tick and raw inputs. *)
Fixpoint run_handler (calls : list (Z * (nat -> bool))) (s : nn_state)
  : option nn_state :=
  match calls with
  | [] => Some s
  | (tick, io) :: rest =>
      r <- NN_Key_Handler tick io s ;;
      run_handler rest (snd r)
  end.

(** ** Observations and scenarios used by the statements *)

(** A raw input pulse shorter than [d]: the samples read as pressed are
    exactly those in one interval of length below [d]. *)
Definition pulse_shorter_than (d : Z) (samples : list (Z * bool)) : Prop :=
  exists a b : Z,
    0 <= b - a < d /\
    forall t v, In (t, v) samples -> (v = true <-> a <= t < b).

(** A key as [NN_Key_Init] leaves it, after its first released sample at
    tick 0: in [KEY_STATE_RELEASED] with the default thresholds. *)
Definition idle_key : nn_key_t :=
  mk_key "K"%string (Some 0%nat) 0
         KEY_DEBOUNCE_TIME KEY_LONG_PRESS_TIME KEY_LONG_PRESS_ALWS
         KEY_MULTI_PRESS_TIME
         KEY_STATE_RELEASED KEY_EVENT_INIT false false 4 0 0
         (repeat null_item 7).

(** [n] short clicks starting at tick [t0]: pressed for 30 ms every 60 ms. *)
Fixpoint clicks (n : nat) (t0 : Z) : list (Z * bool) :=
  match n with
  | O => []
  | S n' => (t0, true) :: (t0 + 30, false) :: clicks n' (t0 + 60)
  end.

(** [n] clicks from tick 1000 on, then one released sample 400 ms after
    the last release, which closes the multi-click window. *)
Definition clicks_then_wait (n : nat) : list (Z * bool) :=
  clicks n 1000 ++ [(1000 + 60 * Z.of_nat n + 370, false)].

(** The store before any registration.  Its contents are whatever the
    caller's memory holds; the examples start from zeroed objects. *)
Definition blank_key : nn_key_t :=
  mk_key ""%string None 0 0 0 0 0 KEY_STATE_INIT KEY_EVENT_INIT
         false false 0 0 0 [].

Definition blank_comb : nn_comb_t :=
  mk_comb ""%string 0 0 0 0 0 false [] null_item.

Definition empty_state : nn_state :=
  mk_state (fun _ => blank_key) (fun _ => blank_comb) [] [] 0 [].

(** Sequencing of registration calls, ignoring their result. *)
Definition then_do (s : nn_state) (op : nn_state -> bool * nn_state)
  : nn_state := snd (op s).

(** A call of [NN_Combo_Add] as a step of a scenario; the scenarios only
    make calls whose behaviour is defined. *)
Definition defined (op : nn_state -> option (bool * nn_state))
           (s : nn_state) : bool * nn_state :=
  match op s with
  | Some r => r
  | None => (false, s)
  end.

(** Two keys A (address 0, read function 0) and B (address 1, read
    function 1), each with a callback for [KEY_EVENT_PRESSED] and for
    [KEY_EVENT_LONG_PRESSED_ALWS]. *)
Definition two_keys : nn_state :=
  fold_left then_do
    [ NN_Key_Add (Some 0%nat) "A"%string (Some 0%nat);
      NN_Key_Add (Some 1%nat) "B"%string (Some 1%nat);
      NN_Key_SetCb (Some 0%nat) KEY_EVENT_PRESSED (Some 10%nat) None;
      NN_Key_SetCb (Some 1%nat) KEY_EVENT_PRESSED (Some 11%nat) None;
      NN_Key_SetCb (Some 0%nat) KEY_EVENT_LONG_PRESSED_ALWS (Some 12%nat) None;
      NN_Key_SetCb (Some 1%nat) KEY_EVENT_LONG_PRESSED_ALWS (Some 13%nat) None ]
    empty_state.

(** The same with the combo AB (address 0) over A and B, window 300 ms,
    and its callback. *)
Definition two_keys_combo : nn_state :=
  fold_left then_do
    [ defined (NN_Combo_Add (Some 0%nat) "AB"%string 2
                            (Some 0%nat) (Some 1%nat) []);
      NN_Combo_SetCb (Some 0%nat) (Some 99%nat) None;
      NN_Combo_SetWindowTime (Some 0%nat) 300 ]
    two_keys.

(** The key at [p] with a given pending event. *)
Definition pend (p : ptr) (ev : nn_key_event_t) (s : nn_state) : nn_state :=
  set_key p (with_event ev (keys s p)) s.

(** Twenty combos over A and B, at the addresses 0 .. 19: the combo
    registry is full. *)
Definition twenty_combos : nn_state :=
  fold_left
    (fun s c => snd (defined (NN_Combo_Add (Some c) "AB"%string 2
                                (Some 0%nat) (Some 1%nat) []) s))
    (seq 0 20) two_keys.

(** An invocation of a continuous long-press callback. *)
Definition is_continuous_call (c : call) : bool :=
  match c with
  | KeyCallback _ _ ev _ => event_eqb ev KEY_EVENT_LONG_PRESSED_ALWS
  | ComboCallback _ _ _ => false
  end.

(** An invocation of the continuous long-press callback of the key [p]. *)
Definition continuous_call_of (p : ptr) (c : call) : bool :=
  match c with
  | KeyCallback _ q ev _ =>
      Nat.eqb q p && event_eqb ev KEY_EVENT_LONG_PRESSED_ALWS
  | ComboCallback _ _ _ => false
  end.

(** The callbacks invoked between the states [s] and [s']. *)
Definition new_calls (s s' : nn_state) : list call :=
  skipn (List.length (trace s)) (trace s').

(** The ticks of the handler calls of a run, one occurrence for each
    continuous long-press callback invoked during that call. *)
Fixpoint continuous_ticks (calls : list (Z * (nat -> bool))) (s : nn_state)
  : list Z :=
  match calls with
  | [] => []
  | (tick, io) :: rest =>
      match NN_Key_Handler tick io s with
      | None => []
      | Some (_, s') =>
          map (fun _ => tick) (filter is_continuous_call (new_calls s s'))
          ++ continuous_ticks rest s'
      end
  end.

(** Consecutive time stamps at least [KEY_LONG_PRESS_ALWS_CB] apart
    (unsigned 32-bit difference), starting after [prev]. *)
Fixpoint spaced (prev : Z) (ts : list Z) : Prop :=
  match ts with
  | [] => True
  | t :: rest => KEY_LONG_PRESS_ALWS_CB <= sub32 t prev /\ spaced t rest
  end.

(** What the second loop of the handler does to one key. *)
Definition sm_step (tick : Z) (io : nat -> bool) (k : nn_key_t) : nn_key_t :=
  match key_read k with
  | Some f => _NN_Key_StateMachine k tick (io f)
  | None => k
  end.

(** [k'] is [k] up to the pending event and the lock flag, the two fields
    that combo recognition and dispatch write. *)
Definition same_core (k k' : nn_key_t) : Prop :=
  k' = with_lock_flag (lock_flag k') (with_event (event k') k).

(** A key callback of one of the keys in [l]. *)
Definition key_call_in (l : list ptr) (c : call) : Prop :=
  exists f q ev ud, c = KeyCallback f q ev ud /\ In q l.

(** [c'] is [c] up to the fields that combo recognition writes: the
    accumulated bitmask, the window start and the trigger flag. *)
Definition same_combo_static (c c' : nn_comb_t) : Prop :=
  c' = with_trigger (combo_trigger c')
         (with_mem_first (combo_mem_first c')
            (with_value_now (combo_value_now c') c)).

(** [k'] is [k] with possibly another lock flag and possibly its event
    cleared. *)
Definition cleared (k k' : nn_key_t) : Prop :=
  same_core k k' /\ (event k' = event k \/ event k' = KEY_EVENT_INIT).

(** The effect of the member loop of the combo at [c] on the state. *)
Definition combo_frame (c : ptr) (s s' : nn_state) : Prop :=
  keys s' = keys s /\ _nn_key_list s' = _nn_key_list s /\
  _nn_combo_list s' = _nn_combo_list s /\ LastTick s' = LastTick s /\
  trace s' = trace s /\
  (forall c', c' <> c -> combs s' c' = combs s c') /\
  same_combo_static (combs s c) (combs s' c).

(** The effect of loops that only write keys. *)
Definition keys_frame (R : nn_key_t -> nn_key_t -> Prop) (s s' : nn_state)
  : Prop :=
  combs s' = combs s /\ _nn_key_list s' = _nn_key_list s /\
  _nn_combo_list s' = _nn_combo_list s /\ LastTick s' = LastTick s /\
  trace s' = trace s /\
  forall q, R (keys s q) (keys s' q).

Definition is_combo_call (c : call) : Prop :=
  exists f cb ud, c = ComboCallback f cb ud.

(** The effect of combo recognition. *)
Definition combo_effect (s s' : nn_state) : Prop :=
  _nn_key_list s' = _nn_key_list s /\
  _nn_combo_list s' = _nn_combo_list s /\ LastTick s' = LastTick s /\
  (forall c, same_combo_static (combs s c) (combs s' c)) /\
  (forall q, cleared (keys s q) (keys s' q)) /\
  exists d, trace s' = trace s ++ d /\ Forall is_combo_call d.

(** The key at [p] is held in [KEY_STATE_LONG_PRESSED_ALWS], is read
    through [r] and has a callback for the continuous event. *)
Definition holds_continuous (s : nn_state) (p : ptr) (r : nat) : Prop :=
  state (keys s p) = KEY_STATE_LONG_PRESSED_ALWS /\
  key_read (keys s p) = Some r /\
  mask_has (keys s p) KEY_EVENT_LONG_PRESSED_ALWS = true /\
  func (callback_at (keys s p) KEY_EVENT_LONG_PRESSED_ALWS) <> None.

(** The key [a] is registered before any occurrence of [b]; both are held
    in [KEY_STATE_LONG_PRESSED_ALWS] with a continuous callback, [a] is
    not locked, [b] has the continuous event pending; no combo is
    registered. *)
Definition starving (l1 : list ptr) (a : ptr) (rest : list ptr) (ra : nat)
           (b : ptr) (rb : nat) (s : nn_state) : Prop :=
  _nn_combo_list s = [] /\
  _nn_key_list s = l1 ++ a :: rest /\
  (forall p, In p (_nn_key_list s) -> key_read (keys s p) <> None) /\
  holds_continuous s a ra /\ lock_flag (keys s a) = false /\
  holds_continuous s b rb /\
  event (keys s b) = KEY_EVENT_LONG_PRESSED_ALWS.

(** The keys A and B of [two_keys], both held long enough to be in
    [KEY_STATE_LONG_PRESSED_ALWS] with the continuous event pending. *)
Definition both_held : nn_state :=
  fold_left
    (fun s p =>
       set_key p
         (with_event KEY_EVENT_LONG_PRESSED_ALWS
            (with_state KEY_STATE_LONG_PRESSED_ALWS (keys s p))) s)
    [0%nat; 1%nat] two_keys.

(** [n] handler calls, 10 ms apart from [t0] on, all reading [io]. *)
Definition every_10ms (t0 : Z) (n : nat) (io : nat -> bool)
  : list (Z * (nat -> bool)) :=
  map (fun i => (t0 + 10 * Z.of_nat i, io)) (seq 0 n).

(** The invariant of a registered combo: the member count and the
    expected bitmask are as [NN_Combo_Add] computes them, the accumulated
    bitmask is a subset of the expected one, and the window start is
    non-zero exactly when something is accumulated. *)
Definition combo_ok (cb : nn_comb_t) : Prop :=
  0 <= combo_member_nbr cb <= KEY_MAX_COMBO_MEMBER /\
  combo_value_excepted cb = 2 ^ combo_member_nbr cb - 1 /\
  Z.land (combo_value_now cb) (combo_value_excepted cb) = combo_value_now cb /\
  (combo_mem_first cb <> 0 <-> combo_value_now cb <> 0).

(** The calls a client can make, as far as their behaviour is defined: a
    call of [NN_Combo_Add] or of the handler that is undefined in C has no
    successor.  The handler is called with a non-zero tick. *)
Inductive api_step : nn_state -> nn_state -> Prop :=
| step_Key_Init key name pfunc s :
    api_step s (snd (NN_Key_Init key name pfunc s))
| step_Key_Add key id read_func s :
    api_step s (snd (NN_Key_Add key id read_func s))
| step_Key_SetPara key d l la m mx s :
    api_step s (snd (NN_Key_SetPara key d l la m mx s))
| step_Key_SetCb key ev cb ud s :
    api_step s (snd (NN_Key_SetCb key ev cb ud s))
| step_Key_DeleteCb key ev s :
    api_step s (snd (NN_Key_DeleteCb key ev s))
| step_Combo_Add comb id mem_nbr m1 m2 rest s r s' :
    NN_Combo_Add comb id mem_nbr m1 m2 rest s = Some (r, s') ->
    api_step s s'
| step_Combo_SetCb combo cb para s :
    api_step s (snd (NN_Combo_SetCb combo cb para s))
| step_Combo_SetWindowTime combo time_ms s :
    api_step s (snd (NN_Combo_SetWindowTime combo time_ms s))
| step_Handler tick io s r s' :
    0 < tick < 2 ^ 32 ->
    NN_Key_Handler tick io s = Some (r, s') ->
    api_step s s'.

(** The states a client can reach from empty registries by such
    calls. *)
Inductive reachable : nn_state -> Prop :=
| reach_start s :
    _nn_key_list s = [] -> _nn_combo_list s = [] -> reachable s
| reach_step s s' :
    reachable s -> api_step s s' -> reachable s'.

(** Key A of [two_keys_combo] is clicked shortly before the tick counter
    wraps around; its multi-click window closes at tick 0. *)
Definition click_before_wrap : list (Z * (nat -> bool)) :=
  [ (4294966900, fun f => Nat.eqb f 0);
    (4294966950, fun _ => false);
    (0, fun _ => false) ].

(** Key A of [two_keys_combo] is clicked at tick 1000; its multi-click
    window closes at tick 1400. *)
Definition click_A : list (Z * (nat -> bool)) :=
  [ (1000, fun f => Nat.eqb f 0);
    (1050, fun _ => false);
    (1400, fun _ => false) ].

(** What the statements about the combo AB observe of a state. *)
Definition observe_AB (s : nn_state)
  : list ptr * (nn_key_event_t * bool) * (nn_key_event_t * bool)
    * (Z * Z) * list call :=
  (_nn_combo_list s,
   (event (keys s 0%nat), lock_flag (keys s 0%nat)),
   (event (keys s 1%nat), lock_flag (keys s 1%nat)),
   (combo_mem_first (combs s 0%nat), combo_value_now (combs s 0%nat)),
   trace s).

(** Member [k] of the combo at [c] has [KEY_EVENT_PRESSED] pending. *)
Definition pressed_member (s : nn_state) (c : ptr) (k : nat) : bool :=
  match member_at (combs s c) k with
  | Some m => event_eqb (event (keys s m)) KEY_EVENT_PRESSED
  | None => false
  end.

(** The member loop of [_NN_Combo_Process] seen from the combo record. *)
Definition accumulate_members (tick : Z) (pressed : nat -> bool)
           (l : list nat) (st : nn_comb_t * bool) : nn_comb_t * bool :=
  fold_left
    (fun st k =>
       if pressed k then combo_accumulate tick k (fst st) (snd st) else st)
    l st.

(** The key at [q] is one of the first [combo_member_nbr] members. *)
Definition is_member_of (cb : nn_comb_t) (q : ptr) : bool :=
  existsb (fun j => match member_at cb j with
                    | Some m => Nat.eqb m q
                    | None => false
                    end)
          (upto (combo_member_nbr cb)).

(** What [_NN_Combo_Process] does to a member key of a combo that is
    active, that triggered, whose window expired. *)
Definition combo_key_effect (active trig expired : bool) (k : nn_key_t)
  : nn_key_t :=
  let k1 := if active then with_lock_flag true k else k in
  let k2 := if trig
            then with_lock_flag false (with_event KEY_EVENT_INIT k1)
            else k1 in
  if expired then with_lock_flag false k2 else k2.

(** The combo callback, if one is registered. *)
Definition combo_calls (c : ptr) (cb : nn_comb_t) : list call :=
  match func (combo_cb cb) with
  | Some f => [ComboCallback f c (user_data (combo_cb cb))]
  | None => []
  end.

(** The callback invoked for the pending event of the key [k] at address
    [p], when it is not the continuous one. *)
Definition key_calls (p : ptr) (k : nn_key_t) : list call :=
  if event_eqb (event k) KEY_EVENT_INIT then []
  else
    match (if mask_has k (event k) then func (callback_at k (event k))
           else None) with
    | Some f =>
        [KeyCallback f p (event k) (user_data (callback_at k (event k)))]
    | None => []
    end.

(** A system of two keys A (address 0, read through [ra]) and B (address
    1, read through [rb]) and one combo (address 0) over A and B, with
    window [w] and callback [f]. *)
Definition ab_system (ra rb : nat) (w : Z) (f : nat) (s : nn_state) : Prop :=
  _nn_key_list s = [0%nat; 1%nat] /\
  _nn_combo_list s = [0%nat] /\
  combo_member (combs s 0%nat) = [Some 0%nat; Some 1%nat; None; None] /\
  combo_member_nbr (combs s 0%nat) = 2 /\
  combo_value_excepted (combs s 0%nat) = 3 /\
  combo_trigger (combs s 0%nat) = false /\
  combo_window (combs s 0%nat) = w /\
  func (combo_cb (combs s 0%nat)) = Some f /\
  key_read (keys s 0%nat) = Some ra /\
  key_read (keys s 1%nat) = Some rb /\
  is_member (keys s 0%nat) = true /\
  is_member (keys s 1%nat) = true.

(** The member loop of the combo over A and B. *)
Definition ab_accumulate (tick : Z) (pa pb : bool) (st : nn_comb_t * bool)
  : nn_comb_t * bool :=
  let st1 := if pa then combo_accumulate tick 0 (fst st) (snd st) else st in
  if pb then combo_accumulate tick 1 (fst st1) (snd st1) else st1.

(** What dispatch does to a key whose pending event is not the continuous
    one. *)
Definition dispatched (k : nn_key_t) : nn_key_t :=
  if lock_flag k then k else with_event KEY_EVENT_INIT k.

Definition dispatched_calls (p : ptr) (k : nn_key_t) : list call :=
  if lock_flag k then [] else key_calls p k.

(** One call of the handler on the two keys A, B and their combo C, as a
    function of the three records and of the two raw inputs: the lock
    flags are reset, both state machines step, the combo is recognized,
    both keys are dispatched.  [handler_AB_step] shows that this is what
    [NN_Key_Handler] computes on such a system. *)
Definition ab_step (tick : Z) (va vb : bool)
           (A B : nn_key_t) (C : nn_comb_t)
  : nn_key_t * nn_key_t * nn_comb_t * list call :=
  let A1 := _NN_Key_StateMachine (with_lock_flag false A) tick va in
  let B1 := _NN_Key_StateMachine (with_lock_flag false B) tick vb in
  let R := ab_accumulate tick
             (event_eqb (event A1) KEY_EVENT_PRESSED)
             (event_eqb (event B1) KEY_EVENT_PRESSED)
             (C, negb (combo_mem_first C =? 0)) in
  let cb1 := fst R in
  let a1 := snd R in
  let trig := combo_trigger cb1 in
  let cb3 := if trig then with_trigger false cb1 else cb1 in
  let expired :=
    negb (combo_mem_first cb3 =? 0)
    && (combo_window cb3 <? sub32 tick (combo_mem_first cb3)) in
  let A3 := combo_key_effect a1 trig expired A1 in
  let B3 := combo_key_effect a1 trig expired B1 in
  (dispatched A3, dispatched B3,
   if expired then with_value_now 0 (with_mem_first 0 cb3) else cb3,
   (if trig then combo_calls 0%nat C else [])
   ++ dispatched_calls 0%nat A3 ++ dispatched_calls 1%nat B3).

(** The key [k] is in one of the two states in which it reads released
    without a continuous event pending. *)
Definition at_rest (k : nn_key_t) : Prop :=
  (state k = KEY_STATE_MULTI_PRESSED \/ state k = KEY_STATE_RELEASED) /\
  event k <> KEY_EVENT_LONG_PRESSED_ALWS.

(** The state [s] holds the records [A], [B], [C] of the two keys and of
    their combo, and the trace [tr]. *)
Definition ab_at (A B : nn_key_t) (C : nn_comb_t) (tr : list call)
           (s : nn_state) : Prop :=
  keys s 0%nat = A /\ keys s 1%nat = B /\ combs s 0%nat = C /\ trace s = tr.

(** The key [k] has been clicked once and released: it waits in
    [KEY_STATE_MULTI_PRESSED] for its multi-click window to close. *)
Definition clicked (k : nn_key_t) : Prop :=
  state k = KEY_STATE_MULTI_PRESSED /\ multi_count k = 1 /\
  event k = KEY_EVENT_INIT.

(** The key [k] has a callback [f] with user data [ud] registered for
    [KEY_EVENT_PRESSED]. *)
Definition press_callback (k : nn_key_t) (f : nat) (ud : option nat) : Prop :=
  mask_has k KEY_EVENT_PRESSED = true /\
  callback_at k KEY_EVENT_PRESSED = mk_item (Some f) ud.

(** The combo record [c] is that of a combo over A and B with window [w]
    and callback [f], with no window open. *)
Definition combo_closed (w : Z) (f : nat) (c : nn_comb_t) : Prop :=
  combo_member c = [Some 0%nat; Some 1%nat; None; None] /\
  combo_member_nbr c = 2 /\ combo_value_excepted c = 3 /\
  combo_trigger c = false /\ combo_window c = w /\
  func (combo_cb c) = Some f /\
  combo_mem_first c = 0 /\ combo_value_now c = 0.

(** The key [k] after its multi-click window closed at tick [t] on a
    single click: released, with [KEY_EVENT_PRESSED] pending. *)
Definition press_pending (t : Z) (k : nn_key_t) : nn_key_t :=
  with_multi_count 0
    (with_last_time t
       (with_state KEY_STATE_RELEASED (with_event KEY_EVENT_PRESSED k))).

(** The same key after its press has been dispatched or consumed. *)
Definition press_done (t : Z) (k : nn_key_t) : nn_key_t :=
  with_event KEY_EVENT_INIT (press_pending t k).

(** The combo record with a window opened at tick [t] by member [k]. *)
Definition window_open (t : Z) (k : nat) (c : nn_comb_t) : nn_comb_t :=
  with_value_now (2 ^ Z.of_nat k) (with_mem_first t c).

(** Raw inputs of a scenario: the read function 0 (key A) reads pressed
    during [[a0, a1)], every other read function (key B) during
    [[b0, b1)]. *)
Definition ab_inputs (a0 a1 b0 b1 : Z) (t : Z) : nat -> bool :=
  fun r => match r with
           | O => (a0 <=? t) && (t <? a1)
           | S _ => (b0 <=? t) && (t <? b1)
           end.

(** [n] handler calls, 10 ms apart from [t0] on, with those inputs. *)
Definition ab_ticks (t0 : Z) (n : nat) (a0 a1 b0 b1 : Z)
  : list (Z * (nat -> bool)) :=
  map (fun i => (t0 + 10 * Z.of_nat i,
                 ab_inputs a0 a1 b0 b1 (t0 + 10 * Z.of_nat i)))
      (seq 0 n).

Definition state_after (calls : list (Z * (nat -> bool))) (s : nn_state)
  : nn_state :=
  match run_handler calls s with
  | Some s' => s'
  | None => s
  end.

(** The system [two_keys_combo] polled every 10 ms from tick 600 to tick
    1040; A is pressed from 700 to 750, B from 950 to 1000.  Both keys
    have been clicked once: the multi-click window of A closes at tick
    1050, that of B at tick 1300, 250 ms later. *)
Definition clicked_250_apart : nn_state :=
  state_after (ab_ticks 600 45 700 750 950 1000) two_keys_combo.


(** Both keys read released. *)
Definition released : nat -> bool := fun _ => false.

(** [n] handler calls, 10 ms apart from [t0] on, both keys released. *)
Definition idle_ticks (t0 : Z) (n : nat) : list (Z * (nat -> bool)) :=
  every_10ms t0 n released.






(** The read function [r] reads pressed, every other one released. *)
Definition only (r : nat) : nat -> bool := fun f => Nat.eqb f r.

(** [two_keys_combo] with a third key C (address 2, read function 2) and
    a second combo ABC (address 1) over A, B and C, window 600 ms. *)
Definition three_keys_two_combos : nn_state :=
  fold_left then_do
    [ NN_Key_Add (Some 2%nat) "C"%string (Some 2%nat);
      defined (NN_Combo_Add (Some 1%nat) "ABC"%string 3
                            (Some 0%nat) (Some 1%nat) [Some 2%nat]);
      NN_Combo_SetCb (Some 1%nat) (Some 98%nat) None;
      NN_Combo_SetWindowTime (Some 1%nat) 600 ]
    two_keys_combo.

(** That system polled every 10 ms from tick 600 to tick 1350; A is
    pressed from 700 to 750 and B from 1010 to 1060.  The press of A has
    been observed at tick 1050 and opened the windows of both combos; the
    multi-click window of B closes at tick 1360, 310 ms later. *)
Definition press_B_due : nn_state :=
  state_after
    (every_10ms 600 10 released ++ every_10ms 700 5 (only 0%nat)
     ++ every_10ms 750 26 released ++ every_10ms 1010 5 (only 1%nat)
     ++ every_10ms 1060 30 released)
    three_keys_two_combos.

(** What the statements about repeated calls observe of that system: the
    pending events of A and B, the window start and the accumulated
    bitmask of both combos, and the trace. *)
Definition observe_ABC (s : nn_state)
  : (nn_key_event_t * nn_key_event_t) * (Z * Z) * (Z * Z) * list call :=
  ((event (keys s 0%nat), event (keys s 1%nat)),
   (combo_mem_first (combs s 0%nat), combo_value_now (combs s 0%nat)),
   (combo_mem_first (combs s 1%nat), combo_value_now (combs s 1%nat)),
   trace s).

(** Every registered key has a read function and every registered combo
    has its [combo_member_nbr] members: the handler dereferences no null
    pointer. *)
Definition well_formed (s : nn_state) : Prop :=
  (forall p, In p (_nn_key_list s) -> key_read (keys s p) <> None) /\
  (forall c, In c (_nn_combo_list s) ->
             forall j, In j (upto (combo_member_nbr (combs s c))) ->
                       member_at (combs s c) j <> None).

(** The long-press and multi-click thresholds of [k] are not zero, as
    after [NN_Key_Init] and [NN_Key_SetPara], and its state field holds
    one of the six enumerators. *)
Definition timed (k : nn_key_t) : Prop :=
  1 <= long_time k /\ 1 <= multi_time k /\ state k <> KEY_STATE_UNNAMED.

(** The key [k] is settled for the tick and the inputs of a call: the
    second loop of the handler leaves it as it is, whatever its pending
    event and lock flag, or only emits the continuous event again for a
    key held in [KEY_STATE_LONG_PRESSED_ALWS]. *)
Definition settled (tick : Z) (io : nat -> bool) (k : nn_key_t) : Prop :=
  forall k',
    same_core k k' ->
    same_core k' (sm_step tick io k') /\
    lock_flag (sm_step tick io k') = lock_flag k' /\
    (event (sm_step tick io k') = event k' \/
     (event (sm_step tick io k') = KEY_EVENT_LONG_PRESSED_ALWS /\
      state k' = KEY_STATE_LONG_PRESSED_ALWS)).

(** What a repeated call may change of a key: not its state, time stamp
    and click count; its pending event is kept, cleared, or is the
    continuous event of a key held in [KEY_STATE_LONG_PRESSED_ALWS]. *)
Definition steady (k k' : nn_key_t) : Prop :=
  state k' = state k /\ key_last_time k' = key_last_time k /\
  multi_count k' = multi_count k /\
  (event k' = event k \/ event k' = KEY_EVENT_INIT \/
   (event k' = KEY_EVENT_LONG_PRESSED_ALWS /\
    state k = KEY_STATE_LONG_PRESSED_ALWS)).

(** The key [k] will not be given a non-continuous callback by the
    dispatcher: it is locked, or its pending event is none or the
    continuous one. *)
Definition quiet (k : nn_key_t) : Prop :=
  lock_flag k = true \/ event k = KEY_EVENT_INIT \/
  event k = KEY_EVENT_LONG_PRESSED_ALWS.

(** ** Further observations *)

(** [k'] is [k] up to the fields that the handler writes: the state, the
    time stamp, the click count, the pending event and the lock flag.
    The name, the read function, the thresholds, [multi_max], the member
    flag and the callback table are those of [k]. *)
Definition same_settings (k k' : nn_key_t) : Prop :=
  k' = with_multi_count (multi_count k')
         (with_last_time (key_last_time k')
            (with_state (state k')
               (with_lock_flag (lock_flag k') (with_event (event k') k)))).

(** The call [c] invokes a callback that is registered in the state [s]:
    the callback of a registered key for the event it is passed, which is
    not [KEY_EVENT_INIT], with the user data registered with it; or the
    callback of a registered combo with its user data. *)
Definition registered_call (s : nn_state) (c : call) : Prop :=
  match c with
  | KeyCallback f p ev ud =>
      In p (_nn_key_list s) /\ ev <> KEY_EVENT_INIT /\
      mask_has (keys s p) ev = true /\
      callback_at (keys s p) ev = mk_item (Some f) ud
  | ComboCallback f c ud =>
      In c (_nn_combo_list s) /\ combo_cb (combs s c) = mk_item (Some f) ud
  end.

(** What the C types do not enforce of a key record and what
    [NN_Key_Init] establishes: the four thresholds are not zero, the
    state field holds one of the six enumerators, the event field does
    not hold [KEY_EVENT_MAX] (so [callbacks[event]] is one of the seven
    slots), the click count and [multi_max] fit their four bits. *)
Definition key_ok (k : nn_key_t) : Prop :=
  1 <= debounce_time k /\ 1 <= long_time k /\ 1 <= long_alws_time k /\
  1 <= multi_time k /\
  state k <> KEY_STATE_UNNAMED /\ event k <> KEY_EVENT_MAX /\
  0 <= multi_count k <= 15 /\ 1 <= multi_max k <= 15 /\
  List.length (callbacks k) = 7%nat.

(** A well-formed system all of whose registered keys are as above. *)
Definition system_ok (s : nn_state) : Prop :=
  well_formed s /\ forall p, In p (_nn_key_list s) -> key_ok (keys s p).

(** The calls of a client that passes arguments in the range of their C
    types, initialises keys with a read function, passes to
    [NN_Combo_Add] as many non-null extra members as [mem_nbr] asks
    for, and makes no call whose behaviour is undefined: it calls
    [NN_Combo_Add] only while the array [_nn_combo_list] has room. *)
Inductive client_step : nn_state -> nn_state -> Prop :=
| client_Key_Init key name f s :
    client_step s (snd (NN_Key_Init key name (Some f) s))
| client_Key_Add key id read_func s :
    client_step s (snd (NN_Key_Add key id read_func s))
| client_Key_SetPara key d l la m mx s :
    0 <= d <= 65535 -> 0 <= l <= 65535 -> 0 <= la <= 65535 ->
    0 <= m <= 65535 -> 0 <= mx <= 255 ->
    client_step s (snd (NN_Key_SetPara key d l la m mx s))
| client_Key_SetCb key ev cb ud s :
    client_step s (snd (NN_Key_SetCb key ev cb ud s))
| client_Key_DeleteCb key ev s :
    client_step s (snd (NN_Key_DeleteCb key ev s))
| client_Combo_Add comb id mem_nbr m1 m2 rest s r s' :
    0 <= mem_nbr <= 255 ->
    (forall i, Z.of_nat i < mem_nbr - 2 -> nth i rest None <> None) ->
    NN_Combo_Add comb id mem_nbr m1 m2 rest s = Some (r, s') ->
    client_step s s'
| client_Combo_SetCb combo cb para s :
    client_step s (snd (NN_Combo_SetCb combo cb para s))
| client_Combo_SetWindowTime combo time_ms s :
    client_step s (snd (NN_Combo_SetWindowTime combo time_ms s))
| client_Handler tick io s r s' :
    NN_Key_Handler tick io s = Some (r, s') ->
    client_step s s'.

(** The states such a client reaches from empty registries. *)
Inductive client_reachable : nn_state -> Prop :=
| client_start s :
    _nn_key_list s = [] -> _nn_combo_list s = [] -> client_reachable s
| client_next s s' :
    client_reachable s -> client_step s s' -> client_reachable s'.

(** One click as the state machine samples it: the tick of the first
    sample that reads pressed, the ticks of the further samples while the
    key is held, the tick of the first sample that reads released, and
    the ticks of the further samples while the key stays released. *)
Record click : Type := mk_click {
  c_press : Z;
  c_held : list Z;
  c_release : Z;
  c_idle : list Z
}.

Definition click_samples (c : click) : list (Z * bool) :=
  (c_press c, true) :: map (fun t => (t, true)) (c_held c)
  ++ (c_release c, false) :: map (fun t => (t, false)) (c_idle c).

(** The clicks [cs] are short clicks in quick succession for a key with
    the thresholds [debounce], [long] and [multi] whose last transition
    was at [last]: each press is accepted by the debounce test, each
    release comes less than [long] after its press, and the key is
    sampled released only within [multi] of the release. *)
Fixpoint clicks_ok (debounce long multi : Z) (last : Z) (cs : list click)
  : Prop :=
  match cs with
  | [] => True
  | c :: rest =>
      debounce <= sub32 (c_press c) last /\
      Forall (fun t => sub32 t (c_press c) < long) (c_held c) /\
      sub32 (c_release c) (c_press c) < long /\
      Forall (fun t => sub32 t (c_release c) < multi) (c_idle c) /\
      clicks_ok debounce long multi (c_release c) rest
  end.

(** The tick of the last release. *)
Definition last_release (last : Z) (cs : list click) : Z :=
  fold_left (fun _ c => c_release c) cs last.

(** The event reported for a click count when the multi-click window
    closes. *)
Definition click_event (n : Z) : nn_key_event_t :=
  if n =? 0 then KEY_EVENT_INIT
  else if n =? 1 then KEY_EVENT_PRESSED
  else if n =? 2 then KEY_EVENT_DOUBLE_PRESSED
  else if n =? 3 then KEY_EVENT_TRIPLE_PRESSED
  else KEY_EVENT_MULTI_PRESSED.

(** ** The quick macros of [NN_Key.h] *)

Definition NN_Key_SetDebounceTime (key : option ptr) (time : Z)
  : nn_state -> bool * nn_state := NN_Key_SetPara key time 0 0 0 0.

Definition NN_Key_SetLongPressTime (key : option ptr) (time : Z)
  : nn_state -> bool * nn_state := NN_Key_SetPara key 0 time 0 0 0.

Definition NN_Key_SetLongPressAlwsTime (key : option ptr) (time : Z)
  : nn_state -> bool * nn_state := NN_Key_SetPara key 0 0 time 0 0.

Definition NN_Key_SetMultiPressTime (key : option ptr) (time : Z)
  : nn_state -> bool * nn_state := NN_Key_SetPara key 0 0 0 time 0.

Definition NN_Key_SetMultiPressMax (key : option ptr) (max : Z)
  : nn_state -> bool * nn_state := NN_Key_SetPara key 0 0 0 0 max.

Definition NN_Key_OnClick (key : option ptr) (cb ud : option nat)
  : nn_state -> bool * nn_state := NN_Key_SetCb key KEY_EVENT_PRESSED cb ud.

Definition NN_Key_OnDoubleClick (key : option ptr) (cb ud : option nat)
  : nn_state -> bool * nn_state :=
  NN_Key_SetCb key KEY_EVENT_DOUBLE_PRESSED cb ud.

Definition NN_Key_OnTripleClick (key : option ptr) (cb ud : option nat)
  : nn_state -> bool * nn_state :=
  NN_Key_SetCb key KEY_EVENT_TRIPLE_PRESSED cb ud.

Definition NN_Key_OnMultiClick (key : option ptr) (cb ud : option nat)
  : nn_state -> bool * nn_state :=
  NN_Key_SetCb key KEY_EVENT_MULTI_PRESSED cb ud.

Definition NN_Key_OnLongPress (key : option ptr) (cb ud : option nat)
  : nn_state -> bool * nn_state :=
  NN_Key_SetCb key KEY_EVENT_LONG_PRESSED cb ud.

Definition NN_Key_OnContinuousPress (key : option ptr) (cb ud : option nat)
  : nn_state -> bool * nn_state :=
  NN_Key_SetCb key KEY_EVENT_LONG_PRESSED_ALWS cb ud.

(** The states [s] and [s'] hold the same data: the stores agree at
    every address, the registries, [LastTick] and the trace are equal. *)
Definition same_state (s s' : nn_state) : Prop :=
  (forall p, keys s' p = keys s p) /\ (forall c, combs s' c = combs s c) /\
  _nn_key_list s' = _nn_key_list s /\ _nn_combo_list s' = _nn_combo_list s /\
  LastTick s' = LastTick s /\ trace s' = trace s.

(** The key [k] is idle: released, with no event pending. *)
Definition idle (k : nn_key_t) : Prop :=
  state k = KEY_STATE_RELEASED /\ event k = KEY_EVENT_INIT.

(** The system [two_keys_combo] with a window of 1000 ms, polled every
    10 ms from tick 600 to tick 1540: B is clicked at 700, A at 800, and
    A once more at 1200.  The combo has triggered at tick 1150, on A;
    the press of the second click of A is due at tick 1550. *)
Definition second_click_due : nn_state :=
  state_after
    (every_10ms 600 10 released ++ every_10ms 700 5 (only 1%nat)
     ++ every_10ms 750 5 released ++ every_10ms 800 5 (only 0%nat)
     ++ every_10ms 850 35 released ++ every_10ms 1200 5 (only 0%nat)
     ++ every_10ms 1250 30 released)
    (snd (NN_Combo_SetWindowTime (Some 0%nat) 1000 two_keys_combo)).

(** [two_keys_combo] polled every 10 ms from tick 600 to tick 1040; B is
    pressed from 700 to 750, A from 950 to 1000: the multi-click window
    of B closes at tick 1050, that of A at tick 1300. *)
Definition clicked_B_first : nn_state :=
  state_after (ab_ticks 600 45 950 1000 700 750) two_keys_combo.

(** An invocation of a callback of the key [p]. *)
Definition call_of_key (p : ptr) (c : call) : bool :=
  match c with
  | KeyCallback _ q _ _ => Nat.eqb q p
  | ComboCallback _ _ _ => false
  end.

(** The record of the key [p] after the first two loops of a handler
    call: its lock flag reset if it is a combo member, then one step of
    the state machine for each time it is registered. *)
Definition after_state_machine (tick : Z) (io : nat -> bool) (s : nn_state)
           (p : ptr) : nn_key_t :=
  Nat.iter (count_occ Nat.eq_dec (_nn_key_list s) p) (sm_step tick io)
           (if is_member (keys s p) then with_lock_flag false (keys s p)
            else keys s p).

(** The raw input samples of the read function [r] over a run of handler
    calls. *)
Definition samples_of (r : nat) (calls : list (Z * (nat -> bool)))
  : list (Z * bool) :=
  map (fun c => (fst c, snd c r)) calls.

(** One key on its own: each sample steps the state machine and then
    dispatches the pending event.  The result is the final record and
    the callbacks invoked for the key [p]. *)
Fixpoint key_run (p : ptr) (k : nn_key_t) (samples : list (Z * bool))
  : nn_key_t * list call :=
  match samples with
  | [] => (k, [])
  | c :: rest =>
      let k1 := _NN_Key_StateMachine k (fst c) (snd c) in
      let r := key_run p (dispatched k1) rest in
      (fst r, dispatched_calls p k1 ++ snd r)
  end.

(** The key never reaches the continuous long-press event over the
    samples. *)
Fixpoint never_continuous (k : nn_key_t) (samples : list (Z * bool)) : Prop :=
  match samples with
  | [] => True
  | c :: rest =>
      let k1 := _NN_Key_StateMachine k (fst c) (snd c) in
      event k1 <> KEY_EVENT_LONG_PRESSED_ALWS /\
      never_continuous (dispatched k1) rest
  end.

(** One key (address 0, read function 0) with a callback for each of the
    click events, registered through the quick macros. *)
Definition one_key : nn_state :=
  fold_left then_do
    [ NN_Key_Add (Some 0%nat) "K"%string (Some 0%nat);
      NN_Key_OnClick (Some 0%nat) (Some 1%nat) None;
      NN_Key_OnDoubleClick (Some 0%nat) (Some 2%nat) None;
      NN_Key_OnTripleClick (Some 0%nat) (Some 3%nat) None;
      NN_Key_OnMultiClick (Some 0%nat) (Some 4%nat) None;
      NN_Key_OnLongPress (Some 0%nat) (Some 5%nat) None;
      NN_Key_OnContinuousPress (Some 0%nat) (Some 6%nat) None ]
    empty_state.

(** [one_key] after a first call of the handler, which takes the key to
    [KEY_STATE_RELEASED]. *)
Definition one_key_idle : nn_state := state_after [(0, released)] one_key.

(** Two clicks: pressed from 1000 to 1030 and from 1060 to 1090, sampled
    every 10 ms. *)
Definition double_click : list click :=
  [ mk_click 1000 [1010; 1020] 1030 [1040; 1050];
    mk_click 1060 [1070; 1080] 1090 [1100; 1110] ].

(** The handler calls that sample [double_click] and then, at tick 1400,
    the end of the multi-click window, whatever the read function. *)
Definition double_click_calls : list (Z * (nat -> bool)) :=
  map (fun c => (fst c, fun _ : nat => snd c))
      (flat_map click_samples double_click ++ [(1400, false)]).

(** [two_keys] after a first call of the handler, and a run in which A is
    clicked from 1000 to 1030 while B is held from 1010 on. *)
Definition two_keys_idle : nn_state := state_after [(0, released)] two_keys.

Definition click_A_hold_B : list (Z * (nat -> bool)) :=
  [ (1000, only 0%nat); (1010, fun _ => true); (1020, fun _ => true);
    (1030, only 1%nat); (1200, only 1%nat); (1400, only 1%nat) ].

(** * Properties *)

(** ** Basic facts *)

Lemma event_eqb_eq a b : event_eqb a b = true <-> a = b.
Proof.
  unfold event_eqb; rewrite Z.eqb_eq; split; [|intros ->; reflexivity].
  destruct a, b; simpl; intros H; try reflexivity; discriminate H.
Qed.

Lemma event_eqb_refl a : event_eqb a a = true.
Proof. apply event_eqb_eq; reflexivity. Qed.

Lemma event_eqb_neq a b : event_eqb a b = false <-> a <> b.
Proof.
  rewrite <- event_eqb_eq. destruct (event_eqb a b); split; congruence.
Qed.

Lemma sub32_range a b : 0 <= sub32 a b < 2 ^ 32.
Proof. unfold sub32; apply Z.mod_pos_bound; lia. Qed.

Lemma sub32_diag a : sub32 a a = 0.
Proof. unfold sub32; rewrite Z.sub_diag; reflexivity. Qed.

Lemma upd_same {A : Type} (h : ptr -> A) p a : upd h p a p = a.
Proof. unfold upd; rewrite Nat.eqb_refl; reflexivity. Qed.

Lemma upd_other {A : Type} (h : ptr -> A) p q a :
  q <> p -> upd h p a q = h q.
Proof.
  intros H; unfold upd. destruct (Nat.eqb_spec q p); [contradiction|reflexivity].
Qed.

(** ** C1: the debounce gate of [KEY_STATE_RELEASED] *)

(** In [KEY_STATE_RELEASED] a sample leaves the key untouched unless it
    reads pressed at least [debounce_time] after the last transition. *)
Lemma released_step_gated key tick v :
  state key = KEY_STATE_RELEASED ->
  (v = true -> sub32 tick (key_last_time key) < debounce_time key) ->
  _NN_Key_StateMachine key tick v = key.
Proof.
  intros Hst Hgate. unfold _NN_Key_StateMachine. rewrite Hst.
  destruct v; simpl.
  - specialize (Hgate eq_refl).
    destruct (Z.leb_spec (debounce_time key) (sub32 tick (key_last_time key)));
      [lia|reflexivity].
  - destruct key; simpl in *; subst; reflexivity.
Qed.

(** C1, counterexample.  The key [idle_key] is in [KEY_STATE_RELEASED]
    with [debounce_time = 20]; the raw input is pressed for the single
    sample at tick 1005 (a pulse shorter than 20 ms) and released at 1000
    and 1010.  The state machine nevertheless leaves
    [KEY_STATE_RELEASED]: the sample at 1005 moves it to
    [KEY_STATE_PRESSED], because 1005 ms have elapsed since
    [key_last_time = 0]. *)
Lemma C1_short_pulse_accepted :
  state idle_key = KEY_STATE_RELEASED /\
  1 <= debounce_time idle_key /\
  pulse_shorter_than (debounce_time idle_key)
    [(1000, false); (1005, true); (1010, false)] /\
  map state (run_samples idle_key [(1000, false); (1005, true); (1010, false)])
  = [KEY_STATE_RELEASED; KEY_STATE_PRESSED; KEY_STATE_MULTI_PRESSED] /\
  ~ Forall (fun k => state k = KEY_STATE_RELEASED)
      (run_samples idle_key [(1000, false); (1005, true); (1010, false)]).
Proof.
  split; [reflexivity|]. split; [vm_compute; discriminate|].
  split.
  { exists 1005, 1006. split; [vm_compute; split; [discriminate|reflexivity]|].
    intros t v [H|[H|[H|[]]]]; inversion H; subst; split; intros; try lia;
      try reflexivity; try discriminate. }
  split; [vm_compute; reflexivity|].
  intros HF. inversion HF as [|? ? _ HF1]; subst.
  inversion HF1 as [|? ? H2 _]; subst. vm_compute in H2. discriminate H2.
Qed.

(** The samples that the gate refuses leave the key as it is. *)
Lemma gated_samples_fixed key samples :
  state key = KEY_STATE_RELEASED ->
  (forall t v, In (t, v) samples -> v = true ->
               sub32 t (key_last_time key) < debounce_time key) ->
  after_samples key samples = key.
Proof.
  intros Hst. unfold after_samples.
  induction samples as [|[t v] rest IH]; intros Hgate; [reflexivity|].
  cbn [fold_left fst snd].
  rewrite (released_step_gated key t v Hst).
  - apply IH. intros t' v' Hin. apply Hgate. right; assumption.
  - intros Hv. apply (Hgate t v); [left; reflexivity|assumption].
Qed.

(** C1, as amended.  For every key in [KEY_STATE_RELEASED] and every
    sequence of samples in which each sample that reads pressed arrives
    less than [debounce_time] (unsigned 32-bit difference) after the key's
    last recorded transition [key_last_time], the key stays in
    [KEY_STATE_RELEASED] after every sample, and its time stamp is
    unchanged.  The gate measures the time since the last transition, not
    the length of the pulse: after such samples, a sample that reads
    pressed [debounce_time] or more after the last transition is
    accepted, whatever the samples before and after it read; the key is
    then in [KEY_STATE_PRESSED] with that sample's tick as its time
    stamp. *)
Theorem C1_debounce_gate (key : nn_key_t) (samples : list (Z * bool)) :
  state key = KEY_STATE_RELEASED ->
  (forall t v, In (t, v) samples -> v = true ->
               sub32 t (key_last_time key) < debounce_time key) ->
  Forall (fun k => state k = KEY_STATE_RELEASED /\
                   key_last_time k = key_last_time key)
         (run_samples key samples) /\
  forall t,
    debounce_time key <= sub32 t (key_last_time key) ->
    state (after_samples key (samples ++ [(t, true)])) = KEY_STATE_PRESSED /\
    key_last_time (after_samples key (samples ++ [(t, true)])) = t.
Proof.
  intros Hst Hgate. split.
  - revert Hgate. induction samples as [|[t v] rest IH]; intros Hgate; simpl.
    + constructor.
    + assert (Hstep : _NN_Key_StateMachine key t v = key).
      { apply released_step_gated; [assumption|].
        intros Hv. apply (Hgate t v); [left; reflexivity|assumption]. }
      rewrite Hstep. constructor; [split; [assumption|reflexivity]|].
      apply IH. intros t' v' Hin. apply Hgate. right; assumption.
  - intros t Ht.
    assert (E : after_samples key (samples ++ [(t, true)])
                = _NN_Key_StateMachine key t true).
    { unfold after_samples. rewrite fold_left_app.
      fold (after_samples key samples).
      rewrite (gated_samples_fixed key samples Hst Hgate). reflexivity. }
    rewrite E. unfold _NN_Key_StateMachine. rewrite Hst. cbn [andb].
    rewrite (proj2 (Z.leb_le _ _) Ht).
    destruct key; split; reflexivity.
Qed.

(** Witness of [C1_debounce_gate]: a key released at tick 1000 ignores a
    pulse sampled at 1005 and 1010, and accepts the press sampled at
    1020. *)
Lemma C1_debounce_gate_witness :
  Forall (fun k => state k = KEY_STATE_RELEASED /\
                   key_last_time k = 1000)
         (run_samples (with_last_time 1000 idle_key)
                      [(1005, true); (1010, true); (1015, false)]) /\
  state (after_samples (with_last_time 1000 idle_key)
                       ([(1005, true); (1010, true); (1015, false)]
                        ++ [(1020, true)]))
  = KEY_STATE_PRESSED.
Proof.
  destruct (C1_debounce_gate (with_last_time 1000 idle_key)
              [(1005, true); (1010, true); (1015, false)]) as [H1 H2].
  - reflexivity.
  - intros t v [H|[H|[H|[]]]] Hv; inversion H; subst;
      try discriminate; vm_compute; reflexivity.
  - split; [exact H1|]. apply (H2 1020). vm_compute. discriminate.
Defined.

(** ** C5: the multi-click counter *)

(** What holds of the classification: when the multi-click window closes
    on a released key, every count above 3 (up to the 15 the field can
    hold) yields [KEY_EVENT_MULTI_PRESSED]. *)
Lemma multi_window_close_classifies key tick :
  state key = KEY_STATE_MULTI_PRESSED ->
  multi_time key <= sub32 tick (key_last_time key) ->
  3 < multi_count key ->
  event (_NN_Key_StateMachine key tick false) = KEY_EVENT_MULTI_PRESSED /\
  state (_NN_Key_StateMachine key tick false) = KEY_STATE_RELEASED /\
  multi_count (_NN_Key_StateMachine key tick false) = 0.
Proof.
  intros Hst Hd Hc. unfold _NN_Key_StateMachine. rewrite Hst. simpl.
  destruct (Z.leb_spec (multi_time key) (sub32 tick (key_last_time key)));
    [|lia].
  destruct (Z.eqb_spec (multi_count key) 1); [lia|].
  destruct (Z.eqb_spec (multi_count key) 2); [lia|].
  destruct (Z.eqb_spec (multi_count key) 3); [lia|].
  destruct (Z.ltb_spec 3 (multi_count key)); [|lia].
  repeat split.
Qed.

(** The increment of a short click never looks at [multi_max]. *)
Lemma short_click_increments key tick :
  state key = KEY_STATE_PRESSED ->
  sub32 tick (key_last_time key) < long_time key ->
  multi_count (_NN_Key_StateMachine key tick false)
  = (multi_count key + 1) mod 16 /\
  multi_max (_NN_Key_StateMachine key tick false) = multi_max key.
Proof.
  intros Hst Hd. unfold _NN_Key_StateMachine. rewrite Hst. simpl.
  destruct (Z.leb_spec (long_time key) (sub32 tick (key_last_time key)));
    [lia|]. split; reflexivity.
Qed.

(** C5, the code at the failing inputs.  [idle_key] has the default
    [multi_max = 4].  After 5 short clicks the counter holds 5, above the
    configured maximum; after 16 clicks the 4-bit counter has wrapped to
    0, and when the multi-click window then closes no event at all is
    produced ([KEY_EVENT_INIT]); after 17 clicks the window close reports
    a single [KEY_EVENT_PRESSED]. *)
Theorem C5_counter_wraps :
  multi_max idle_key = 4 /\
  multi_count (after_samples idle_key (clicks 5 1000)) = 5 /\
  multi_count (after_samples idle_key (clicks 15 1000)) = 15 /\
  multi_count (after_samples idle_key (clicks 16 1000)) = 0 /\
  state (after_samples idle_key (clicks 16 1000)) = KEY_STATE_MULTI_PRESSED /\
  event (after_samples idle_key (clicks_then_wait 16)) = KEY_EVENT_INIT /\
  state (after_samples idle_key (clicks_then_wait 16)) = KEY_STATE_RELEASED /\
  event (after_samples idle_key (clicks_then_wait 17)) = KEY_EVENT_PRESSED /\
  event (after_samples idle_key (clicks_then_wait 5)) = KEY_EVENT_MULTI_PRESSED.
Proof. vm_compute. repeat split. Qed.

(** ** C4: dispatch of the continuous long-press event *)

(** C4.  Let the key at [p] have [KEY_EVENT_LONG_PRESSED_ALWS] pending and
    a callback [f] registered for it.  One call of the dispatcher
    [_NN_Key_Event] at [tick] leaves every key, hence the pending event,
    as it is; it invokes [f] exactly once and records [tick] in
    [LastTick] when at least [KEY_LONG_PRESS_ALWS_CB = 50] ms (unsigned
    32-bit difference) have passed since [LastTick], and invokes nothing
    otherwise; so a further call less than 50 ms after an invocation is
    silent.  The state machine keeps re-emitting the event while the key in
    [KEY_STATE_LONG_PRESSED_ALWS] reads pressed, and clears it when the
    key reads released. *)
Theorem C4_continuous_dispatch (s : nn_state) (p : ptr) (f : nat) (tick : Z) :
  event (keys s p) = KEY_EVENT_LONG_PRESSED_ALWS ->
  mask_has (keys s p) KEY_EVENT_LONG_PRESSED_ALWS = true ->
  func (callback_at (keys s p) KEY_EVENT_LONG_PRESSED_ALWS) = Some f ->
  let cb := KeyCallback f p KEY_EVENT_LONG_PRESSED_ALWS
              (user_data (callback_at (keys s p) KEY_EVENT_LONG_PRESSED_ALWS)) in
  let s' := snd (_NN_Key_Event (Some p) tick s) in
  fst (_NN_Key_Event (Some p) tick s) = true /\
  keys s' = keys s /\
  event (keys s' p) = KEY_EVENT_LONG_PRESSED_ALWS /\
  (KEY_LONG_PRESS_ALWS_CB <= sub32 tick (LastTick s) ->
   trace s' = trace s ++ [cb] /\ LastTick s' = tick) /\
  (sub32 tick (LastTick s) < KEY_LONG_PRESS_ALWS_CB ->
   trace s' = trace s /\ LastTick s' = LastTick s) /\
  (forall tick2,
      KEY_LONG_PRESS_ALWS_CB <= sub32 tick (LastTick s) ->
      sub32 tick2 tick < KEY_LONG_PRESS_ALWS_CB ->
      trace (snd (_NN_Key_Event (Some p) tick2 s')) = trace s') /\
  (state (keys s p) = KEY_STATE_LONG_PRESSED_ALWS ->
   forall t,
     event (_NN_Key_StateMachine (keys s p) t true)
     = KEY_EVENT_LONG_PRESSED_ALWS /\
     state (_NN_Key_StateMachine (keys s p) t true)
     = KEY_STATE_LONG_PRESSED_ALWS /\
     event (_NN_Key_StateMachine (keys s p) t false) = KEY_EVENT_INIT /\
     state (_NN_Key_StateMachine (keys s p) t false) = KEY_STATE_RELEASED).
Proof.
  intros Hev Hmask Hfunc cb s'.
  assert (Hstep : forall t st,
             keys st = keys s ->
             _NN_Key_Event (Some p) t st
             = if KEY_LONG_PRESS_ALWS_CB <=? sub32 t (LastTick st)
               then (true, log cb (set_LastTick t st)) else (true, st)).
  { intros t st Hk. unfold _NN_Key_Event. rewrite Hk, Hev, Hmask, Hfunc.
    simpl. reflexivity. }
  assert (Hsm : state (keys s p) = KEY_STATE_LONG_PRESSED_ALWS ->
                forall t,
                  event (_NN_Key_StateMachine (keys s p) t true)
                  = KEY_EVENT_LONG_PRESSED_ALWS /\
                  state (_NN_Key_StateMachine (keys s p) t true)
                  = KEY_STATE_LONG_PRESSED_ALWS /\
                  event (_NN_Key_StateMachine (keys s p) t false)
                  = KEY_EVENT_INIT /\
                  state (_NN_Key_StateMachine (keys s p) t false)
                  = KEY_STATE_RELEASED).
  { intros Hst t. unfold _NN_Key_StateMachine. rewrite Hst.
    repeat split; simpl; try assumption; reflexivity. }
  subst s'. rewrite (Hstep tick s eq_refl).
  destruct (Z.leb_spec KEY_LONG_PRESS_ALWS_CB (sub32 tick (LastTick s)))
    as [Hge|Hlt]; cbn [fst snd].
  - split; [reflexivity|]. split; [reflexivity|]. split; [assumption|].
    split; [intros _; split; reflexivity|]. split; [intros Hc; lia|].
    split; [|exact Hsm].
    intros tick2 _ H2.
    rewrite (Hstep tick2 (log cb (set_LastTick tick s)) eq_refl).
    cbn [LastTick log set_LastTick].
    destruct (Z.leb_spec KEY_LONG_PRESS_ALWS_CB (sub32 tick2 tick));
      [lia|reflexivity].
  - split; [reflexivity|]. split; [reflexivity|]. split; [assumption|].
    split; [intros Hc; lia|]. split; [intros _; split; reflexivity|].
    split; [|exact Hsm].
    intros tick2 Hc; lia.
Qed.

(** Witness of [C4_continuous_dispatch]: key A of [two_keys] with the
    continuous event pending, dispatched at tick 1000 with
    [LastTick = 0]. *)
Lemma C4_continuous_dispatch_witness :
  event (keys (pend 0%nat KEY_EVENT_LONG_PRESSED_ALWS two_keys) 0%nat)
  = KEY_EVENT_LONG_PRESSED_ALWS /\
  trace (snd (_NN_Key_Event (Some 0%nat) 1000
                (pend 0%nat KEY_EVENT_LONG_PRESSED_ALWS two_keys)))
  = [KeyCallback 12 0%nat KEY_EVENT_LONG_PRESSED_ALWS None] /\
  event (keys (snd (_NN_Key_Event (Some 0%nat) 1000
                      (pend 0%nat KEY_EVENT_LONG_PRESSED_ALWS two_keys)))
              0%nat)
  = KEY_EVENT_LONG_PRESSED_ALWS.
Proof.
  destruct (C4_continuous_dispatch
              (pend 0%nat KEY_EVENT_LONG_PRESSED_ALWS two_keys) 0%nat
              12%nat 1000 eq_refl eq_refl eq_refl)
    as (_ & _ & Hev & Hfire & _).
  split; [reflexivity|]. split; [|exact Hev].
  destruct Hfire as [Htr _]; [vm_compute; discriminate|exact Htr].
Defined.

(** ** C7: removing a callback *)

Lemma nth_upd_nth_same {A : Type} (n : nat) (x d : A) (l : list A) :
  (n < List.length l)%nat -> nth n (upd_nth n x l) d = x.
Proof.
  revert n; induction l as [|h t IH]; intros [|n] Hn; simpl in *;
    try lia; [reflexivity|]. apply IH; lia.
Qed.

Lemma nth_upd_nth_other {A : Type} (n m : nat) (x d : A) (l : list A) :
  n <> m -> nth m (upd_nth n x l) d = nth m l d.
Proof.
  revert n m; induction l as [|h t IH]; intros [|n] [|m] Hn; simpl;
    try reflexivity; try congruence. apply IH; congruence.
Qed.

Lemma length_upd_nth {A : Type} (n : nat) (x : A) (l : list A) :
  List.length (upd_nth n x l) = List.length l.
Proof.
  revert n; induction l as [|h t IH]; intros [|n]; simpl; try reflexivity.
  rewrite IH; reflexivity.
Qed.

(** A slot overwritten with the null item reads as NULL, whatever the
    length of the table. *)
Lemma func_nth_upd_null (n : nat) (l : list nn_key_callback_item_t) :
  func (nth n (upd_nth n null_item l) null_item) = None.
Proof.
  revert n; induction l as [|h t IH]; intros [|n]; simpl; try reflexivity.
  apply IH.
Qed.

(** Clearing bit [e] of the 8-bit mask. *)
Lemma mask_clear_bit (m e : Z) :
  0 <= e ->
  Z.land (Z.land m (Z.lnot (Z.shiftl 1 e)) mod 256) (Z.shiftl 1 e) = 0.
Proof.
  intros He. apply Z.bits_inj'. intros n Hn.
  rewrite Z.land_spec, Z.bits_0.
  change 256 with (2 ^ 8).
  rewrite Z.shiftl_1_l.
  destruct (Z.eq_dec n e) as [->|Hne].
  - destruct (Z.ltb_spec e 8).
    + rewrite Z.mod_pow2_bits_low by lia.
      rewrite Z.land_spec, Z.lnot_spec by lia.
      rewrite Z.pow2_bits_true by lia. simpl.
      rewrite andb_false_r; reflexivity.
    + rewrite Z.mod_pow2_bits_high by lia. reflexivity.
  - rewrite (Z.pow2_bits_false e n) by lia. apply andb_false_r.
Qed.

(** After [NN_Key_DeleteCb] neither the mask bit nor the slot is set. *)
Lemma DeleteCb_clears s p ev :
  event_code ev < event_code KEY_EVENT_MAX ->
  let s' := snd (NN_Key_DeleteCb (Some p) ev s) in
  fst (NN_Key_DeleteCb (Some p) ev s) = true /\
  mask_has (keys s' p) ev = false /\
  func (callback_at (keys s' p) ev) = None.
Proof.
  intros Hev. unfold NN_Key_DeleteCb.
  destruct (Z.leb_spec (event_code KEY_EVENT_MAX) (event_code ev)); [lia|].
  cbn [fst snd]. split; [reflexivity|].
  unfold mask_has, callback_at. cbn [keys set_key]. rewrite upd_same.
  cbn [callback_mask callbacks with_callbacks]. split.
  - rewrite mask_clear_bit; [reflexivity|destruct ev; simpl; lia].
  - apply func_nth_upd_null.
Qed.

(** The dispatcher invokes nothing for an event without a callback. *)
Lemma Key_Event_silent s p tick :
  func (callback_at (keys s p) (event (keys s p))) = None ->
  trace (snd (_NN_Key_Event (Some p) tick s)) = trace s.
Proof.
  intros Hf. unfold _NN_Key_Event.
  destruct (event_eqb (event (keys s p)) KEY_EVENT_INIT); [reflexivity|].
  rewrite Hf.
  destruct (mask_has (keys s p) (event (keys s p)));
    destruct (negb (event_eqb (event (keys s p)) KEY_EVENT_LONG_PRESSED_ALWS));
    reflexivity.
Qed.

(** C7, counterexample.  Key A of [two_keys] has callback 10 registered
    for [KEY_EVENT_PRESSED].  Registering an absent callback for that
    event with [NN_Key_SetCb] is refused and changes nothing; a later
    [KEY_EVENT_PRESSED] of A still invokes callback 10. *)
Lemma C7_null_registration_keeps_callback :
  NN_Key_SetCb (Some 0%nat) KEY_EVENT_PRESSED None None two_keys
  = (false, two_keys) /\
  trace (snd (_NN_Key_Event (Some 0%nat) 100
                (pend 0%nat KEY_EVENT_PRESSED
                   (snd (NN_Key_SetCb (Some 0%nat) KEY_EVENT_PRESSED
                           None None two_keys)))))
  = [KeyCallback 10 0%nat KEY_EVENT_PRESSED None].
Proof. split; [reflexivity|vm_compute; reflexivity]. Qed.

(** C7, as amended.  For every key and every event kind (below
    [KEY_EVENT_MAX]): [NN_Key_SetCb] with an absent callback returns false
    and leaves the state, hence the registered callback, as it is; the
    callback is removed by [NN_Key_DeleteCb], which returns true, clears
    the mask bit and the slot, and after which the dispatcher invokes no
    callback for that event, in any later state whose callback table for
    the key is unchanged. *)
Theorem C7_delete_removes_callback
        (s : nn_state) (p : ptr) (ev : nn_key_event_t) (ud : option nat) :
  event_code ev < event_code KEY_EVENT_MAX ->
  NN_Key_SetCb (Some p) ev None ud s = (false, s) /\
  fst (NN_Key_DeleteCb (Some p) ev s) = true /\
  mask_has (keys (snd (NN_Key_DeleteCb (Some p) ev s)) p) ev = false /\
  func (callback_at (keys (snd (NN_Key_DeleteCb (Some p) ev s)) p) ev)
  = None /\
  forall (s2 : nn_state) (tick : Z),
    callbacks (keys s2 p)
    = callbacks (keys (snd (NN_Key_DeleteCb (Some p) ev s)) p) ->
    event (keys s2 p) = ev ->
    trace (snd (_NN_Key_Event (Some p) tick s2)) = trace s2.
Proof.
  intros Hev.
  destruct (DeleteCb_clears s p ev Hev) as (Hr & Hm & Hf).
  split.
  { unfold NN_Key_SetCb. cbn [is_null]. rewrite orb_true_r. reflexivity. }
  split; [exact Hr|]. split; [exact Hm|]. split; [exact Hf|].
  intros s2 tick Hcbs Hev2. apply Key_Event_silent.
  rewrite Hev2. unfold callback_at in *. rewrite Hcbs. exact Hf.
Qed.

(** Witness of [C7_delete_removes_callback]: deleting the
    [KEY_EVENT_PRESSED] callback of key A of [two_keys]. *)
Lemma C7_delete_removes_callback_witness :
  event_code KEY_EVENT_PRESSED < event_code KEY_EVENT_MAX /\
  trace (snd (_NN_Key_Event (Some 0%nat) 100
                (pend 0%nat KEY_EVENT_PRESSED
                   (snd (NN_Key_DeleteCb (Some 0%nat) KEY_EVENT_PRESSED
                           two_keys)))))
  = [].
Proof.
  split; [reflexivity|].
  destruct (C7_delete_removes_callback two_keys 0%nat KEY_EVENT_PRESSED None
              eq_refl) as (_ & _ & _ & _ & H).
  apply (H (pend 0%nat KEY_EVENT_PRESSED
              (snd (NN_Key_DeleteCb (Some 0%nat) KEY_EVENT_PRESSED two_keys)))
           100); reflexivity.
Defined.

(** ** [NN_Combo_Add] where it is defined *)

Lemma uint8_range z : 0 <= uint8 z <= 255.
Proof.
  unfold uint8. pose proof (Z.mod_pos_bound z (2 ^ 8) ltac:(lia)). lia.
Qed.

Lemma uint8_small z : 0 <= z <= 255 -> uint8 z = z.
Proof. intros H. unfold uint8. apply Z.mod_small. lia. Qed.

Lemma uint16_range z : 0 <= uint16 z <= 65535.
Proof.
  unfold uint16. pose proof (Z.mod_pos_bound z (2 ^ 16) ltac:(lia)). lia.
Qed.

Lemma uint16_small z : 0 <= z <= 65535 -> uint16 z = z.
Proof. intros H. unfold uint16. apply Z.mod_small. lia. Qed.

(** The loop over the variadic members returns only if every argument it
    reads was passed; it then is the loop over those arguments. *)
Lemma combo_add_rest_defined c rest l :
  forall s3 s4,
    foldM (fun st i =>
             temp <- nth_error rest i ;;
             Some (combo_add_member c i temp st)) l s3 = Some s4 ->
    s4 = fold_left (fun st i => combo_add_member c i (nth i rest None) st)
                   l s3 /\
    forall i, In i l -> (i < List.length rest)%nat.
Proof.
  induction l as [|a l IH]; intros s3 s4 H; cbn [foldM fold_left] in *.
  - inversion H; subst. split; [reflexivity|intros i []].
  - destruct (nth_error rest a) as [t|] eqn:E; cbn [bind] in H;
      [|discriminate].
    destruct (IH _ _ H) as [-> Hl].
    rewrite (nth_error_nth rest a None E).
    split; [reflexivity|].
    intros i [<-|Hi]; [|exact (Hl i Hi)].
    apply nth_error_Some. rewrite E. discriminate.
Qed.

Lemma combo_add_rest_total c rest l :
  (forall i, In i l -> (i < List.length rest)%nat) ->
  forall s3,
    foldM (fun st i =>
             temp <- nth_error rest i ;;
             Some (combo_add_member c i temp st)) l s3
    = Some (fold_left
              (fun st i => combo_add_member c i (nth i rest None) st) l s3).
Proof.
  induction l as [|a l IH]; intros Hl s3; cbn [foldM fold_left];
    [reflexivity|].
  destruct (nth_error rest a) as [t|] eqn:E.
  - cbn [bind]. rewrite (nth_error_nth rest a None E).
    apply IH. intros i Hi. apply Hl. right; exact Hi.
  - apply nth_error_None in E.
    specialize (Hl a (or_introl eq_refl)). lia.
Qed.

Lemma combo_add_member_lists c i t st :
  _nn_key_list (combo_add_member c i t st) = _nn_key_list st /\
  _nn_combo_list (combo_add_member c i t st) = _nn_combo_list st.
Proof. destruct t; split; reflexivity. Qed.

Lemma combo_add_rest_lists c rest l :
  forall s3,
    _nn_key_list
      (fold_left (fun st i => combo_add_member c i (nth i rest None) st) l s3)
    = _nn_key_list s3 /\
    _nn_combo_list
      (fold_left (fun st i => combo_add_member c i (nth i rest None) st) l s3)
    = _nn_combo_list s3.
Proof.
  induction l as [|a l IH]; intros s3; cbn [fold_left]; [split; reflexivity|].
  destruct (IH (combo_add_member c a (nth a rest None) s3)) as [-> ->].
  apply combo_add_member_lists.
Qed.

(** What a call of [NN_Combo_Add] returns when its behaviour is defined:
    either it rejects its arguments, or there is room in the array, every
    variadic argument it reads was passed, and it registers the combo. *)
Lemma Combo_Add_defined comb id n m1 m2 rest s r s' :
  NN_Combo_Add comb id n m1 m2 rest s = Some (r, s') ->
  (r = false /\ s' = s) \/
  exists c a b,
    comb = Some c /\ m1 = Some a /\ m2 = Some b /\ r = true /\
    uint8 n <= KEY_MAX_COMBO_MEMBER /\
    Z.of_nat (List.length (_nn_combo_list s)) < KEY_MAX_COMBO_NUMBER /\
    (forall i, In i (upto (uint8 n - 2)) -> (i < List.length rest)%nat) /\
    s' = combo_add_result c id (uint8 n) a b rest s.
Proof.
  unfold NN_Combo_Add. cbv zeta. intros H.
  destruct (Z.ltb_spec KEY_MAX_COMBO_MEMBER (uint8 n)) as [Hgt|Hle];
    cbn [orb] in H.
  { inversion H; subst. left; split; reflexivity. }
  destruct (KEY_MAX_COMBO_NUMBER <? Z.of_nat (List.length (_nn_combo_list s)));
    [inversion H; subst; left; split; reflexivity|].
  destruct comb as [c|]; [|inversion H; subst; left; split; reflexivity].
  destruct m1 as [a|]; [|inversion H; subst; left; split; reflexivity].
  destruct m2 as [b|]; [|inversion H; subst; left; split; reflexivity].
  destruct (foldM _ (upto (uint8 n - 2)) _) as [s4|] eqn:E4;
    cbn [bind] in H; [|discriminate].
  apply combo_add_rest_defined in E4. destruct E4 as [-> Hl].
  destruct (combo_add_rest_lists c rest (upto (uint8 n - 2))
              (combo_add_init c id (uint8 n) a b s)) as [_ L].
  rewrite L in H. change (_nn_combo_list (combo_add_init c id (uint8 n) a b s))
    with (_nn_combo_list s) in H.
  destruct (Z.ltb_spec (Z.of_nat (List.length (_nn_combo_list s)))
                       KEY_MAX_COMBO_NUMBER) as [Hroom|_];
    [|discriminate].
  inversion H; subst. right. exists c, a, b. repeat split; assumption.
Qed.

(** Conversely, such a call is defined. *)
Lemma Combo_Add_registers c id n a b rest s :
  uint8 n <= KEY_MAX_COMBO_MEMBER ->
  Z.of_nat (List.length (_nn_combo_list s)) < KEY_MAX_COMBO_NUMBER ->
  (forall i, In i (upto (uint8 n - 2)) -> (i < List.length rest)%nat) ->
  NN_Combo_Add (Some c) id n (Some a) (Some b) rest s
  = Some (true, combo_add_result c id (uint8 n) a b rest s).
Proof.
  intros Hle Hroom Hl. unfold NN_Combo_Add. cbv zeta.
  rewrite (proj2 (Z.ltb_ge _ _) Hle).
  rewrite (proj2 (Z.ltb_ge KEY_MAX_COMBO_NUMBER
                           (Z.of_nat (List.length (_nn_combo_list s)))))
    by lia.
  cbn [orb]. rewrite (combo_add_rest_total c rest _ Hl). cbn [bind].
  destruct (combo_add_rest_lists c rest (upto (uint8 n - 2))
              (combo_add_init c id (uint8 n) a b s)) as [_ L].
  rewrite L.
  change (_nn_combo_list (combo_add_init c id (uint8 n) a b s))
    with (_nn_combo_list s).
  rewrite (proj2 (Z.ltb_lt _ _) Hroom). reflexivity.
Qed.

(** ** C6: registration with invalid arguments *)

(** The rejections that the code does perform leave the state as it is. *)
Lemma NN_Key_Add_rejects key id read_func s :
  key = None \/ read_func = None \/
  KEY_MAX_KEY_NUMBER <= Z.of_nat (List.length (_nn_key_list s)) ->
  NN_Key_Add key id read_func s = (false, s).
Proof.
  intros H. unfold NN_Key_Add.
  destruct key as [p|]; [|reflexivity].
  destruct read_func as [f|]; [|reflexivity].
  destruct H as [H|[H|H]]; try discriminate.
  cbn [is_null orb].
  destruct (Z.leb_spec KEY_MAX_KEY_NUMBER
                       (Z.of_nat (List.length (_nn_key_list s))));
    [reflexivity|lia].
Qed.

Lemma NN_Key_SetCb_rejects key ev cb ud s :
  key = None \/ cb = None \/ event_code KEY_EVENT_MAX <= event_code ev ->
  NN_Key_SetCb key ev cb ud s = (false, s).
Proof.
  intros H. unfold NN_Key_SetCb. destruct key as [p|]; [|reflexivity].
  destruct H as [H|[H|H]]; try discriminate.
  - subst cb. cbn [is_null]. rewrite orb_true_r. reflexivity.
  - destruct (Z.leb_spec (event_code KEY_EVENT_MAX) (event_code ev));
      [reflexivity|lia].
Qed.

Lemma NN_Combo_Add_rejects comb id mem_nbr m1 m2 rest s :
  comb = None \/ m1 = None \/ m2 = None \/
  KEY_MAX_COMBO_MEMBER < uint8 mem_nbr \/
  KEY_MAX_COMBO_NUMBER < Z.of_nat (List.length (_nn_combo_list s)) ->
  NN_Combo_Add comb id mem_nbr m1 m2 rest s = Some (false, s).
Proof.
  intros H. unfold NN_Combo_Add. cbv zeta.
  destruct ((KEY_MAX_COMBO_MEMBER <? uint8 mem_nbr)
            || (KEY_MAX_COMBO_NUMBER
                <? Z.of_nat (List.length (_nn_combo_list s)))) eqn:E;
    [reflexivity|].
  apply orb_false_elim in E. destruct E as [E1 E2].
  apply Z.ltb_ge in E1. apply Z.ltb_ge in E2.
  destruct comb as [c|]; [|reflexivity].
  destruct m1 as [a|]; [|reflexivity].
  destruct m2 as [b|]; [|reflexivity].
  destruct H as [H|[H|[H|[H|H]]]]; try discriminate; lia.
Qed.

(** C6, the code at the failing inputs.  With the combo registry full
    (20 registered combos) a further [NN_Combo_Add] with valid members is
    not rejected: it passes the test [_nn_combo_num > KEY_MAX_COMBO_NUMBER]
    and goes on to store [_nn_combo_list[20]], past the end of the array,
    which is undefined.  With room in the registry, a member count of 1
    or 0 is accepted: the call returns true, registers the combo and
    marks both keys as combo members. *)
Theorem C6_combo_add_accepts_invalid :
  Z.of_nat (List.length (_nn_combo_list twenty_combos)) = KEY_MAX_COMBO_NUMBER /\
  NN_Combo_Add (Some 20%nat) "X"%string 2 (Some 0%nat) (Some 1%nat) []
               twenty_combos
  <> Some (false, twenty_combos) /\
  NN_Combo_Add (Some 20%nat) "X"%string 2 (Some 0%nat) (Some 1%nat) []
               twenty_combos
  = None /\
  is_member (keys two_keys 0%nat) = false /\
  option_map
    (fun r => (fst r, _nn_combo_list (snd r),
               combo_member_nbr (combs (snd r) 0%nat),
               combo_value_excepted (combs (snd r) 0%nat),
               is_member (keys (snd r) 0%nat),
               is_member (keys (snd r) 1%nat)))
    (NN_Combo_Add (Some 0%nat) "X"%string 1 (Some 0%nat) (Some 1%nat) []
                  two_keys)
  = Some (true, [0%nat], 1, 1, true, true) /\
  option_map fst
    (NN_Combo_Add (Some 0%nat) "X"%string 0 (Some 0%nat) (Some 1%nat) []
                  two_keys)
  = Some true.
Proof.
  assert (E : NN_Combo_Add (Some 20%nat) "X"%string 2 (Some 0%nat)
                           (Some 1%nat) [] twenty_combos = None)
    by (vm_compute; reflexivity).
  split; [vm_compute; reflexivity|].
  split; [rewrite E; discriminate|].
  split; [exact E|].
  repeat split; vm_compute; reflexivity.
Qed.

(** ** The phases of the handler *)

Lemma foldM_app {A S : Type} (f : S -> A -> option S) l1 l2 s :
  foldM f (l1 ++ l2) s = (s1 <- foldM f l1 s ;; foldM f l2 s1).
Proof.
  revert s; induction l1 as [|a l1 IH]; intros s; simpl; [reflexivity|].
  destruct (f s a); simpl; [apply IH|reflexivity].
Qed.

Lemma foldM_inv {A S : Type} (I : S -> Prop) (f : S -> A -> option S) l :
  (forall s a s', In a l -> I s -> f s a = Some s' -> I s') ->
  forall s s', I s -> foldM f l s = Some s' -> I s'.
Proof.
  induction l as [|a l IH]; intros Hstep s s' Hs Hf; simpl in Hf.
  - inversion Hf; subst; assumption.
  - destruct (f s a) as [s1|] eqn:E; simpl in Hf; [|discriminate].
    apply (IH (fun s0 x s0' Hin => Hstep s0 x s0' (or_intror Hin)) s1 s');
      [|assumption].
    apply (Hstep s a s1); [left; reflexivity|assumption|assumption].
Qed.

Lemma foldM_total {A S : Type} (I : S -> Prop) (f : S -> A -> option S) l :
  (forall s a, In a l -> I s -> exists s', f s a = Some s' /\ I s') ->
  forall s, I s -> exists s', foldM f l s = Some s' /\ I s'.
Proof.
  induction l as [|a l IH]; intros Hstep s Hs; simpl.
  - exists s; split; [reflexivity|assumption].
  - destruct (Hstep s a (or_introl eq_refl) Hs) as (s1 & E & Hs1).
    rewrite E; simpl.
    apply IH; [|assumption].
    intros s0 x Hin; apply Hstep; right; assumption.
Qed.

Lemma fold_left_inv {A S : Type} (I : S -> Prop) (f : S -> A -> S) l :
  (forall s a, In a l -> I s -> I (f s a)) ->
  forall s, I s -> I (fold_left f l s).
Proof.
  induction l as [|a l IH]; intros Hstep s Hs; simpl; [assumption|].
  apply IH; [intros s0 x Hin; apply Hstep; right; assumption|].
  apply Hstep; [left; reflexivity|assumption].
Qed.

(** *** Records *)

Lemma key_eta k :
  k = with_lock_flag (lock_flag k) (with_event (event k) k).
Proof. destruct k; reflexivity. Qed.

Lemma same_core_refl k : same_core k k.
Proof. apply key_eta. Qed.

Lemma same_core_trans k1 k2 k3 :
  same_core k1 k2 -> same_core k2 k3 -> same_core k1 k3.
Proof.
  unfold same_core; intros H12 H23. rewrite H23 at 1. rewrite H12 at 1.
  destruct k1; reflexivity.
Qed.

Lemma same_core_sym k1 k2 : same_core k1 k2 -> same_core k2 k1.
Proof.
  unfold same_core; intros H. rewrite H. destruct k1; reflexivity.
Qed.

Lemma same_core_lock b k : same_core k (with_lock_flag b k).
Proof. destruct k; reflexivity. Qed.

Lemma same_core_event e k : same_core k (with_event e k).
Proof. destruct k; reflexivity. Qed.

(** The fields that [same_core] keeps. *)
Lemma same_core_fields k k' :
  same_core k k' ->
  key_read k' = key_read k /\ state k' = state k /\
  key_last_time k' = key_last_time k /\ multi_count k' = multi_count k /\
  is_member k' = is_member k /\ callbacks k' = callbacks k /\
  callback_mask k' = callback_mask k /\
  debounce_time k' = debounce_time k /\ long_time k' = long_time k /\
  long_alws_time k' = long_alws_time k /\ multi_time k' = multi_time k.
Proof.
  unfold same_core; intros H. rewrite H; destruct k; simpl.
  repeat split.
Qed.

(** Splitting the conjunctions of a goal, leaving defined predicates
    folded. *)
Ltac splits :=
  repeat match goal with |- _ /\ _ => split end; try reflexivity.

(** The state machine writes neither the configuration nor the flags. *)
Ltac sm_cases k :=
  unfold _NN_Key_StateMachine;
  destruct (state k);
  repeat match goal with
         | |- context [if ?b then _ else _] => destruct b
         end;
  try reflexivity.

Lemma SM_static k tick v :
  let k' := _NN_Key_StateMachine k tick v in
  key_read k' = key_read k /\ is_member k' = is_member k /\
  lock_flag k' = lock_flag k /\ callbacks k' = callbacks k /\
  callback_mask k' = callback_mask k /\
  debounce_time k' = debounce_time k /\ long_time k' = long_time k /\
  long_alws_time k' = long_alws_time k /\ multi_time k' = multi_time k /\
  multi_max k' = multi_max k.
Proof. cbv zeta. sm_cases k; repeat split. Qed.

Lemma sm_step_static tick io k :
  let k' := sm_step tick io k in
  key_read k' = key_read k /\ is_member k' = is_member k /\
  lock_flag k' = lock_flag k /\ callbacks k' = callbacks k /\
  callback_mask k' = callback_mask k.
Proof.
  cbv zeta. unfold sm_step. destruct (key_read k) as [f|] eqn:E.
  - destruct (SM_static k tick (io f)) as (H1 & H2 & H3 & H4 & H5 & _).
    rewrite H1, H2, H3, H4, H5, E. repeat split.
  - rewrite E. repeat split.
Qed.

(** *** First loop: the lock flags of member keys are reset *)

Lemma reset_lock_frame s p :
  combs (reset_lock s p) = combs s /\
  _nn_key_list (reset_lock s p) = _nn_key_list s /\
  _nn_combo_list (reset_lock s p) = _nn_combo_list s /\
  LastTick (reset_lock s p) = LastTick s /\
  trace (reset_lock s p) = trace s.
Proof.
  unfold reset_lock. destruct (is_member (keys s p)); repeat split.
Qed.

Lemma reset_phase l s :
  let s' := fold_left reset_lock l s in
  combs s' = combs s /\ _nn_key_list s' = _nn_key_list s /\
  _nn_combo_list s' = _nn_combo_list s /\ LastTick s' = LastTick s /\
  trace s' = trace s /\
  forall p,
    keys s' p = if existsb (Nat.eqb p) l && is_member (keys s p)
                then with_lock_flag false (keys s p) else keys s p.
Proof.
  cbv zeta. revert s; induction l as [|a l IH]; intros s; simpl.
  - repeat split.
  - destruct (IH (reset_lock s a)) as (H1 & H2 & H3 & H4 & H5 & H6).
    destruct (reset_lock_frame s a) as (F1 & F2 & F3 & F4 & F5).
    rewrite H1, H2, H3, H4, H5, F1, F2, F3, F4, F5.
    repeat split. intros p. rewrite H6.
    unfold reset_lock.
    destruct (Nat.eqb_spec p a) as [->|Hne]; simpl.
    + destruct (is_member (keys s a)) eqn:Em; simpl.
      * rewrite upd_same.
        destruct (keys s a); simpl in *. rewrite Em.
        destruct (existsb (Nat.eqb a) l); reflexivity.
      * rewrite Em, andb_false_r. reflexivity.
    + destruct (is_member (keys s a)); simpl;
        [rewrite upd_other by assumption|]; reflexivity.
Qed.

(** *** Second loop: every registered key takes one step per occurrence *)

Lemma sm_phase tick io l s s' :
  foldM (run_state_machine tick io) l s = Some s' ->
  combs s' = combs s /\ _nn_key_list s' = _nn_key_list s /\
  _nn_combo_list s' = _nn_combo_list s /\ LastTick s' = LastTick s /\
  trace s' = trace s /\
  forall p,
    keys s' p
    = Nat.iter (count_occ Nat.eq_dec l p) (sm_step tick io) (keys s p).
Proof.
  revert s; induction l as [|a l IH]; intros s Hf; simpl in Hf.
  - inversion Hf; subst. repeat split.
  - unfold run_state_machine at 1 in Hf.
    destruct (key_read (keys s a)) as [f|] eqn:Er; simpl in Hf;
      [|discriminate].
    destruct (IH _ Hf) as (H1 & H2 & H3 & H4 & H5 & H6).
    rewrite H1, H2, H3, H4, H5. repeat split.
    intros p. rewrite H6. simpl.
    destruct (Nat.eq_dec a p) as [->|Hne].
    + rewrite upd_same. rewrite Nat.iter_succ_r.
      unfold sm_step at 3. rewrite Er. reflexivity.
    + rewrite upd_other by congruence. reflexivity.
Qed.

Lemma key_read_iter_sm_step tick io n k :
  key_read (Nat.iter n (sm_step tick io) k) = key_read k.
Proof.
  induction n as [|n IH]; simpl; [reflexivity|].
  destruct (sm_step_static tick io (Nat.iter n (sm_step tick io) k))
    as (H & _). rewrite H. exact IH.
Qed.

Lemma sm_phase_total tick io l s :
  (forall p, In p l -> key_read (keys s p) <> None) ->
  exists s', foldM (run_state_machine tick io) l s = Some s'.
Proof.
  revert s; induction l as [|a l IH]; intros s Hr; simpl.
  - eexists; reflexivity.
  - unfold run_state_machine at 1.
    destruct (key_read (keys s a)) as [f|] eqn:Er; simpl.
    + apply IH. intros p Hin. simpl.
      destruct (Nat.eq_dec p a) as [->|Hne].
      * rewrite upd_same.
        destruct (SM_static (keys s a) tick (io f)) as (H & _).
        rewrite H, Er. discriminate.
      * rewrite upd_other by assumption. apply Hr; right; assumption.
    + exfalso. apply (Hr a); [left; reflexivity|assumption].
Qed.

(** *** Dispatch *)

(** What one call of the dispatcher does. *)
Lemma Key_Event_effect s p tick :
  let s' := snd (_NN_Key_Event (Some p) tick s) in
  fst (_NN_Key_Event (Some p) tick s) = true /\
  combs s' = combs s /\ _nn_key_list s' = _nn_key_list s /\
  _nn_combo_list s' = _nn_combo_list s /\
  (forall q, q <> p -> keys s' q = keys s q) /\
  (keys s' p = keys s p \/
   keys s' p = with_event KEY_EVENT_INIT (keys s p)) /\
  (event (keys s p) = KEY_EVENT_LONG_PRESSED_ALWS -> keys s' = keys s) /\
  (event (keys s p) <> KEY_EVENT_LONG_PRESSED_ALWS ->
   event (keys s' p) = KEY_EVENT_INIT) /\
  ((trace s' = trace s /\ LastTick s' = LastTick s) \/
   (exists f ud,
       trace s' = trace s ++ [KeyCallback f p (event (keys s p)) ud] /\
       event (keys s p) <> KEY_EVENT_LONG_PRESSED_ALWS /\
       LastTick s' = LastTick s) \/
   (exists f ud,
       trace s' = trace s ++ [KeyCallback f p KEY_EVENT_LONG_PRESSED_ALWS ud] /\
       event (keys s p) = KEY_EVENT_LONG_PRESSED_ALWS /\
       KEY_LONG_PRESS_ALWS_CB <= sub32 tick (LastTick s) /\
       LastTick s' = tick)).
Proof.
  cbv zeta. unfold _NN_Key_Event.
  destruct (event_eqb (event (keys s p)) KEY_EVENT_INIT) eqn:Ei.
  { apply event_eqb_eq in Ei. cbn [fst snd].
    split; [reflexivity|]. split; [reflexivity|]. split; [reflexivity|].
    split; [reflexivity|]. split; [reflexivity|].
    split; [left; reflexivity|]. split; [reflexivity|].
    split; [intros _; exact Ei|].
    left; split; reflexivity. }
  destruct (if mask_has (keys s p) (event (keys s p))
            then func (callback_at (keys s p) (event (keys s p)))
            else None) as [f|].
  - destruct (event_eqb (event (keys s p)) KEY_EVENT_LONG_PRESSED_ALWS) eqn:Ea.
    + apply event_eqb_eq in Ea.
      destruct (Z.leb_spec KEY_LONG_PRESS_ALWS_CB (sub32 tick (LastTick s)));
        cbn [fst snd keys combs _nn_key_list _nn_combo_list LastTick trace
             log set_LastTick].
      * split; [reflexivity|]. split; [reflexivity|]. split; [reflexivity|].
        split; [reflexivity|]. split; [reflexivity|].
        split; [left; reflexivity|]. split; [reflexivity|].
        split; [intros H0; contradiction|].
        right; right.
        exists f, (user_data (callback_at (keys s p) (event (keys s p)))).
        rewrite Ea. repeat split; assumption.
      * split; [reflexivity|]. split; [reflexivity|]. split; [reflexivity|].
        split; [reflexivity|]. split; [reflexivity|].
        split; [left; reflexivity|]. split; [reflexivity|].
        split; [intros H0; contradiction|].
        left; split; reflexivity.
    + apply event_eqb_neq in Ea.
      cbn [negb fst snd keys combs _nn_key_list _nn_combo_list LastTick trace
           log set_key].
      split; [reflexivity|]. split; [reflexivity|]. split; [reflexivity|].
      split; [reflexivity|].
      split; [intros q Hq; apply upd_other; assumption|].
      split; [right; apply upd_same|].
      split; [intros H0; contradiction|].
      split; [intros _; rewrite upd_same; destruct (keys s p); reflexivity|].
      right; left.
      exists f, (user_data (callback_at (keys s p) (event (keys s p)))).
      repeat split; assumption.
  - destruct (event_eqb (event (keys s p)) KEY_EVENT_LONG_PRESSED_ALWS) eqn:Ea;
      cbn [negb fst snd keys combs _nn_key_list _nn_combo_list LastTick trace
           set_key].
    + apply event_eqb_eq in Ea.
      split; [reflexivity|]. split; [reflexivity|]. split; [reflexivity|].
      split; [reflexivity|]. split; [reflexivity|].
      split; [left; reflexivity|]. split; [reflexivity|].
      split; [intros H0; contradiction|].
      left; split; reflexivity.
    + apply event_eqb_neq in Ea.
      split; [reflexivity|]. split; [reflexivity|]. split; [reflexivity|].
      split; [reflexivity|].
      split; [intros q Hq; apply upd_other; assumption|].
      split; [right; apply upd_same|].
      split; [intros H0; contradiction|].
      split; [intros _; rewrite upd_same; destruct (keys s p); reflexivity|].
      left; split; reflexivity.
Qed.

Lemma key_call_in_incl l l' c :
  incl l l' -> key_call_in l c -> key_call_in l' c.
Proof.
  intros Hi (f & q & ev & ud & -> & Hin). exists f, q, ev, ud.
  split; [reflexivity|apply Hi; assumption].
Qed.

(** One iteration of the third loop of the handler. *)
Lemma dispatch_effect tick r s p :
  let s' := snd (dispatch tick (r, s) p) in
  fst (dispatch tick (r, s) p) = r /\
  combs s' = combs s /\ _nn_key_list s' = _nn_key_list s /\
  _nn_combo_list s' = _nn_combo_list s /\
  (forall q, q <> p -> keys s' q = keys s q) /\
  (keys s' p = keys s p \/
   keys s' p = with_event KEY_EVENT_INIT (keys s p)) /\
  (event (keys s p) = KEY_EVENT_LONG_PRESSED_ALWS -> keys s' = keys s) /\
  (lock_flag (keys s p) = false ->
   event (keys s p) <> KEY_EVENT_LONG_PRESSED_ALWS ->
   event (keys s' p) = KEY_EVENT_INIT) /\
  exists d,
    trace s' = trace s ++ d /\ Forall (key_call_in [p]) d /\
    ((filter is_continuous_call d = [] /\ LastTick s' = LastTick s) \/
     (exists c, filter is_continuous_call d = [c] /\
                KEY_LONG_PRESS_ALWS_CB <= sub32 tick (LastTick s) /\
                event (keys s p) = KEY_EVENT_LONG_PRESSED_ALWS /\
                LastTick s' = tick)).
Proof.
  cbv zeta. unfold dispatch.
  destruct (lock_flag (keys s p)) eqn:El; cbn [fst snd].
  { repeat split; try reflexivity; try (left; reflexivity);
      try discriminate.
    exists []. rewrite app_nil_r. repeat split; [constructor|].
    left; split; reflexivity. }
  destruct (Key_Event_effect s p tick)
    as (Hr & Hc & Hk & Hcl & Hq & Hp & Ha & Hi & Ht).
  destruct (_NN_Key_Event (Some p) tick s) as [r' s'] eqn:E.
  cbn [fst snd] in *. subst r'. rewrite andb_true_r.
  repeat split; try assumption.
  { intros _; assumption. }
  destruct Ht as [[Ht Hl]|[(f & ud & Ht & Hne & Hl)|(f & ud & Ht & He & Hge & Hl)]].
  - exists []. rewrite app_nil_r. repeat split; [assumption|constructor|].
    left; split; [reflexivity|assumption].
  - eexists; split; [exact Ht|]. split.
    + constructor; [|constructor]. eexists _, _, _, _.
      split; [reflexivity|left; reflexivity].
    + left. split; [|assumption]. simpl.
      apply event_eqb_neq in Hne. rewrite Hne. reflexivity.
  - eexists; split; [exact Ht|]. split.
    + constructor; [|constructor]. eexists _, _, _, _.
      split; [reflexivity|left; reflexivity].
    + right. eexists. repeat split; try eassumption; try reflexivity.
Qed.

(** The third loop: every key is left as it was or has its event
    cleared; only key callbacks of the listed keys are invoked, among
    them at most one continuous one, and that one only if 50 ms have
    passed since [LastTick]. *)
Lemma dispatch_phase tick l r s :
  let s' := snd (fold_left (dispatch tick) l (r, s)) in
  fst (fold_left (dispatch tick) l (r, s)) = r /\
  combs s' = combs s /\ _nn_key_list s' = _nn_key_list s /\
  _nn_combo_list s' = _nn_combo_list s /\
  (forall q, keys s' q = keys s q \/
             keys s' q = with_event KEY_EVENT_INIT (keys s q)) /\
  (forall q, ~ In q l -> keys s' q = keys s q) /\
  exists d,
    trace s' = trace s ++ d /\ Forall (key_call_in l) d /\
    ((filter is_continuous_call d = [] /\ LastTick s' = LastTick s) \/
     (exists c, filter is_continuous_call d = [c] /\
                KEY_LONG_PRESS_ALWS_CB <= sub32 tick (LastTick s) /\
                LastTick s' = tick)).
Proof.
  cbv zeta. revert r s; induction l as [|a l IH]; intros r s.
  - cbn [fold_left fst snd]. repeat split; try reflexivity.
    + intros q; left; reflexivity.
    + exists []. rewrite app_nil_r. repeat split; [constructor|].
      left; split; reflexivity.
  - cbn [fold_left].
    destruct (dispatch_effect tick r s a)
      as (Hr & Hc & Hk & Hcl & Hq & Hp & _ & _ & d1 & Ht1 & Hd1 & Hl1).
    destruct (dispatch tick (r, s) a) as [r1 s1] eqn:E.
    cbn [fst snd] in *. subst r1.
    destruct (IH r s1) as (Ir & Ic & Ik & Icl & Iq & Inq & d2 & It2 & Id2 & Il2).
    rewrite Ir, Ic, Ik, Icl, Hc, Hk, Hcl.
    repeat split.
    + intros q. destruct (Nat.eq_dec q a) as [->|Hne].
      * destruct (Iq a) as [I1|I1]; rewrite I1;
          destruct Hp as [H1|H1]; rewrite H1; auto.
      * rewrite <- (Hq q Hne). apply Iq.
    + intros q Hnin. rewrite Inq by (intros Hin; apply Hnin; right; assumption).
      apply Hq. intros ->. apply Hnin; left; reflexivity.
    + exists (d1 ++ d2). rewrite It2, Ht1, app_assoc. split; [reflexivity|].
      split.
      { apply Forall_app; split.
        - eapply Forall_impl; [|exact Hd1].
          intros c. apply key_call_in_incl.
          intros x [<-|[]]; left; reflexivity.
        - eapply Forall_impl; [|exact Id2].
          intros c. apply key_call_in_incl.
          intros x Hx; right; assumption. }
      rewrite filter_app.
      destruct Hl1 as [[Hf1 Hl1]|(c & Hf1 & Hge & _ & Hl1)];
        destruct Il2 as [[Hf2 Hl2]|(c2 & Hf2 & Hge2 & Hl2)];
        rewrite Hf1, Hf2.
      * left. split; [reflexivity|congruence].
      * right. exists c2. rewrite Hl1 in Hge2. repeat split; assumption.
      * right. exists c. repeat split; [assumption|congruence].
      * exfalso. rewrite Hl1, sub32_diag in Hge2.
        unfold KEY_LONG_PRESS_ALWS_CB in Hge2. lia.
Qed.

(** *** Combo recognition *)

Lemma same_combo_static_refl c : same_combo_static c c.
Proof. destruct c; reflexivity. Qed.

Lemma same_combo_static_trans c1 c2 c3 :
  same_combo_static c1 c2 -> same_combo_static c2 c3 ->
  same_combo_static c1 c3.
Proof.
  unfold same_combo_static; intros H12 H23. rewrite H23 at 1.
  rewrite H12 at 1. destruct c1; reflexivity.
Qed.

Lemma same_combo_static_fields c c' :
  same_combo_static c c' ->
  combo_member c' = combo_member c /\
  combo_member_nbr c' = combo_member_nbr c /\
  combo_value_excepted c' = combo_value_excepted c /\
  combo_window c' = combo_window c /\ combo_cb c' = combo_cb c.
Proof.
  unfold same_combo_static; intros H. rewrite H. destruct c; simpl.
  repeat split.
Qed.

Lemma cleared_refl k : cleared k k.
Proof. split; [apply same_core_refl|left; reflexivity]. Qed.

Lemma cleared_trans k1 k2 k3 : cleared k1 k2 -> cleared k2 k3 -> cleared k1 k3.
Proof.
  intros [H12 E12] [H23 E23]. split; [eapply same_core_trans; eassumption|].
  destruct E23 as [E|E]; [rewrite E; assumption|right; assumption].
Qed.

Lemma cleared_lock b k : cleared k (with_lock_flag b k).
Proof. split; [apply same_core_lock|left; destruct k; reflexivity]. Qed.

Lemma cleared_lock_event b k :
  cleared k (with_lock_flag b (with_event KEY_EVENT_INIT k)).
Proof. split; [destruct k; reflexivity|right; destruct k; reflexivity]. Qed.

Lemma combo_frame_refl c s : combo_frame c s s.
Proof.
  unfold combo_frame. repeat split. apply same_combo_static_refl.
Qed.

Lemma combo_frame_trans c s1 s2 s3 :
  combo_frame c s1 s2 -> combo_frame c s2 s3 -> combo_frame c s1 s3.
Proof.
  intros (A1 & A2 & A3 & A4 & A5 & A6 & A7) (B1 & B2 & B3 & B4 & B5 & B6 & B7).
  unfold combo_frame. rewrite B1, B2, B3, B4, B5, A1, A2, A3, A4, A5.
  repeat split.
  - intros c' Hc. rewrite B6, A6 by assumption. reflexivity.
  - eapply same_combo_static_trans; eassumption.
Qed.

(** Writing the dynamic fields of the combo at [c]. *)
Lemma combo_frame_set c s cb :
  same_combo_static (combs s c) cb -> combo_frame c s (set_comb c cb s).
Proof.
  intros H. unfold combo_frame; cbn [keys combs _nn_key_list _nn_combo_list
                                       LastTick trace set_comb].
  repeat split.
  - intros c' Hc. apply upd_other; assumption.
  - rewrite upd_same. assumption.
Qed.

Lemma combo_accumulate_static tick k cb act :
  same_combo_static cb (fst (combo_accumulate tick k cb act)).
Proof.
  unfold combo_accumulate.
  destruct (combo_mem_first cb =? 0);
    [|destruct (sub32 tick (combo_mem_first cb) <=? combo_window cb)];
    match goal with
    | |- context [if ?b then _ else _] => destruct b
    end; destruct cb; reflexivity.
Qed.

Lemma combo_check_member_frame tick c s act k s' act' :
  combo_check_member tick c (s, act) k = Some (s', act') ->
  combo_frame c s s'.
Proof.
  unfold combo_check_member.
  destruct (member_at (combs s c) k) as [m|]; cbn [bind]; [|discriminate].
  destruct (negb (event_eqb (event (keys s m)) KEY_EVENT_PRESSED)).
  { intros H; inversion H; subst. apply combo_frame_refl. }
  pose proof (combo_accumulate_static tick k (combs s c) act) as Hst.
  destruct (combo_accumulate tick k (combs s c) act) as [cb' a'].
  intros H; inversion H; subst. apply combo_frame_set. exact Hst.
Qed.

Lemma combo_check_loop_frame tick c l s act s' act' :
  foldM (combo_check_member tick c) l (s, act) = Some (s', act') ->
  combo_frame c s s'.
Proof.
  intros H.
  apply (foldM_inv (fun st => combo_frame c s (fst st))
                   (combo_check_member tick c) l) with (s' := (s', act'))
                                                       (s := (s, act)).
  - intros [s0 a0] k [s1 a1] _ I0 E. cbn [fst] in *.
    eapply combo_frame_trans; [exact I0|].
    eapply combo_check_member_frame; exact E.
  - apply combo_frame_refl.
  - exact H.
Qed.

Lemma keys_frame_refl (R : nn_key_t -> nn_key_t -> Prop) s :
  (forall k, R k k) -> keys_frame R s s.
Proof. intros HR. unfold keys_frame. repeat split. intros q; apply HR. Qed.

Lemma keys_frame_trans (R : nn_key_t -> nn_key_t -> Prop) s1 s2 s3 :
  (forall k1 k2 k3, R k1 k2 -> R k2 k3 -> R k1 k3) ->
  keys_frame R s1 s2 -> keys_frame R s2 s3 -> keys_frame R s1 s3.
Proof.
  intros HR (A1 & A2 & A3 & A4 & A5 & A6) (B1 & B2 & B3 & B4 & B5 & B6).
  unfold keys_frame. rewrite B1, B2, B3, B4, B5, A1, A2, A3, A4, A5.
  repeat split. intros q. eapply HR; [apply A6|apply B6].
Qed.

Lemma for_members_frame (R : nn_key_t -> nn_key_t -> Prop) c body s s' :
  (forall k, R k k) ->
  (forall k1 k2 k3, R k1 k2 -> R k2 k3 -> R k1 k3) ->
  (forall k, R k (body k)) ->
  for_members c body s = Some s' -> keys_frame R s s'.
Proof.
  intros Hrefl Htrans Hbody. unfold for_members.
  apply (foldM_inv (keys_frame R s)).
  - intros s0 j s1 _ I0 E.
    destruct (member_at (combs s0 c) j) as [m|]; cbn [bind] in E;
      [|discriminate].
    inversion E; subst; clear E.
    eapply keys_frame_trans; [exact Htrans|exact I0|].
    unfold keys_frame; cbn [keys combs _nn_key_list _nn_combo_list LastTick
                             trace set_key].
    repeat split. intros q. unfold upd.
    destruct (Nat.eqb_spec q m) as [->|_]; [apply Hbody|apply Hrefl].
  - apply keys_frame_refl; assumption.
Qed.

(** Combo recognition for one combo. *)
Lemma combo_process_one_effect tick s c s' :
  combo_process_one tick s c = Some s' ->
  _nn_key_list s' = _nn_key_list s /\
  _nn_combo_list s' = _nn_combo_list s /\ LastTick s' = LastTick s /\
  (forall c', c' <> c -> combs s' c' = combs s c') /\
  same_combo_static (combs s c) (combs s' c) /\
  (forall q, cleared (keys s q) (keys s' q)) /\
  (trace s' = trace s \/
   exists f ud, trace s' = trace s ++ [ComboCallback f c ud]).
Proof.
  unfold combo_process_one.
  destruct (foldM (combo_check_member tick c)
                  (upto (combo_member_nbr (combs s c)))
                  (s, negb (combo_mem_first (combs s c) =? 0)))
    as [[s1 a1]|] eqn:E1; cbn [bind]; [|discriminate].
  apply combo_check_loop_frame in E1.
  destruct E1 as (K1 & L1 & CL1 & T1 & R1 & O1 & S1).
  (* locking *)
  destruct (if a1 then for_members c (with_lock_flag true) s1 else Some s1)
    as [s2|] eqn:E2; cbn [bind]; [|discriminate].
  assert (F2 : keys_frame cleared s1 s2).
  { destruct a1.
    - eapply for_members_frame; [exact cleared_refl|exact cleared_trans| |exact E2].
      intros k; apply cleared_lock.
    - inversion E2; subst. apply keys_frame_refl. exact cleared_refl. }
  destruct F2 as (C2 & L2 & CL2 & T2 & R2 & Q2).
  (* trigger *)
  destruct (if combo_trigger (combs s2 c)
            then
              s2b <- for_members c
                       (fun k => with_lock_flag false
                                   (with_event KEY_EVENT_INIT k))
                       (set_comb c (with_trigger false (combs s2 c)) s2) ;;
              match func (combo_cb (combs s2b c)) with
              | Some f =>
                  Some (log (ComboCallback f c
                               (user_data (combo_cb (combs s2b c)))) s2b)
              | None => Some s2b
              end
            else Some s2) as [s3|] eqn:E3; cbn [bind]; [|discriminate].
  assert (F3 : _nn_key_list s3 = _nn_key_list s2 /\
               _nn_combo_list s3 = _nn_combo_list s2 /\
               LastTick s3 = LastTick s2 /\
               (forall c', c' <> c -> combs s3 c' = combs s2 c') /\
               same_combo_static (combs s2 c) (combs s3 c) /\
               (forall q, cleared (keys s2 q) (keys s3 q)) /\
               (trace s3 = trace s2 \/
                exists f ud, trace s3 = trace s2 ++ [ComboCallback f c ud])).
  { destruct (combo_trigger (combs s2 c)).
    - destruct (for_members c
                  (fun k => with_lock_flag false (with_event KEY_EVENT_INIT k))
                  (set_comb c (with_trigger false (combs s2 c)) s2))
        as [s2b|] eqn:E3b; cbn [bind] in E3; [|discriminate].
      apply (for_members_frame cleared) in E3b;
        [|exact cleared_refl|exact cleared_trans
         |intros k; apply cleared_lock_event].
      destruct E3b as (C3 & L3 & CL3 & T3 & R3 & Q3).
      cbn [keys combs _nn_key_list _nn_combo_list LastTick trace set_comb]
        in *.
      assert (G : _nn_key_list s3 = _nn_key_list s2b /\
                  _nn_combo_list s3 = _nn_combo_list s2b /\
                  LastTick s3 = LastTick s2b /\ combs s3 = combs s2b /\
                  keys s3 = keys s2b /\
                  (trace s3 = trace s2b \/
                   exists f ud, trace s3 = trace s2b ++ [ComboCallback f c ud])).
      { destruct (func (combo_cb (combs s2b c))) as [f|];
          inversion E3; subst; cbn; splits; auto.
        right; eauto. }
      destruct G as (G1 & G2 & G3 & G4 & G5 & G6).
      rewrite G1, G2, G3, G4, G5, C3, L3, CL3, T3.
      splits.
      + intros c' Hc. apply upd_other; assumption.
      + rewrite upd_same. destruct (combs s2 c); reflexivity.
      + exact Q3.
      + rewrite <- R3. exact G6.
    - inversion E3; subst. splits.
      + apply same_combo_static_refl.
      + intros q; apply cleared_refl.
      + left; reflexivity. }
  destruct F3 as (L3 & CL3 & T3 & O3 & S3 & Q3 & R3).
  (* expiry *)
  intros E4.
  assert (F4 : _nn_key_list s' = _nn_key_list s3 /\
               _nn_combo_list s' = _nn_combo_list s3 /\
               LastTick s' = LastTick s3 /\ trace s' = trace s3 /\
               (forall c', c' <> c -> combs s' c' = combs s3 c') /\
               same_combo_static (combs s3 c) (combs s' c) /\
               (forall q, cleared (keys s3 q) (keys s' q))).
  { destruct (negb (combo_mem_first (combs s3 c) =? 0)
              && (combo_window (combs s3 c)
                  <? sub32 tick (combo_mem_first (combs s3 c)))).
    - apply (for_members_frame cleared) in E4;
        [|exact cleared_refl|exact cleared_trans|intros k; apply cleared_lock].
      destruct E4 as (C4 & L4 & CL4 & T4 & R4 & Q4).
      cbn [keys combs _nn_key_list _nn_combo_list LastTick trace set_comb]
        in *.
      rewrite C4, L4, CL4, T4, R4. splits.
      + intros c' Hc. apply upd_other; assumption.
      + rewrite upd_same. destruct (combs s3 c); reflexivity.
      + exact Q4.
    - inversion E4; subst. splits.
      + apply same_combo_static_refl.
      + intros q; apply cleared_refl. }
  destruct F4 as (L4 & CL4 & T4 & R4 & O4 & S4 & Q4).
  rewrite L4, CL4, T4, R4, L3, CL3, T3, L2, CL2, T2, L1, CL1, T1.
  splits.
  - intros c' Hc. rewrite O4, O3 by assumption. rewrite C2. apply O1; assumption.
  - eapply same_combo_static_trans; [|exact S4].
    eapply same_combo_static_trans; [|exact S3].
    rewrite C2. exact S1.
  - intros q. eapply cleared_trans; [|apply Q4].
    eapply cleared_trans; [|apply Q3].
    rewrite <- K1. apply Q2.
  - rewrite R2, R1 in R3. exact R3.
Qed.

Lemma combo_effect_refl s : combo_effect s s.
Proof.
  unfold combo_effect. splits.
  - intros c; apply same_combo_static_refl.
  - intros q; apply cleared_refl.
  - exists []. rewrite app_nil_r. split; [reflexivity|constructor].
Qed.

Lemma combo_effect_trans s1 s2 s3 :
  combo_effect s1 s2 -> combo_effect s2 s3 -> combo_effect s1 s3.
Proof.
  intros (A1 & A2 & A3 & A4 & A5 & d1 & A6 & A7)
         (B1 & B2 & B3 & B4 & B5 & d2 & B6 & B7).
  unfold combo_effect. rewrite B1, B2, B3, A1, A2, A3. splits.
  - intros c. eapply same_combo_static_trans; [apply A4|apply B4].
  - intros q. eapply cleared_trans; [apply A5|apply B5].
  - exists (d1 ++ d2). rewrite B6, A6, app_assoc. split; [reflexivity|].
    apply Forall_app; split; assumption.
Qed.

Lemma Combo_Process_effect tick s s' :
  _NN_Combo_Process tick s = Some s' -> combo_effect s s'.
Proof.
  unfold _NN_Combo_Process.
  apply (foldM_inv (combo_effect s)); [|apply combo_effect_refl].
  intros s0 c s1 _ I0 E. eapply combo_effect_trans; [exact I0|].
  apply combo_process_one_effect in E.
  destruct E as (L & CL & T & O & S & Q & R).
  unfold combo_effect. rewrite L, CL, T. splits.
  - intros c'. destruct (Nat.eq_dec c' c) as [->|Hne]; [exact S|].
    rewrite (O c' Hne). apply same_combo_static_refl.
  - exact Q.
  - destruct R as [R|(f & ud & R)].
    + exists []. rewrite app_nil_r. split; [assumption|constructor].
    + eexists; split; [exact R|]. constructor; [|constructor].
      exists f, c, ud; reflexivity.
Qed.

Lemma Combo_Process_none tick s :
  _nn_combo_list s = [] -> _NN_Combo_Process tick s = Some s.
Proof. intros H. unfold _NN_Combo_Process. rewrite H. reflexivity. Qed.

Lemma filter_continuous_combo d :
  Forall is_combo_call d -> filter is_continuous_call d = [].
Proof.
  induction 1 as [|c d (f & cb & ud & ->) _ IH]; simpl; [reflexivity|exact IH].
Qed.

Lemma new_calls_app s s' d : trace s' = trace s ++ d -> new_calls s s' = d.
Proof.
  intros H. unfold new_calls. rewrite H.
  rewrite skipn_app, skipn_all, Nat.sub_diag. reflexivity.
Qed.

(** *** The handler as a whole *)

(** Each call of the handler invokes at most one continuous callback, and
    only if 50 ms have passed since [LastTick], which then becomes the
    tick of the call; otherwise [LastTick] is unchanged. *)
Lemma handler_effect tick io s r s' :
  NN_Key_Handler tick io s = Some (r, s') ->
  r = true /\ _nn_key_list s' = _nn_key_list s /\
  _nn_combo_list s' = _nn_combo_list s /\
  (forall c, same_combo_static (combs s c) (combs s' c)) /\
  exists d,
    trace s' = trace s ++ d /\
    ((filter is_continuous_call d = [] /\ LastTick s' = LastTick s) \/
     (exists c, filter is_continuous_call d = [c] /\
                KEY_LONG_PRESS_ALWS_CB <= sub32 tick (LastTick s) /\
                LastTick s' = tick)).
Proof.
  unfold NN_Key_Handler. intros H.
  destruct (reset_phase (_nn_key_list s) s) as (C1 & L1 & CL1 & T1 & R1 & _).
  set (s1 := fold_left reset_lock (_nn_key_list s) s) in *.
  destruct (foldM (run_state_machine tick io) (_nn_key_list s1) s1)
    as [s2|] eqn:E2; cbn [bind] in H; [|discriminate].
  apply sm_phase in E2. destruct E2 as (C2 & L2 & CL2 & T2 & R2 & _).
  destruct (_NN_Combo_Process tick s2) as [s3|] eqn:E3; cbn [bind] in H;
    [|discriminate].
  apply Combo_Process_effect in E3.
  destruct E3 as (L3 & CL3 & T3 & S3 & _ & d3 & R3 & D3).
  destruct (dispatch_phase tick (_nn_key_list s3) true s3)
    as (Hr & C4 & L4 & CL4 & _ & _ & d4 & R4 & _ & D4).
  inversion H as [H']. rewrite H' in *. cbn [fst snd] in *.
  split; [congruence|].
  rewrite L4, CL4, L3, CL3, L2, CL2, L1, CL1. splits.
  - intros c. rewrite C4. specialize (S3 c). rewrite C2, C1 in S3. exact S3.
  - exists (d3 ++ d4). rewrite R4, R3, R2, R1, app_assoc.
    split; [reflexivity|]. rewrite filter_app, (filter_continuous_combo d3 D3).
    cbn [app]. rewrite T3, T2, T1 in D4. exact D4.
Qed.

(** Across any run of the handler, consecutive invocations of continuous
    callbacks, of whatever keys, are at least 50 ms apart. *)
Lemma continuous_ticks_spaced calls :
  forall s, spaced (LastTick s) (continuous_ticks calls s).
Proof.
  induction calls as [|[tick io] rest IH]; intros s; simpl; [exact I|].
  destruct (NN_Key_Handler tick io s) as [[r s']|] eqn:E; [|exact I].
  apply handler_effect in E.
  destruct E as (_ & _ & _ & _ & d & R & [[F L]|(c & F & G & L)]).
  - rewrite (new_calls_app s s' d R), F. simpl. rewrite <- L. apply IH.
  - rewrite (new_calls_app s s' d R), F. simpl. split; [exact G|].
    rewrite <- L. apply IH.
Qed.

(** ** C10: the rate limiter is shared by all keys *)

Lemma holds_continuous_ext k k' :
  state k' = state k -> key_read k' = key_read k ->
  callback_mask k' = callback_mask k -> callbacks k' = callbacks k ->
  forall r,
    (state k = KEY_STATE_LONG_PRESSED_ALWS /\ key_read k = Some r /\
     mask_has k KEY_EVENT_LONG_PRESSED_ALWS = true /\
     func (callback_at k KEY_EVENT_LONG_PRESSED_ALWS) <> None) ->
    state k' = KEY_STATE_LONG_PRESSED_ALWS /\ key_read k' = Some r /\
    mask_has k' KEY_EVENT_LONG_PRESSED_ALWS = true /\
    func (callback_at k' KEY_EVENT_LONG_PRESSED_ALWS) <> None.
Proof.
  intros Hs Hr Hm Hc r (H1 & H2 & H3 & H4).
  unfold mask_has, callback_at in *. rewrite Hs, Hr, Hm, Hc.
  repeat split; assumption.
Qed.

(** A held key stays in [KEY_STATE_LONG_PRESSED_ALWS] and re-emits the
    continuous event at every step. *)
Lemma sm_step_hold tick io k r :
  state k = KEY_STATE_LONG_PRESSED_ALWS -> key_read k = Some r ->
  io r = true ->
  sm_step tick io k = with_event KEY_EVENT_LONG_PRESSED_ALWS k.
Proof.
  intros Hs Hr Hio. unfold sm_step, _NN_Key_StateMachine.
  rewrite Hr, Hs, Hio. reflexivity.
Qed.

Lemma iter_sm_step_hold tick io k r n :
  state k = KEY_STATE_LONG_PRESSED_ALWS -> key_read k = Some r ->
  io r = true ->
  Nat.iter n (sm_step tick io) k
  = match n with
    | O => k
    | S _ => with_event KEY_EVENT_LONG_PRESSED_ALWS k
    end.
Proof.
  intros Hs Hr Hio. induction n as [|n IH]; [reflexivity|].
  rewrite Nat.iter_succ, IH. destruct n.
  - apply (sm_step_hold tick io k r); assumption.
  - rewrite (sm_step_hold tick io _ r); [destruct k; reflexivity| | |];
      try assumption; destruct k; assumption.
Qed.

Lemma count_occ_middle (l1 rest : list ptr) a :
  exists n, count_occ Nat.eq_dec (l1 ++ a :: rest) a = S n.
Proof.
  rewrite count_occ_app. simpl.
  destruct (Nat.eq_dec a a) as [_|N]; [|contradiction].
  rewrite Nat.add_succ_r. eexists; reflexivity.
Qed.

Lemma filter_nil_Forall {A : Type} (f : A -> bool) l :
  filter f l = [] -> Forall (fun x => f x = false) l.
Proof.
  induction l as [|x l IH]; simpl; intros H; [constructor|].
  destruct (f x) eqn:E; [discriminate|]. constructor; auto.
Qed.

Lemma continuous_call_of_is_continuous p c :
  is_continuous_call c = false -> continuous_call_of p c = false.
Proof.
  destruct c; simpl; [|reflexivity]. intros ->. apply andb_false_r.
Qed.

Lemma key_call_in_not_of l p c :
  ~ In p l -> key_call_in l c -> continuous_call_of p c = false.
Proof.
  intros Hn (f & q & ev & ud & -> & Hin). simpl.
  destruct (Nat.eqb_spec q p) as [->|_]; [contradiction|reflexivity].
Qed.

(** The dispatcher on a key with the continuous event pending and a
    callback registered for it. *)
Lemma Key_Event_continuous s p f tick :
  event (keys s p) = KEY_EVENT_LONG_PRESSED_ALWS ->
  mask_has (keys s p) KEY_EVENT_LONG_PRESSED_ALWS = true ->
  func (callback_at (keys s p) KEY_EVENT_LONG_PRESSED_ALWS) = Some f ->
  let s' := snd (_NN_Key_Event (Some p) tick s) in
  (KEY_LONG_PRESS_ALWS_CB <= sub32 tick (LastTick s) /\
   trace s'
   = trace s ++ [KeyCallback f p KEY_EVENT_LONG_PRESSED_ALWS
                   (user_data (callback_at (keys s p)
                                           KEY_EVENT_LONG_PRESSED_ALWS))] /\
   LastTick s' = tick) \/
  (sub32 tick (LastTick s) < KEY_LONG_PRESS_ALWS_CB /\
   trace s' = trace s /\ LastTick s' = LastTick s).
Proof.
  intros Hev Hmask Hfunc. cbv zeta. unfold _NN_Key_Event.
  rewrite Hev, Hmask, Hfunc. cbn [event_eqb event_code Z.eqb Pos.eqb].
  destruct (Z.leb_spec KEY_LONG_PRESS_ALWS_CB (sub32 tick (LastTick s)));
    cbn [snd log set_LastTick trace LastTick]; [left|right]; splits;
    assumption.
Qed.

(** During one call of the handler the earlier key [a] either fires or
    finds the interval not yet elapsed; in both cases nothing is left for
    the keys after it. *)
Lemma starving_step l1 a rest ra b rb tick io s :
  ~ In b l1 -> b <> a ->
  starving l1 a rest ra b rb s -> io ra = true -> io rb = true ->
  exists s',
    NN_Key_Handler tick io s = Some (true, s') /\
    starving l1 a rest ra b rb s' /\
    exists d, trace s' = trace s ++ d /\
              Forall (fun c => continuous_call_of b c = false) d.
Proof.
  intros Hnb Hba (Hcl & Hkl & Hrd & Ha & Hla & Hb & Heb) Hia Hib.
  unfold NN_Key_Handler.
  (* first loop *)
  destruct (reset_phase (_nn_key_list s) s) as (C1 & L1 & CL1 & T1 & R1 & K1).
  set (s1 := fold_left reset_lock (_nn_key_list s) s) in *.
  assert (K1' : forall p, keys s1 p = keys s p \/
                          keys s1 p = with_lock_flag false (keys s p)).
  { intros p. rewrite K1.
    destruct (existsb (Nat.eqb p) (_nn_key_list s) && is_member (keys s p));
      auto. }
  assert (K1a : keys s1 a = keys s a).
  { destruct (K1' a) as [E|E]; rewrite E; [reflexivity|].
    destruct (keys s a); simpl in *; subst; reflexivity. }
  (* second loop *)
  destruct (sm_phase_total tick io (_nn_key_list s1) s1) as (s2 & E2).
  { intros p Hin. rewrite L1 in Hin.
    destruct (K1' p) as [E|E]; rewrite E; [|destruct (keys s p) eqn:Ek];
      try (apply Hrd; assumption).
    specialize (Hrd p Hin). rewrite Ek in Hrd. exact Hrd. }
  rewrite E2; cbn [bind].
  apply sm_phase in E2. destruct E2 as (C2 & L2 & CL2 & T2 & R2 & K2).
  (* no combo *)
  rewrite (Combo_Process_none tick s2) by congruence. cbn [bind].
  (* the keys a and b after the state machines *)
  assert (K2a : keys s2 a = with_event KEY_EVENT_LONG_PRESSED_ALWS (keys s a)).
  { rewrite K2, K1a, L1, Hkl.
    destruct (count_occ_middle l1 rest a) as (n & ->).
    destruct Ha as (A1 & A2 & _).
    apply (iter_sm_step_hold tick io (keys s a) ra (S n)); assumption. }
  assert (K2b : exists bl, keys s2 b = with_lock_flag bl (keys s b)).
  { rewrite K2. destruct Hb as (B1 & B2 & _).
    destruct (K1' b) as [E|E]; rewrite E.
    - exists (lock_flag (keys s b)).
      rewrite (iter_sm_step_hold tick io (keys s b) rb) by assumption.
      destruct (count_occ Nat.eq_dec (_nn_key_list s1) b);
        destruct (keys s b); simpl in *; subst; reflexivity.
    - exists false.
      rewrite (iter_sm_step_hold tick io _ rb);
        try assumption; try (destruct (keys s b); assumption).
      destruct (count_occ Nat.eq_dec (_nn_key_list s1) b);
        destruct (keys s b); simpl in *; subst; reflexivity. }
  destruct K2b as (bl & K2b).
  assert (K2r : forall p, key_read (keys s2 p) = key_read (keys s p)).
  { intros p. rewrite K2, key_read_iter_sm_step.
    destruct (K1' p) as [E|E]; rewrite E; [|destruct (keys s p)]; reflexivity. }
  (* third loop *)
  rewrite L2, L1, Hkl, fold_left_app. cbn [fold_left].
  destruct (dispatch_phase tick l1 true s2)
    as (Hr3 & C3 & L3 & CL3 & Q3 & _ & d3 & R3 & D3 & _).
  assert (A3 : forall q, event (keys s2 q) = KEY_EVENT_LONG_PRESSED_ALWS ->
                         keys (snd (fold_left (dispatch tick) l1 (true, s2))) q
                         = keys s2 q).
  { apply (fold_left_inv
             (fun st => forall q,
                  event (keys s2 q) = KEY_EVENT_LONG_PRESSED_ALWS ->
                  keys (snd st) q = keys s2 q)); [|intros; reflexivity].
    intros [r0 s0] p _ I0 q Hq. cbn [snd] in I0.
    destruct (dispatch_effect tick r0 s0 p) as (_ & _ & _ & _ & Ho & _ & Hal & _).
    destruct (Nat.eq_dec q p) as [->|Hne].
    - rewrite Hal; [apply I0; assumption|]. rewrite I0 by assumption. exact Hq.
    - rewrite Ho by assumption. apply I0; assumption. }
  destruct (fold_left (dispatch tick) l1 (true, s2)) as [r3 s3] eqn:E3.
  cbn [fst snd] in *. subst r3.
  assert (Ea2 : event (keys s2 a) = KEY_EVENT_LONG_PRESSED_ALWS).
  { rewrite K2a. destruct (keys s a); reflexivity. }
  assert (Eb2 : event (keys s2 b) = KEY_EVENT_LONG_PRESSED_ALWS).
  { rewrite K2b. destruct (keys s b); simpl in *; assumption. }
  (* the key a *)
  destruct (dispatch_effect tick true s3 a)
    as (Hr4 & C4 & L4 & CL4 & _ & _ & Hal4 & _ & d4 & R4 & D4 & F4).
  assert (La3 : lock_flag (keys s3 a) = false).
  { rewrite (A3 a Ea2), K2a. destruct (keys s a); assumption. }
  assert (Quiet : sub32 tick
                        (LastTick (snd (dispatch tick (true, s3) a)))
                  < KEY_LONG_PRESS_ALWS_CB).
  { unfold dispatch. rewrite La3.
    destruct Ha as (A1 & A2 & A3m & A4).
    destruct (func (callback_at (keys s a) KEY_EVENT_LONG_PRESSED_ALWS))
      as [fa|] eqn:Ef; [|contradiction].
    assert (Ev3 : event (keys s3 a) = KEY_EVENT_LONG_PRESSED_ALWS)
      by (rewrite (A3 a Ea2); exact Ea2).
    assert (Em3 : mask_has (keys s3 a) KEY_EVENT_LONG_PRESSED_ALWS = true).
    { rewrite (A3 a Ea2), K2a. destruct (keys s a); assumption. }
    assert (Ef3 : func (callback_at (keys s3 a) KEY_EVENT_LONG_PRESSED_ALWS)
                  = Some fa).
    { rewrite (A3 a Ea2), K2a. destruct (keys s a); assumption. }
    destruct (Key_Event_continuous s3 a fa tick Ev3 Em3 Ef3)
      as [(Hge & _ & Hl)|(Hlt & _ & Hl)].
    - destruct (_NN_Key_Event (Some a) tick s3). cbn [fst snd] in *.
      rewrite Hl, sub32_diag. reflexivity.
    - destruct (_NN_Key_Event (Some a) tick s3). cbn [fst snd] in *.
      rewrite Hl. exact Hlt. }
  specialize (Hal4 (eq_trans (f_equal event (A3 a Ea2)) Ea2)).
  destruct (dispatch tick (true, s3) a) as [r4 s4] eqn:E4.
  cbn [fst snd] in *. subst r4.
  (* the keys after a *)
  destruct (dispatch_phase tick rest true s4)
    as (Hr5 & C5 & L5 & CL5 & Q5 & _ & d5 & R5 & D5 & F5).
  assert (A5 : forall q, event (keys s4 q) = KEY_EVENT_LONG_PRESSED_ALWS ->
                         keys (snd (fold_left (dispatch tick) rest (true, s4))) q
                         = keys s4 q).
  { apply (fold_left_inv
             (fun st => forall q,
                  event (keys s4 q) = KEY_EVENT_LONG_PRESSED_ALWS ->
                  keys (snd st) q = keys s4 q)); [|intros; reflexivity].
    intros [r0 s0] p _ I0 q Hq. cbn [snd] in I0.
    destruct (dispatch_effect tick r0 s0 p) as (_ & _ & _ & _ & Ho & _ & Hal & _).
    destruct (Nat.eq_dec q p) as [->|Hne].
    - rewrite Hal; [apply I0; assumption|]. rewrite I0 by assumption. exact Hq.
    - rewrite Ho by assumption. apply I0; assumption. }
  destruct (fold_left (dispatch tick) rest (true, s4)) as [r5 s5] eqn:E5.
  cbn [fst snd] in *. subst r5.
  exists s5. split; [reflexivity|].
  assert (Ka5 : keys s5 a = keys s2 a).
  { rewrite A5, Hal4; [apply A3; assumption|].
    rewrite Hal4, (A3 a Ea2). exact Ea2. }
  assert (Kb5 : keys s5 b = keys s2 b).
  { rewrite A5, Hal4; [apply A3; assumption|].
    rewrite Hal4, (A3 b Eb2). exact Eb2. }
  split.
  - unfold starving. rewrite CL5, CL4, CL3, CL2, CL1, L5, L4, L3, L2, L1.
    split; [assumption|]. split; [assumption|]. split.
    { intros p Hin.
      assert (Hp : key_read (keys s5 p) = key_read (keys s2 p)).
      { destruct (Q5 p) as [E|E]; rewrite E, Hal4;
          destruct (Q3 p) as [E'|E']; rewrite E';
            destruct (keys s2 p); reflexivity. }
      rewrite Hp, K2r. apply Hrd; assumption. }
    unfold holds_continuous in *. rewrite Ka5, Kb5, K2a, K2b.
    split; [|split; [destruct (keys s a); assumption|split]].
    + apply (holds_continuous_ext (keys s a)); try assumption;
        destruct (keys s a); reflexivity.
    + apply (holds_continuous_ext (keys s b)); try assumption;
        destruct (keys s b); reflexivity.
    + destruct (keys s b); assumption.
  - exists (d3 ++ d4 ++ d5).
    rewrite R5, R4, R3, R2, R1, <- !app_assoc. split; [reflexivity|].
    apply Forall_app; split; [|apply Forall_app; split].
    + eapply Forall_impl; [|exact D3].
      intros c. apply key_call_in_not_of; assumption.
    + eapply Forall_impl; [|exact D4].
      intros c. apply key_call_in_not_of. intros [H|[]]; congruence.
    + destruct F5 as [[F5 _]|(c & _ & G & _)].
      * apply filter_nil_Forall in F5.
        eapply Forall_impl; [|exact F5].
        intros c; apply continuous_call_of_is_continuous.
      * exfalso. lia.
Qed.

(** C10.  [LastTick] is one variable for all keys.  Hence, over any run
    of the handler, consecutive invocations of continuous callbacks of
    whatever keys are at least [KEY_LONG_PRESS_ALWS_CB = 50] ms apart
    (unsigned 32-bit difference).  And when the key [a] is registered
    before every occurrence of the key [b], both are held with a
    continuous callback registered, [a] is not locked and no combo is
    registered, then over a run of any length the handler never fails,
    never invokes the continuous callback of [b], and leaves the
    continuous event of [b] pending. *)
Theorem C10_shared_rate_limiter
        (l1 : list ptr) (a : ptr) (rest : list ptr) (ra : nat)
        (b : ptr) (rb : nat) (calls : list (Z * (nat -> bool)))
        (s : nn_state) :
  ~ In b l1 -> b <> a ->
  starving l1 a rest ra b rb s ->
  (forall t io, In (t, io) calls -> io ra = true /\ io rb = true) ->
  spaced (LastTick s) (continuous_ticks calls s) /\
  exists s',
    run_handler calls s = Some s' /\
    event (keys s' b) = KEY_EVENT_LONG_PRESSED_ALWS /\
    holds_continuous s' b rb /\
    exists d, trace s' = trace s ++ d /\
              Forall (fun c => continuous_call_of b c = false) d.
Proof.
  intros Hnb Hba Hs Hio. split; [apply continuous_ticks_spaced|].
  revert s Hs. induction calls as [|[tick io] calls IH]; intros s Hs.
  - exists s. split; [reflexivity|].
    destruct Hs as (_ & _ & _ & _ & _ & Hb & Heb).
    split; [assumption|]. split; [assumption|].
    exists []. rewrite app_nil_r. split; [reflexivity|constructor].
  - destruct (Hio tick io (or_introl eq_refl)) as [Hia Hib].
    destruct (starving_step l1 a rest ra b rb tick io s Hnb Hba Hs Hia Hib)
      as (s1 & E1 & Hs1 & d1 & R1 & D1).
    destruct (IH (fun t i Hin => Hio t i (or_intror Hin)) s1 Hs1)
      as (s' & E' & Hev & Hb' & d2 & R2 & D2).
    exists s'. cbn [run_handler]. rewrite E1. cbn [bind snd].
    split; [assumption|]. split; [assumption|]. split; [assumption|].
    exists (d1 ++ d2). rewrite R2, R1, app_assoc. split; [reflexivity|].
    apply Forall_app; split; assumption.
Qed.

(** Witness of [C10_shared_rate_limiter]: A and B of [both_held], both
    read as pressed for 100 handler calls from tick 2000 on. *)
Lemma C10_shared_rate_limiter_witness :
  starving [] 0%nat [1%nat] 0%nat 1%nat 1%nat both_held /\
  exists s',
    run_handler (every_10ms 2000 100 (fun _ => true)) both_held = Some s' /\
    event (keys s' 1%nat) = KEY_EVENT_LONG_PRESSED_ALWS /\
    exists d, trace s' = trace both_held ++ d /\
              Forall (fun c => continuous_call_of 1%nat c = false) d.
Proof.
  assert (Hs : starving [] 0%nat [1%nat] 0%nat 1%nat 1%nat both_held).
  { unfold starving, holds_continuous. splits.
    - intros p [<-|[<-|[]]]; vm_compute; discriminate.
    - vm_compute; discriminate.
    - vm_compute; discriminate. }
  split; [exact Hs|].
  destruct (C10_shared_rate_limiter
              [] 0%nat [1%nat] 0%nat 1%nat 1%nat
              (every_10ms 2000 100 (fun _ => true)) both_held)
    as (_ & s' & E & Hev & _ & Hd).
  - intros [].
  - discriminate.
  - exact Hs.
  - intros t io Hin. unfold every_10ms in Hin. apply in_map_iff in Hin.
    destruct Hin as (i & Hi & _). inversion Hi; subst. split; reflexivity.
  - exists s'. split; [exact E|]. split; [exact Hev|exact Hd].
Defined.

(** The same run, evaluated: in one second the continuous callback of A
    (callback 12) is invoked 20 times, that of B (callback 13) never. *)
Lemma shared_rate_limiter_run :
  option_map (fun s' => (List.length (trace s'),
                         existsb (continuous_call_of 1%nat) (trace s'),
                         forallb (continuous_call_of 0%nat) (trace s')))
             (run_handler (every_10ms 2000 100 (fun _ => true)) both_held)
  = Some (20%nat, false, true).
Proof. vm_compute. reflexivity. Qed.

(** ** C8: the invariant of a combo *)

Lemma subset_ones x n :
  0 <= n -> (Z.land x (2 ^ n - 1) = x <-> 0 <= x < 2 ^ n).
Proof.
  intros Hn. replace (2 ^ n - 1) with (Z.ones n)
    by (rewrite Z.ones_equiv; lia).
  rewrite Z.land_ones by assumption.
  assert (0 < 2 ^ n) by (apply Z.pow_pos_nonneg; lia).
  split.
  - intros H0. rewrite <- H0. apply Z.mod_pos_bound; assumption.
  - intros H0. apply Z.mod_small; assumption.
Qed.

Lemma pow2_le_16 n : 0 <= n <= 4 -> 0 < 2 ^ n <= 16.
Proof.
  intros Hn. split; [apply Z.pow_pos_nonneg; lia|].
  change 16 with (2 ^ 4). apply Z.pow_le_mono_r; lia.
Qed.

(** The bit of member [k] is a non-zero subset of the expected mask. *)
Lemma member_bit k n :
  0 <= n <= 4 -> Z.of_nat k < n ->
  Z.shiftl 1 (Z.of_nat k) mod 16 = 2 ^ Z.of_nat k /\
  0 < 2 ^ Z.of_nat k < 2 ^ n.
Proof.
  intros Hn Hk. rewrite Z.shiftl_1_l.
  assert (0 < 2 ^ Z.of_nat k < 2 ^ n).
  { split; [apply Z.pow_pos_nonneg; lia|apply Z.pow_lt_mono_r; lia]. }
  pose proof (pow2_le_16 n Hn).
  split; [apply Z.mod_small; lia|assumption].
Qed.

(** Accumulating a member bit stays within the expected mask. *)
Lemma accumulate_bit x k n :
  0 <= n <= 4 -> Z.of_nat k < n -> 0 <= x < 2 ^ n ->
  0 < Z.lor x (Z.shiftl 1 (Z.of_nat k)) mod 16 < 2 ^ n.
Proof.
  intros Hn Hk Hx.
  destruct (member_bit k n Hn Hk) as [_ Hb]. rewrite Z.shiftl_1_l.
  pose proof (pow2_le_16 n Hn).
  assert (Hs : 0 <= Z.lor x (2 ^ Z.of_nat k) < 2 ^ n).
  { apply subset_ones; [lia|]. rewrite Z.land_lor_distr_l.
    rewrite (proj2 (subset_ones x n (proj1 Hn)) Hx).
    rewrite (proj2 (subset_ones (2 ^ Z.of_nat k) n (proj1 Hn)));
      [reflexivity|lia]. }
  rewrite Z.mod_small by lia.
  split; [|lia].
  assert (Z.lor x (2 ^ Z.of_nat k) <> 0); [|lia].
  rewrite Z.lor_eq_0_iff. lia.
Qed.

(** The expected mask computed by [NN_Combo_Add]. *)
Lemma expected_mask n cb :
  0 <= n <= 4 ->
  combo_value_excepted
    (fold_left
       (fun cb i =>
          with_value_excepted
            (Z.lor (combo_value_excepted cb) (Z.shiftl 1 (Z.of_nat i)) mod 16)
            cb)
       (upto n) (with_value_excepted 0 cb))
  = 2 ^ n - 1.
Proof.
  intros Hn.
  assert (H : n = 0 \/ n = 1 \/ n = 2 \/ n = 3 \/ n = 4) by lia.
  destruct H as [->|[->|[->|[->| ->]]]]; reflexivity.
Qed.

Lemma combo_ok_reset cb :
  combo_ok cb ->
  forall b, combo_ok (with_mem_first 0 (with_value_now 0 (with_trigger b cb))).
Proof.
  intros (H1 & H2 & _ & _) b. unfold combo_ok. destruct cb; simpl in *.
  splits; try assumption; apply H1.
Qed.

Lemma combo_ok_trigger cb b : combo_ok cb -> combo_ok (with_trigger b cb).
Proof. unfold combo_ok. destruct cb; simpl. tauto. Qed.

(** One member with a pending press keeps the invariant, provided the
    tick is not 0. *)
Lemma combo_accumulate_ok tick k cb act :
  tick <> 0 -> Z.of_nat k < combo_member_nbr cb ->
  combo_ok cb -> combo_ok (fst (combo_accumulate tick k cb act)).
Proof.
  intros Ht Hk Hok. unfold combo_accumulate.
  set (st1 := if combo_mem_first cb =? 0
              then (with_value_now (Z.shiftl 1 (Z.of_nat k) mod 16)
                      (with_mem_first tick cb), true)
              else if sub32 tick (combo_mem_first cb) <=? combo_window cb
                   then (with_value_now
                           (Z.lor (combo_value_now cb)
                                  (Z.shiftl 1 (Z.of_nat k)) mod 16) cb, act)
                   else (cb, act)).
  assert (H1 : combo_ok (fst st1)).
  { subst st1. destruct Hok as (Hn & He & Hsub & Hiff).
    unfold KEY_MAX_COMBO_MEMBER in Hn.
    destruct (Z.eqb_spec (combo_mem_first cb) 0) as [E0|N0]; cbn [fst].
    - destruct (member_bit k _ Hn Hk) as [Hb Hr].
      unfold combo_ok, KEY_MAX_COMBO_MEMBER. destruct cb; simpl in *.
      rewrite Hb. splits; try assumption; try lia.
      all: try (rewrite He; apply subset_ones; lia).
      all: try (split; intros _; lia).
    - destruct (sub32 tick (combo_mem_first cb) <=? combo_window cb);
        cbn [fst]; [|unfold combo_ok; tauto].
      rewrite He in Hsub. apply subset_ones in Hsub; [|lia].
      pose proof (accumulate_bit _ k _ Hn Hk Hsub) as Hacc.
      unfold combo_ok, KEY_MAX_COMBO_MEMBER. destruct cb; simpl in *.
      splits; try assumption; try lia.
      all: try (rewrite He; apply subset_ones; lia).
      all: try (split; intros _; lia). }
  destruct st1 as [cb1 a1]. cbn [fst] in *.
  destruct (combo_value_now cb1 =? combo_value_excepted cb1); cbn [fst].
  - apply combo_ok_reset; assumption.
  - assumption.
Qed.

(** The combo record after the recognition of the combo at [c], in terms
    of the record the member loop leaves. *)
Lemma combo_process_one_combs tick s c s' :
  combo_process_one tick s c = Some s' ->
  exists s1 a1,
    foldM (combo_check_member tick c) (upto (combo_member_nbr (combs s c)))
          (s, negb (combo_mem_first (combs s c) =? 0)) = Some (s1, a1) /\
    let cb1 := combs s1 c in
    let cb3 := if combo_trigger cb1 then with_trigger false cb1 else cb1 in
    combs s' c
    = if negb (combo_mem_first cb3 =? 0)
         && (combo_window cb3 <? sub32 tick (combo_mem_first cb3))
      then with_value_now 0 (with_mem_first 0 cb3) else cb3.
Proof.
  unfold combo_process_one.
  destruct (foldM (combo_check_member tick c)
                  (upto (combo_member_nbr (combs s c)))
                  (s, negb (combo_mem_first (combs s c) =? 0)))
    as [[s1 a1]|] eqn:E1; cbn [bind]; [|discriminate].
  intros H. exists s1, a1. split; [reflexivity|]. cbv zeta.
  destruct (if a1 then for_members c (with_lock_flag true) s1 else Some s1)
    as [s2|] eqn:E2; cbn [bind] in H; [|discriminate].
  assert (C2 : combs s2 = combs s1).
  { destruct a1; [|inversion E2; reflexivity].
    apply (for_members_frame (fun _ _ => True)) in E2; auto.
    destruct E2 as (C2 & _); exact C2. }
  rewrite C2 in H.
  set (cb3 := if combo_trigger (combs s1 c)
              then with_trigger false (combs s1 c) else combs s1 c) in *.
  destruct (if combo_trigger (combs s1 c)
            then
              s2b <- for_members c
                       (fun k => with_lock_flag false
                                   (with_event KEY_EVENT_INIT k))
                       (set_comb c (with_trigger false (combs s1 c)) s2) ;;
              match func (combo_cb (combs s2b c)) with
              | Some f =>
                  Some (log (ComboCallback f c
                               (user_data (combo_cb (combs s2b c)))) s2b)
              | None => Some s2b
              end
            else Some s2) as [s3|] eqn:E3; cbn [bind] in H; [|discriminate].
  assert (C3 : combs s3 c = cb3).
  { subst cb3. destruct (combo_trigger (combs s1 c)).
    - destruct (for_members c
                  (fun k => with_lock_flag false (with_event KEY_EVENT_INIT k))
                  (set_comb c (with_trigger false (combs s1 c)) s2))
        as [s2b|] eqn:E3b; cbn [bind] in E3; [|discriminate].
      apply (for_members_frame (fun _ _ => True)) in E3b; auto.
      destruct E3b as (C3b & _). cbn [combs set_comb] in C3b.
      destruct (func (combo_cb (combs s2b c))); inversion E3; subst;
        cbn [combs log]; rewrite C3b; apply upd_same.
    - inversion E3; subst. rewrite C2. reflexivity. }
  rewrite C3 in H.
  destruct (negb (combo_mem_first cb3 =? 0)
            && (combo_window cb3 <? sub32 tick (combo_mem_first cb3))).
  - apply (for_members_frame (fun _ _ => True)) in H; auto.
    destruct H as (C4 & _). cbn [combs set_comb] in C4.
    rewrite C4. apply upd_same.
  - inversion H; subst. exact C3.
Qed.

(** Combo recognition keeps the invariant of every combo, provided the
    tick is not 0. *)
Lemma combo_process_one_ok tick s c s' :
  tick <> 0 ->
  combo_process_one tick s c = Some s' ->
  forall c', combo_ok (combs s c') -> combo_ok (combs s' c').
Proof.
  intros Ht H c' Hok.
  destruct (combo_process_one_effect tick s c s' H) as (_ & _ & _ & O & _).
  destruct (Nat.eq_dec c' c) as [->|Hne]; [|rewrite O; assumption].
  destruct (combo_process_one_combs tick s c s' H) as (s1 & a1 & E1 & Hc).
  cbv zeta in Hc. rewrite Hc. clear Hc.
  assert (H1 : combo_ok (combs s1 c)).
  { change s1 with (fst (s1, a1)).
    apply (foldM_inv
             (fun st => combo_frame c s (fst st) /\ combo_ok (combs (fst st) c))
             (combo_check_member tick c)
             (upto (combo_member_nbr (combs s c)))) with
        (s := (s, negb (combo_mem_first (combs s c) =? 0)));
      [|split; [apply combo_frame_refl|assumption]|exact E1].
    intros [s0 a0] k [s2 a2] Hin [F0 I0] E. cbn [fst] in *.
    split.
    { eapply combo_frame_trans; [exact F0|].
      eapply combo_check_member_frame; exact E. }
    unfold combo_check_member in E.
    destruct (member_at (combs s0 c) k) as [m|]; cbn [bind] in E;
      [|discriminate].
    destruct (negb (event_eqb (event (keys s0 m)) KEY_EVENT_PRESSED)).
    { inversion E; subst; assumption. }
    pose proof (combo_accumulate_ok tick k (combs s0 c) a0 Ht) as Hacc.
    destruct (combo_accumulate tick k (combs s0 c) a0) as [cb' a'].
    inversion E; subst. cbn [combs set_comb]. rewrite upd_same.
    apply Hacc; [|assumption].
    destruct F0 as (_ & _ & _ & _ & _ & _ & S0).
    apply same_combo_static_fields in S0. destruct S0 as (_ & N0 & _).
    rewrite N0. unfold upto in Hin. apply in_seq in Hin.
    destruct Hok as ((Hn & _) & _). lia. }
  set (cb3 := if combo_trigger (combs s1 c)
              then with_trigger false (combs s1 c) else combs s1 c).
  assert (H3 : combo_ok cb3).
  { subst cb3. destruct (combo_trigger (combs s1 c));
      [apply combo_ok_trigger|]; assumption. }
  destruct (negb (combo_mem_first cb3 =? 0)
            && (combo_window cb3 <? sub32 tick (combo_mem_first cb3)));
    [|assumption].
  destruct H3 as (A1 & A2 & _ & _). unfold combo_ok.
  destruct cb3; simpl in *. splits; try assumption; apply A1.
Qed.

Lemma Combo_Process_ok tick s s' :
  tick <> 0 -> _NN_Combo_Process tick s = Some s' ->
  forall c, combo_ok (combs s c) -> combo_ok (combs s' c).
Proof.
  intros Ht H. unfold _NN_Combo_Process in H.
  apply (foldM_inv (fun s0 => forall c, combo_ok (combs s c) ->
                                        combo_ok (combs s0 c))
                   (combo_process_one tick) (_nn_combo_list s)) with (s := s);
    [|intros c Hc; exact Hc|exact H].
  intros s0 c0 s1 _ I0 E c Hc.
  apply (combo_process_one_ok tick s0 c0 s1 Ht E). apply I0; assumption.
Qed.

Lemma handler_ok tick io s r s' :
  tick <> 0 -> NN_Key_Handler tick io s = Some (r, s') ->
  _nn_combo_list s' = _nn_combo_list s /\
  forall c, combo_ok (combs s c) -> combo_ok (combs s' c).
Proof.
  intros Ht H.
  destruct (handler_effect tick io s r s' H) as (_ & _ & CL & _).
  split; [exact CL|]. unfold NN_Key_Handler in H.
  destruct (reset_phase (_nn_key_list s) s) as (C1 & _).
  set (s1 := fold_left reset_lock (_nn_key_list s) s) in *.
  destruct (foldM (run_state_machine tick io) (_nn_key_list s1) s1)
    as [s2|] eqn:E2; cbn [bind] in H; [|discriminate].
  apply sm_phase in E2. destruct E2 as (C2 & _).
  destruct (_NN_Combo_Process tick s2) as [s3|] eqn:E3; cbn [bind] in H;
    [|discriminate].
  destruct (dispatch_phase tick (_nn_key_list s3) true s3) as (_ & C4 & _).
  inversion H as [H']. rewrite H' in C4. cbn [snd] in C4.
  intros c Hc. rewrite C4.
  apply (Combo_Process_ok tick s2 s3 Ht E3). rewrite C2, C1. exact Hc.
Qed.

(** The key operations do not touch the combos. *)
Lemma key_ops_combs s s' :
  (exists key name pfunc, s' = snd (NN_Key_Init key name pfunc s)) \/
  (exists key id rf, s' = snd (NN_Key_Add key id rf s)) \/
  (exists key d l la m mx, s' = snd (NN_Key_SetPara key d l la m mx s)) \/
  (exists key ev cb ud, s' = snd (NN_Key_SetCb key ev cb ud s)) \/
  (exists key ev, s' = snd (NN_Key_DeleteCb key ev s)) ->
  combs s' = combs s /\ _nn_combo_list s' = _nn_combo_list s.
Proof.
  intros [(key & name & pf & ->)|[(key & id & rf & ->)
         |[(key & d & l & la & m & mx & ->)|[(key & ev & cb & ud & ->)
         |(key & ev & ->)]]]].
  - destruct key; split; reflexivity.
  - unfold NN_Key_Add.
    destruct (is_null key || is_null rf
              || (KEY_MAX_KEY_NUMBER
                  <=? Z.of_nat (List.length (_nn_key_list s))));
      [split; reflexivity|].
    destruct key; split; reflexivity.
  - destruct key; split; reflexivity.
  - unfold NN_Key_SetCb. destruct key; [|split; reflexivity].
    destruct ((event_code KEY_EVENT_MAX <=? event_code ev) || is_null cb);
      split; reflexivity.
  - unfold NN_Key_DeleteCb. destruct key; [|split; reflexivity].
    destruct (event_code KEY_EVENT_MAX <=? event_code ev); split; reflexivity.
Qed.

(** [NN_Combo_Add] leaves the other combos alone and initialises the new
    one with an empty window. *)
Lemma Combo_Add_combs comb id n m1 m2 rest s r s' :
  NN_Combo_Add comb id n m1 m2 rest s = Some (r, s') ->
  forall c, In c (_nn_combo_list s') ->
            (In c (_nn_combo_list s) -> combo_ok (combs s c)) ->
            combo_ok (combs s' c).
Proof.
  intros H. apply Combo_Add_defined in H.
  destruct H as [[_ ->]|(c0 & a & b & _ & _ & _ & _ & Hle & _ & _ & ->)].
  { intros c Hin Hok; apply Hok; exact Hin. }
  pose proof (uint8_range n) as Hn. set (n' := uint8 n) in *.
  unfold combo_add_result, combo_add_init. cbv zeta.
  set (c1 := fold_left _ (upto n') _).
  set (s3 := mark_member b (mark_member a _)).
  set (step := fun st i => combo_add_member c0 i (nth i rest None) st).
  assert (Hc1 : combo_ok c1).
  { assert (E : combo_value_excepted c1 = 2 ^ n' - 1).
    { subst c1. unfold KEY_MAX_COMBO_MEMBER in Hle.
      apply (expected_mask n'
               (mk_comb id 0 0 0 KEY_COMBO_WINDOW n' false
                        (repeat None (Z.to_nat KEY_MAX_COMBO_MEMBER))
                        (combo_cb (combs s c0)))). lia. }
    assert (F : combo_member_nbr c1 = n' /\ combo_value_now c1 = 0 /\
                combo_mem_first c1 = 0).
    { subst c1.
      apply (fold_left_inv
               (fun cb => combo_member_nbr cb = n' /\ combo_value_now cb = 0 /\
                          combo_mem_first cb = 0)).
      - intros cb i _ (F1 & F2 & F3). destruct cb; simpl in *. auto.
      - simpl. auto. }
    destruct F as (F1 & F2 & F3). unfold combo_ok.
    rewrite E, F1, F2, F3. unfold KEY_MAX_COMBO_MEMBER in *. splits; lia. }
  assert (I4 : (forall c', c' <> c0 ->
                           combs (fold_left step (upto (n' - 2)) s3) c'
                           = combs s c') /\
               (exists m, combs (fold_left step (upto (n' - 2)) s3) c0
                          = with_member m c1) /\
               _nn_combo_list (fold_left step (upto (n' - 2)) s3)
               = _nn_combo_list s).
  { apply (fold_left_inv
             (fun st => (forall c', c' <> c0 -> combs st c' = combs s c') /\
                        (exists m, combs st c0 = with_member m c1) /\
                        _nn_combo_list st = _nn_combo_list s)).
    - intros st i _ (J1 & (m & J2) & J3). subst step. cbv beta.
      unfold combo_add_member.
      destruct (nth i rest None) as [t|]; [|eauto].
      cbn [combs set_comb mark_member set_key _nn_combo_list].
      splits.
      + intros c' Hc'. rewrite upd_other by assumption. apply J1; assumption.
      + rewrite upd_same, J2. eexists. reflexivity.
      + exact J3.
    - subst s3. cbn [combs set_comb mark_member set_key _nn_combo_list].
      splits.
      + intros c' Hc'. rewrite !upd_other by assumption. reflexivity.
      + rewrite !upd_same. eexists. reflexivity. }
  destruct I4 as (J1 & (m & J2) & J3).
  intros c Hin Hok. cbn [combs push_combo _nn_combo_list] in *.
  destruct (Nat.eq_dec c c0) as [->|Hne].
  - rewrite J2. exact Hc1.
  - rewrite J1 by assumption. apply Hok.
    rewrite J3 in Hin. apply in_app_or in Hin.
    destruct Hin as [Hin|[Hin|[]]]; [assumption|congruence].
Qed.

Lemma combo_setters_ok s s' :
  (exists combo cb para, s' = snd (NN_Combo_SetCb combo cb para s)) \/
  (exists combo t, s' = snd (NN_Combo_SetWindowTime combo t s)) ->
  _nn_combo_list s' = _nn_combo_list s /\
  forall c, combo_ok (combs s c) -> combo_ok (combs s' c).
Proof.
  intros [(combo & cb & para & ->)|(combo & t & ->)].
  - unfold NN_Combo_SetCb. destruct combo as [c0|], cb as [f|];
      cbn [snd]; (split; [reflexivity|]); try (intros c Hc; exact Hc).
    intros c Hc. cbn [combs set_comb]. unfold upd.
    destruct (Nat.eqb_spec c c0) as [->|_]; [|exact Hc].
    unfold combo_ok in *. destruct (combs s c0); exact Hc.
  - unfold NN_Combo_SetWindowTime. cbv zeta. destruct combo as [c0|];
      [|split; [reflexivity|intros c Hc; exact Hc]].
    destruct (65535 <? uint16 t); cbn [snd]; (split; [reflexivity|]);
      try (intros c Hc; exact Hc).
    intros c Hc. cbn [combs set_comb]. unfold upd.
    destruct (Nat.eqb_spec c c0) as [->|_]; [|exact Hc].
    unfold combo_ok in *. destruct (combs s c0); exact Hc.
Qed.

Lemma api_step_ok s s' :
  api_step s s' ->
  (forall c, In c (_nn_combo_list s) -> combo_ok (combs s c)) ->
  forall c, In c (_nn_combo_list s') -> combo_ok (combs s' c).
Proof.
  intros Hstep Hok.
  assert (Hkey : combs s' = combs s /\ _nn_combo_list s' = _nn_combo_list s ->
                 forall c, In c (_nn_combo_list s') -> combo_ok (combs s' c)).
  { intros [E1 E2] c Hin. rewrite E1. apply Hok. rewrite <- E2. exact Hin. }
  assert (Hset : (_nn_combo_list s' = _nn_combo_list s /\
                  forall c, combo_ok (combs s c) -> combo_ok (combs s' c)) ->
                 forall c, In c (_nn_combo_list s') -> combo_ok (combs s' c)).
  { intros [E1 E2] c Hin. apply E2, Hok. rewrite <- E1. exact Hin. }
  destruct Hstep.
  - apply Hkey, key_ops_combs. left; eauto.
  - apply Hkey, key_ops_combs. right; left; eauto.
  - apply Hkey, key_ops_combs. right; right; left. eauto 10.
  - apply Hkey, key_ops_combs. right; right; right; left. eauto 10.
  - apply Hkey, key_ops_combs. right; right; right; right. eauto.
  - intros c Hin.
    match goal with
    | H : NN_Combo_Add _ _ _ _ _ _ _ = Some _ |- _ =>
        apply (Combo_Add_combs _ _ _ _ _ _ _ _ _ H c Hin)
    end.
    apply Hok.
  - apply Hset, combo_setters_ok. left; eauto.
  - apply Hset, combo_setters_ok. right; eauto.
  - apply Hset. eapply handler_ok; [|eassumption].
    match goal with H : 0 < _ < _ |- _ => destruct H; lia end.
Qed.

Lemma reachable_ok s :
  reachable s ->
  forall c, In c (_nn_combo_list s) -> combo_ok (combs s c).
Proof.
  induction 1 as [s _ Hc|s s' _ IH Hstep].
  - rewrite Hc. intros c [].
  - apply (api_step_ok s s' Hstep IH).
Qed.

Lemma reachable_run calls :
  forall s s',
    reachable s ->
    Forall (fun c => 0 < fst c < 2 ^ 32) calls ->
    run_handler calls s = Some s' -> reachable s'.
Proof.
  induction calls as [|[tick io] calls IH]; intros s s' Hs Hall Hrun.
  - inversion Hrun; subst; assumption.
  - cbn [run_handler] in Hrun.
    destruct (NN_Key_Handler tick io s) as [[r s1]|] eqn:E;
      cbn [bind snd] in Hrun; [|discriminate].
    inversion Hall as [|? ? Ht Hall']; subst. cbn [fst] in Ht.
    apply (IH s1 s'); [|assumption|assumption].
    apply (reach_step s s1 Hs). apply (step_Handler tick io s r s1 Ht E).
Qed.

Lemma step_defined_Combo_Add comb id n m1 m2 rest s :
  NN_Combo_Add comb id n m1 m2 rest s <> None ->
  api_step s (snd (defined (NN_Combo_Add comb id n m1 m2 rest) s)).
Proof.
  unfold defined. intros H.
  destruct (NN_Combo_Add comb id n m1 m2 rest s) as [[r s']|] eqn:E;
    [|contradiction].
  exact (step_Combo_Add comb id n m1 m2 rest s r s' E).
Qed.

Lemma reachable_two_keys_combo : reachable two_keys_combo.
Proof.
  unfold two_keys_combo, two_keys. cbn [fold_left then_do].
  repeat (eapply reach_step;
          [|first [ apply step_Combo_SetWindowTime | apply step_Combo_SetCb
                  | apply step_defined_Combo_Add; vm_compute; discriminate
                  | apply step_Key_SetCb
                  | apply step_Key_Add ]]).
  apply reach_start; reflexivity.
Qed.

Lemma observe_AB_inv s l ea la eb lb f n t :
  observe_AB s = (l, (ea, la), (eb, lb), (f, n), t) ->
  _nn_combo_list s = l /\
  event (keys s 0%nat) = ea /\ lock_flag (keys s 0%nat) = la /\
  event (keys s 1%nat) = eb /\ lock_flag (keys s 1%nat) = lb /\
  combo_mem_first (combs s 0%nat) = f /\
  combo_value_now (combs s 0%nat) = n /\ trace s = t.
Proof.
  unfold observe_AB. intros H. injection H. intros. repeat split; assumption.
Qed.

Lemma observed_run calls s0 obs :
  option_map observe_AB (run_handler calls s0) = Some obs ->
  exists s', run_handler calls s0 = Some s' /\ observe_AB s' = obs.
Proof.
  destruct (run_handler calls s0) as [s'|]; [|discriminate].
  cbn [option_map]. intros H. injection H as H. exists s'. split; auto.
Qed.

(** C8, counterexample.  Key A of the combo AB is clicked shortly before
    the 32-bit tick counter wraps, so that its press is observed by the
    combo engine at tick value 0.  After that call of the handler the
    press of A is pending and A is locked by the combo, the accumulated
    bitmask holds the bit of A, no window has closed or matched (no
    callback was invoked), and yet the window start is 0. *)
Lemma C8_window_start_zero_at_tick_0 :
  exists s',
    run_handler click_before_wrap two_keys_combo = Some s' /\
    In 0%nat (_nn_combo_list s') /\
    event (keys s' 0%nat) = KEY_EVENT_PRESSED /\
    lock_flag (keys s' 0%nat) = true /\
    trace s' = [] /\
    combo_value_now (combs s' 0%nat) = 1 /\
    combo_mem_first (combs s' 0%nat) = 0 /\
    ~ (combo_mem_first (combs s' 0%nat) <> 0 <->
       combo_value_now (combs s' 0%nat) <> 0).
Proof.
  assert (H : option_map observe_AB
                (run_handler click_before_wrap two_keys_combo)
              = Some ([0%nat], (KEY_EVENT_PRESSED, true),
                      (KEY_EVENT_INIT, true), (0, 1), []))
    by (vm_compute; reflexivity).
  apply observed_run in H. destruct H as (s' & E & H).
  apply observe_AB_inv in H.
  destruct H as (H1 & H2 & H3 & _ & _ & H6 & H7 & H8).
  exists s'. split; [exact E|]. rewrite H1, H2, H3, H6, H7, H8.
  split; [left; reflexivity|]. splits.
  intros [_ Hiff]. apply Hiff; [discriminate|reflexivity].
Qed.

(** C8, as amended.  In every state reached from empty registries by
    calls of the registration functions and by calls of the handler with
    non-zero tick values (all calls with defined behaviour), every
    registered combo has its accumulated bitmask included in its expected
    bitmask, and its window start is non-zero if and only if the
    accumulated bitmask is non-zero.  The invariant relates the two
    fields only: a non-zero window start does not mean that a member
    press is pending, since a match completed by a member other than the
    last one leaves a window open that holds the bits of the members
    after it. *)
Theorem C8_combo_invariant (s : nn_state) (c : ptr) :
  reachable s -> In c (_nn_combo_list s) ->
  Z.land (combo_value_now (combs s c)) (combo_value_excepted (combs s c))
  = combo_value_now (combs s c) /\
  (combo_mem_first (combs s c) <> 0 <-> combo_value_now (combs s c) <> 0).
Proof.
  intros Hr Hin. destruct (reachable_ok s Hr c Hin) as (_ & _ & H1 & H2).
  split; assumption.
Qed.

(** Witness of [C8_combo_invariant]: the combo AB after a click of A
    whose press is observed at tick 1400; the window is open. *)
Lemma C8_combo_invariant_witness :
  exists s',
    run_handler click_A two_keys_combo = Some s' /\
    reachable s' /\ In 0%nat (_nn_combo_list s') /\
    combo_mem_first (combs s' 0%nat) = 1400 /\
    combo_value_now (combs s' 0%nat) = 1 /\
    (combo_mem_first (combs s' 0%nat) <> 0 <->
     combo_value_now (combs s' 0%nat) <> 0).
Proof.
  assert (H : option_map observe_AB (run_handler click_A two_keys_combo)
              = Some ([0%nat], (KEY_EVENT_PRESSED, true),
                      (KEY_EVENT_INIT, true), (1400, 1), []))
    by (vm_compute; reflexivity).
  apply observed_run in H. destruct H as (s' & E & H).
  apply observe_AB_inv in H.
  destruct H as (H1 & _ & _ & _ & _ & H6 & H7 & _).
  assert (Hr : reachable s').
  { apply (reachable_run click_A two_keys_combo s');
      [apply reachable_two_keys_combo| |exact E].
    repeat constructor. }
  assert (Hin : In 0%nat (_nn_combo_list s')).
  { rewrite H1. left; reflexivity. }
  exists s'. split; [exact E|]. split; [exact Hr|]. split; [exact Hin|].
  split; [assumption|]. split; [assumption|].
  exact (proj2 (C8_combo_invariant s' 0%nat Hr Hin)).
Defined.

(** ** Combo recognition, functionally *)

Lemma accumulate_members_ext tick p p' l st :
  (forall k, In k l -> p k = p' k) ->
  accumulate_members tick p l st = accumulate_members tick p' l st.
Proof.
  revert st; induction l as [|k l IH]; intros st H; [reflexivity|].
  unfold accumulate_members in *. cbn [fold_left].
  rewrite (H k (or_introl eq_refl)). apply IH.
  intros j Hj; apply H; right; assumption.
Qed.

(** The member loop leaves the keys alone and folds [combo_accumulate]
    over the members with a pending press. *)
Lemma check_loop_spec tick c l :
  forall s act,
    (forall k, In k l -> member_at (combs s c) k <> None) ->
    exists s1,
      foldM (combo_check_member tick c) l (s, act)
      = Some (s1, snd (accumulate_members tick (pressed_member s c) l
                                          (combs s c, act))) /\
      combo_frame c s s1 /\
      combs s1 c
      = fst (accumulate_members tick (pressed_member s c) l (combs s c, act)).
Proof.
  induction l as [|k l IH]; intros s act Hm.
  - exists s. split; [reflexivity|]. split; [apply combo_frame_refl|reflexivity].
  - cbn [foldM]. unfold combo_check_member at 1.
    destruct (member_at (combs s c) k) as [m|] eqn:Em;
      [|exfalso; apply (Hm k); [left; reflexivity|assumption]].
    cbn [bind].
    assert (Hpk : pressed_member s c k
                  = event_eqb (event (keys s m)) KEY_EVENT_PRESSED).
    { unfold pressed_member. rewrite Em. reflexivity. }
    change (accumulate_members tick (pressed_member s c) (k :: l)
                               (combs s c, act))
      with (accumulate_members tick (pressed_member s c) l
              (if pressed_member s c k
               then combo_accumulate tick k (combs s c) act
               else (combs s c, act))).
    rewrite Hpk.
    destruct (event_eqb (event (keys s m)) KEY_EVENT_PRESSED) eqn:Ep;
      cbn [negb fst snd].
    + pose proof (combo_accumulate_static tick k (combs s c) act) as Hst.
      destruct (combo_accumulate tick k (combs s c) act) as [cb' a'] eqn:Ea.
      cbn [fst] in Hst. cbn [bind].
      pose proof (combo_frame_set c s cb' Hst) as Hfr.
      destruct (IH (set_comb c cb' s) a') as (s1 & E1 & F1 & C1).
      { intros j Hj. cbn [combs set_comb]. rewrite upd_same.
        apply same_combo_static_fields in Hst. destruct Hst as (Hmem & _).
        unfold member_at in *. rewrite Hmem. apply Hm; right; assumption. }
      assert (Hp : forall j, pressed_member (set_comb c cb' s) c j
                             = pressed_member s c j).
      { intros j. unfold pressed_member. cbn [combs keys set_comb].
        rewrite upd_same.
        apply same_combo_static_fields in Hst. destruct Hst as (Hmem & _).
        unfold member_at. rewrite Hmem. reflexivity. }
      cbn [combs set_comb] in E1, C1. rewrite upd_same in E1, C1.
      rewrite (accumulate_members_ext tick _ (pressed_member s c) l (cb', a'))
        in E1, C1 by (intros; apply Hp).
      exists s1. split; [exact E1|]. split; [|exact C1].
      eapply combo_frame_trans; eassumption.
    + cbn [bind]. apply IH. intros j Hj; apply Hm; right; assumption.
Qed.

(** A loop over the members with an idempotent body. *)
Lemma for_members_spec c body :
  (forall k, body (body k) = body k) ->
  forall s,
    (forall j, In j (upto (combo_member_nbr (combs s c))) ->
               member_at (combs s c) j <> None) ->
    exists s',
      for_members c body s = Some s' /\
      combs s' = combs s /\ _nn_key_list s' = _nn_key_list s /\
      _nn_combo_list s' = _nn_combo_list s /\ LastTick s' = LastTick s /\
      trace s' = trace s /\
      forall q, keys s' q = if is_member_of (combs s c) q
                            then body (keys s q) else keys s q.
Proof.
  intros Hidem s. unfold for_members, is_member_of.
  generalize (upto (combo_member_nbr (combs s c))) as l.
  set (cb := combs s c).
  assert (Hcb : combs s c = cb) by reflexivity. clearbody cb.
  intros l. revert s Hcb. induction l as [|j l IH]; intros s Hcb Hm.
  - exists s. splits.
  - cbn [foldM]. rewrite Hcb.
    destruct (member_at cb j) as [m|] eqn:Em;
      [|exfalso; apply (Hm j); [left; reflexivity|assumption]].
    cbn [bind].
    destruct (IH (set_key m (body (keys s m)) s)) as (s' & E & C & L & CL & T & R & K).
    { exact Hcb. }
    { intros i Hi. cbn [combs set_key]. apply Hm; right; assumption. }
    exists s'. split; [exact E|]. rewrite C, L, CL, T, R. splits.
    intros q. rewrite K. cbn [keys set_key combs existsb]. rewrite Em.
    unfold upd. rewrite (Nat.eqb_sym m q).
    destruct (Nat.eqb_spec q m) as [->|_]; cbn [orb].
    + rewrite Hidem.
      destruct (existsb _ l); reflexivity.
    + reflexivity.
Qed.

Lemma lock_idem b k : with_lock_flag b (with_lock_flag b k) = with_lock_flag b k.
Proof. reflexivity. Qed.

Lemma unlock_clear_idem k :
  with_lock_flag false
    (with_event KEY_EVENT_INIT
       (with_lock_flag false (with_event KEY_EVENT_INIT k)))
  = with_lock_flag false (with_event KEY_EVENT_INIT k).
Proof. reflexivity. Qed.

Lemma is_member_of_static cb cb' q :
  same_combo_static cb cb' -> is_member_of cb' q = is_member_of cb q.
Proof.
  intros H. apply same_combo_static_fields in H.
  destruct H as (Hm & Hn & _). unfold is_member_of, member_at.
  rewrite Hm, Hn. reflexivity.
Qed.

Lemma members_static cb cb' :
  same_combo_static cb cb' ->
  (forall j, In j (upto (combo_member_nbr cb)) -> member_at cb j <> None) ->
  forall j, In j (upto (combo_member_nbr cb')) -> member_at cb' j <> None.
Proof.
  intros H Hm. apply same_combo_static_fields in H.
  destruct H as (Hmem & Hn & _). unfold member_at in *.
  rewrite Hmem, Hn. exact Hm.
Qed.

(** The recognition of one combo, as a function of the state before. *)
Lemma combo_process_one_spec tick s c :
  (forall j, In j (upto (combo_member_nbr (combs s c))) ->
             member_at (combs s c) j <> None) ->
  let R := accumulate_members tick (pressed_member s c)
             (upto (combo_member_nbr (combs s c)))
             (combs s c, negb (combo_mem_first (combs s c) =? 0)) in
  let cb1 := fst R in
  let a1 := snd R in
  let trig := combo_trigger cb1 in
  let cb3 := if trig then with_trigger false cb1 else cb1 in
  let expired :=
    negb (combo_mem_first cb3 =? 0)
    && (combo_window cb3 <? sub32 tick (combo_mem_first cb3)) in
  exists s',
    combo_process_one tick s c = Some s' /\
    _nn_key_list s' = _nn_key_list s /\
    _nn_combo_list s' = _nn_combo_list s /\
    LastTick s' = LastTick s /\
    trace s' = trace s ++ (if trig then combo_calls c (combs s c) else []) /\
    combs s' c
    = (if expired then with_value_now 0 (with_mem_first 0 cb3) else cb3) /\
    (forall c', c' <> c -> combs s' c' = combs s c') /\
    forall q, keys s' q
              = if is_member_of (combs s c) q
                then combo_key_effect a1 trig expired (keys s q)
                else keys s q.
Proof.
  intros Hm R cb1 a1 trig cb3 expired.
  unfold combo_process_one.
  destruct (check_loop_spec tick c (upto (combo_member_nbr (combs s c))) s
              (negb (combo_mem_first (combs s c) =? 0)) Hm)
    as (s1 & E1 & F1 & C1).
  fold R in E1, C1. fold a1 in E1. fold cb1 in C1.
  rewrite E1. cbn [bind].
  destruct F1 as (K1 & L1 & CL1 & T1 & R1 & O1 & S1).
  rewrite C1 in S1.
  (* locking *)
  assert (H2 : exists s2,
             (if a1 then for_members c (with_lock_flag true) s1 else Some s1)
             = Some s2 /\
             combs s2 = combs s1 /\ _nn_key_list s2 = _nn_key_list s /\
             _nn_combo_list s2 = _nn_combo_list s /\
             LastTick s2 = LastTick s /\ trace s2 = trace s /\
             forall q, keys s2 q
                       = if is_member_of (combs s c) q
                         then (if a1 then with_lock_flag true (keys s q)
                               else keys s q)
                         else keys s q).
  { destruct a1.
    - destruct (for_members_spec c (with_lock_flag true) (lock_idem true) s1)
        as (s2 & E2 & C2 & L2 & CL2 & T2 & R2 & K2).
      { rewrite C1. apply (members_static (combs s c)); assumption. }
      exists s2. split; [exact E2|]. rewrite L2, CL2, T2, R2. splits;
        try assumption.
      intros q. rewrite K2, C1, K1.
      rewrite (is_member_of_static (combs s c) cb1 q S1). reflexivity.
    - exists s1. splits; try assumption. intros q. rewrite K1.
      destruct (is_member_of (combs s c) q); reflexivity. }
  destruct H2 as (s2 & E2 & C2 & L2 & CL2 & T2 & R2 & K2).
  rewrite E2. cbn [bind]. rewrite C2, C1. fold trig.
  (* trigger *)
  assert (H3 : exists s3,
             (if trig
              then
                s2b <- for_members c
                         (fun k => with_lock_flag false
                                     (with_event KEY_EVENT_INIT k))
                         (set_comb c (with_trigger false cb1) s2) ;;
                match func (combo_cb (combs s2b c)) with
                | Some f =>
                    Some (log (ComboCallback f c
                                 (user_data (combo_cb (combs s2b c)))) s2b)
                | None => Some s2b
                end
              else Some s2) = Some s3 /\
             combs s3 c = cb3 /\
             (forall c', c' <> c -> combs s3 c' = combs s c') /\
             _nn_key_list s3 = _nn_key_list s /\
             _nn_combo_list s3 = _nn_combo_list s /\
             LastTick s3 = LastTick s /\
             trace s3
             = trace s ++ (if trig then combo_calls c (combs s c) else []) /\
             forall q, keys s3 q
                       = if is_member_of (combs s c) q
                         then (if trig
                               then with_lock_flag false
                                      (with_event KEY_EVENT_INIT (keys s2 q))
                               else keys s2 q)
                         else keys s2 q).
  { subst cb3. destruct trig.
    - destruct (for_members_spec c
                  (fun k => with_lock_flag false (with_event KEY_EVENT_INIT k))
                  unlock_clear_idem
                  (set_comb c (with_trigger false cb1) s2))
        as (s2b & E3 & C3 & L3 & CL3 & T3 & R3 & K3).
      { cbn [combs set_comb]. rewrite upd_same.
        apply (members_static (combs s c)); [|assumption].
        eapply same_combo_static_trans; [exact S1|].
        destruct cb1; reflexivity. }
      cbn [combs set_comb keys _nn_key_list _nn_combo_list LastTick trace]
        in C3, L3, CL3, T3, R3, K3.
      rewrite upd_same in K3.
      rewrite E3. cbn [bind].
      assert (Hcb : combo_cb (combs s2b c) = combo_cb (combs s c)).
      { rewrite C3, upd_same.
        apply same_combo_static_fields in S1.
        destruct S1 as (_ & _ & _ & _ & Hc). destruct cb1; exact Hc. }
      assert (Hmem : forall q, is_member_of (with_trigger false cb1) q
                               = is_member_of (combs s c) q).
      { intros q. rewrite <- (is_member_of_static (combs s c) cb1 q S1).
        destruct cb1; reflexivity. }
      unfold combo_calls. rewrite Hcb.
      destruct (func (combo_cb (combs s c))) as [f|]; eexists;
        (split; [reflexivity|]);
        cbn [combs keys _nn_key_list _nn_combo_list LastTick trace log];
        rewrite ?app_nil_r, C3, L3, CL3, T3, R3, L2, CL2, T2, R2;
        splits; try (apply upd_same);
          try (intros c' Hc'; rewrite upd_other by assumption;
               rewrite C2; apply O1; assumption);
          try (intros q; rewrite K3, Hmem; reflexivity).
    - exists s2. split; [reflexivity|]. rewrite app_nil_r. splits;
        try assumption.
      + rewrite C2. exact C1.
      + intros c' Hc'. rewrite C2. apply O1; assumption.
      + intros q. destruct (is_member_of (combs s c) q); reflexivity. }
  destruct H3 as (s3 & E3 & C3 & O3 & L3 & CL3 & T3 & R3 & K3).
  rewrite E3. cbn [bind]. rewrite C3. fold expired.
  (* expiry *)
  destruct expired eqn:Ex.
  - destruct (for_members_spec c (with_lock_flag false) (lock_idem false)
                (set_comb c (with_value_now 0 (with_mem_first 0 cb3)) s3))
      as (s4 & E4 & C4 & L4 & CL4 & T4 & R4 & K4).
    { cbn [combs set_comb]. rewrite upd_same.
      apply (members_static (combs s c)); [|assumption].
      eapply same_combo_static_trans; [exact S1|].
      subst cb3. destruct trig; destruct cb1; reflexivity. }
    cbn [combs set_comb keys _nn_key_list _nn_combo_list LastTick trace]
      in C4, L4, CL4, T4, R4, K4.
    rewrite upd_same in K4.
    assert (Hmem : forall q,
               is_member_of (with_value_now 0 (with_mem_first 0 cb3)) q
               = is_member_of (combs s c) q).
    { intros q. rewrite <- (is_member_of_static (combs s c) cb1 q S1).
      subst cb3. destruct trig; destruct cb1; reflexivity. }
    exists s4. split; [exact E4|].
    rewrite C4, L4, CL4, T4, R4, L3, CL3, T3, R3. splits.
    + apply upd_same.
    + intros c' Hc'. rewrite upd_other by assumption. apply O3; assumption.
    + intros q. rewrite K4, Hmem, K3, K2. unfold combo_key_effect.
      destruct (is_member_of (combs s c) q); reflexivity.
  - exists s3. split; [reflexivity|]. rewrite L3, CL3, T3, R3. splits;
      try assumption.
    intros q. rewrite K3, K2. unfold combo_key_effect.
    destruct (is_member_of (combs s c) q); reflexivity.
Qed.

(** ** Dispatch, functionally *)

Lemma with_event_same k : with_event (event k) k = k.
Proof. destruct k; reflexivity. Qed.

(** One iteration of the third loop on a key whose pending event is not
    the continuous one. *)
Lemma dispatch_spec tick r s p :
  event (keys s p) <> KEY_EVENT_LONG_PRESSED_ALWS ->
  let s' := snd (dispatch tick (r, s) p) in
  fst (dispatch tick (r, s) p) = r /\
  combs s' = combs s /\ _nn_key_list s' = _nn_key_list s /\
  _nn_combo_list s' = _nn_combo_list s /\ LastTick s' = LastTick s /\
  trace s' = trace s ++ dispatched_calls p (keys s p) /\
  keys s' p = dispatched (keys s p) /\
  forall q, q <> p -> keys s' q = keys s q.
Proof.
  intros Hne. cbv zeta. unfold dispatch, dispatched, dispatched_calls.
  destruct (lock_flag (keys s p)); cbn [fst snd].
  { rewrite app_nil_r. splits. }
  unfold _NN_Key_Event, key_calls.
  destruct (event_eqb (event (keys s p)) KEY_EVENT_INIT) eqn:Ei.
  { apply event_eqb_eq in Ei. cbn [fst snd].
    rewrite app_nil_r, andb_true_r. splits.
    rewrite <- Ei. symmetry. apply with_event_same. }
  apply event_eqb_neq in Hne. rewrite Hne. cbn [negb].
  destruct (if mask_has (keys s p) (event (keys s p))
            then func (callback_at (keys s p) (event (keys s p)))
            else None) as [f|];
    cbn [fst snd keys combs _nn_key_list _nn_combo_list LastTick trace
         log set_key]; rewrite ?app_nil_r, ?andb_true_r; splits;
      try (apply upd_same);
      intros q Hq; apply upd_other; assumption.
Qed.

(** ** Two keys and their combo *)

Lemma combo_key_effect_static a t e k :
  key_read (combo_key_effect a t e k) = key_read k /\
  is_member (combo_key_effect a t e k) = is_member k.
Proof. unfold combo_key_effect. destruct a, t, e, k; split; reflexivity. Qed.

Lemma dispatched_static k :
  key_read (dispatched k) = key_read k /\
  is_member (dispatched k) = is_member k.
Proof. unfold dispatched. destruct (lock_flag k), k; split; reflexivity. Qed.

Lemma ab_accumulate_static tick pa pb st :
  same_combo_static (fst st) (fst (ab_accumulate tick pa pb st)).
Proof.
  unfold ab_accumulate.
  assert (H1 : same_combo_static
                 (fst st)
                 (fst (if pa then combo_accumulate tick 0 (fst st) (snd st)
                       else st))).
  { destruct pa; [apply combo_accumulate_static|apply same_combo_static_refl]. }
  destruct pb; [|exact H1].
  eapply same_combo_static_trans; [exact H1|apply combo_accumulate_static].
Qed.

(** One call of the handler on the system of two keys and their combo, as
    a function of the state before, when no continuous event is
    involved. *)
Lemma handler_AB ra rb w f tick io s :
  ab_system ra rb w f s ->
  let A1 := _NN_Key_StateMachine (with_lock_flag false (keys s 0%nat))
                                 tick (io ra) in
  let B1 := _NN_Key_StateMachine (with_lock_flag false (keys s 1%nat))
                                 tick (io rb) in
  let R := ab_accumulate tick
             (event_eqb (event A1) KEY_EVENT_PRESSED)
             (event_eqb (event B1) KEY_EVENT_PRESSED)
             (combs s 0%nat,
              negb (combo_mem_first (combs s 0%nat) =? 0)) in
  let cb1 := fst R in
  let a1 := snd R in
  let trig := combo_trigger cb1 in
  let cb3 := if trig then with_trigger false cb1 else cb1 in
  let expired :=
    negb (combo_mem_first cb3 =? 0)
    && (combo_window cb3 <? sub32 tick (combo_mem_first cb3)) in
  let A3 := combo_key_effect a1 trig expired A1 in
  let B3 := combo_key_effect a1 trig expired B1 in
  event A3 <> KEY_EVENT_LONG_PRESSED_ALWS ->
  event B3 <> KEY_EVENT_LONG_PRESSED_ALWS ->
  exists s',
    NN_Key_Handler tick io s = Some (true, s') /\
    ab_system ra rb w f s' /\
    LastTick s' = LastTick s /\
    keys s' 0%nat = dispatched A3 /\
    keys s' 1%nat = dispatched B3 /\
    combs s' 0%nat
    = (if expired then with_value_now 0 (with_mem_first 0 cb3) else cb3) /\
    trace s'
    = trace s ++ (if trig then combo_calls 0%nat (combs s 0%nat) else [])
              ++ dispatched_calls 0%nat A3 ++ dispatched_calls 1%nat B3.
Proof.
  intros (Hkl & Hcl & Hmem & Hnbr & Hexp & Htrig & Hwin & Hcb & Hra & Hrb
          & HmA & HmB) A1 B1 R cb1 a1 trig cb3 expired A3 B3 HeA HeB.
  unfold NN_Key_Handler.
  (* first loop *)
  destruct (reset_phase (_nn_key_list s) s) as (C1 & L1 & CL1 & T1 & R1 & K1).
  set (s1 := fold_left reset_lock (_nn_key_list s) s) in *.
  assert (K1a : keys s1 0%nat = with_lock_flag false (keys s 0%nat)).
  { rewrite K1, Hkl, HmA. reflexivity. }
  assert (K1b : keys s1 1%nat = with_lock_flag false (keys s 1%nat)).
  { rewrite K1, Hkl, HmB. reflexivity. }
  (* second loop *)
  destruct (sm_phase_total tick io (_nn_key_list s1) s1) as (s2 & E2).
  { rewrite L1, Hkl. intros p [<-|[<-|[]]].
    - rewrite K1a. destruct (keys s 0%nat); simpl in *. congruence.
    - rewrite K1b. destruct (keys s 1%nat); simpl in *. congruence. }
  rewrite E2. cbn [bind].
  apply sm_phase in E2. destruct E2 as (C2 & L2 & CL2 & T2 & R2 & K2).
  assert (K2a : keys s2 0%nat = A1).
  { rewrite K2, L1, Hkl, K1a. cbn. unfold sm_step.
    replace (key_read (with_lock_flag false (keys s 0%nat))) with (Some ra)
      by (destruct (keys s 0%nat); simpl in *; congruence).
    reflexivity. }
  assert (K2b : keys s2 1%nat = B1).
  { rewrite K2, L1, Hkl, K1b. cbn. unfold sm_step.
    replace (key_read (with_lock_flag false (keys s 1%nat))) with (Some rb)
      by (destruct (keys s 1%nat); simpl in *; congruence).
    reflexivity. }
  assert (C2' : combs s2 0%nat = combs s 0%nat) by (rewrite C2, C1; reflexivity).
  (* combo recognition *)
  unfold _NN_Combo_Process. rewrite CL2, CL1, Hcl. cbn [foldM].
  destruct (combo_process_one_spec tick s2 0%nat)
    as (s3 & E3 & L3 & CL3 & T3 & R3 & C3 & _ & K3).
  { rewrite C2', Hnbr. unfold member_at. rewrite Hmem.
    change (upto 2) with [0%nat; 1%nat].
    intros j [<-|[<-|[]]]; discriminate. }
  rewrite E3. cbn [bind].
  assert (HR : accumulate_members tick (pressed_member s2 0%nat)
                 (upto (combo_member_nbr (combs s2 0%nat)))
                 (combs s2 0%nat,
                  negb (combo_mem_first (combs s2 0%nat) =? 0)) = R).
  { rewrite C2', Hnbr. subst R. unfold ab_accumulate, accumulate_members.
    change (upto 2) with [0%nat; 1%nat]. cbn [fold_left].
    unfold pressed_member, member_at. rewrite C2', Hmem.
    cbn [nth]. rewrite K2a, K2b. reflexivity. }
  rewrite HR in C3, K3, R3. fold cb1 a1 in C3, K3, R3.
  fold trig in C3, K3, R3. fold cb3 in C3, K3. fold expired in C3, K3.
  assert (K3a : keys s3 0%nat = A3).
  { rewrite K3. unfold is_member_of, member_at. rewrite C2', Hnbr, Hmem.
    cbn. rewrite K2a. reflexivity. }
  assert (K3b : keys s3 1%nat = B3).
  { rewrite K3. unfold is_member_of, member_at. rewrite C2', Hnbr, Hmem.
    cbn. rewrite K2b. reflexivity. }
  (* third loop *)
  rewrite L3, L2, L1, Hkl. cbn [fold_left].
  destruct (dispatch_spec tick true s3 0%nat)
    as (D1 & D2 & D3 & D4 & D5 & D6 & D7 & D8).
  { rewrite K3a. exact HeA. }
  destruct (dispatch tick (true, s3) 0%nat) as [r4 s4].
  cbn [fst snd] in *. subst r4.
  destruct (dispatch_spec tick true s4 1%nat)
    as (F1 & F2 & F3 & F4 & F5 & F6 & F7 & F8).
  { rewrite D8 by discriminate. rewrite K3b. exact HeB. }
  destruct (dispatch tick (true, s4) 1%nat) as [r5 s5].
  cbn [fst snd] in *. subst r5.
  exists s5. split; [reflexivity|].
  assert (Ka : keys s5 0%nat = dispatched A3).
  { rewrite F8 by discriminate. rewrite D7, K3a. reflexivity. }
  assert (Kb : keys s5 1%nat = dispatched B3).
  { rewrite F7, D8 by discriminate. rewrite K3b. reflexivity. }
  assert (Kc : combs s5 0%nat
               = (if expired then with_value_now 0 (with_mem_first 0 cb3)
                  else cb3)).
  { rewrite F2, D2. exact C3. }
  assert (Sc : same_combo_static (combs s 0%nat) cb3).
  { pose proof (ab_accumulate_static tick
                  (event_eqb (event A1) KEY_EVENT_PRESSED)
                  (event_eqb (event B1) KEY_EVENT_PRESSED)
                  (combs s 0%nat,
                   negb (combo_mem_first (combs s 0%nat) =? 0))) as H0.
    fold R in H0. fold cb1 in H0. cbn [fst] in H0.
    eapply same_combo_static_trans; [exact H0|].
    subst cb3. destruct trig; [|apply same_combo_static_refl].
    destruct cb1; reflexivity. }
  assert (Tc : combo_trigger cb3 = false).
  { subst cb3. destruct trig eqn:Et; [destruct cb1; reflexivity|exact Et]. }
  split.
  { unfold ab_system. rewrite F3, D3, L3, L2, L1, F4, D4, CL3, CL2, CL1.
    rewrite Ka, Kb, Kc.
    assert (Sc4 : same_combo_static
                    (combs s 0%nat)
                    (if expired then with_value_now 0 (with_mem_first 0 cb3)
                     else cb3)).
    { eapply same_combo_static_trans; [exact Sc|].
      destruct expired; [destruct cb3; reflexivity
                        |apply same_combo_static_refl]. }
    assert (Tc4 : combo_trigger
                    (if expired then with_value_now 0 (with_mem_first 0 cb3)
                     else cb3) = false).
    { destruct expired; [destruct cb3|]; exact Tc. }
    apply same_combo_static_fields in Sc4.
    destruct Sc4 as (S1 & S2 & S3 & S4 & S5).
    rewrite S1, S2, S3, S4, S5, Tc4.
    destruct (dispatched_static A3) as (Ra & Ma).
    destruct (dispatched_static B3) as (Rb & Mb).
    destruct (combo_key_effect_static a1 trig expired A1) as (Ra' & Ma').
    destruct (combo_key_effect_static a1 trig expired B1) as (Rb' & Mb').
    destruct (SM_static (with_lock_flag false (keys s 0%nat)) tick (io ra))
      as (Ra'' & Ma'' & _).
    destruct (SM_static (with_lock_flag false (keys s 1%nat)) tick (io rb))
      as (Rb'' & Mb'' & _).
    fold A1 in Ra'', Ma''. fold B1 in Rb'', Mb''.
    fold A3 in Ra', Ma'. fold B3 in Rb', Mb'.
    rewrite Ra, Ma, Rb, Mb, Ra', Ma', Rb', Mb', Ra'', Ma'', Rb'', Mb''.
    splits; try assumption;
      try (destruct (keys s 0%nat); assumption);
      try (destruct (keys s 1%nat); assumption). }
  rewrite F5, D5, T3, T2, T1. split; [reflexivity|].
  split; [exact Ka|]. split; [exact Kb|]. split; [exact Kc|].
  rewrite F6, D6, R3, R2, R1, C2', D8 by discriminate.
  rewrite K3a, K3b, <- !app_assoc. reflexivity.
Qed.

(** A key at rest that reads released has no continuous event after its
    step, whatever the combo does to it. *)
Lemma at_rest_step k tick a t e :
  at_rest k ->
  at_rest (_NN_Key_StateMachine (with_lock_flag false k) tick false) /\
  event (combo_key_effect a t e
           (_NN_Key_StateMachine (with_lock_flag false k) tick false))
  <> KEY_EVENT_LONG_PRESSED_ALWS.
Proof.
  intros [Hs He]. unfold at_rest, combo_key_effect, _NN_Key_StateMachine.
  destruct k as [? ? ? ? ? ? mt st ev ? ? ? cnt ? ?]. simpl in *.
  destruct Hs as [-> | ->]; simpl.
  - destruct (mt <=? _); simpl.
    + destruct (cnt =? 1); [|destruct (cnt =? 2); [|destruct (cnt =? 3);
        [|destruct (3 <? cnt)]]]; destruct a, t, e; simpl;
        (split; [split; [auto|]|]); try discriminate; try assumption.
    + destruct a, t, e; simpl; (split; [split; [auto|]|]);
        try discriminate; try assumption.
  - destruct a, t, e; simpl; (split; [split; [auto|]|]);
      try discriminate; try assumption.
Qed.

Lemma state_combo_key_effect a t e k :
  state (combo_key_effect a t e k) = state k.
Proof. unfold combo_key_effect. destruct a, t, e, k; reflexivity. Qed.

Lemma at_rest_dispatched k : at_rest k -> at_rest (dispatched k).
Proof.
  intros [Hs He]. unfold dispatched.
  destruct (lock_flag k); [split; assumption|].
  destruct k; split; [exact Hs|discriminate].
Qed.

(** [NN_Key_Handler] on the system of two keys at rest and their combo
    computes [ab_step]. *)
Lemma handler_AB_step ra rb w f tick io s A B C tr :
  ab_system ra rb w f s -> ab_at A B C tr s ->
  at_rest A -> at_rest B -> io ra = false -> io rb = false ->
  exists s',
    NN_Key_Handler tick io s = Some (true, s') /\
    ab_system ra rb w f s' /\
    ab_at (fst (fst (fst (ab_step tick false false A B C))))
          (snd (fst (fst (ab_step tick false false A B C))))
          (snd (fst (ab_step tick false false A B C)))
          (tr ++ snd (ab_step tick false false A B C)) s' /\
    at_rest (fst (fst (fst (ab_step tick false false A B C)))) /\
    at_rest (snd (fst (fst (ab_step tick false false A B C)))).
Proof.
  intros Hab (HA & HB & HC & Htr) HrA HrB Hia Hib.
  pose proof (handler_AB ra rb w f tick io s Hab) as H. cbv zeta in H.
  rewrite HA, HB, HC, Htr, Hia, Hib in H.
  destruct H as (s' & E & Hab' & _ & KA & KB & KC & KT).
  { apply at_rest_step; assumption. }
  { apply at_rest_step; assumption. }
  exists s'. split; [exact E|]. split; [exact Hab'|].
  unfold ab_step, ab_at. cbn [fst snd].
  split; [splits; assumption|].
  destruct (at_rest_step A tick false false false HrA) as [[HsA _] _].
  destruct (at_rest_step B tick false false false HrB) as [[HsB _] _].
  split; apply at_rest_dispatched; (split;
    [rewrite state_combo_key_effect; assumption
    |apply at_rest_step; assumption]).
Qed.

(** ** The combo scenarios, on the records *)

Arguments sub32 : simpl never.
Arguments key_calls : simpl never.

Ltac ab_records A B C :=
  destruct A as [aid ard alast adeb along aalws amulti ast aev amem alock
                     amax acnt amask acbs];
  destruct B as [bid brd blast bdeb blong balws bmulti bst bev bmem block
                     bmax bcnt bmask bcbs];
  destruct C as [cid cexp cnow cfirst cwin cnbr ctrig cmem ccb];
  cbn [state multi_count multi_time key_last_time event combo_mem_first
       combo_value_excepted combo_trigger combo_window combo_cb
       combo_member combo_member_nbr combo_value_now] in *;
  subst.

Ltac ab_unfold :=
  unfold ab_step, _NN_Key_StateMachine, ab_accumulate, combo_accumulate,
    window_open, press_pending, press_done, combo_key_effect, dispatched,
    dispatched_calls, combo_calls.

Ltac records_nf :=
  cbv beta iota delta
      [with_lock_flag with_event with_state with_multi_count with_last_time
       with_is_member with_callbacks key_id key_read key_last_time
       debounce_time long_time long_alws_time multi_time state event
       is_member lock_flag multi_max multi_count callback_mask callbacks
       with_value_now with_mem_first with_trigger with_value_excepted
       with_window with_member with_combo_cb combo_id combo_value_excepted
       combo_value_now combo_mem_first combo_window combo_member_nbr
       combo_trigger combo_member combo_cb] in *.

Lemma leb_true a b : a <= b -> (a <=? b) = true.
Proof. apply Z.leb_le. Qed.

Lemma leb_false a b : b < a -> (a <=? b) = false.
Proof. intros H. apply Z.leb_gt. assumption. Qed.

Lemma ltb_true a b : a < b -> (a <? b) = true.
Proof. apply Z.ltb_lt. Qed.

Lemma ltb_false a b : b <= a -> (a <? b) = false.
Proof. intros H. apply Z.ltb_ge. assumption. Qed.

Lemma eqb_false a : a <> 0 -> (a =? 0) = false.
Proof. apply Z.eqb_neq. Qed.

Lemma key_calls_press p k f ud :
  event k = KEY_EVENT_PRESSED -> press_callback k f ud ->
  key_calls p k = [KeyCallback f p KEY_EVENT_PRESSED ud].
Proof.
  intros He [Hm Hc]. unfold key_calls. rewrite He, Hm, Hc. reflexivity.
Qed.

(** The window of A closes while B waits: the combo window opens. *)
Lemma ab_step_open_A w f tA A B C :
  clicked A -> clicked B -> combo_closed w f C -> 0 <= w ->
  tA <> 0 ->
  multi_time A <= sub32 tA (key_last_time A) ->
  sub32 tA (key_last_time B) < multi_time B ->
  ab_step tA false false A B C
  = (with_lock_flag true (press_pending tA A), with_lock_flag true B,
     window_open tA 0 C, []).
Proof.
  intros (HsA & HcA & HeA) (HsB & HcB & HeB)
         (Hm & Hn & He & Ht & Hw & Hf & Hfi & Hno) Hw0 Hnz HdA HdB.
  ab_records A B C.
  assert (Hx : (w <? sub32 tA tA) = false)
    by (rewrite sub32_diag; apply ltb_false; assumption).
  apply leb_true in HdA. apply leb_false in HdB. apply eqb_false in Hnz.
  unfold ab_step, _NN_Key_StateMachine.
  cbn [state with_lock_flag andb negb key_last_time multi_time debounce_time
       multi_count].
  rewrite HdA, HdB. cbn. rewrite Hnz, Hx. reflexivity.
Qed.

(** While the window opened by A is open and B waits, nothing changes. *)
Lemma ab_step_hold_A w f tA t A B C :
  clicked B -> combo_closed w f C -> tA <> 0 ->
  sub32 t tA <= w ->
  sub32 t (key_last_time B) < multi_time B ->
  ab_step t false false
          (with_lock_flag true (press_pending tA A)) (with_lock_flag true B)
          (window_open tA 0 C)
  = (with_lock_flag true (press_pending tA A), with_lock_flag true B,
     window_open tA 0 C, []).
Proof.
  intros (HsB & HcB & HeB) (Hm & Hn & He & Ht & Hw & Hf & Hfi & Hno)
         Hnz Hin HdB.
  ab_records A B C.
  pose proof (leb_true _ _ Hin) as Hin'.
  pose proof (ltb_false _ _ Hin) as Hx.
  apply leb_false in HdB. apply eqb_false in Hnz.
  ab_unfold. cbn.
  repeat (first [rewrite HdB | rewrite Hnz | rewrite Hin' | rewrite Hx]; cbn).
  reflexivity.
Qed.

(** The window of B closes within the window opened by A: the combo
    triggers, both pending events are cleared, both keys are unlocked,
    the combo callback is invoked and no key callback. *)
Lemma ab_step_trigger w f tA tB A B C :
  clicked B -> combo_closed w f C -> tA <> 0 ->
  sub32 tB tA <= w ->
  multi_time B <= sub32 tB (key_last_time B) ->
  ab_step tB false false
          (with_lock_flag true (press_pending tA A)) (with_lock_flag true B)
          (window_open tA 0 C)
  = (with_lock_flag false (press_done tA A),
     with_lock_flag false (press_done tB B), C,
     [ComboCallback f 0%nat (user_data (combo_cb C))]).
Proof.
  intros (HsB & HcB & HeB) (Hm & Hn & He & Ht & Hw & Hf & Hfi & Hno)
         Hnz Hin HdB.
  ab_records A B C.
  pose proof (leb_true _ _ Hin) as Hin'.
  apply leb_true in HdB. apply eqb_false in Hnz.
  ab_unfold. cbn.
  repeat (first [rewrite HdB | rewrite Hnz | rewrite Hin' | rewrite Hf]; cbn).
  reflexivity.
Qed.

(** The window opened by A expires while B still waits: the combo state
    is discarded, both keys are unlocked and the pending press of A is
    dispatched in this very call. *)
Lemma ab_step_expire_A w f tA tX A B C fa uda :
  clicked B -> combo_closed w f C -> press_callback A fa uda -> tA <> 0 ->
  w < sub32 tX tA ->
  sub32 tX (key_last_time B) < multi_time B ->
  ab_step tX false false
          (with_lock_flag true (press_pending tA A)) (with_lock_flag true B)
          (window_open tA 0 C)
  = (with_lock_flag false (press_done tA A), with_lock_flag false B, C,
     [KeyCallback fa 0%nat KEY_EVENT_PRESSED uda]).
Proof.
  intros (HsB & HcB & HeB) (Hm & Hn & He & Ht & Hw & Hf & Hfi & Hno)
         Hcb Hnz Hout HdB.
  pose proof (key_calls_press
                0%nat (with_lock_flag false (press_pending tA A)) fa uda
                eq_refl) as Hcalls.
  assert (Hcb' : press_callback (with_lock_flag false (press_pending tA A))
                                fa uda)
    by (destruct A; exact Hcb).
  specialize (Hcalls Hcb'). clear Hcb Hcb'.
  ab_records A B C.
  pose proof (leb_false _ _ Hout) as Hin'.
  pose proof (ltb_true _ _ Hout) as Hx.
  apply leb_false in HdB. apply eqb_false in Hnz.
  unfold press_pending in Hcalls. cbn in Hcalls.
  ab_unfold. cbn.
  repeat (first [rewrite HdB | rewrite Hnz | rewrite Hin' | rewrite Hx]; cbn).
  records_nf. rewrite Hcalls. reflexivity.
Qed.

(** With no window open, A done and B waiting, nothing changes. *)
Lemma ab_step_idle w f tA t A B C :
  clicked B -> combo_closed w f C ->
  sub32 t (key_last_time B) < multi_time B ->
  ab_step t false false
          (with_lock_flag false (press_done tA A)) (with_lock_flag false B) C
  = (with_lock_flag false (press_done tA A), with_lock_flag false B, C, []).
Proof.
  intros (HsB & HcB & HeB) (Hm & Hn & He & Ht & Hw & Hf & Hfi & Hno) HdB.
  ab_records A B C. apply leb_false in HdB.
  ab_unfold. cbn. repeat (rewrite HdB; cbn). reflexivity.
Qed.

(** The window of B closes with no combo window open: B opens one. *)
Lemma ab_step_open_B w f tA tB A B C :
  clicked B -> combo_closed w f C -> 0 <= w -> tB <> 0 ->
  multi_time B <= sub32 tB (key_last_time B) ->
  ab_step tB false false
          (with_lock_flag false (press_done tA A)) (with_lock_flag false B) C
  = (with_lock_flag true (press_done tA A),
     with_lock_flag true (press_pending tB B), window_open tB 1 C, []).
Proof.
  intros (HsB & HcB & HeB) (Hm & Hn & He & Ht & Hw & Hf & Hfi & Hno)
         Hw0 Hnz HdB.
  ab_records A B C.
  assert (Hx : (w <? sub32 tB tB) = false)
    by (rewrite sub32_diag; apply ltb_false; assumption).
  apply leb_true in HdB. apply eqb_false in Hnz.
  ab_unfold. cbn.
  repeat (first [rewrite HdB | rewrite Hnz | rewrite Hx]; cbn).
  reflexivity.
Qed.



(** ** Runs of the two-key system *)

Lemma run_handler_app l1 l2 s :
  run_handler (l1 ++ l2) s = (s1 <- run_handler l1 s ;; run_handler l2 s1).
Proof.
  revert s; induction l1 as [|[t io] l1 IH]; intros s; [reflexivity|].
  cbn [app run_handler].
  destruct (NN_Key_Handler t io s) as [[r s1]|]; cbn [bind snd];
    [apply IH|reflexivity].
Qed.

(** One call with a known outcome of [ab_step]. *)
Lemma handler_AB_to ra rb w f tick io s A B C tr A' B' C' d :
  ab_system ra rb w f s -> ab_at A B C tr s ->
  at_rest A -> at_rest B -> io ra = false -> io rb = false ->
  ab_step tick false false A B C = (A', B', C', d) ->
  exists s',
    NN_Key_Handler tick io s = Some (true, s') /\
    ab_system ra rb w f s' /\ ab_at A' B' C' (tr ++ d) s' /\
    at_rest A' /\ at_rest B'.
Proof.
  intros Hab Hat HrA HrB Hia Hib Hstep.
  destruct (handler_AB_step ra rb w f tick io s A B C tr Hab Hat HrA HrB
                            Hia Hib) as (s' & E & Hab' & Hat' & HA' & HB').
  rewrite Hstep in Hat', HA', HB'. cbn [fst snd] in *.
  exists s'. split; [exact E|]. split; [exact Hab'|]. split; [exact Hat'|].
  split; [exact HA'|exact HB'].
Qed.

(** A run during which [ab_step] leaves the three records unchanged. *)
Lemma run_fixed ra rb w f A B C calls :
  at_rest A -> at_rest B ->
  (forall t io, In (t, io) calls ->
                io ra = false /\ io rb = false /\
                ab_step t false false A B C = (A, B, C, [])) ->
  forall s tr,
    ab_system ra rb w f s -> ab_at A B C tr s ->
    exists s',
      run_handler calls s = Some s' /\
      ab_system ra rb w f s' /\ ab_at A B C tr s'.
Proof.
  intros HrA HrB. induction calls as [|[t io] calls IH]; intros Hc s tr Hab Hat.
  - exists s. split; [reflexivity|]. split; assumption.
  - destruct (Hc t io (or_introl eq_refl)) as (Hia & Hib & Hstep).
    destruct (handler_AB_to ra rb w f t io s A B C tr A B C [] Hab Hat
                            HrA HrB Hia Hib Hstep)
      as (s1 & E1 & Hab1 & Hat1 & _).
    rewrite app_nil_r in Hat1.
    destruct (IH (fun t' io' Hin => Hc t' io' (or_intror Hin)) s1 tr Hab1 Hat1)
      as (s' & E' & Hab' & Hat').
    exists s'. cbn [run_handler]. rewrite E1. cbn [bind snd].
    split; [exact E'|]. split; assumption.
Qed.

Lemma clicked_at_rest k : clicked k -> at_rest k.
Proof.
  intros (Hs & _ & He). split; [left; exact Hs|rewrite He; discriminate].
Qed.




Lemma ab_system_closed ra rb w f s :
  ab_system ra rb w f s ->
  combo_mem_first (combs s 0%nat) = 0 ->
  combo_value_now (combs s 0%nat) = 0 ->
  combo_closed w f (combs s 0%nat).
Proof.
  intros (_ & _ & Hm & Hn & He & Ht & Hw & Hf & _) H1 H2.
  unfold combo_closed. repeat split; assumption.
Qed.

(** ** C2: the second press arrives within the window *)

(** C2.  Take the system of two keys A, B and their combo with window [w]
    (300 in the claim) and callback [f]; both keys have been clicked once
    and read released throughout, and no window is open.  The press of A
    is observed at the call with (non-zero) tick [tA], where the
    multi-click window of A closes; the press of B is observed at the call
    with tick [tB], not more than [w] ms after [tA] (unsigned 32-bit
    difference); in between the handler is called any number of times,
    within the window.  Then the run succeeds, it invokes the combo
    callback exactly once and no key callback; after it the pending
    events of A and B are cleared, both keys are unlocked and the combo
    has no window open. *)
Theorem C2_combo_triggers_within_window
        (ra rb : nat) (w : Z) (f : nat) (s : nn_state) (tA tB : Z)
        (ioA ioB : nat -> bool) (mid : list (Z * (nat -> bool))) :
  ab_system ra rb w f s -> 0 <= w ->
  combo_mem_first (combs s 0%nat) = 0 ->
  combo_value_now (combs s 0%nat) = 0 ->
  clicked (keys s 0%nat) -> clicked (keys s 1%nat) ->
  tA <> 0 ->
  multi_time (keys s 0%nat) <= sub32 tA (key_last_time (keys s 0%nat)) ->
  Forall (fun c => sub32 (fst c) (key_last_time (keys s 1%nat))
                   < multi_time (keys s 1%nat)) ((tA, ioA) :: mid) ->
  Forall (fun c => sub32 (fst c) tA <= w) (mid ++ [(tB, ioB)]) ->
  multi_time (keys s 1%nat) <= sub32 tB (key_last_time (keys s 1%nat)) ->
  Forall (fun c => snd c ra = false /\ snd c rb = false)
         ((tA, ioA) :: mid ++ [(tB, ioB)]) ->
  exists s',
    run_handler ((tA, ioA) :: mid ++ [(tB, ioB)]) s = Some s' /\
    trace s'
    = trace s ++ [ComboCallback f 0%nat
                    (user_data (combo_cb (combs s 0%nat)))] /\
    event (keys s' 0%nat) = KEY_EVENT_INIT /\
    event (keys s' 1%nat) = KEY_EVENT_INIT /\
    lock_flag (keys s' 0%nat) = false /\
    lock_flag (keys s' 1%nat) = false /\
    combo_mem_first (combs s' 0%nat) = 0 /\
    combo_value_now (combs s' 0%nat) = 0.
Proof.
  intros Hab Hw Hfi Hno HcA HcB Hnz HdA HwB Hin HdB Hio.
  pose proof (ab_system_closed ra rb w f s Hab Hfi Hno) as Hcl.
  set (A := keys s 0%nat) in *. set (B := keys s 1%nat) in *.
  set (C := combs s 0%nat) in *.
  assert (Hat : ab_at A B C (trace s) s) by (repeat split).
  inversion HwB as [|? ? HwA HwM]; subst. cbn [fst] in HwA.
  inversion Hio as [|? ? [HioA1 HioA2] Hio']; subst. cbn [snd] in *.
  apply Forall_app in Hin. destruct Hin as [HinM HinB].
  inversion HinB as [|? ? HinB' _]; subst. cbn [fst] in HinB'.
  apply Forall_app in Hio'. destruct Hio' as [HioM HioB].
  inversion HioB as [|? ? [HioB1 HioB2] _]; subst. cbn [snd] in *.
  (* the press of A opens the window *)
  destruct (handler_AB_to ra rb w f tA ioA s A B C (trace s) _ _ _ _
              Hab Hat (clicked_at_rest A HcA) (clicked_at_rest B HcB)
              HioA1 HioA2
              (ab_step_open_A w f tA A B C HcA HcB Hcl Hw Hnz HdA HwA))
    as (s1 & E1 & Hab1 & Hat1 & HrA1 & HrB1).
  rewrite app_nil_r in Hat1.
  (* the window stays open *)
  destruct (run_fixed ra rb w f
                      (with_lock_flag true (press_pending tA A))
                      (with_lock_flag true B) (window_open tA 0 C)
                      mid HrA1 HrB1) with (s := s1) (tr := trace s)
    as (s2 & E2 & Hab2 & Hat2); [|assumption|assumption|].
  { intros t io Hi.
    rewrite Forall_forall in HwM, HinM, HioM.
    destruct (HioM (t, io) Hi) as [H1 H2]. split; [exact H1|].
    split; [exact H2|].
    apply (ab_step_hold_A w f tA t A B C HcB Hcl Hnz).
    - apply (HinM (t, io) Hi).
    - apply (HwM (t, io) Hi). }
  (* the press of B completes the combo *)
  destruct (handler_AB_to ra rb w f tB ioB s2 _ _ _ (trace s) _ _ _ _
              Hab2 Hat2 HrA1 HrB1 HioB1 HioB2
              (ab_step_trigger w f tA tB A B C HcB Hcl Hnz HinB' HdB))
    as (s3 & E3 & Hab3 & (KA & KB & KC & KT) & _).
  exists s3. split.
  { cbn [run_handler]. rewrite E1. cbn [bind snd].
    rewrite run_handler_app, E2. cbn [bind run_handler].
    rewrite E3. reflexivity. }
  rewrite KA, KB, KC, KT. unfold C in *.
  split; [reflexivity|].
  split; [destruct A; reflexivity|]. split; [destruct B; reflexivity|].
  split; [destruct A; reflexivity|]. split; [destruct B; reflexivity|].
  split; assumption.
Qed.

Lemma Forall_forallb {A : Type} (P : A -> Prop) (p : A -> bool) l :
  (forall x, p x = true -> P x) -> forallb p l = true -> Forall P l.
Proof.
  intros Hp H. apply Forall_forall. intros x Hx.
  apply Hp. rewrite forallb_forall in H. apply H; assumption.
Qed.

Lemma Forall_released (ra rb : nat) l :
  Forall (fun c : Z * (nat -> bool) => snd c = released) l ->
  Forall (fun c : Z * (nat -> bool) =>
            snd c ra = false /\ snd c rb = false) l.
Proof.
  apply Forall_impl. intros c ->. split; reflexivity.
Qed.

Lemma idle_ticks_released t0 n :
  Forall (fun c : Z * (nat -> bool) => snd c = released) (idle_ticks t0 n).
Proof.
  unfold idle_ticks, every_10ms. apply Forall_forall. intros c Hc.
  apply in_map_iff in Hc. destruct Hc as (i & <- & _). reflexivity.
Qed.

Lemma ab_system_clicked_250 : ab_system 0 1 300 99 clicked_250_apart.
Proof. unfold ab_system. repeat split; vm_compute; reflexivity. Qed.

(** Witness of [C2_combo_triggers_within_window]: on
    [clicked_250_apart] the press of A is observed at tick 1050 and that
    of B at tick 1300, 250 ms later, the handler being called every 10
    ms. *)
Lemma C2_combo_triggers_within_window_witness :
  exists s',
    run_handler ((1050, released) :: idle_ticks 1060 24 ++ [(1300, released)])
                clicked_250_apart = Some s' /\
    trace s' = [ComboCallback 99 0%nat None] /\
    event (keys s' 0%nat) = KEY_EVENT_INIT /\
    event (keys s' 1%nat) = KEY_EVENT_INIT.
Proof.
  destruct (C2_combo_triggers_within_window
              0 1 300 99 clicked_250_apart 1050 1300 released released
              (idle_ticks 1060 24))
    as (s' & E & Ht & HeA & HeB & _).
  - exact ab_system_clicked_250.
  - discriminate.
  - vm_compute; reflexivity.
  - vm_compute; reflexivity.
  - repeat split; vm_compute; reflexivity.
  - repeat split; vm_compute; reflexivity.
  - discriminate.
  - vm_compute; discriminate.
  - apply (Forall_forallb _
             (fun c => sub32 (fst c) (key_last_time (keys clicked_250_apart 1%nat))
                       <? multi_time (keys clicked_250_apart 1%nat))).
    + intros x Hx. apply Z.ltb_lt. exact Hx.
    + vm_compute; reflexivity.
  - apply (Forall_forallb _ (fun c => sub32 (fst c) 1050 <=? 300)).
    + intros x Hx. apply Z.leb_le. exact Hx.
    + vm_compute; reflexivity.
  - vm_compute; discriminate.
  - apply Forall_released. constructor; [reflexivity|].
    apply Forall_app; split; [apply idle_ticks_released|].
    constructor; [reflexivity|constructor].
  - exists s'. split; [exact E|]. split; [exact Ht|]. split; assumption.
Defined.

(** The same scenario from the registration on, with the default
    thresholds, evaluated: A is pressed from tick 700 to 750 and B from
    950 to 1000; the whole run invokes the combo callback once and nothing
    else. *)
Lemma combo_run_250 :
  option_map observe_AB
             (run_handler (ab_ticks 600 120 700 750 950 1000) two_keys_combo)
  = Some ([0%nat], (KEY_EVENT_INIT, false), (KEY_EVENT_INIT, false), (0, 0),
          [ComboCallback 99 0%nat None]).
Proof. vm_compute. reflexivity. Qed.

(** ** Runs in which the second key is pressed *)

Lemma after_samples_app k l1 l2 :
  after_samples k (l1 ++ l2) = after_samples (after_samples k l1) l2.
Proof. unfold after_samples. apply fold_left_app. Qed.

Lemma after_samples_cons k t v l :
  after_samples k ((t, v) :: l)
  = after_samples (_NN_Key_StateMachine k t v) l.
Proof. reflexivity. Qed.

Lemma run_samples_app k l1 l2 :
  run_samples k (l1 ++ l2)
  = run_samples k l1 ++ run_samples (after_samples k l1) l2.
Proof.
  revert k; induction l1 as [|[t v] l1 IH]; intros k; [reflexivity|].
  cbn [app run_samples]. rewrite IH. reflexivity.
Qed.








Lemma key_calls_init p id rd lt db lg la mt st im lk mm mc cm cbs :
  key_calls p (mk_key id rd lt db lg la mt st KEY_EVENT_INIT im lk mm mc
                      cm cbs) = [].
Proof. reflexivity. Qed.














Lemma press_callback_pending t k f ud :
  press_callback k f ud -> press_callback (press_pending t k) f ud.
Proof. destruct k; exact (fun H => H). Qed.

(** ** C3: the second press arrives after the window *)





(** The scenario of the claim from the registration on, with the default
    thresholds, evaluated: A is pressed from tick 700 to 750 and B from
    1100 to 1150; the whole run invokes the two press callbacks and not
    the combo callback. *)
Lemma combo_run_400 :
  option_map observe_AB
             (run_handler (ab_ticks 600 120 700 750 1100 1150) two_keys_combo)
  = Some ([0%nat], (KEY_EVENT_INIT, false), (KEY_EVENT_INIT, false), (0, 0),
          [KeyCallback 10 0%nat KEY_EVENT_PRESSED None;
           KeyCallback 11 1%nat KEY_EVENT_PRESSED None]).
Proof. vm_compute. reflexivity. Qed.

(** The tick value 0 as window start.  Key A of [two_keys_combo] is
    clicked shortly before the tick counter wraps, so that its press is
    observed at tick 0; the press of B is observed at tick 310.  The
    window start recorded at tick 0 is 0, which also means that no window
    is open, so the call at tick 10 starts the window again: the press of
    B falls within it and the combo callback is invoked, although the two
    presses are observed 310 ms apart.  The same samples 1400 ms later
    give the two press callbacks. *)
Lemma window_opened_at_tick_0 :
  option_map observe_AB
    (run_handler
       [ (4294966900, only 0%nat); (4294966950, released); (0, only 1%nat);
         (10, released); (310, released) ]
       two_keys_combo)
  = Some ([0%nat], (KEY_EVENT_INIT, false), (KEY_EVENT_INIT, false), (0, 0),
          [ComboCallback 99 0%nat None]) /\
  option_map observe_AB
    (run_handler
       [ (1000, only 0%nat); (1050, released); (1400, only 1%nat);
         (1410, released); (1710, released) ]
       two_keys_combo)
  = Some ([0%nat], (KEY_EVENT_INIT, false), (KEY_EVENT_INIT, false), (0, 0),
          [KeyCallback 10 0%nat KEY_EVENT_PRESSED None;
           KeyCallback 11 1%nat KEY_EVENT_PRESSED None]).
Proof. split; vm_compute; reflexivity. Qed.

(** ** C9: a second call with the same tick and inputs *)

(** C9, as stated, does not hold when combos share members.  On
    [press_B_due] the windows of AB (300 ms) and of ABC (600 ms) are open
    since tick 1050 with the press of A pending.  The call at tick 1360
    observes the press of B: the window of AB has expired and is
    discarded, the window of ABC keeps A and B locked, nothing is
    invoked.  A second call with the same tick and the same inputs finds
    both presses still pending and no window of AB: it opens one,
    completes it at once, clears both pending events and invokes the
    callback of AB. *)
Lemma C9_second_call_triggers_combo :
  observe_ABC press_B_due
  = ((KEY_EVENT_PRESSED, KEY_EVENT_INIT), (1050, 1), (1050, 1), []) /\
  option_map observe_ABC (run_handler [(1360, released)] press_B_due)
  = Some ((KEY_EVENT_PRESSED, KEY_EVENT_PRESSED), (0, 0), (1050, 3), []) /\
  option_map observe_ABC
             (run_handler [(1360, released); (1360, released)] press_B_due)
  = Some ((KEY_EVENT_INIT, KEY_EVENT_INIT), (0, 0), (1050, 3),
          [ComboCallback 99 0%nat None]).
Proof. repeat split; vm_compute; reflexivity. Qed.

(** *** One key *)

(** Case analysis on the comparisons of the goal, one at a time. *)
Ltac cmp_case :=
  match goal with
  | |- context [?x =? ?y] => destruct (Z.eqb_spec x y)
  | |- context [?x <? ?y] => destruct (Z.ltb_spec x y)
  | |- context [?x <=? ?y] => destruct (Z.leb_spec x y)
  end.

Ltac cmp_cases := repeat (rewrite ?sub32_diag; cmp_case; cbn).

(** After one step of the state machine a second step with the same tick
    and raw input changes nothing, whatever happened to the pending event
    and to the lock flag in between; only a key held in
    [KEY_STATE_LONG_PRESSED_ALWS] has the continuous event set again. *)
Lemma SM_settles k tick v e l :
  timed k ->
  let k' := with_lock_flag l (with_event e (_NN_Key_StateMachine k tick v)) in
  _NN_Key_StateMachine k' tick v = k' \/
  (state k' = KEY_STATE_LONG_PRESSED_ALWS /\
   _NN_Key_StateMachine k' tick v
   = with_event KEY_EVENT_LONG_PRESSED_ALWS k').
Proof.
  intros (Hl & Hm & Hs). cbv zeta.
  destruct k as [id rd lt db lg la mt st ev im lk mm mc cm cbs].
  cbn in Hl, Hm, Hs.
  unfold _NN_Key_StateMachine at 2. cbn.
  destruct st; try contradiction; destruct v; cbn; cmp_cases;
    unfold _NN_Key_StateMachine; cbn; cmp_cases;
    first [lia | left; reflexivity | right; split; reflexivity].
Qed.

Lemma settled_core tick io k k1 :
  same_core k k1 -> settled tick io k -> settled tick io k1.
Proof.
  intros H S k' H'. apply S. eapply same_core_trans; eassumption.
Qed.

Lemma timed_core k k' : same_core k k' -> timed k -> timed k'.
Proof.
  intros H (Hl & Hm & Hs). apply same_core_fields in H.
  destruct H as (_ & Es & _ & _ & _ & _ & _ & _ & El & _ & Em).
  unfold timed. rewrite Es, El, Em. repeat split; assumption.
Qed.

Lemma sm_step_settles tick io k :
  timed k -> settled tick io (sm_step tick io k).
Proof.
  intros Ht k' Hc.
  destruct (same_core_fields _ _ Hc) as (Hr & _).
  destruct (sm_step_static tick io k) as (Hr1 & _).
  assert (Hk : key_read k' = key_read k) by congruence.
  clear Hr Hr1. unfold sm_step. rewrite Hk. unfold sm_step in Hc.
  destruct (key_read k) as [f|] eqn:Er.
  - pose proof (SM_settles k tick (io f) (event k') (lock_flag k') Ht) as S.
    cbv zeta in S. unfold same_core in Hc. rewrite <- Hc in S.
    destruct S as [E|[Es E]]; rewrite E.
    + split; [apply same_core_refl|]. split; [reflexivity|left; reflexivity].
    + split; [apply same_core_event|].
      split; [destruct k'; reflexivity|].
      right. split; [destruct k'; reflexivity|exact Es].
  - split; [apply same_core_refl|]. split; [reflexivity|left; reflexivity].
Qed.

(** A settled key stays as it is through any number of further steps. *)
Lemma settled_iter tick io k n :
  settled tick io k ->
  same_core k (Nat.iter n (sm_step tick io) k) /\
  lock_flag (Nat.iter n (sm_step tick io) k) = lock_flag k /\
  (event (Nat.iter n (sm_step tick io) k) = event k \/
   (event (Nat.iter n (sm_step tick io) k) = KEY_EVENT_LONG_PRESSED_ALWS /\
    state k = KEY_STATE_LONG_PRESSED_ALWS)).
Proof.
  intros S. induction n as [|n (Hc & Hl & He)].
  - split; [apply same_core_refl|]. split; [reflexivity|left; reflexivity].
  - rewrite Nat.iter_succ. destruct (S _ Hc) as (Hc' & Hl' & He').
    split; [eapply same_core_trans; eassumption|].
    split; [congruence|].
    destruct He' as [He'|[He' Hs]].
    + rewrite He'. exact He.
    + right. split; [exact He'|].
      apply same_core_fields in Hc. destruct Hc as (_ & Es & _).
      rewrite <- Es. exact Hs.
Qed.

(** One step or more settle a key. *)
Lemma iter_settles tick io k n :
  timed k -> settled tick io (Nat.iter (S n) (sm_step tick io) k).
Proof.
  intros Ht. rewrite Nat.iter_succ_r.
  pose proof (sm_step_settles tick io k Ht) as S.
  destruct (settled_iter tick io _ n S) as (Hc & _).
  exact (settled_core _ _ _ _ Hc S).
Qed.

Lemma iter_sm_step_flags tick io n k :
  lock_flag (Nat.iter n (sm_step tick io) k) = lock_flag k /\
  is_member (Nat.iter n (sm_step tick io) k) = is_member k.
Proof.
  induction n as [|n [IH1 IH2]]; [split; reflexivity|].
  rewrite Nat.iter_succ.
  destruct (sm_step_static tick io (Nat.iter n (sm_step tick io) k))
    as (_ & Hm & Hl & _).
  rewrite Hm, Hl. split; assumption.
Qed.

Lemma steady_of a b :
  same_core a b ->
  (event b = event a \/ event b = KEY_EVENT_INIT \/
   (event b = KEY_EVENT_LONG_PRESSED_ALWS /\
    state a = KEY_STATE_LONG_PRESSED_ALWS)) ->
  steady a b.
Proof.
  intros H He. apply same_core_fields in H.
  destruct H as (_ & Es & Et & Ec & _).
  unfold steady. split; [exact Es|]. split; [exact Et|].
  split; [exact Ec|exact He].
Qed.

Lemma cleared_event_init k : cleared k (with_event KEY_EVENT_INIT k).
Proof. split; [apply same_core_event|right; destruct k; reflexivity]. Qed.

(** *** The keys across one call *)

(** The key at [p] after a call: its lock flag possibly reset, then one
    step of the state machine for each occurrence in the key list, then
    its event possibly cleared and its lock flag possibly changed. *)
Lemma handler_keys tick io s r s' :
  NN_Key_Handler tick io s = Some (r, s') ->
  forall p, exists k0,
    same_core (keys s p) k0 /\ event k0 = event (keys s p) /\
    cleared (Nat.iter (count_occ Nat.eq_dec (_nn_key_list s) p)
                      (sm_step tick io) k0)
            (keys s' p).
Proof.
  unfold NN_Key_Handler. intros H p.
  destruct (reset_phase (_nn_key_list s) s) as (_ & L1 & _ & _ & _ & K1).
  set (s1 := fold_left reset_lock (_nn_key_list s) s) in *.
  destruct (foldM (run_state_machine tick io) (_nn_key_list s1) s1)
    as [s2|] eqn:E2; cbn [bind] in H; [|discriminate].
  apply sm_phase in E2. destruct E2 as (_ & L2 & _ & _ & _ & K2).
  destruct (_NN_Combo_Process tick s2) as [s3|] eqn:E3; cbn [bind] in H;
    [|discriminate].
  apply Combo_Process_effect in E3.
  destruct E3 as (L3 & _ & _ & _ & K3 & _).
  destruct (dispatch_phase tick (_nn_key_list s3) true s3)
    as (_ & _ & _ & _ & K4 & _).
  inversion H as [H']. rewrite H' in K4. cbn [snd] in K4.
  exists (keys s1 p). rewrite (K1 p).
  split; [|split].
  - destruct (existsb (Nat.eqb p) (_nn_key_list s) && is_member (keys s p));
      [apply same_core_lock|apply same_core_refl].
  - destruct (existsb (Nat.eqb p) (_nn_key_list s) && is_member (keys s p));
      [destruct (keys s p)|]; reflexivity.
  - rewrite <- (K1 p), <- L1, <- (K2 p).
    eapply cleared_trans; [apply K3|].
    destruct (K4 p) as [E|E]; rewrite E;
      [apply cleared_refl|apply cleared_event_init].
Qed.

(** After a call every registered key is settled for the tick and the
    inputs of that call. *)
Lemma first_call_settles tick io s r s' :
  (forall p, In p (_nn_key_list s) -> timed (keys s p)) ->
  NN_Key_Handler tick io s = Some (r, s') ->
  forall p, In p (_nn_key_list s) -> settled tick io (keys s' p).
Proof.
  intros Ht H p Hin.
  destruct (handler_keys tick io s r s' H p) as (k0 & Hc0 & _ & [Hcl _]).
  apply (count_occ_In Nat.eq_dec) in Hin.
  destruct (count_occ Nat.eq_dec (_nn_key_list s) p) as [|n] eqn:En; [lia|].
  apply (settled_core _ _ _ _ Hcl).
  apply iter_settles. apply (timed_core _ _ Hc0). apply Ht.
  apply (count_occ_In Nat.eq_dec). lia.
Qed.

(** A second call with the same tick and inputs leaves the state, the
    time stamp and the click count of every key as they are. *)
Lemma second_call_steady tick io s r1 s1 r2 s2 :
  (forall p, In p (_nn_key_list s) -> timed (keys s p)) ->
  NN_Key_Handler tick io s = Some (r1, s1) ->
  NN_Key_Handler tick io s1 = Some (r2, s2) ->
  forall p, steady (keys s1 p) (keys s2 p).
Proof.
  intros Ht H1 H2 p.
  destruct (handler_effect tick io s r1 s1 H1) as (_ & L1 & _).
  destruct (handler_keys tick io s1 r2 s2 H2 p) as (k0 & Hc0 & He0 & [Hc He]).
  rewrite L1 in Hc, He.
  destruct (in_dec Nat.eq_dec p (_nn_key_list s)) as [Hin|Hnin].
  - pose proof (first_call_settles tick io s r1 s1 Ht H1 p Hin) as S.
    apply (settled_core _ _ _ _ Hc0) in S.
    destruct (settled_iter tick io k0
                (count_occ Nat.eq_dec (_nn_key_list s) p) S)
      as (Hci & _ & Hei).
    apply steady_of.
    + eapply same_core_trans; [exact Hc0|].
      eapply same_core_trans; [exact Hci|exact Hc].
    + destruct He as [He|He]; [|right; left; exact He].
      rewrite He. destruct Hei as [Hei|[Hei Hs]].
      * left. congruence.
      * right; right. split; [exact Hei|].
        apply same_core_fields in Hc0. destruct Hc0 as (_ & Es & _).
        rewrite <- Es. exact Hs.
  - apply (count_occ_not_In Nat.eq_dec) in Hnin. rewrite Hnin in Hc, He.
    change (Nat.iter 0 (sm_step tick io) k0) with k0 in Hc, He.
    apply steady_of.
    + eapply same_core_trans; [exact Hc0|exact Hc].
    + destruct He as [He|He]; [left; congruence|right; left; exact He].
Qed.

(** *** The handler returns *)

Lemma Combo_Process_total tick s :
  (forall c, In c (_nn_combo_list s) ->
             forall j, In j (upto (combo_member_nbr (combs s c))) ->
                       member_at (combs s c) j <> None) ->
  exists s', _NN_Combo_Process tick s = Some s'.
Proof.
  intros Hm. unfold _NN_Combo_Process.
  destruct (foldM_total
              (fun s0 => forall c, same_combo_static (combs s c) (combs s0 c))
              (combo_process_one tick) (_nn_combo_list s)) with (s := s)
    as (s' & E & _).
  - intros s0 a Hin I0.
    pose proof (combo_process_one_spec tick s0 a
                  (members_static _ _ (I0 a) (Hm a Hin))) as Hs.
    cbv zeta in Hs. destruct Hs as (s' & E & _).
    exists s'. split; [exact E|].
    apply combo_process_one_effect in E.
    destruct E as (_ & _ & _ & Ho & Hst & _).
    intros c. destruct (Nat.eq_dec c a) as [->|Hne].
    + eapply same_combo_static_trans; [apply I0|exact Hst].
    + rewrite (Ho c Hne). apply I0.
  - intros c. apply same_combo_static_refl.
  - exists s'. exact E.
Qed.

(** On a well-formed system the handler returns, and it returns true. *)
Lemma handler_total tick io s :
  well_formed s -> exists s', NN_Key_Handler tick io s = Some (true, s').
Proof.
  intros [Hk Hc]. unfold NN_Key_Handler.
  destruct (reset_phase (_nn_key_list s) s) as (C1 & L1 & CL1 & _ & _ & K1).
  set (s1 := fold_left reset_lock (_nn_key_list s) s) in *.
  destruct (sm_phase_total tick io (_nn_key_list s1) s1) as (s2 & E2).
  { intros p Hin. rewrite L1 in Hin. rewrite (K1 p).
    destruct (existsb (Nat.eqb p) (_nn_key_list s) && is_member (keys s p));
      [destruct (keys s p) eqn:Ek; cbn; specialize (Hk p Hin);
       rewrite Ek in Hk; exact Hk
      |apply Hk; exact Hin]. }
  rewrite E2. cbn [bind].
  apply sm_phase in E2. destruct E2 as (C2 & _ & CL2 & _).
  destruct (Combo_Process_total tick s2) as (s3 & E3).
  { rewrite CL2, CL1, C2, C1. exact Hc. }
  rewrite E3. cbn [bind].
  destruct (dispatch_phase tick (_nn_key_list s3) true s3) as (Hr & _).
  destruct (fold_left (dispatch tick) (_nn_key_list s3) (true, s3))
    as [r s'].
  cbn [fst] in Hr. subst r. exists s'. reflexivity.
Qed.

Lemma handler_well_formed tick io s r s' :
  NN_Key_Handler tick io s = Some (r, s') -> well_formed s -> well_formed s'.
Proof.
  intros H [Hk Hc].
  destruct (handler_effect tick io s r s' H) as (_ & L & CL & St & _).
  split.
  - intros p Hin. rewrite L in Hin.
    destruct (handler_keys tick io s r s' H p) as (k0 & Hc0 & _ & [Hcl _]).
    apply same_core_fields in Hcl. destruct Hcl as (Er & _).
    apply same_core_fields in Hc0. destruct Hc0 as (Er0 & _).
    rewrite Er, key_read_iter_sm_step, Er0. apply Hk; exact Hin.
  - intros c Hin. rewrite CL in Hin.
    apply (members_static _ _ (St c)). apply Hc; exact Hin.
Qed.

(** *** Dispatch of quiet keys *)

Lemma Key_Event_idle s p tick :
  event (keys s p) = KEY_EVENT_INIT ->
  _NN_Key_Event (Some p) tick s = (true, s).
Proof. intros H. unfold _NN_Key_Event. rewrite H. reflexivity. Qed.

Lemma dispatch_quiet_one tick r s p :
  quiet (keys s p) ->
  keys (snd (dispatch tick (r, s) p)) = keys s /\
  exists d,
    trace (snd (dispatch tick (r, s) p)) = trace s ++ d /\
    Forall (fun c => is_continuous_call c = true) d.
Proof.
  intros Hq. unfold dispatch.
  destruct (lock_flag (keys s p)) eqn:El; cbn [snd].
  { split; [reflexivity|]. exists []. rewrite app_nil_r.
    split; [reflexivity|constructor]. }
  destruct Hq as [Hq|[Hq|Hq]]; [congruence| |].
  - rewrite (Key_Event_idle s p tick Hq). cbn [snd].
    split; [reflexivity|]. exists []. rewrite app_nil_r.
    split; [reflexivity|constructor].
  - destruct (Key_Event_effect s p tick)
      as (_ & _ & _ & _ & _ & _ & Ha & _ & Ht).
    destruct (_NN_Key_Event (Some p) tick s) as [r' s'].
    cbn [fst snd] in *.
    split; [apply Ha; exact Hq|].
    destruct Ht as [[Ht _]|[(f & ud & _ & Hne & _)|(f & ud & Ht & _)]].
    + exists []. rewrite app_nil_r. split; [exact Ht|constructor].
    + contradiction.
    + eexists. split; [exact Ht|]. constructor; [reflexivity|constructor].
Qed.

(** When every listed key is quiet the third loop invokes continuous
    callbacks only, and leaves the keys as they are. *)
Lemma dispatch_quiet tick l :
  forall r s,
    (forall q, In q l -> quiet (keys s q)) ->
    keys (snd (fold_left (dispatch tick) l (r, s))) = keys s /\
    exists d,
      trace (snd (fold_left (dispatch tick) l (r, s))) = trace s ++ d /\
      Forall (fun c => is_continuous_call c = true) d.
Proof.
  induction l as [|a l IH]; intros r s Hq.
  - cbn [fold_left snd]. split; [reflexivity|]. exists [].
    rewrite app_nil_r. split; [reflexivity|constructor].
  - cbn [fold_left].
    destruct (dispatch_quiet_one tick r s a (Hq a (or_introl eq_refl)))
      as (K1 & d1 & T1 & D1).
    destruct (dispatch tick (r, s) a) as [r1 s1]. cbn [snd] in *.
    destruct (IH r1 s1) as (K2 & d2 & T2 & D2).
    { intros q Hin. rewrite K1. apply Hq; right; exact Hin. }
    split; [congruence|].
    exists (d1 ++ d2). rewrite T2, T1, app_assoc.
    split; [reflexivity|apply Forall_app; split; assumption].
Qed.

(** After the third loop every listed key that was not locked has no
    event pending, or the continuous one. *)
Lemma dispatch_done tick l :
  forall r s q,
    In q l ->
    lock_flag (keys s q) = true \/
    event (keys (snd (fold_left (dispatch tick) l (r, s))) q) = KEY_EVENT_INIT \/
    event (keys (snd (fold_left (dispatch tick) l (r, s))) q)
    = KEY_EVENT_LONG_PRESSED_ALWS.
Proof.
  induction l as [|a l IH]; intros r s q Hin; [destruct Hin|].
  cbn [fold_left].
  destruct (dispatch_effect tick r s a)
    as (_ & _ & _ & _ & Ho & Hp & Ha & Hi & _).
  destruct (dispatch tick (r, s) a) as [r1 s1]. cbn [fst snd] in *.
  destruct (Nat.eq_dec q a) as [->|Hne].
  - destruct (lock_flag (keys s a)) eqn:El; [left; reflexivity|right].
    destruct (dispatch_phase tick l r1 s1) as (_ & _ & _ & _ & K & _).
    assert (E1 : event (keys s1 a) = KEY_EVENT_INIT \/
                 event (keys s1 a) = KEY_EVENT_LONG_PRESSED_ALWS).
    { destruct (event_eqb (event (keys s a)) KEY_EVENT_LONG_PRESSED_ALWS)
        eqn:Ee.
      - apply event_eqb_eq in Ee. right. rewrite (Ha Ee). exact Ee.
      - apply event_eqb_neq in Ee. left. apply Hi; [reflexivity|exact Ee]. }
    destruct (K a) as [E|E]; rewrite E;
      [exact E1|left; destruct (keys s1 a); reflexivity].
  - destruct Hin as [->|Hin]; [contradiction Hne; reflexivity|].
    rewrite <- (Ho q Hne). apply IH; exact Hin.
Qed.

(** *** Without combos *)

(** After a call on a system without combos every registered key is
    quiet, and a locked one is not a combo member: the next call will not
    unlock it. *)
Lemma first_call_quiet tick io s r s' :
  _nn_combo_list s = [] ->
  NN_Key_Handler tick io s = Some (r, s') ->
  forall p, In p (_nn_key_list s) ->
            (lock_flag (keys s' p) = true /\ is_member (keys s' p) = false) \/
            event (keys s' p) = KEY_EVENT_INIT \/
            event (keys s' p) = KEY_EVENT_LONG_PRESSED_ALWS.
Proof.
  unfold NN_Key_Handler. intros Hnc H p Hin.
  destruct (reset_phase (_nn_key_list s) s) as (_ & La & CLa & _ & _ & Ka).
  set (sa := fold_left reset_lock (_nn_key_list s) s) in *.
  destruct (foldM (run_state_machine tick io) (_nn_key_list sa) sa)
    as [sb|] eqn:E2; cbn [bind] in H; [|discriminate].
  apply sm_phase in E2. destruct E2 as (_ & Lb & CLb & _ & _ & Kb).
  rewrite Combo_Process_none in H by (rewrite CLb, CLa; exact Hnc).
  cbn [bind] in H. inversion H as [H']. clear H.
  pose proof (dispatch_done tick (_nn_key_list sb) true sb p) as D.
  destruct (dispatch_phase tick (_nn_key_list sb) true sb)
    as (_ & _ & _ & _ & K & _).
  rewrite H' in D, K. cbn [snd] in D, K.
  destruct D as [D|D]; [rewrite Lb, La; exact Hin| |right; exact D].
  left.
  assert (F : lock_flag (keys s' p) = lock_flag (keys sb p) /\
              is_member (keys s' p) = is_member (keys sb p))
    by (destruct (K p) as [E|E]; rewrite E; destruct (keys sb p);
        split; reflexivity).
  destruct F as [F1 F2]. rewrite F1, F2. split; [exact D|].
  rewrite (Kb p) in D |- *.
  destruct (iter_sm_step_flags tick io
              (count_occ Nat.eq_dec (_nn_key_list sa) p) (keys sa p))
    as [G1 G2].
  rewrite G1 in D. rewrite G2. rewrite (Ka p) in D |- *.
  assert (Hex : existsb (Nat.eqb p) (_nn_key_list s) = true)
    by (apply existsb_exists; exists p; split;
        [exact Hin|apply Nat.eqb_refl]).
  rewrite Hex in D |- *. cbn [andb] in D |- *.
  destruct (is_member (keys s p)) eqn:Em; [|exact Em].
  destruct (keys s p); discriminate D.
Qed.

(** Without combos a second call with the same tick and inputs invokes
    continuous callbacks only. *)
Lemma second_call_quiet tick io s r1 s1 r2 s2 :
  _nn_combo_list s = [] ->
  (forall p, In p (_nn_key_list s) -> timed (keys s p)) ->
  NN_Key_Handler tick io s = Some (r1, s1) ->
  NN_Key_Handler tick io s1 = Some (r2, s2) ->
  Forall (fun c => is_continuous_call c = true) (new_calls s1 s2).
Proof.
  intros Hnc Ht H1 H2.
  pose proof (first_call_settles tick io s r1 s1 Ht H1) as Hset.
  pose proof (first_call_quiet tick io s r1 s1 Hnc H1) as Q1.
  destruct (handler_effect tick io s r1 s1 H1) as (_ & L1 & CL1 & _).
  unfold NN_Key_Handler in H2.
  destruct (reset_phase (_nn_key_list s1) s1)
    as (_ & La & CLa & _ & Ta & Ka).
  set (sa := fold_left reset_lock (_nn_key_list s1) s1) in *.
  destruct (foldM (run_state_machine tick io) (_nn_key_list sa) sa)
    as [sb|] eqn:E2; cbn [bind] in H2; [|discriminate].
  apply sm_phase in E2. destruct E2 as (_ & Lb & CLb & _ & Tb & Kb).
  rewrite Combo_Process_none in H2
    by (rewrite CLb, CLa, CL1; exact Hnc).
  cbn [bind] in H2. inversion H2 as [H2']. clear H2.
  destruct (dispatch_quiet tick (_nn_key_list sb) true sb)
    as (_ & d & T & D).
  { intros q Hin. rewrite Lb, La, L1 in Hin.
    assert (Hc : same_core (keys s1 q) (keys sa q) /\
                 event (keys sa q) = event (keys s1 q) /\
                 (is_member (keys s1 q) = false ->
                  lock_flag (keys sa q) = lock_flag (keys s1 q))).
    { rewrite (Ka q).
      destruct (existsb (Nat.eqb q) (_nn_key_list s1)); cbn [andb];
        [|split; [apply same_core_refl|split; reflexivity]].
      destruct (is_member (keys s1 q));
        [|split; [apply same_core_refl|split; reflexivity]].
      split; [apply same_core_lock|].
      split; [destruct (keys s1 q); reflexivity|discriminate]. }
    destruct Hc as (Hc & He & Hl).
    pose proof (settled_core _ _ _ _ Hc (Hset q Hin)) as S.
    destruct (settled_iter tick io (keys sa q)
                (count_occ Nat.eq_dec (_nn_key_list sa) q) S)
      as (_ & Il & Ie).
    rewrite <- (Kb q) in Il, Ie. unfold quiet.
    destruct (Q1 q Hin) as [[Q Qm]|Q].
    - left. rewrite Il, (Hl Qm). exact Q.
    - right. rewrite <- He in Q.
      destruct Ie as [Ie|[Ie _]]; [rewrite Ie; exact Q|right; exact Ie]. }
  rewrite H2' in T. cbn [snd] in T.
  rewrite Tb, Ta in T. rewrite (new_calls_app s1 s2 d T). exact D.
Qed.

(** C9, amended.  On a well-formed system whose registered keys have
    non-zero long-press and multi-click thresholds, a call of
    [NN_Key_Handler] and a second call with the same tick and the same
    raw inputs both return true.  The second call leaves the state, the
    time stamp and the click count of every key as they are after the
    first; the pending event of a key after the second call is the one
    after the first, or none, or the continuous event of a key held in
    [KEY_STATE_LONG_PRESSED_ALWS], which the state machine emits at every
    call.  If no combo is registered the second call invokes continuous
    callbacks only. *)
Theorem C9_second_call_steady (tick : Z) (io : nat -> bool) (s : nn_state) :
  well_formed s ->
  (forall p, In p (_nn_key_list s) -> timed (keys s p)) ->
  exists s1 s2,
    NN_Key_Handler tick io s = Some (true, s1) /\
    NN_Key_Handler tick io s1 = Some (true, s2) /\
    (forall p, steady (keys s1 p) (keys s2 p)) /\
    (_nn_combo_list s = [] ->
     Forall (fun c => is_continuous_call c = true) (new_calls s1 s2)).
Proof.
  intros Hwf Ht.
  destruct (handler_total tick io s Hwf) as (s1 & E1).
  destruct (handler_total tick io s1
              (handler_well_formed tick io s true s1 E1 Hwf)) as (s2 & E2).
  exists s1, s2. split; [exact E1|]. split; [exact E2|]. split.
  - exact (second_call_steady tick io s true s1 true s2 Ht E1 E2).
  - intros Hnc.
    exact (second_call_quiet tick io s true s1 true s2 Hnc Ht E1 E2).
Qed.

Lemma both_held_well_formed : well_formed both_held.
Proof.
  split.
  - intros p Hin. vm_compute in Hin.
    destruct Hin as [<-|[<-|[]]]; vm_compute; discriminate.
  - intros c Hin. vm_compute in Hin. destruct Hin.
Qed.

Lemma both_held_timed p : In p (_nn_key_list both_held) -> timed (keys both_held p).
Proof.
  intros Hin. vm_compute in Hin.
  destruct Hin as [<-|[<-|[]]]; repeat split; vm_compute; discriminate.
Qed.

(** Witness of [C9_second_call_steady]: the keys A and B of [both_held],
    both read pressed at tick 5000.  The first call invokes the
    continuous callback of A; the second call invokes nothing. *)
Lemma C9_second_call_steady_witness :
  exists s1 s2,
    NN_Key_Handler 5000 (fun _ => true) both_held = Some (true, s1) /\
    NN_Key_Handler 5000 (fun _ => true) s1 = Some (true, s2) /\
    (forall p, steady (keys s1 p) (keys s2 p)) /\
    Forall (fun c => is_continuous_call c = true) (new_calls s1 s2).
Proof.
  destruct (C9_second_call_steady 5000 (fun _ => true) both_held
              both_held_well_formed both_held_timed)
    as (s1 & s2 & E1 & E2 & Hs & Hq).
  exists s1, s2. split; [exact E1|]. split; [exact E2|].
  split; [exact Hs|]. apply Hq. vm_compute. reflexivity.
Defined.

(** The two calls of the witness, evaluated. *)
Lemma both_held_twice :
  option_map (fun s => trace s)
             (run_handler [(5000, fun _ => true)] both_held)
  = Some [KeyCallback 12 0%nat KEY_EVENT_LONG_PRESSED_ALWS None] /\
  option_map (fun s => trace s)
             (run_handler [(5000, fun _ => true); (5000, fun _ => true)]
                          both_held)
  = Some [KeyCallback 12 0%nat KEY_EVENT_LONG_PRESSED_ALWS None].
Proof. split; vm_compute; reflexivity. Qed.

(** * Further properties of the code *)

(** ** When the handler returns *)

Lemma sm_phase_reads tick io l :
  forall s s',
    foldM (run_state_machine tick io) l s = Some s' ->
    forall p, In p l -> key_read (keys s p) <> None.
Proof.
  induction l as [|a l IH]; intros s s' H p Hin; [destruct Hin|].
  simpl in H. unfold run_state_machine at 1 in H.
  destruct (key_read (keys s a)) as [f|] eqn:Er; simpl in H; [|discriminate].
  destruct (Nat.eq_dec a p) as [->|Hne]; [rewrite Er; discriminate|].
  destruct Hin as [->|Hin]; [contradiction Hne; reflexivity|].
  specialize (IH _ _ H p Hin). simpl in IH.
  rewrite upd_other in IH by congruence. exact IH.
Qed.

Lemma check_loop_members tick c l :
  forall s act st',
    foldM (combo_check_member tick c) l (s, act) = Some st' ->
    forall k, In k l -> member_at (combs s c) k <> None.
Proof.
  induction l as [|a l IH]; intros s act st' H k Hin; [destruct Hin|].
  cbn [foldM] in H.
  destruct (combo_check_member tick c (s, act) a) as [[s1 a1]|] eqn:E;
    cbn [bind] in H; [|discriminate].
  destruct Hin as [<-|Hin].
  - unfold combo_check_member in E.
    destruct (member_at (combs s c) a); [discriminate|discriminate E].
  - specialize (IH _ _ _ H k Hin).
    apply combo_check_member_frame in E.
    destruct E as (_ & _ & _ & _ & _ & _ & St).
    apply same_combo_static_fields in St. destruct St as (Hm & _).
    unfold member_at in *. rewrite Hm in IH. exact IH.
Qed.

Lemma combo_process_one_members tick s c s' :
  combo_process_one tick s c = Some s' ->
  forall j, In j (upto (combo_member_nbr (combs s c))) ->
            member_at (combs s c) j <> None.
Proof.
  unfold combo_process_one. intros H.
  destruct (foldM (combo_check_member tick c)
                  (upto (combo_member_nbr (combs s c)))
                  (s, negb (combo_mem_first (combs s c) =? 0)))
    as [st1|] eqn:E1; [|discriminate].
  exact (check_loop_members tick c _ _ _ _ E1).
Qed.

Lemma Combo_Process_members tick l :
  forall s s',
    foldM (combo_process_one tick) l s = Some s' ->
    forall c, In c l ->
              forall j, In j (upto (combo_member_nbr (combs s c))) ->
                        member_at (combs s c) j <> None.
Proof.
  induction l as [|a l IH]; intros s s' H c Hin; [destruct Hin|].
  cbn [foldM] in H.
  destruct (combo_process_one tick s a) as [s1|] eqn:E; cbn [bind] in H;
    [|discriminate].
  destruct (Nat.eq_dec c a) as [->|Hne];
    [exact (combo_process_one_members tick s a s1 E)|].
  destruct Hin as [->|Hin]; [contradiction Hne; reflexivity|].
  apply combo_process_one_effect in E. destruct E as (_ & _ & _ & Ho & _).
  rewrite <- (Ho c Hne). exact (IH _ _ H c Hin).
Qed.

Lemma handler_some_well_formed tick io s r s' :
  NN_Key_Handler tick io s = Some (r, s') -> well_formed s.
Proof.
  intros H. unfold NN_Key_Handler in H.
  destruct (reset_phase (_nn_key_list s) s) as (C1 & L1 & CL1 & _ & _ & K1).
  set (s1 := fold_left reset_lock (_nn_key_list s) s) in *.
  destruct (foldM (run_state_machine tick io) (_nn_key_list s1) s1)
    as [s2|] eqn:E2; cbn [bind] in H; [|discriminate].
  destruct (_NN_Combo_Process tick s2) as [s3|] eqn:E3; cbn [bind] in H;
    [|discriminate].
  split.
  - intros p Hin. rewrite <- L1 in Hin.
    pose proof (sm_phase_reads tick io _ _ _ E2 p Hin) as Hr.
    rewrite (K1 p) in Hr.
    destruct (existsb (Nat.eqb p) (_nn_key_list s) && is_member (keys s p));
      [destruct (keys s p); exact Hr|exact Hr].
  - apply sm_phase in E2. destruct E2 as (C2 & _ & CL2 & _).
    intros c Hin. rewrite <- CL1, <- CL2 in Hin.
    pose proof (Combo_Process_members tick _ _ _ E3 c Hin) as Hm.
    rewrite C2, C1 in Hm. exact Hm.
Qed.

Lemma handler_none tick io s :
  ~ well_formed s -> NN_Key_Handler tick io s = None.
Proof.
  intros Hn. destruct (NN_Key_Handler tick io s) as [[r s']|] eqn:E;
    [|reflexivity].
  exfalso. apply Hn. exact (handler_some_well_formed tick io s r s' E).
Qed.


(** ** What the handler leaves alone *)

Lemma same_settings_refl k : same_settings k k.
Proof. destruct k; reflexivity. Qed.

Lemma same_settings_trans k1 k2 k3 :
  same_settings k1 k2 -> same_settings k2 k3 -> same_settings k1 k3.
Proof.
  unfold same_settings; intros H12 H23. rewrite H23 at 1. rewrite H12 at 1.
  destruct k1; reflexivity.
Qed.

Lemma same_core_settings k k' : same_core k k' -> same_settings k k'.
Proof.
  unfold same_core, same_settings. intros H. rewrite H.
  destruct k; reflexivity.
Qed.

Lemma SM_settings k tick v : same_settings k (_NN_Key_StateMachine k tick v).
Proof.
  destruct k as [id rd lt db lg la mt st ev im lk mm mc cm cbs].
  unfold same_settings, _NN_Key_StateMachine. cbn.
  destruct st;
    repeat match goal with
           | |- context [if ?b then _ else _] => destruct b
           end; reflexivity.
Qed.

Lemma sm_step_settings tick io k : same_settings k (sm_step tick io k).
Proof.
  unfold sm_step. destruct (key_read k);
    [apply SM_settings|apply same_settings_refl].
Qed.

Lemma iter_sm_step_settings tick io n k :
  same_settings k (Nat.iter n (sm_step tick io) k).
Proof.
  induction n as [|n IH]; [apply same_settings_refl|].
  rewrite Nat.iter_succ.
  eapply same_settings_trans; [exact IH|apply sm_step_settings].
Qed.

(** The fields that [same_settings] keeps. *)
Lemma same_settings_fields k k' :
  same_settings k k' ->
  key_id k' = key_id k /\ key_read k' = key_read k /\
  debounce_time k' = debounce_time k /\ long_time k' = long_time k /\
  long_alws_time k' = long_alws_time k /\ multi_time k' = multi_time k /\
  multi_max k' = multi_max k /\ is_member k' = is_member k /\
  callback_mask k' = callback_mask k /\ callbacks k' = callbacks k.
Proof.
  unfold same_settings; intros H. rewrite H; destruct k; simpl.
  repeat split.
Qed.

Lemma handler_settings tick io s r s' :
  NN_Key_Handler tick io s = Some (r, s') ->
  forall p, same_settings (keys s p) (keys s' p).
Proof.
  intros H p.
  destruct (handler_keys tick io s r s' H p) as (k0 & Hc0 & _ & [Hcl _]).
  eapply same_settings_trans; [apply same_core_settings; exact Hc0|].
  eapply same_settings_trans; [apply iter_sm_step_settings|].
  apply same_core_settings. exact Hcl.
Qed.

(** A call of the handler changes no registration and no setting: the two
    registries are as before; of a key it writes only the state, the time
    stamp, the click count, the pending event and the lock flag; of a
    combo only the accumulated bitmask, the window start and the trigger
    flag. *)
Theorem handler_keeps_settings
        (tick : Z) (io : nat -> bool) (s : nn_state) (r : bool)
        (s' : nn_state) :
  NN_Key_Handler tick io s = Some (r, s') ->
  _nn_key_list s' = _nn_key_list s /\
  _nn_combo_list s' = _nn_combo_list s /\
  (forall p, same_settings (keys s p) (keys s' p)) /\
  (forall c, same_combo_static (combs s c) (combs s' c)).
Proof.
  intros H.
  destruct (handler_effect tick io s r s' H) as (_ & L & CL & St & _).
  split; [exact L|]. split; [exact CL|].
  split; [exact (handler_settings tick io s r s' H)|exact St].
Qed.

(** ** Which callbacks the handler invokes *)

Lemma registered_call_ext s s' c :
  _nn_key_list s' = _nn_key_list s ->
  _nn_combo_list s' = _nn_combo_list s ->
  (forall p, callback_mask (keys s' p) = callback_mask (keys s p) /\
             callbacks (keys s' p) = callbacks (keys s p)) ->
  (forall q, combo_cb (combs s' q) = combo_cb (combs s q)) ->
  registered_call s' c -> registered_call s c.
Proof.
  intros L CL K C. destruct c as [f p ev ud|f q ud]; cbn.
  - destruct (K p) as [Km Kc]. unfold mask_has, callback_at.
    rewrite L, Km, Kc. exact (fun H => H).
  - rewrite CL, C. exact (fun H => H).
Qed.

(** The dispatcher invokes nothing, or the callback registered for the
    pending event of the key, which is then not [KEY_EVENT_INIT]. *)
Lemma Key_Event_registered s p tick :
  In p (_nn_key_list s) ->
  exists d,
    trace (snd (_NN_Key_Event (Some p) tick s)) = trace s ++ d /\
    Forall (registered_call s) d.
Proof.
  intros Hin. unfold _NN_Key_Event.
  destruct (event_eqb (event (keys s p)) KEY_EVENT_INIT) eqn:Ei.
  { exists []. rewrite app_nil_r. split; [reflexivity|constructor]. }
  apply event_eqb_neq in Ei.
  destruct (mask_has (keys s p) (event (keys s p))) eqn:Em.
  - destruct (callback_at (keys s p) (event (keys s p))) as [fn u] eqn:Ec.
    cbn [func user_data].
    destruct fn as [f|].
    + assert (R : registered_call s (KeyCallback f p (event (keys s p)) u)).
      { cbn. rewrite Em, Ec. repeat split; assumption. }
      destruct (event_eqb (event (keys s p)) KEY_EVENT_LONG_PRESSED_ALWS).
      * destruct (KEY_LONG_PRESS_ALWS_CB <=? sub32 tick (LastTick s));
          cbn [snd trace log set_LastTick].
        -- eexists. split; [reflexivity|]. constructor; [exact R|constructor].
        -- exists []. rewrite app_nil_r. split; [reflexivity|constructor].
      * cbn [negb snd trace log set_key].
        eexists. split; [reflexivity|]. constructor; [exact R|constructor].
    + exists []. rewrite app_nil_r.
      destruct (negb (event_eqb (event (keys s p))
                                KEY_EVENT_LONG_PRESSED_ALWS));
        split; try reflexivity; constructor.
  - exists []. rewrite app_nil_r.
    destruct (negb (event_eqb (event (keys s p))
                              KEY_EVENT_LONG_PRESSED_ALWS));
      split; try reflexivity; constructor.
Qed.

Lemma dispatch_registered tick l :
  forall r s,
    incl l (_nn_key_list s) ->
    exists d,
      trace (snd (fold_left (dispatch tick) l (r, s))) = trace s ++ d /\
      Forall (registered_call s) d.
Proof.
  induction l as [|a l IH]; intros r s Hl.
  - exists []. rewrite app_nil_r. split; [reflexivity|constructor].
  - cbn [fold_left].
    assert (Ha : In a (_nn_key_list s)) by (apply Hl; left; reflexivity).
    destruct (dispatch_effect tick r s a)
      as (_ & C1 & L1 & CL1 & Ho & Hp & _).
    assert (D1 : exists d,
               trace (snd (dispatch tick (r, s) a)) = trace s ++ d /\
               Forall (registered_call s) d).
    { unfold dispatch. destruct (lock_flag (keys s a)).
      - exists []. rewrite app_nil_r. split; [reflexivity|constructor].
      - destruct (Key_Event_registered s a tick Ha) as (d & T & R).
        destruct (_NN_Key_Event (Some a) tick s) as [r' s1]. cbn [snd] in *.
        exists d. split; assumption. }
    destruct D1 as (d1 & T1 & R1).
    destruct (dispatch tick (r, s) a) as [r1 s1]. cbn [fst snd] in *.
    destruct (IH r1 s1) as (d2 & T2 & R2).
    { rewrite L1. intros x Hx. apply Hl. right; exact Hx. }
    exists (d1 ++ d2). rewrite T2, T1, app_assoc. split; [reflexivity|].
    apply Forall_app. split; [exact R1|].
    eapply Forall_impl; [|exact R2].
    intros c. apply registered_call_ext; [exact L1|exact CL1| |].
    + intros p. destruct (Nat.eq_dec p a) as [->|Hne].
      * destruct Hp as [E|E]; rewrite E; [split; reflexivity|].
        destruct (keys s a); split; reflexivity.
      * rewrite (Ho p Hne). split; reflexivity.
    + intros q. rewrite C1. reflexivity.
Qed.

Lemma combo_process_one_registered tick s c s' :
  In c (_nn_combo_list s) ->
  combo_process_one tick s c = Some s' ->
  exists d, trace s' = trace s ++ d /\ Forall (registered_call s) d.
Proof.
  intros Hin E.
  pose proof (combo_process_one_spec tick s c
                (combo_process_one_members tick s c s' E)) as Hs.
  cbv zeta in Hs. destruct Hs as (s1 & E1 & _ & _ & _ & T & _).
  rewrite E in E1. inversion E1; subst s1. clear E1.
  eexists. split; [exact T|].
  match goal with |- Forall _ (if ?b then _ else _) => destruct b end;
    [|constructor].
  unfold combo_calls.
  destruct (combo_cb (combs s c)) as [fn u] eqn:Ec. cbn [func user_data].
  destruct fn as [f|]; [|constructor].
  constructor; [|constructor]. cbn. rewrite Ec. split; [exact Hin|reflexivity].
Qed.

Lemma Combo_Process_registered tick s s' :
  _NN_Combo_Process tick s = Some s' ->
  exists d, trace s' = trace s ++ d /\ Forall (registered_call s) d.
Proof.
  unfold _NN_Combo_Process. intros H.
  apply (foldM_inv
           (fun s0 => combo_effect s s0 /\
                      exists d, trace s0 = trace s ++ d /\
                                Forall (registered_call s) d)
           (combo_process_one tick) (_nn_combo_list s)) with (s := s) in H.
  - destruct H as [_ H]. exact H.
  - intros s0 a s1 Hin [I0 (d0 & T0 & R0)] E.
    assert (I1 : combo_effect s s1).
    { eapply combo_effect_trans; [exact I0|].
      apply combo_process_one_effect in E.
      destruct E as (L & CL & T & O & S & Q & R).
      unfold combo_effect. rewrite L, CL, T. splits.
      - intros c'. destruct (Nat.eq_dec c' a) as [->|Hne]; [exact S|].
        rewrite (O c' Hne). apply same_combo_static_refl.
      - exact Q.
      - destruct R as [R|(f & ud & R)].
        + exists []. rewrite app_nil_r. split; [assumption|constructor].
        + eexists; split; [exact R|]. constructor; [|constructor].
          exists f, a, ud; reflexivity. }
    split; [exact I1|].
    destruct I0 as (L0 & CL0 & _ & S0 & K0 & _).
    destruct (combo_process_one_registered tick s0 a s1) as (d1 & T1 & R1);
      [rewrite CL0; exact Hin|exact E|].
    exists (d0 ++ d1). rewrite T1, T0, app_assoc. split; [reflexivity|].
    apply Forall_app. split; [exact R0|].
    eapply Forall_impl; [|exact R1].
    intros c. apply registered_call_ext; [exact L0|exact CL0| |].
    + intros p. destruct (K0 p) as [Hc _].
      apply same_core_fields in Hc.
      destruct Hc as (_ & _ & _ & _ & _ & Hcb & Hm & _).
      split; assumption.
    + intros q. specialize (S0 q). apply same_combo_static_fields in S0.
      destruct S0 as (_ & _ & _ & _ & Hcb). exact Hcb.
  - split; [apply combo_effect_refl|].
    exists []. rewrite app_nil_r. split; [reflexivity|constructor].
Qed.

(** A call of the handler invokes registered callbacks only: a key
    callback is the one registered for the event it is passed, of a
    registered key, with its registered user data, and the event is never
    [KEY_EVENT_INIT]; a combo callback is that of a registered combo with
    its user data. *)
Theorem handler_invokes_registered_callbacks
        (tick : Z) (io : nat -> bool) (s : nn_state) (r : bool)
        (s' : nn_state) :
  NN_Key_Handler tick io s = Some (r, s') ->
  Forall (registered_call s) (new_calls s s').
Proof.
  unfold NN_Key_Handler. intros H.
  destruct (reset_phase (_nn_key_list s) s) as (C1 & L1 & CL1 & _ & T1 & K1).
  set (s1 := fold_left reset_lock (_nn_key_list s) s) in *.
  destruct (foldM (run_state_machine tick io) (_nn_key_list s1) s1)
    as [s2|] eqn:E2; cbn [bind] in H; [|discriminate].
  apply sm_phase in E2. destruct E2 as (C2 & L2 & CL2 & _ & T2 & K2).
  destruct (_NN_Combo_Process tick s2) as [s3|] eqn:E3; cbn [bind] in H;
    [|discriminate].
  destruct (Combo_Process_registered tick s2 s3 E3) as (d3 & T3 & R3).
  apply Combo_Process_effect in E3.
  destruct E3 as (L3 & CL3 & _ & S3 & K3 & _).
  destruct (dispatch_registered tick (_nn_key_list s3) true s3)
    as (d4 & T4 & R4); [apply incl_refl|].
  inversion H as [H']. rewrite H' in T4. cbn [snd] in T4.
  assert (S2 : forall p, callback_mask (keys s2 p) = callback_mask (keys s p) /\
                         callbacks (keys s2 p) = callbacks (keys s p)).
  { intros p. rewrite (K2 p).
    destruct (same_settings_fields _ _
                (iter_sm_step_settings tick io
                   (count_occ Nat.eq_dec (_nn_key_list s1) p) (keys s1 p)))
      as (_ & _ & _ & _ & _ & _ & _ & _ & Hm & Hc).
    rewrite Hm, Hc, (K1 p).
    destruct (existsb (Nat.eqb p) (_nn_key_list s) && is_member (keys s p));
      [destruct (keys s p)|]; split; reflexivity. }
  rewrite (new_calls_app s s' (d3 ++ d4))
    by (rewrite T4, T3, T2, T1, app_assoc; reflexivity).
  apply Forall_app. split.
  - eapply Forall_impl; [|exact R3].
    intros c. apply registered_call_ext.
    + rewrite L2, L1. reflexivity.
    + rewrite CL2, CL1. reflexivity.
    + exact S2.
    + intros q. rewrite C2, C1. reflexivity.
  - eapply Forall_impl; [|exact R4].
    intros c. apply registered_call_ext.
    + rewrite L3, L2, L1. reflexivity.
    + rewrite CL3, CL2, CL1. reflexivity.
    + intros p. destruct (K3 p) as [Hc _].
      apply same_core_fields in Hc.
      destruct Hc as (_ & _ & _ & _ & _ & Hcb & Hm & _).
      destruct (S2 p) as [Sm Sc]. split; congruence.
    + intros q. specialize (S3 q). apply same_combo_static_fields in S3.
      destruct S3 as (_ & _ & _ & _ & Hcb). rewrite Hcb, C2, C1. reflexivity.
Qed.

(** Witness of [handler_keeps_settings]: the call at tick 1050 on
    [clicked_250_apart], which observes the press of A. *)
Lemma handler_keeps_settings_witness :
  _nn_key_list (state_after [(1050, released)] clicked_250_apart)
  = _nn_key_list clicked_250_apart /\
  _nn_combo_list (state_after [(1050, released)] clicked_250_apart)
  = _nn_combo_list clicked_250_apart /\
  (forall p, same_settings
               (keys clicked_250_apart p)
               (keys (state_after [(1050, released)] clicked_250_apart) p)) /\
  (forall c, same_combo_static
               (combs clicked_250_apart c)
               (combs (state_after [(1050, released)] clicked_250_apart) c)).
Proof.
  apply (handler_keeps_settings 1050 released clicked_250_apart true).
  vm_compute. reflexivity.
Defined.

(** Witness of [handler_invokes_registered_callbacks]: the call at tick
    5000 on [both_held], which invokes the continuous callback of A. *)
Lemma handler_invokes_registered_callbacks_witness :
  Forall (registered_call both_held)
         (new_calls both_held
                    (state_after [(5000, fun _ => true)] both_held)).
Proof.
  apply (handler_invokes_registered_callbacks
           5000 (fun _ => true) both_held true).
  vm_compute. reflexivity.
Defined.

(** ** The registries *)

Lemma key_setters_lists s s' :
  (exists key name pfunc, s' = snd (NN_Key_Init key name pfunc s)) \/
  (exists key d l la m mx, s' = snd (NN_Key_SetPara key d l la m mx s)) \/
  (exists key ev cb ud, s' = snd (NN_Key_SetCb key ev cb ud s)) \/
  (exists key ev, s' = snd (NN_Key_DeleteCb key ev s)) \/
  (exists combo cb para, s' = snd (NN_Combo_SetCb combo cb para s)) \/
  (exists combo t, s' = snd (NN_Combo_SetWindowTime combo t s)) ->
  _nn_key_list s' = _nn_key_list s /\ _nn_combo_list s' = _nn_combo_list s.
Proof.
  intros [(key & name & pf & ->)|[(key & d & l & la & m & mx & ->)
         |[(key & ev & cb & ud & ->)|[(key & ev & ->)
         |[(c & cb & pa & ->)|(c & t & ->)]]]]].
  - destruct key; split; reflexivity.
  - destruct key; split; reflexivity.
  - unfold NN_Key_SetCb. destruct key; [|split; reflexivity].
    destruct ((event_code KEY_EVENT_MAX <=? event_code ev) || is_null cb);
      split; reflexivity.
  - unfold NN_Key_DeleteCb. destruct key; [|split; reflexivity].
    destruct (event_code KEY_EVENT_MAX <=? event_code ev); split; reflexivity.
  - destruct c, cb; split; reflexivity.
  - unfold NN_Combo_SetWindowTime. cbv zeta.
    destruct c; [|split; reflexivity].
    destruct (65535 <? uint16 t); split; reflexivity.
Qed.

Lemma Key_Add_lists key id rf s :
  _nn_combo_list (snd (NN_Key_Add key id rf s)) = _nn_combo_list s /\
  (_nn_key_list (snd (NN_Key_Add key id rf s)) = _nn_key_list s \/
   exists p, key = Some p /\ rf <> None /\
             Z.of_nat (List.length (_nn_key_list s)) < KEY_MAX_KEY_NUMBER /\
             _nn_key_list (snd (NN_Key_Add key id rf s))
             = _nn_key_list s ++ [p]).
Proof.
  unfold NN_Key_Add.
  destruct key as [p|]; [|split; [|left]; reflexivity].
  destruct rf as [f|]; [|split; [|left]; reflexivity].
  cbn [is_null orb].
  destruct (Z.leb_spec KEY_MAX_KEY_NUMBER
                       (Z.of_nat (List.length (_nn_key_list s))));
    [split; [|left]; reflexivity|].
  cbn. split; [reflexivity|]. right. exists p.
  split; [reflexivity|]. split; [discriminate|]. split; [assumption|].
  reflexivity.
Qed.

Lemma fold_left_lists {A : Type} (f : nn_state -> A -> nn_state) l :
  (forall s a, _nn_key_list (f s a) = _nn_key_list s /\
               _nn_combo_list (f s a) = _nn_combo_list s) ->
  forall s, _nn_key_list (fold_left f l s) = _nn_key_list s /\
            _nn_combo_list (fold_left f l s) = _nn_combo_list s.
Proof.
  intros Hf. induction l as [|a l IH]; intros s; [split; reflexivity|].
  cbn [fold_left]. destruct (IH (f s a)) as [H1 H2].
  destruct (Hf s a) as [F1 F2]. rewrite H1, H2, F1, F2. split; reflexivity.
Qed.

Lemma Combo_Add_lists comb id n m1 m2 rest s r s' :
  NN_Combo_Add comb id n m1 m2 rest s = Some (r, s') ->
  _nn_key_list s' = _nn_key_list s /\
  (_nn_combo_list s' = _nn_combo_list s \/
   exists c, comb = Some c /\
             Z.of_nat (List.length (_nn_combo_list s))
             < KEY_MAX_COMBO_NUMBER /\
             _nn_combo_list s' = _nn_combo_list s ++ [c]).
Proof.
  intros H. apply Combo_Add_defined in H.
  destruct H as [[_ ->]|(c & a & b & -> & _ & _ & _ & _ & Hroom & _ & ->)];
    [split; [|left]; reflexivity|].
  destruct (combo_add_rest_lists c rest (upto (uint8 n - 2))
              (combo_add_init c id (uint8 n) a b s)) as [F1 F2].
  unfold combo_add_result.
  cbn [push_combo _nn_key_list _nn_combo_list]. rewrite F1, F2.
  split; [reflexivity|]. right. exists c.
  split; [reflexivity|]. split; [assumption|reflexivity].
Qed.

(** In every state reached from empty registries through calls whose
    behaviour is defined, the key registry holds at most its
    [KEY_MAX_KEY_NUMBER = 20] entries and the combo registry at most its
    [KEY_MAX_COMBO_NUMBER = 20]: as long as no call is undefined, no
    store into either array has fallen outside it.  (With 20 combos a
    further [NN_Combo_Add] is not rejected; it has no defined
    behaviour.) *)
Theorem registry_bounds (s : nn_state) :
  reachable s ->
  Z.of_nat (List.length (_nn_key_list s)) <= KEY_MAX_KEY_NUMBER /\
  Z.of_nat (List.length (_nn_combo_list s)) <= KEY_MAX_COMBO_NUMBER.
Proof.
  unfold KEY_MAX_KEY_NUMBER, KEY_MAX_COMBO_NUMBER.
  induction 1 as [s Hk Hc|s s' Hr [IHk IHc] Hstep].
  - rewrite Hk, Hc. cbn. lia.
  - assert (Hsame : _nn_key_list s' = _nn_key_list s /\
                    _nn_combo_list s' = _nn_combo_list s ->
                    Z.of_nat (List.length (_nn_key_list s')) <= 20 /\
                    Z.of_nat (List.length (_nn_combo_list s')) <= 20)
      by (intros [E1 E2]; rewrite E1, E2; split; assumption).
    destruct Hstep.
    + apply Hsame, key_setters_lists. left; eauto.
    + destruct (Key_Add_lists key id read_func s)
        as [E [E'|(p & _ & _ & Hlt & E')]]; rewrite E, E';
        [split; assumption|].
      rewrite length_app. cbn [List.length].
      unfold KEY_MAX_KEY_NUMBER in Hlt. split; [lia|assumption].
    + apply Hsame, key_setters_lists. right; left; eauto 10.
    + apply Hsame, key_setters_lists. right; right; left; eauto 10.
    + apply Hsame, key_setters_lists. right; right; right; left; eauto.
    + match goal with
      | H : NN_Combo_Add _ _ _ _ _ _ _ = Some _ |- _ =>
          destruct (Combo_Add_lists _ _ _ _ _ _ _ _ _ H)
            as [E [E'|(c & _ & Hlt & E')]]
      end; rewrite E, E'; [split; assumption|].
      rewrite length_app. cbn [List.length].
      unfold KEY_MAX_COMBO_NUMBER in Hlt. split; [assumption|lia].
    + apply Hsame, key_setters_lists.
      right; right; right; right; left; eauto.
    + apply Hsame, key_setters_lists.
      right; right; right; right; right; eauto.
    + match goal with
      | H : NN_Key_Handler _ _ _ = Some _ |- _ =>
          destruct (handler_effect _ _ _ _ _ H) as (_ & L & CL & _)
      end.
      apply Hsame. split; assumption.
Qed.

(** Witness of [registry_bounds]: the system [two_keys_combo]. *)
Lemma registry_bounds_witness :
  Z.of_nat (List.length (_nn_key_list two_keys_combo)) <= KEY_MAX_KEY_NUMBER /\
  Z.of_nat (List.length (_nn_combo_list two_keys_combo))
  <= KEY_MAX_COMBO_NUMBER.
Proof. exact (registry_bounds two_keys_combo reachable_two_keys_combo). Defined.

(** ** Systems built through the API *)

Lemma key_ok_flags k e l m :
  e <> KEY_EVENT_MAX -> key_ok k ->
  key_ok (with_is_member m (with_lock_flag l (with_event e k))).
Proof.
  intros He (H1 & H2 & H3 & H4 & H5 & _ & H7 & H8 & H9).
  destruct k; cbn in *. unfold key_ok; cbn. repeat split; assumption || lia.
Qed.

Lemma key_ok_core k k' :
  same_core k k' -> event k' <> KEY_EVENT_MAX -> key_ok k -> key_ok k'.
Proof.
  unfold same_core. intros Hc He Hk. rewrite Hc.
  pose proof (key_ok_flags k (event k') (lock_flag k') (is_member k) He Hk)
    as H.
  destruct k; exact H.
Qed.

Lemma key_ok_cleared k k' : cleared k k' -> key_ok k -> key_ok k'.
Proof.
  intros [Hc He] Hk. apply (key_ok_core k k' Hc); [|exact Hk].
  destruct Hk as (_ & _ & _ & _ & _ & Hk & _).
  destruct He as [He|He]; rewrite He; [exact Hk|discriminate].
Qed.

Lemma SM_keeps_ok k tick v : key_ok k -> key_ok (_NN_Key_StateMachine k tick v).
Proof.
  intros (H1 & H2 & H3 & H4 & H5 & H6 & H7 & H8 & H9).
  destruct k as [id rd lt db lg la mt st ev im lk mm mc cm cbs].
  cbn in *.
  pose proof (Z.mod_pos_bound (mc + 1) 16 ltac:(lia)) as Hm.
  unfold _NN_Key_StateMachine. cbn.
  destruct st;
    repeat match goal with
           | |- context [if ?b then _ else _] => destruct b
           end;
    unfold key_ok; cbn; repeat split;
      first [assumption | discriminate | lia].
Qed.

Lemma sm_step_keeps_ok tick io k : key_ok k -> key_ok (sm_step tick io k).
Proof.
  unfold sm_step. destruct (key_read k); [apply SM_keeps_ok|exact (fun H => H)].
Qed.

Lemma iter_sm_step_keeps_ok tick io n k :
  key_ok k -> key_ok (Nat.iter n (sm_step tick io) k).
Proof.
  intros Hk. induction n as [|n IH]; [exact Hk|].
  rewrite Nat.iter_succ. apply sm_step_keeps_ok. exact IH.
Qed.

Lemma handler_keeps_ok tick io s r s' :
  NN_Key_Handler tick io s = Some (r, s') ->
  forall p, key_ok (keys s p) -> key_ok (keys s' p).
Proof.
  intros H p Hk.
  destruct (handler_keys tick io s r s' H p) as (k0 & Hc0 & He0 & Hcl).
  apply (key_ok_cleared _ _ Hcl). apply iter_sm_step_keeps_ok.
  apply (key_ok_core _ _ Hc0); [|exact Hk].
  rewrite He0. destruct Hk as (_ & _ & _ & _ & _ & Hk & _). exact Hk.
Qed.

Lemma key_ok_timed k : key_ok k -> timed k.
Proof.
  intros (_ & H2 & _ & H4 & H5 & _). split; [exact H2|]. split; assumption.
Qed.

(** *** The registration functions *)

Lemma Key_Init_keeps_ok p name f s :
  system_ok s -> system_ok (snd (NN_Key_Init (Some p) name (Some f) s)).
Proof.
  intros [[Hr Hm] Hk]. cbn [NN_Key_Init snd].
  split; [split|]; cbn [set_key keys combs _nn_key_list _nn_combo_list].
  - intros q Hin. unfold upd. destruct (Nat.eqb q p); [discriminate|].
    apply Hr; exact Hin.
  - exact Hm.
  - intros q Hin. unfold upd. destruct (Nat.eqb q p); [|apply Hk; exact Hin].
    unfold key_ok; cbn.
    unfold KEY_DEBOUNCE_TIME, KEY_LONG_PRESS_TIME, KEY_LONG_PRESS_ALWS,
      KEY_MULTI_PRESS_TIME.
    repeat split; first [discriminate | lia | reflexivity].
Qed.

Lemma Key_Add_keeps_ok key id rf s :
  system_ok s -> system_ok (snd (NN_Key_Add key id rf s)).
Proof.
  intros Hs. unfold NN_Key_Add.
  destruct key as [p|]; [|exact Hs].
  destruct rf as [f|]; [|exact Hs]. cbn [is_null orb].
  destruct (KEY_MAX_KEY_NUMBER <=? Z.of_nat (List.length (_nn_key_list s)));
    [exact Hs|].
  pose proof (Key_Init_keeps_ok p id f s Hs) as [[Hr Hm] Hk].
  cbn [NN_Key_Init negb snd] in *.
  split; [split|];
    cbn [push_key set_key keys combs _nn_key_list _nn_combo_list] in *.
  - intros q Hin. apply in_app_or in Hin.
    destruct Hin as [Hin|[<-|[]]]; [apply Hr; exact Hin|].
    unfold upd. rewrite Nat.eqb_refl. discriminate.
  - exact Hm.
  - intros q Hin. apply in_app_or in Hin.
    destruct Hin as [Hin|[<-|[]]]; [apply Hk; exact Hin|].
    unfold upd. rewrite Nat.eqb_refl. unfold key_ok; cbn.
    unfold KEY_DEBOUNCE_TIME, KEY_LONG_PRESS_TIME, KEY_LONG_PRESS_ALWS,
      KEY_MULTI_PRESS_TIME.
    repeat split; first [discriminate | lia | reflexivity].
Qed.

(** A function that rewrites one key and keeps what [key_ok] and
    [well_formed] look at. *)
Lemma set_key_keeps_ok p k' s :
  key_read k' = key_read (keys s p) ->
  (key_ok (keys s p) -> key_ok k') ->
  system_ok s -> system_ok (set_key p k' s).
Proof.
  intros Er Ek [[Hr Hm] Hk].
  split; [split|]; cbn [set_key keys combs _nn_key_list _nn_combo_list].
  - intros q Hin. unfold upd. destruct (Nat.eqb_spec q p) as [->|_];
      [rewrite Er|]; apply Hr; exact Hin.
  - exact Hm.
  - intros q Hin. unfold upd. destruct (Nat.eqb_spec q p) as [->|_];
      [apply Ek|]; apply Hk; exact Hin.
Qed.

Lemma Key_SetPara_keeps_ok key d l la m mx s :
  system_ok s -> system_ok (snd (NN_Key_SetPara key d l la m mx s)).
Proof.
  intros Hs. unfold NN_Key_SetPara. cbv zeta.
  destruct key as [p|]; [|exact Hs].
  pose proof (uint16_range d) as Hd. pose proof (uint16_range l) as Hl.
  pose proof (uint16_range la) as Hla. pose proof (uint16_range m) as Hm.
  pose proof (uint8_range mx) as Hmx.
  set (d' := uint16 d) in *. set (l' := uint16 l) in *.
  set (la' := uint16 la) in *. set (m' := uint16 m) in *.
  set (mx' := uint8 mx) in *.
  cbn [snd]. apply set_key_keeps_ok; [reflexivity| |exact Hs].
  intros (H1 & H2 & H3 & H4 & H5 & H6 & H7 & H8 & H9).
  unfold key_ok; cbn.
  destruct (Z.eqb_spec d' 0), (Z.eqb_spec l' 0), (Z.eqb_spec la' 0),
    (Z.eqb_spec m' 0), (Z.eqb_spec mx' 0), (Z.ltb_spec 15 mx');
    repeat split; first [assumption | lia].
Qed.

Lemma Key_SetCb_keeps_ok key ev cb ud s :
  system_ok s -> system_ok (snd (NN_Key_SetCb key ev cb ud s)).
Proof.
  intros Hs. unfold NN_Key_SetCb. destruct key as [p|]; [|exact Hs].
  destruct ((event_code KEY_EVENT_MAX <=? event_code ev) || is_null cb);
    [exact Hs|].
  cbn [snd]. apply set_key_keeps_ok; [destruct (keys s p); reflexivity|
                                      |exact Hs].
  intros (H1 & H2 & H3 & H4 & H5 & H6 & H7 & H8 & H9).
  destruct (keys s p); unfold key_ok; cbn in *.
  rewrite length_upd_nth. repeat split; assumption || lia.
Qed.

Lemma Key_DeleteCb_keeps_ok key ev s :
  system_ok s -> system_ok (snd (NN_Key_DeleteCb key ev s)).
Proof.
  intros Hs. unfold NN_Key_DeleteCb. destruct key as [p|]; [|exact Hs].
  destruct (event_code KEY_EVENT_MAX <=? event_code ev); [exact Hs|].
  cbn [snd]. apply set_key_keeps_ok; [destruct (keys s p); reflexivity|
                                      |exact Hs].
  intros (H1 & H2 & H3 & H4 & H5 & H6 & H7 & H8 & H9).
  destruct (keys s p); unfold key_ok; cbn in *.
  rewrite length_upd_nth. repeat split; assumption || lia.
Qed.

Lemma mark_member_keeps_ok t s : system_ok s -> system_ok (mark_member t s).
Proof.
  intros Hs. unfold mark_member.
  apply set_key_keeps_ok; [destruct (keys s t); reflexivity| |exact Hs].
  intros (H1 & H2 & H3 & H4 & H5 & H6 & H7 & H8 & H9).
  destruct (keys s t); unfold key_ok; cbn in *.
  repeat split; assumption || lia.
Qed.

(** Rewriting the record of a combo that is not registered. *)
Lemma set_comb_keeps_ok c cb s :
  (In c (_nn_combo_list s) ->
   forall j, In j (upto (combo_member_nbr cb)) -> member_at cb j <> None) ->
  system_ok s -> system_ok (set_comb c cb s).
Proof.
  intros Hc [[Hr Hm] Hk].
  split; [split|]; cbn [set_comb keys combs _nn_key_list _nn_combo_list].
  - exact Hr.
  - intros q Hin. unfold upd. destruct (Nat.eqb_spec q c) as [->|_];
      [apply Hc; exact Hin|apply Hm; exact Hin].
  - exact Hk.
Qed.

Lemma Combo_SetCb_keeps_ok combo cb para s :
  system_ok s -> system_ok (snd (NN_Combo_SetCb combo cb para s)).
Proof.
  intros Hs. unfold NN_Combo_SetCb.
  destruct combo as [c|], cb as [f|]; try exact Hs.
  cbn [snd]. apply set_comb_keeps_ok; [|exact Hs].
  intros Hin. destruct Hs as [[_ Hm] _]. specialize (Hm c Hin).
  destruct (combs s c); exact Hm.
Qed.

Lemma Combo_SetWindowTime_keeps_ok combo t s :
  system_ok s -> system_ok (snd (NN_Combo_SetWindowTime combo t s)).
Proof.
  intros Hs. unfold NN_Combo_SetWindowTime. cbv zeta.
  destruct combo as [c|]; [|exact Hs].
  destruct (65535 <? uint16 t); [exact Hs|].
  cbn [snd]. apply set_comb_keeps_ok; [|exact Hs].
  intros Hin. destruct Hs as [[_ Hm] _]. specialize (Hm c Hin).
  destruct (combs s c); exact Hm.
Qed.

(** The keys and the other combos across a call of [NN_Combo_Add] that
    registers; its own combo gets the member count [n] and the members
    it was passed. *)
Lemma Combo_Add_effect c id n a b rest s :
  0 <= n <= KEY_MAX_COMBO_MEMBER ->
  (forall i, Z.of_nat i < n - 2 -> nth i rest None <> None) ->
  let s' := combo_add_result c id n a b rest s in
  _nn_key_list s' = _nn_key_list s /\
  _nn_combo_list s' = _nn_combo_list s ++ [c] /\
  (forall q, keys s' q = keys s q \/
             keys s' q = with_is_member true (keys s q)) /\
  (forall c', c' <> c -> combs s' c' = combs s c') /\
  forall j, In j (upto (combo_member_nbr (combs s' c))) ->
            member_at (combs s' c) j <> None.
Proof.
  unfold KEY_MAX_COMBO_MEMBER.
  intros Hn Hrest. cbv zeta. unfold combo_add_result, combo_add_init.
  cbv zeta.
  assert (Hmark : forall t st q,
             keys (mark_member t st) q = keys st q \/
             keys (mark_member t st) q = with_is_member true (keys st q)).
  { intros t st q. unfold mark_member. cbn [set_key keys]. unfold upd.
    destruct (Nat.eqb_spec q t) as [->|_]; [right|left]; reflexivity. }
  assert (Hidem : forall k, with_is_member true (with_is_member true k)
                            = with_is_member true k)
    by (intros k; destruct k; reflexivity).
  set (c1 := fold_left _ (upto n) _).
  assert (F : combo_member_nbr c1 = n /\
              combo_member c1 = [None; None; None; None]).
  { subst c1.
    apply (fold_left_inv
             (fun cb => combo_member_nbr cb = n /\
                        combo_member cb = [None; None; None; None])).
    - intros cb i _ [F1 F2]. destruct cb; cbn in *. split; assumption.
    - split; reflexivity. }
  clearbody c1. destruct c1 as [cid ve vn mf w nbr tr mem cb].
  cbn in F. destruct F as [-> ->].
  assert (Hn' : n = 0 \/ n = 1 \/ n = 2 \/ n = 3 \/ n = 4) by lia.
  assert (Hr1 : n = 4 -> nth 1 rest None <> None)
    by (intros ->; apply Hrest; cbn; lia).
  assert (Hr0 : n = 3 \/ n = 4 -> nth 0 rest None <> None)
    by (intros [->| ->]; apply Hrest; cbn; lia).
  clear Hrest.
  destruct Hn' as [->|[->|[->|[->| ->]]]];
    match goal with
    | |- context [upto (?z - 2)] =>
        let l := eval vm_compute in (upto (z - 2)) in
        change (upto (z - 2)) with l
    end;
    cbn [fold_left]; unfold combo_add_member;
    try (destruct (nth 0 rest None) as [t0|] eqn:E0;
         [|exfalso; apply Hr0;
          [first [left; reflexivity|right; reflexivity]|reflexivity]]);
    try (destruct (nth 1 rest None) as [t1|] eqn:E1;
         [|exfalso; apply Hr1; reflexivity]);
    cbn [push_combo set_comb mark_member set_key keys combs
         _nn_key_list _nn_combo_list];
    (split; [reflexivity|]); (split; [reflexivity|]);
    (split; [|split]).
  all: try (intros c' Hc'; unfold upd;
            destruct (Nat.eqb_spec c' c); [contradiction|reflexivity]).
  all: try (intros j Hj; unfold upd in *; rewrite ?Nat.eqb_refl in *;
            cbn in Hj; vm_compute in Hj;
            repeat (destruct Hj as [<-|Hj]; [cbn; discriminate|]);
            destruct Hj).
  all: intros q; unfold upd;
    repeat match goal with
           | |- context [Nat.eqb ?x ?y] =>
               destruct (Nat.eqb_spec x y); subst
           end;
    rewrite ?Hidem; auto.
Qed.

Lemma Combo_Add_keeps_ok comb id n m1 m2 rest s r s' :
  0 <= n <= 255 ->
  (forall i, Z.of_nat i < n - 2 -> nth i rest None <> None) ->
  NN_Combo_Add comb id n m1 m2 rest s = Some (r, s') ->
  system_ok s -> system_ok s'.
Proof.
  intros Hn Hrest H Hs. apply Combo_Add_defined in H.
  rewrite (uint8_small n Hn) in H.
  destruct H as [[_ ->]|(c & a & b & _ & _ & _ & _ & Hn4 & _ & _ & ->)];
    [exact Hs|].
  destruct (Combo_Add_effect c id n a b rest s) as (L & CL & K & O & M);
    [lia|exact Hrest|].
  destruct Hs as [[Hr Hm] Hk].
  split; [split|].
  - intros q Hin. rewrite L in Hin.
    destruct (K q) as [E|E]; rewrite E;
      [|destruct (keys s q) eqn:Eq; cbn; specialize (Hr q Hin);
        rewrite Eq in Hr]; [apply Hr; exact Hin|exact Hr].
  - intros c' Hin. destruct (Nat.eq_dec c' c) as [->|Hne]; [exact M|].
    rewrite (O c' Hne). apply Hm.
    rewrite CL in Hin. apply in_app_or in Hin.
    destruct Hin as [Hin|[Hin|[]]]; [exact Hin|congruence].
  - intros q Hin. rewrite L in Hin. specialize (Hk q Hin).
    destruct (K q) as [E|E]; rewrite E; [exact Hk|].
    destruct Hk as (H1 & H2 & H3 & H4 & H5 & H6 & H7 & H8 & H9).
    destruct (keys s q); unfold key_ok; cbn in *.
    repeat split; assumption || lia.
Qed.

Lemma handler_keeps_system_ok tick io s r s' :
  NN_Key_Handler tick io s = Some (r, s') -> system_ok s -> system_ok s'.
Proof.
  intros H [Hwf Hk].
  split; [exact (handler_well_formed tick io s r s' H Hwf)|].
  destruct (handler_effect tick io s r s' H) as (_ & L & _).
  intros p Hin. rewrite L in Hin.
  apply (handler_keeps_ok tick io s r s' H). apply Hk; exact Hin.
Qed.

(** Every call of such a client keeps the system well-formed and its
    registered keys valid. *)
Lemma client_step_keeps_system_ok (s s' : nn_state) :
  client_step s s' -> system_ok s -> system_ok s'.
Proof.
  intros Hstep Hs. destruct Hstep.
  - destruct key as [p|]; [apply Key_Init_keeps_ok|]; exact Hs.
  - apply Key_Add_keeps_ok; exact Hs.
  - apply Key_SetPara_keeps_ok; exact Hs.
  - apply Key_SetCb_keeps_ok; exact Hs.
  - apply Key_DeleteCb_keeps_ok; exact Hs.
  - eapply Combo_Add_keeps_ok; eassumption.
  - apply Combo_SetCb_keeps_ok; exact Hs.
  - apply Combo_SetWindowTime_keeps_ok; exact Hs.
  - eapply handler_keeps_system_ok; eassumption.
Qed.

Lemma client_reachable_ok s : client_reachable s -> system_ok s.
Proof.
  induction 1 as [s Hk Hc|s s' _ IH Hstep].
  - split; [split|]; intros p Hin;
      [rewrite Hk in Hin|rewrite Hc in Hin|rewrite Hk in Hin]; destruct Hin.
  - exact (client_step_keeps_system_ok s s' Hstep IH).
Qed.

(** In every state that a client reaches from empty registries, passing
    arguments in the range of their C types, read functions to
    [NN_Key_Init] and non-null extra members to [NN_Combo_Add], every
    registered key has non-zero thresholds, a state among the six
    enumerators, an event below [KEY_EVENT_MAX], a click count and a
    [multi_max] that fit four bits, and its seven callback slots. *)
Theorem client_keys_valid (s : nn_state) (p : ptr) :
  client_reachable s -> In p (_nn_key_list s) -> key_ok (keys s p).
Proof.
  intros Hr Hin. destruct (client_reachable_ok s Hr) as [_ Hk].
  apply Hk; exact Hin.
Qed.

(** In every such state the handler returns, with result true, for every
    tick and all raw inputs: it dereferences no null pointer. *)
Theorem client_handler_returns
        (s : nn_state) (tick : Z) (io : nat -> bool) :
  client_reachable s ->
  exists s', NN_Key_Handler tick io s = Some (true, s').
Proof.
  intros Hr. destruct (client_reachable_ok s Hr) as [Hwf _].
  exact (handler_total tick io s Hwf).
Qed.

Lemma client_defined_Combo_Add comb id n m1 m2 rest s :
  0 <= n <= 255 ->
  (forall i, Z.of_nat i < n - 2 -> nth i rest None <> None) ->
  NN_Combo_Add comb id n m1 m2 rest s <> None ->
  client_step s (snd (defined (NN_Combo_Add comb id n m1 m2 rest) s)).
Proof.
  unfold defined. intros Hn Hrest H.
  destruct (NN_Combo_Add comb id n m1 m2 rest s) as [[r s']|] eqn:E;
    [|contradiction].
  exact (client_Combo_Add comb id n m1 m2 rest s r s' Hn Hrest E).
Qed.

Lemma client_reachable_two_keys_combo : client_reachable two_keys_combo.
Proof.
  unfold two_keys_combo, two_keys. cbn [fold_left then_do].
  repeat (eapply client_next;
          [|first [ apply client_Combo_SetWindowTime
                  | apply client_Combo_SetCb
                  | apply client_defined_Combo_Add;
                    [lia|intros i Hi; cbn in Hi; lia
                    |vm_compute; discriminate]
                  | apply client_Key_SetCb
                  | apply client_Key_Add ]]).
  apply client_start; reflexivity.
Qed.

Lemma client_reachable_run calls :
  forall s s',
    client_reachable s -> run_handler calls s = Some s' ->
    client_reachable s'.
Proof.
  induction calls as [|[t io] calls IH]; intros s s' Hr H; cbn in H.
  - inversion H; subst; exact Hr.
  - destruct (NN_Key_Handler t io s) as [[r s1]|] eqn:E; cbn in H;
      [|discriminate].
    apply (IH s1 s'); [|exact H].
    eapply client_next; [exact Hr|]. eapply client_Handler; exact E.
Qed.

Lemma client_reachable_clicked_250 : client_reachable clicked_250_apart.
Proof.
  apply (client_reachable_run (ab_ticks 600 45 700 750 950 1000)
                              two_keys_combo);
    [exact client_reachable_two_keys_combo|].
  vm_compute. reflexivity.
Qed.

(** Witness of [client_keys_valid]: key B after both keys of
    [two_keys_combo] have been clicked. *)
Lemma client_keys_valid_witness : key_ok (keys clicked_250_apart 1%nat).
Proof.
  apply client_keys_valid; [exact client_reachable_clicked_250|].
  vm_compute. right; left; reflexivity.
Defined.

(** Witness of [client_handler_returns]: the next call on that state. *)
Lemma client_handler_returns_witness :
  exists s', NN_Key_Handler 1050 released clicked_250_apart = Some (true, s').
Proof.
  exact (client_handler_returns clicked_250_apart 1050 released
           client_reachable_clicked_250).
Defined.

(** ** The state machine over a run of samples *)

(** Samples that leave the key as it is. *)
Lemma after_samples_fixed k v ts :
  Forall (fun t => _NN_Key_StateMachine k t v = k) ts ->
  after_samples k (map (fun t => (t, v)) ts) = k.
Proof.
  induction 1 as [|t ts Ht _ IH]; [reflexivity|].
  cbn [map]. rewrite after_samples_cons. cbn [fst snd]. rewrite Ht. exact IH.
Qed.

(** One short click: the key ends in [KEY_STATE_MULTI_PRESSED] with one
    more click counted, modulo 16, and nothing pending. *)
Lemma click_counted id rd lt db lg la mt st ev im lk mm mc cm cbs c :
  st = KEY_STATE_RELEASED \/ (st = KEY_STATE_MULTI_PRESSED /\ ev = KEY_EVENT_INIT) ->
  lg <= la ->
  clicks_ok db lg mt lt [c] ->
  after_samples (mk_key id rd lt db lg la mt st ev im lk mm mc cm cbs)
                (click_samples c)
  = mk_key id rd (c_release c) db lg la mt KEY_STATE_MULTI_PRESSED
           KEY_EVENT_INIT im lk mm ((mc + 1) mod 16) cm cbs.
Proof.
  intros Hst Hla (Hp & Hh & Hr & Hi & _).
  unfold click_samples. rewrite after_samples_cons. cbn [fst snd].
  assert (E1 : _NN_Key_StateMachine
                 (mk_key id rd lt db lg la mt st ev im lk mm mc cm cbs)
                 (c_press c) true
               = mk_key id rd (c_press c) db lg la mt KEY_STATE_PRESSED
                        KEY_EVENT_INIT im lk mm mc cm cbs).
  { unfold _NN_Key_StateMachine. cbn.
    destruct (Z.leb_spec db (sub32 (c_press c) lt)); [|lia].
    destruct Hst as [->|[-> ->]]; reflexivity. }
  rewrite E1, after_samples_app, after_samples_fixed.
  2:{ eapply Forall_impl; [|exact Hh]. intros t Ht. cbn beta in Ht.
      unfold _NN_Key_StateMachine. cbn.
      destruct (Z.leb_spec lg (sub32 t (c_press c))); [lia|].
      destruct (Z.leb_spec la (sub32 t (c_press c))); [lia|]. reflexivity. }
  rewrite after_samples_cons. cbn [fst snd].
  assert (E2 : _NN_Key_StateMachine
                 (mk_key id rd (c_press c) db lg la mt KEY_STATE_PRESSED
                         KEY_EVENT_INIT im lk mm mc cm cbs)
                 (c_release c) false
               = mk_key id rd (c_release c) db lg la mt
                        KEY_STATE_MULTI_PRESSED KEY_EVENT_INIT im lk mm
                        ((mc + 1) mod 16) cm cbs).
  { unfold _NN_Key_StateMachine. cbn.
    destruct (Z.leb_spec lg (sub32 (c_release c) (c_press c))); [lia|].
    reflexivity. }
  rewrite E2. apply after_samples_fixed.
  eapply Forall_impl; [|exact Hi]. intros t Ht. cbn beta in Ht.
  unfold _NN_Key_StateMachine. cbn.
  destruct (Z.leb_spec mt (sub32 t (c_release c))); [lia|]. reflexivity.
Qed.

Lemma clicks_counted cs :
  forall id rd lt db lg la mt st ev im lk mm mc cm cbs,
    cs <> [] ->
    st = KEY_STATE_RELEASED \/
    (st = KEY_STATE_MULTI_PRESSED /\ ev = KEY_EVENT_INIT) ->
    lg <= la ->
    clicks_ok db lg mt lt cs ->
    after_samples (mk_key id rd lt db lg la mt st ev im lk mm mc cm cbs)
                  (flat_map click_samples cs)
    = mk_key id rd (last_release lt cs) db lg la mt KEY_STATE_MULTI_PRESSED
             KEY_EVENT_INIT im lk mm
             ((mc + Z.of_nat (List.length cs)) mod 16) cm cbs.
Proof.
  induction cs as [|c cs IH];
    intros id rd lt db lg la mt st ev im lk mm mc cm cbs Hne Hst Hla Hok;
    [contradiction Hne; reflexivity|].
  cbn [flat_map]. rewrite after_samples_app.
  destruct Hok as (Hp & Hh & Hr & Hi & Hrest).
  rewrite (click_counted id rd lt db lg la mt st ev im lk mm mc cm cbs c
             Hst Hla).
  2:{ cbn. repeat split; assumption. }
  destruct cs as [|c2 cs].
  - cbn [flat_map after_samples fold_left last_release List.length Z.of_nat].
    reflexivity.
  - rewrite (IH id rd (c_release c) db lg la mt KEY_STATE_MULTI_PRESSED
                KEY_EVENT_INIT im lk mm ((mc + 1) mod 16) cm cbs).
    + f_equal.
      rewrite Z.add_mod_idemp_l by lia. f_equal.
      change (List.length (c :: c2 :: cs)) with (S (List.length (c2 :: cs))).
      lia.
    + discriminate.
    + right; split; reflexivity.
    + exact Hla.
    + exact Hrest.
Qed.

(** Short clicks in quick succession are counted modulo 16, and the
    count decides the event reported when the multi-click window closes:
    one, two and three clicks give the press, double-press and
    triple-press events, four to fifteen the multi-press event; sixteen
    clicks (or any multiple) give no event, seventeen the press event,
    and so on.  The key is back in [KEY_STATE_RELEASED] with the count
    reset.  Holds for all timings within the thresholds and all polling
    patterns. *)
Theorem clicks_classified (k : nn_key_t) (cs : list click) (t : Z) :
  state k = KEY_STATE_RELEASED -> multi_count k = 0 ->
  long_time k <= long_alws_time k ->
  cs <> [] ->
  clicks_ok (debounce_time k) (long_time k) (multi_time k)
            (key_last_time k) cs ->
  multi_time k <= sub32 t (last_release (key_last_time k) cs) ->
  event (after_samples k (flat_map click_samples cs ++ [(t, false)]))
  = click_event (Z.of_nat (List.length cs) mod 16) /\
  state (after_samples k (flat_map click_samples cs ++ [(t, false)]))
  = KEY_STATE_RELEASED /\
  multi_count (after_samples k (flat_map click_samples cs ++ [(t, false)]))
  = 0 /\
  key_last_time (after_samples k (flat_map click_samples cs ++ [(t, false)]))
  = t.
Proof.
  destruct k as [id rd lt db lg la mt st ev im lk mm mc cm cbs]. cbn.
  intros -> -> Hla Hne Hok Hclose.
  rewrite after_samples_app.
  rewrite (clicks_counted cs id rd lt db lg la mt KEY_STATE_RELEASED ev im lk
             mm 0 cm cbs Hne (or_introl eq_refl) Hla Hok).
  cbn [Z.add].
  pose proof (Z.mod_pos_bound (Z.of_nat (List.length cs)) 16 ltac:(lia))
    as Hm.
  set (n := Z.of_nat (List.length cs) mod 16) in *.
  unfold after_samples. cbn [fold_left fst snd].
  unfold _NN_Key_StateMachine, click_event. cbn.
  destruct (Z.leb_spec mt (sub32 t (last_release lt cs))); [|lia].
  destruct (Z.eqb_spec n 1), (Z.eqb_spec n 2), (Z.eqb_spec n 3),
    (Z.ltb_spec 3 n), (Z.eqb_spec n 0); try lia; cbn; repeat split.
Qed.

(** Witness of [clicks_classified]: a double click of [idle_key], pressed
    at 1000 and 1100 for 30 ms each and polled every 10 ms; the window
    closes at 1430. *)
Lemma clicks_classified_witness :
  event (after_samples idle_key
           (flat_map click_samples
              [mk_click 1000 [1010; 1020] 1030 [1040; 1050; 1060];
               mk_click 1100 [1110; 1120] 1130 [1140; 1150]]
            ++ [(1430, false)]))
  = KEY_EVENT_DOUBLE_PRESSED.
Proof.
  destruct (clicks_classified idle_key
              [mk_click 1000 [1010; 1020] 1030 [1040; 1050; 1060];
               mk_click 1100 [1110; 1120] 1130 [1140; 1150]] 1430)
    as (H & _).
  - reflexivity.
  - reflexivity.
  - vm_compute; discriminate.
  - discriminate.
  - cbn [clicks_ok c_press c_held c_release c_idle].
    split; [vm_compute; discriminate|].
    split; [repeat (constructor; [vm_compute; reflexivity|]); constructor|].
    split; [vm_compute; reflexivity|].
    split; [repeat (constructor; [vm_compute; reflexivity|]); constructor|].
    split; [vm_compute; discriminate|].
    split; [repeat (constructor; [vm_compute; reflexivity|]); constructor|].
    split; [vm_compute; reflexivity|].
    split; [repeat (constructor; [vm_compute; reflexivity|]); constructor|].
    exact I.
  - vm_compute; discriminate.
  - exact H.
Defined.

(** While a key is held for less than [long_alws_time] since its press,
    it stays in [KEY_STATE_PRESSED] or [KEY_STATE_LONG_PRESSED] and
    nothing else of it changes. *)
Lemma held_below_continuous id rd tp db lg la mt ev im lk mm mc cm cbs ts :
  Forall (fun t => sub32 t tp < la) ts ->
  forall st,
    st = KEY_STATE_PRESSED \/ st = KEY_STATE_LONG_PRESSED ->
    exists st',
      (st' = KEY_STATE_PRESSED \/ st' = KEY_STATE_LONG_PRESSED) /\
      after_samples (mk_key id rd tp db lg la mt st ev im lk mm mc cm cbs)
                    (map (fun t => (t, true)) ts)
      = mk_key id rd tp db lg la mt st' ev im lk mm mc cm cbs.
Proof.
  induction 1 as [|t ts Ht _ IH]; intros st Hst.
  - exists st. split; [exact Hst|reflexivity].
  - cbn [map]. rewrite after_samples_cons. cbn [fst snd].
    assert (E : exists st1,
               (st1 = KEY_STATE_PRESSED \/ st1 = KEY_STATE_LONG_PRESSED) /\
               _NN_Key_StateMachine
                 (mk_key id rd tp db lg la mt st ev im lk mm mc cm cbs) t true
               = mk_key id rd tp db lg la mt st1 ev im lk mm mc cm cbs).
    { unfold _NN_Key_StateMachine. cbn.
      destruct (Z.leb_spec la (sub32 t tp)); [lia|].
      destruct Hst as [->| ->]; cbn.
      - destruct ((lg <=? sub32 t tp) && (sub32 t tp <? la) && (0 <? la)).
        + exists KEY_STATE_LONG_PRESSED. split; [right|]; reflexivity.
        + exists KEY_STATE_PRESSED. split; [left|]; reflexivity.
      - exists KEY_STATE_LONG_PRESSED. split; [right|]; reflexivity. }
    destruct E as (st1 & Hst1 & ->). exact (IH st1 Hst1).
Qed.

(** A press that is accepted by the debounce test, held for less than
    [long_alws_time] and released [long_time] or more after the press
    yields [KEY_EVENT_LONG_PRESSED] at the release, whatever the polling
    pattern; the key is back in [KEY_STATE_RELEASED].  The click count is
    reset: clicks counted before a long press are reported by no
    event. *)
Theorem long_press_reported
        (k : nn_key_t) (tp : Z) (held : list Z) (tr : Z) :
  state k = KEY_STATE_RELEASED \/ state k = KEY_STATE_MULTI_PRESSED ->
  debounce_time k <= sub32 tp (key_last_time k) ->
  Forall (fun t => sub32 t tp < long_alws_time k) held ->
  long_time k <= sub32 tr tp ->
  event (after_samples k ((tp, true) :: map (fun t => (t, true)) held
                          ++ [(tr, false)]))
  = KEY_EVENT_LONG_PRESSED /\
  state (after_samples k ((tp, true) :: map (fun t => (t, true)) held
                          ++ [(tr, false)]))
  = KEY_STATE_RELEASED /\
  multi_count (after_samples k ((tp, true) :: map (fun t => (t, true)) held
                                ++ [(tr, false)]))
  = 0 /\
  key_last_time (after_samples k ((tp, true) :: map (fun t => (t, true)) held
                                  ++ [(tr, false)]))
  = tr.
Proof.
  destruct k as [id rd lt db lg la mt st ev im lk mm mc cm cbs].
  cbn [state debounce_time key_last_time long_alws_time long_time].
  intros Hst Hp Hh Hr.
  rewrite after_samples_cons. cbn [fst snd].
  assert (E1 : exists ev1,
             _NN_Key_StateMachine
               (mk_key id rd lt db lg la mt st ev im lk mm mc cm cbs) tp true
             = mk_key id rd tp db lg la mt KEY_STATE_PRESSED ev1 im lk mm mc
                      cm cbs).
  { unfold _NN_Key_StateMachine. cbn.
    destruct (Z.leb_spec db (sub32 tp lt)); [|lia].
    destruct Hst as [->| ->]; eexists; reflexivity. }
  destruct E1 as (ev1 & ->). rewrite after_samples_app.
  destruct (held_below_continuous id rd tp db lg la mt ev1 im lk mm mc cm cbs
              held Hh KEY_STATE_PRESSED (or_introl eq_refl))
    as (st' & Hst' & ->).
  unfold after_samples. cbn [fold_left fst snd].
  unfold _NN_Key_StateMachine. cbn.
  destruct Hst' as [->| ->]; cbn;
    [destruct (Z.leb_spec lg (sub32 tr tp)); [|lia]|]; repeat split.
Qed.

(** Witness of [long_press_reported]: [idle_key] pressed at tick 1000,
    polled every 200 ms and released at tick 1700. *)
Lemma long_press_reported_witness :
  event (after_samples idle_key
           ((1000, true) :: map (fun t => (t, true)) [1200; 1400; 1600]
            ++ [(1700, false)]))
  = KEY_EVENT_LONG_PRESSED.
Proof.
  destruct (long_press_reported idle_key 1000 [1200; 1400; 1600] 1700)
    as (H & _).
  - left; reflexivity.
  - vm_compute; discriminate.
  - repeat (constructor; [vm_compute; reflexivity|]); constructor.
  - vm_compute; discriminate.
  - exact H.
Defined.

(** A press held for [long_alws_time] or more puts the key in
    [KEY_STATE_LONG_PRESSED_ALWS] with the continuous event pending at
    the first sample that far from the press, and keeps it so while the
    key reads pressed; the release then yields no event:
    [KEY_EVENT_LONG_PRESSED] is reported only for presses shorter than
    [long_alws_time]. *)
Theorem continuous_press_run
        (k : nn_key_t) (tp : Z) (held : list Z) (th : Z) (more : list Z)
        (tr : Z) :
  state k = KEY_STATE_RELEASED \/ state k = KEY_STATE_MULTI_PRESSED ->
  debounce_time k <= sub32 tp (key_last_time k) ->
  Forall (fun t => sub32 t tp < long_alws_time k) held ->
  0 < long_alws_time k <= sub32 th tp ->
  let pressed := (tp, true) :: map (fun t => (t, true)) held
                 ++ (th, true) :: map (fun t => (t, true)) more in
  state (after_samples k pressed) = KEY_STATE_LONG_PRESSED_ALWS /\
  event (after_samples k pressed) = KEY_EVENT_LONG_PRESSED_ALWS /\
  event (after_samples k (pressed ++ [(tr, false)])) = KEY_EVENT_INIT /\
  state (after_samples k (pressed ++ [(tr, false)])) = KEY_STATE_RELEASED /\
  multi_count (after_samples k (pressed ++ [(tr, false)])) = 0.
Proof.
  destruct k as [id rd lt db lg la mt st ev im lk mm mc cm cbs].
  cbn [state debounce_time key_last_time long_alws_time long_time].
  intros Hst Hp Hh [Hla Hth]. cbv zeta.
  rewrite after_samples_app.
  set (k2 := after_samples _ ((tp, true) :: _ ++ (th, true) :: _)).
  assert (E : k2 = mk_key id rd th db lg la mt KEY_STATE_LONG_PRESSED_ALWS
                          KEY_EVENT_LONG_PRESSED_ALWS im lk mm mc cm cbs).
  { subst k2. rewrite after_samples_cons. cbn [fst snd].
    assert (E1 : exists ev1,
               _NN_Key_StateMachine
                 (mk_key id rd lt db lg la mt st ev im lk mm mc cm cbs)
                 tp true
               = mk_key id rd tp db lg la mt KEY_STATE_PRESSED ev1 im lk mm
                        mc cm cbs).
    { unfold _NN_Key_StateMachine. cbn.
      destruct (Z.leb_spec db (sub32 tp lt)); [|lia].
      destruct Hst as [->| ->]; eexists; reflexivity. }
    destruct E1 as (ev1 & ->). rewrite after_samples_app.
    destruct (held_below_continuous id rd tp db lg la mt ev1 im lk mm mc cm
                cbs held Hh KEY_STATE_PRESSED (or_introl eq_refl))
      as (st' & Hst' & ->).
    rewrite after_samples_cons. cbn [fst snd].
    assert (E2 : _NN_Key_StateMachine
                   (mk_key id rd tp db lg la mt st' ev1 im lk mm mc cm cbs)
                   th true
                 = mk_key id rd th db lg la mt KEY_STATE_LONG_PRESSED_ALWS
                          KEY_EVENT_LONG_PRESSED_ALWS im lk mm mc cm cbs).
    { unfold _NN_Key_StateMachine. cbn.
      destruct (Z.leb_spec la (sub32 th tp)); [|lia].
      destruct (Z.ltb_spec (sub32 th tp) la); [lia|].
      destruct (Z.ltb_spec 0 la); [|lia].
      rewrite !andb_false_r.
      destruct Hst' as [->| ->]; reflexivity. }
    rewrite E2. apply after_samples_fixed.
    apply Forall_forall. intros t _. reflexivity. }
  rewrite E. repeat split.
Qed.

(** Witness of [continuous_press_run]: [idle_key] pressed at tick 1000,
    polled every 500 ms and released at tick 4100. *)
Lemma continuous_press_run_witness :
  event (after_samples idle_key
           (((1000, true) :: map (fun t => (t, true)) [1500; 2000]
             ++ (2500, true) :: map (fun t => (t, true)) [3000; 3500; 4000])
            ++ [(4100, false)]))
  = KEY_EVENT_INIT.
Proof.
  destruct (continuous_press_run idle_key 1000 [1500; 2000] 2500
              [3000; 3500; 4000] 4100)
    as (_ & _ & H & _).
  - left; reflexivity.
  - vm_compute; discriminate.
  - repeat (constructor; [vm_compute; reflexivity|]); constructor.
  - split; [reflexivity|vm_compute; discriminate].
  - exact H.
Defined.

(** ** The callback table *)

Lemma land_pow2 (x e : Z) :
  0 <= e -> Z.land x (2 ^ e) = if Z.testbit x e then 2 ^ e else 0.
Proof.
  intros He. apply Z.bits_inj'. intros n Hn.
  rewrite Z.land_spec.
  destruct (Z.eq_dec n e) as [->|Hne].
  - rewrite Z.pow2_bits_true by lia. rewrite andb_true_r.
    destruct (Z.testbit x e) eqn:E;
      [rewrite Z.pow2_bits_true by lia|rewrite Z.bits_0]; reflexivity.
  - rewrite (Z.pow2_bits_false e n) by lia. rewrite andb_false_r.
    destruct (Z.testbit x e);
      [rewrite Z.pow2_bits_false by lia|rewrite Z.bits_0]; reflexivity.
Qed.

(** The mask test of the dispatcher reads one bit of the mask. *)
Lemma mask_has_testbit k ev :
  mask_has k ev = Z.testbit (callback_mask k) (event_code ev).
Proof.
  unfold mask_has. rewrite Z.shiftl_1_l.
  assert (He : 0 <= event_code ev) by (destruct ev; cbn; lia).
  rewrite (land_pow2 _ _ He).
  destruct (Z.testbit (callback_mask k) (event_code ev)); [|reflexivity].
  assert (0 < 2 ^ event_code ev) by (apply Z.pow_pos_nonneg; lia).
  destruct (Z.eqb_spec (2 ^ event_code ev) 0); [lia|reflexivity].
Qed.

Lemma event_code_inj a b : event_code a = event_code b -> a = b.
Proof. destruct a, b; cbn; intros H; try reflexivity; discriminate H. Qed.

Lemma event_code_range ev : 0 <= event_code ev <= 7.
Proof. destruct ev; cbn; lia. Qed.

Lemma testbit_set m e n :
  0 <= e < 8 -> 0 <= n < 8 ->
  Z.testbit (Z.lor m (Z.shiftl 1 e) mod 256) n
  = (n =? e) || Z.testbit m n.
Proof.
  intros He Hn. change 256 with (2 ^ 8).
  rewrite Z.mod_pow2_bits_low by lia.
  rewrite Z.lor_spec, Z.shiftl_1_l.
  destruct (Z.eqb_spec n e) as [->|Hne].
  - rewrite Z.pow2_bits_true by lia. apply orb_true_r.
  - rewrite Z.pow2_bits_false by lia. rewrite orb_false_r. reflexivity.
Qed.

Lemma testbit_clear m e n :
  0 <= e < 8 -> 0 <= n < 8 ->
  Z.testbit (Z.land m (Z.lnot (Z.shiftl 1 e)) mod 256) n
  = negb (n =? e) && Z.testbit m n.
Proof.
  intros He Hn. change 256 with (2 ^ 8).
  rewrite Z.mod_pow2_bits_low by lia.
  rewrite Z.land_spec, Z.lnot_spec, Z.shiftl_1_l by lia.
  destruct (Z.eqb_spec n e) as [->|Hne].
  - rewrite Z.pow2_bits_true by lia. apply andb_false_r.
  - rewrite Z.pow2_bits_false by lia. apply andb_true_r.
Qed.

Lemma nth_upd_nth {A : Type} (n m : nat) (x d : A) (l : list A) :
  nth m (upd_nth n x l) d
  = if Nat.eqb m n && Nat.ltb n (List.length l) then x else nth m l d.
Proof.
  revert n m; induction l as [|h t IH]; intros n m.
  - destruct n, m; cbn; rewrite ?andb_false_r; reflexivity.
  - destruct n as [|n], m as [|m]; cbn; try reflexivity.
    rewrite IH. reflexivity.
Qed.

(** A callback set for an event is the one the dispatcher invokes for
    it.  After [NN_Key_SetCb] with a callback [f] for an event below
    [KEY_EVENT_MAX], the mask bit and the slot of the event hold [f] and
    its user data, whatever was registered before; when the event is then
    pending, [_NN_Key_Event] invokes [f] once with the key, the event and
    that user data and clears the event, for every event but the
    continuous one (which is rate-limited and not cleared) and
    [KEY_EVENT_INIT], for which [NN_Key_SetCb] accepts a callback that is
    never invoked. *)
Theorem SetCb_registers
        (s : nn_state) (p : ptr) (ev : nn_key_event_t) (f : nat)
        (ud : option nat) :
  event_code ev < event_code KEY_EVENT_MAX ->
  (Z.to_nat (event_code ev) < List.length (callbacks (keys s p)))%nat ->
  fst (NN_Key_SetCb (Some p) ev (Some f) ud s) = true /\
  mask_has (keys (snd (NN_Key_SetCb (Some p) ev (Some f) ud s)) p) ev = true /\
  callback_at (keys (snd (NN_Key_SetCb (Some p) ev (Some f) ud s)) p) ev
  = mk_item (Some f) ud /\
  forall (s2 : nn_state) (tick : Z),
    callbacks (keys s2 p)
    = callbacks (keys (snd (NN_Key_SetCb (Some p) ev (Some f) ud s)) p) ->
    callback_mask (keys s2 p)
    = callback_mask (keys (snd (NN_Key_SetCb (Some p) ev (Some f) ud s)) p) ->
    event (keys s2 p) = ev ->
    (ev = KEY_EVENT_INIT ->
     trace (snd (_NN_Key_Event (Some p) tick s2)) = trace s2) /\
    (ev <> KEY_EVENT_INIT -> ev <> KEY_EVENT_LONG_PRESSED_ALWS ->
     trace (snd (_NN_Key_Event (Some p) tick s2))
     = trace s2 ++ [KeyCallback f p ev ud] /\
     event (keys (snd (_NN_Key_Event (Some p) tick s2)) p) = KEY_EVENT_INIT).
Proof.
  intros Hev Hlen.
  pose proof (event_code_range ev) as Hr. cbn in Hev.
  unfold NN_Key_SetCb. cbn [is_null orb negb event_code].
  destruct (Z.leb_spec 7 (event_code ev)); [lia|]. cbn [orb fst snd].
  set (k1 := keys (set_key p _ s) p).
  assert (Hm : mask_has k1 ev = true).
  { subst k1. cbn [set_key keys]. rewrite upd_same, mask_has_testbit.
    destruct (keys s p) as [id rd lt db lg la mt st e0 im lk mm mc cm cbs]; cbn [with_callbacks callback_mask].
    rewrite testbit_set by lia. rewrite Z.eqb_refl. reflexivity. }
  assert (Hc : callback_at k1 ev = mk_item (Some f) ud).
  { subst k1. cbn [set_key keys]. rewrite upd_same. unfold callback_at.
    revert Hlen.
    destruct (keys s p) as [id rd lt db lg la mt st e0 im lk mm mc cm cbs]; cbn [with_callbacks callbacks].
    intros Hlen. rewrite nth_upd_nth, Nat.eqb_refl.
    apply Nat.ltb_lt in Hlen. rewrite Hlen. reflexivity. }
  split; [reflexivity|]. split; [exact Hm|]. split; [exact Hc|].
  intros s2 tick Hcbs Hmask Hev2.
  assert (Hm2 : mask_has (keys s2 p) ev = true)
    by (unfold mask_has in *; rewrite Hmask; exact Hm).
  assert (Hc2 : callback_at (keys s2 p) ev = mk_item (Some f) ud)
    by (unfold callback_at in *; rewrite Hcbs; exact Hc).
  unfold _NN_Key_Event. rewrite Hev2. split.
  - intros ->. reflexivity.
  - intros Hi Ha. apply event_eqb_neq in Hi, Ha. rewrite Hi, Ha, Hm2, Hc2.
    cbn [func user_data negb snd trace log set_key keys].
    rewrite upd_same. split; [reflexivity|].
    destruct (keys s2 p); reflexivity.
Qed.

(** Witness of [SetCb_registers]: a double-click callback for key A of
    [two_keys]. *)
Lemma SetCb_registers_witness :
  trace (snd (_NN_Key_Event (Some 0%nat) 100
                (pend 0%nat KEY_EVENT_DOUBLE_PRESSED
                   (snd (NN_Key_SetCb (Some 0%nat) KEY_EVENT_DOUBLE_PRESSED
                           (Some 20%nat) (Some 5%nat) two_keys)))))
  = [KeyCallback 20 0%nat KEY_EVENT_DOUBLE_PRESSED (Some 5%nat)].
Proof.
  destruct (SetCb_registers two_keys 0%nat KEY_EVENT_DOUBLE_PRESSED 20
              (Some 5%nat)) as (_ & _ & _ & H).
  - reflexivity.
  - vm_compute. repeat constructor.
  - destruct (H (pend 0%nat KEY_EVENT_DOUBLE_PRESSED
                   (snd (NN_Key_SetCb (Some 0%nat) KEY_EVENT_DOUBLE_PRESSED
                           (Some 20%nat) (Some 5%nat) two_keys)))
                100 eq_refl eq_refl eq_refl) as (_ & H2).
    destruct H2 as (H2 & _); [discriminate|discriminate|exact H2].
Defined.

(** The slots of the callback table are independent: [NN_Key_SetCb] and
    [NN_Key_DeleteCb] for one event change neither the mask bit nor the
    slot of any other event of that key, and no other key. *)
Theorem callback_slots_independent
        (s : nn_state) (p : ptr) (ev ev' : nn_key_event_t)
        (cb ud : option nat) :
  ev' <> ev ->
  (forall s1,
      s1 = snd (NN_Key_SetCb (Some p) ev cb ud s) \/
      s1 = snd (NN_Key_DeleteCb (Some p) ev s) ->
      mask_has (keys s1 p) ev' = mask_has (keys s p) ev' /\
      callback_at (keys s1 p) ev' = callback_at (keys s p) ev' /\
      forall q, q <> p -> keys s1 q = keys s q).
Proof.
  intros Hne s1 Hs1.
  pose proof (event_code_range ev) as Hr.
  pose proof (event_code_range ev') as Hr'.
  assert (Hcode : event_code ev' <> event_code ev)
    by (intros E; apply Hne, event_code_inj; exact E).
  assert (Hnat : Nat.eqb (Z.to_nat (event_code ev'))
                         (Z.to_nat (event_code ev)) = false)
    by (apply Nat.eqb_neq; lia).
  assert (Hz : (event_code ev' =? event_code ev) = false)
    by (apply Z.eqb_neq; exact Hcode).
  destruct Hs1 as [-> | ->].
  - unfold NN_Key_SetCb. cbn [event_code].
    destruct ((7 <=? event_code ev) || is_null cb) eqn:Eg; cbn [snd];
      [repeat split|].
    apply orb_false_elim in Eg. destruct Eg as [Eg _].
    apply Z.leb_gt in Eg.
    cbn [set_key keys]. rewrite upd_same.
    split; [|split; [|intros q Hq; apply upd_other; exact Hq]].
    + rewrite !mask_has_testbit.
      destruct (keys s p) as [id rd lt db lg la mt st e0 im lk mm mc cm cbs];
        cbn [with_callbacks callback_mask].
      destruct cb; cbn [is_null negb].
      * rewrite testbit_set by lia. rewrite Hz. reflexivity.
      * rewrite testbit_clear by lia. rewrite Hz. reflexivity.
    + unfold callback_at.
      destruct (keys s p) as [id rd lt db lg la mt st e0 im lk mm mc cm cbs];
        cbn [with_callbacks callbacks].
      rewrite nth_upd_nth, Hnat. reflexivity.
  - unfold NN_Key_DeleteCb. cbn [event_code].
    destruct (Z.leb_spec 7 (event_code ev)); cbn [snd]; [repeat split|].
    cbn [set_key keys]. rewrite upd_same.
    split; [|split; [|intros q Hq; apply upd_other; exact Hq]].
    + rewrite !mask_has_testbit.
      destruct (keys s p) as [id rd lt db lg la mt st e0 im lk mm mc cm cbs];
        cbn [with_callbacks callback_mask].
      rewrite testbit_clear by lia. rewrite Hz. reflexivity.
    + unfold callback_at.
      destruct (keys s p) as [id rd lt db lg la mt st e0 im lk mm mc cm cbs];
        cbn [with_callbacks callbacks].
      rewrite nth_upd_nth, Hnat. reflexivity.
Qed.

(** Witness of [callback_slots_independent]: deleting the continuous
    callback of key A of [two_keys] keeps its press callback. *)
Lemma callback_slots_independent_witness :
  callback_at (keys (snd (NN_Key_DeleteCb (Some 0%nat)
                            KEY_EVENT_LONG_PRESSED_ALWS two_keys)) 0%nat)
              KEY_EVENT_PRESSED
  = callback_at (keys two_keys 0%nat) KEY_EVENT_PRESSED.
Proof.
  destruct (callback_slots_independent
              two_keys 0%nat KEY_EVENT_LONG_PRESSED_ALWS KEY_EVENT_PRESSED
              None None) with
    (s1 := snd (NN_Key_DeleteCb (Some 0%nat) KEY_EVENT_LONG_PRESSED_ALWS
                                two_keys))
    as (_ & H & _).
  - discriminate.
  - right; reflexivity.
  - exact H.
Defined.

(** ** The parameter setters *)

(** [NN_Key_SetPara] on a key whose record is known. *)
Lemma SetPara_effect p d l la m mx s
      id rd lt db lg la0 mt st ev im lk mm mc cm cbs :
  keys s p = mk_key id rd lt db lg la0 mt st ev im lk mm mc cm cbs ->
  keys (snd (NN_Key_SetPara (Some p) d l la m mx s)) p
  = mk_key id rd lt
           (if uint16 d =? 0 then db else uint16 d)
           (if uint16 l =? 0 then lg else uint16 l)
           (if uint16 la =? 0 then la0 else uint16 la)
           (if uint16 m =? 0 then mt else uint16 m)
           st ev im lk
           (if uint8 mx =? 0 then mm
            else if 15 <? uint8 mx then 15 else uint8 mx)
           mc cm cbs /\
  (forall q, q <> p ->
             keys (snd (NN_Key_SetPara (Some p) d l la m mx s)) q = keys s q) /\
  combs (snd (NN_Key_SetPara (Some p) d l la m mx s)) = combs s /\
  _nn_key_list (snd (NN_Key_SetPara (Some p) d l la m mx s))
  = _nn_key_list s /\
  _nn_combo_list (snd (NN_Key_SetPara (Some p) d l la m mx s))
  = _nn_combo_list s /\
  LastTick (snd (NN_Key_SetPara (Some p) d l la m mx s)) = LastTick s /\
  trace (snd (NN_Key_SetPara (Some p) d l la m mx s)) = trace s.
Proof.
  intros E. unfold NN_Key_SetPara. cbv zeta.
  cbn [snd set_key keys combs _nn_key_list _nn_combo_list LastTick trace].
  rewrite upd_same, E. cbn.
  split; [reflexivity|]. split; [|repeat split].
  intros q Hq. apply upd_other. exact Hq.
Qed.

(** [NN_Key_SetPara] has the effect of the five single-parameter macros
    applied one after the other, in the order of the parameters or in the
    reverse order: a zero argument leaves its parameter alone, so the
    setters do not interfere. *)
Theorem quick_setters_compose
        (key : option ptr) (d l la m mx : Z) (s : nn_state) :
  same_state
    (snd (NN_Key_SetPara key d l la m mx s))
    (snd (NN_Key_SetMultiPressMax key mx
       (snd (NN_Key_SetMultiPressTime key m
          (snd (NN_Key_SetLongPressAlwsTime key la
             (snd (NN_Key_SetLongPressTime key l
                (snd (NN_Key_SetDebounceTime key d s))))))))))
  /\
  same_state
    (snd (NN_Key_SetPara key d l la m mx s))
    (snd (NN_Key_SetDebounceTime key d
       (snd (NN_Key_SetLongPressTime key l
          (snd (NN_Key_SetLongPressAlwsTime key la
             (snd (NN_Key_SetMultiPressTime key m
                (snd (NN_Key_SetMultiPressMax key mx s)))))))))).
Proof.
  unfold NN_Key_SetDebounceTime, NN_Key_SetLongPressTime,
    NN_Key_SetLongPressAlwsTime, NN_Key_SetMultiPressTime,
    NN_Key_SetMultiPressMax, same_state.
  destruct key as [p|]; [|unfold NN_Key_SetPara; cbn [snd]; repeat split].
  destruct (keys s p) as [id rd lt db lg la0 mt st ev im lk mm mc cm cbs]
    eqn:E0.
  destruct (SetPara_effect p d l la m mx s _ _ _ _ _ _ _ _ _ _ _ _ _ _ _ E0)
    as (K & O & C & L & CL & T & R).
  split.
  - destruct (SetPara_effect p d 0 0 0 0 s _ _ _ _ _ _ _ _ _ _ _ _ _ _ _ E0)
      as (K1 & O1 & C1 & L1 & CL1 & T1 & R1).
    set (s1 := snd (NN_Key_SetPara (Some p) d 0 0 0 0 s)) in *.
    clearbody s1. change (uint16 0) with 0 in K1; change (uint8 0) with 0 in K1;
      cbn [Z.eqb] in K1.
    destruct (SetPara_effect p 0 l 0 0 0 s1 _ _ _ _ _ _ _ _ _ _ _ _ _ _ _ K1)
      as (K2 & O2 & C2 & L2 & CL2 & T2 & R2).
    set (s2 := snd (NN_Key_SetPara (Some p) 0 l 0 0 0 s1)) in *.
    clearbody s2. change (uint16 0) with 0 in K2; change (uint8 0) with 0 in K2;
      cbn [Z.eqb] in K2.
    destruct (SetPara_effect p 0 0 la 0 0 s2 _ _ _ _ _ _ _ _ _ _ _ _ _ _ _ K2)
      as (K3 & O3 & C3 & L3 & CL3 & T3 & R3).
    set (s3 := snd (NN_Key_SetPara (Some p) 0 0 la 0 0 s2)) in *.
    clearbody s3. change (uint16 0) with 0 in K3; change (uint8 0) with 0 in K3;
      cbn [Z.eqb] in K3.
    destruct (SetPara_effect p 0 0 0 m 0 s3 _ _ _ _ _ _ _ _ _ _ _ _ _ _ _ K3)
      as (K4 & O4 & C4 & L4 & CL4 & T4 & R4).
    set (s4 := snd (NN_Key_SetPara (Some p) 0 0 0 m 0 s3)) in *.
    clearbody s4. change (uint16 0) with 0 in K4; change (uint8 0) with 0 in K4;
      cbn [Z.eqb] in K4.
    destruct (SetPara_effect p 0 0 0 0 mx s4 _ _ _ _ _ _ _ _ _ _ _ _ _ _ _ K4)
      as (K5 & O5 & C5 & L5 & CL5 & T5 & R5).
    change (uint16 0) with 0 in K5; change (uint8 0) with 0 in K5;
      cbn [Z.eqb] in K5.
    split; [|rewrite C5, C4, C3, C2, C1, L5, L4, L3, L2, L1,
             CL5, CL4, CL3, CL2, CL1, T5, T4, T3, T2, T1,
             R5, R4, R3, R2, R1, C, L, CL, T, R; repeat split].
    intros q. destruct (Nat.eq_dec q p) as [->|Hq];
      [rewrite K5, K; reflexivity|].
    rewrite O5, O4, O3, O2, O1, O by assumption. reflexivity.
  - destruct (SetPara_effect p 0 0 0 0 mx s _ _ _ _ _ _ _ _ _ _ _ _ _ _ _ E0)
      as (K1 & O1 & C1 & L1 & CL1 & T1 & R1).
    set (s1 := snd (NN_Key_SetPara (Some p) 0 0 0 0 mx s)) in *.
    clearbody s1. change (uint16 0) with 0 in K1; change (uint8 0) with 0 in K1;
      cbn [Z.eqb] in K1.
    destruct (SetPara_effect p 0 0 0 m 0 s1 _ _ _ _ _ _ _ _ _ _ _ _ _ _ _ K1)
      as (K2 & O2 & C2 & L2 & CL2 & T2 & R2).
    set (s2 := snd (NN_Key_SetPara (Some p) 0 0 0 m 0 s1)) in *.
    clearbody s2. change (uint16 0) with 0 in K2; change (uint8 0) with 0 in K2;
      cbn [Z.eqb] in K2.
    destruct (SetPara_effect p 0 0 la 0 0 s2 _ _ _ _ _ _ _ _ _ _ _ _ _ _ _ K2)
      as (K3 & O3 & C3 & L3 & CL3 & T3 & R3).
    set (s3 := snd (NN_Key_SetPara (Some p) 0 0 la 0 0 s2)) in *.
    clearbody s3. change (uint16 0) with 0 in K3; change (uint8 0) with 0 in K3;
      cbn [Z.eqb] in K3.
    destruct (SetPara_effect p 0 l 0 0 0 s3 _ _ _ _ _ _ _ _ _ _ _ _ _ _ _ K3)
      as (K4 & O4 & C4 & L4 & CL4 & T4 & R4).
    set (s4 := snd (NN_Key_SetPara (Some p) 0 l 0 0 0 s3)) in *.
    clearbody s4. change (uint16 0) with 0 in K4; change (uint8 0) with 0 in K4;
      cbn [Z.eqb] in K4.
    destruct (SetPara_effect p d 0 0 0 0 s4 _ _ _ _ _ _ _ _ _ _ _ _ _ _ _ K4)
      as (K5 & O5 & C5 & L5 & CL5 & T5 & R5).
    change (uint16 0) with 0 in K5; change (uint8 0) with 0 in K5;
      cbn [Z.eqb] in K5.
    split; [|rewrite C5, C4, C3, C2, C1, L5, L4, L3, L2, L1,
             CL5, CL4, CL3, CL2, CL1, T5, T4, T3, T2, T1,
             R5, R4, R3, R2, R1, C, L, CL, T, R; repeat split].
    intros q. destruct (Nat.eq_dec q p) as [->|Hq];
      [rewrite K5, K; reflexivity|].
    rewrite O5, O4, O3, O2, O1, O by assumption. reflexivity.
Qed.

(** ** Registrations that the handler does not survive *)

(** [NN_Key_Init] does not test the read function, unlike [NN_Key_Add]:
    with a null read function it returns true, and if the key is
    registered every later call of the handler calls the null pointer. *)
Theorem Key_Init_null_read
        (s : nn_state) (p : ptr) (name : string) :
  In p (_nn_key_list s) ->
  fst (NN_Key_Init (Some p) name None s) = true /\
  forall tick io,
    NN_Key_Handler tick io (snd (NN_Key_Init (Some p) name None s)) = None.
Proof.
  intros Hin. split; [reflexivity|]. intros tick io.
  apply handler_none. intros [Hr _].
  apply (Hr p); [exact Hin|].
  cbn [NN_Key_Init snd set_key keys]. rewrite upd_same. reflexivity.
Qed.

(** Witness of [Key_Init_null_read]: key A of [two_keys]. *)
Lemma Key_Init_null_read_witness :
  NN_Key_Handler 100 released
                 (snd (NN_Key_Init (Some 0%nat) "A"%string None two_keys))
  = None.
Proof.
  destruct (Key_Init_null_read two_keys 0%nat "A"%string) as [_ H].
  - vm_compute. left; reflexivity.
  - exact (H 100 released).
Defined.

(** [NN_Combo_Add] skips a null extra member but still counts it.
    With room in the registry, [mem_nbr] 3 or 4, every extra member it
    reads passed by the caller and one of them null, the call returns
    true, the registered combo has an empty slot among its
    [combo_member_nbr] members, and every later call of the handler
    dereferences it. *)
Theorem Combo_Add_null_member
        (c : ptr) (id : string) (n : Z) (a b : ptr)
        (rest : list (option ptr)) (s : nn_state) (i : nat) :
  0 <= n <= KEY_MAX_COMBO_MEMBER ->
  Z.of_nat (List.length (_nn_combo_list s)) < KEY_MAX_COMBO_NUMBER ->
  n - 2 <= Z.of_nat (List.length rest) ->
  Z.of_nat i < n - 2 -> nth_error rest i = Some None ->
  exists s',
    NN_Combo_Add (Some c) id n (Some a) (Some b) rest s = Some (true, s') /\
    forall tick io, NN_Key_Handler tick io s' = None.
Proof.
  unfold KEY_MAX_COMBO_MEMBER.
  intros Hn Hl Hlen Hi Hnone.
  exists (combo_add_result c id n a b rest s).
  assert (E8 : uint8 n = n) by (apply uint8_small; lia).
  split.
  { rewrite <- E8 at 2. apply Combo_Add_registers.
    - rewrite E8. unfold KEY_MAX_COMBO_MEMBER. lia.
    - exact Hl.
    - rewrite E8. intros j Hj. unfold upto in Hj. apply in_seq in Hj. lia. }
  apply (nth_error_nth rest i None) in Hnone.
  assert (Hbad : In c (_nn_combo_list (combo_add_result c id n a b rest s)) /\
                 exists j,
                   In j (upto (combo_member_nbr
                                 (combs (combo_add_result c id n a b rest s)
                                        c))) /\
                   member_at (combs (combo_add_result c id n a b rest s) c) j
                   = None).
  { unfold combo_add_result, combo_add_init. cbv zeta.
    set (c1 := fold_left _ (upto n) _).
    assert (F : combo_member_nbr c1 = n /\
                combo_member c1 = [None; None; None; None]).
    { subst c1.
      apply (fold_left_inv
               (fun cb => combo_member_nbr cb = n /\
                          combo_member cb = [None; None; None; None])).
      - intros cb j _ [F1 F2]. destruct cb; cbn in *. split; assumption.
      - split; reflexivity. }
    clearbody c1. destruct c1 as [cid ve vn mf w nbr tr mem cb].
    cbn in F. destruct F as [-> ->].
    assert (Hcase : (n = 3 /\ i = 0%nat) \/ (n = 4 /\ i = 0%nat) \/
                    (n = 4 /\ i = 1%nat)) by lia.
    clear Hlen E8.
    destruct Hcase as [[-> ->]|[[-> ->]|[-> ->]]];
      match goal with
      | |- context [upto (?z - 2)] =>
          let l := eval vm_compute in (upto (z - 2)) in
          change (upto (z - 2)) with l
      end;
      cbn [fold_left]; rewrite Hnone; unfold combo_add_member;
      try (destruct (nth 1 rest None) as [t1|]);
      try (destruct (nth 0 rest None) as [t0|]);
      cbn [push_combo set_comb mark_member set_key keys combs
           _nn_key_list _nn_combo_list];
      (split; [apply in_or_app; right; left; reflexivity|]);
      unfold upd; rewrite ?Nat.eqb_refl;
      first [ exists 2%nat; split; [vm_compute; auto|reflexivity]
            | exists 3%nat; split; [vm_compute; auto|reflexivity] ]. }
  destruct Hbad as (Hin & j & Hj & Hm).
  intros tick io. apply handler_none.
  intros [_ Hc]. exact (Hc c Hin j Hj Hm).
Qed.

(** Witness of [Combo_Add_null_member]: a combo of three over A, B and a
    null third member on [two_keys]. *)
Lemma Combo_Add_null_member_witness :
  exists s',
    NN_Combo_Add (Some 0%nat) "ABC"%string 3 (Some 0%nat) (Some 1%nat)
                 [None] two_keys = Some (true, s') /\
    NN_Key_Handler 100 released s' = None.
Proof.
  destruct (Combo_Add_null_member 0%nat "ABC"%string 3 0%nat 1%nat [None]
              two_keys 0%nat) as (s' & H1 & H2).
  - vm_compute. split; discriminate.
  - vm_compute. reflexivity.
  - vm_compute. discriminate.
  - reflexivity.
  - reflexivity.
  - exists s'. split; [exact H1|exact (H2 100 released)].
Defined.

(** ** The combo when its second member is pressed first *)

(** The window of B closes while A waits: B opens the combo window. *)
Lemma ab_step_open_B_first w f tB A B C :
  clicked A -> clicked B -> combo_closed w f C -> 0 <= w ->
  tB <> 0 ->
  multi_time B <= sub32 tB (key_last_time B) ->
  sub32 tB (key_last_time A) < multi_time A ->
  ab_step tB false false A B C
  = (with_lock_flag true A, with_lock_flag true (press_pending tB B),
     window_open tB 1 C, []).
Proof.
  intros (HsA & HcA & HeA) (HsB & HcB & HeB)
         (Hm & Hn & He & Ht & Hw & Hf & Hfi & Hno) Hw0 Hnz HdB HdA.
  ab_records A B C.
  assert (Hx : (w <? sub32 tB tB) = false)
    by (rewrite sub32_diag; apply ltb_false; assumption).
  apply leb_true in HdB. apply leb_false in HdA. apply eqb_false in Hnz.
  ab_unfold. cbn.
  repeat (first [rewrite HdB | rewrite HdA | rewrite Hnz | rewrite Hx]; cbn).
  reflexivity.
Qed.

(** While the window opened by B is open and A waits, nothing changes. *)
Lemma ab_step_hold_B_first w f tB t A B C :
  clicked A -> combo_closed w f C -> tB <> 0 ->
  sub32 t tB <= w ->
  sub32 t (key_last_time A) < multi_time A ->
  ab_step t false false
          (with_lock_flag true A) (with_lock_flag true (press_pending tB B))
          (window_open tB 1 C)
  = (with_lock_flag true A, with_lock_flag true (press_pending tB B),
     window_open tB 1 C, []).
Proof.
  intros (HsA & HcA & HeA) (Hm & Hn & He & Ht & Hw & Hf & Hfi & Hno)
         Hnz Hin HdA.
  ab_records A B C.
  pose proof (leb_true _ _ Hin) as Hin'.
  pose proof (ltb_false _ _ Hin) as Hx.
  apply leb_false in HdA. apply eqb_false in Hnz.
  ab_unfold. cbn.
  repeat (first [rewrite HdA | rewrite Hnz | rewrite Hin' | rewrite Hx]; cbn).
  reflexivity.
Qed.

(** The window of A closes within the window opened by B: the combo
    triggers on A, the first member; the member loop then goes on to B,
    whose press is still pending, and opens a new window with the bit
    of B. *)
Lemma ab_step_trigger_first_member w f tB tA A B C :
  clicked A -> combo_closed w f C -> 0 <= w -> tB <> 0 -> tA <> 0 ->
  sub32 tA tB <= w ->
  multi_time A <= sub32 tA (key_last_time A) ->
  ab_step tA false false
          (with_lock_flag true A) (with_lock_flag true (press_pending tB B))
          (window_open tB 1 C)
  = (with_lock_flag false (press_done tA A),
     with_lock_flag false (press_done tB B), window_open tA 1 C,
     [ComboCallback f 0%nat (user_data (combo_cb C))]).
Proof.
  intros (HsA & HcA & HeA) (Hm & Hn & He & Ht & Hw & Hf & Hfi & Hno)
         Hw0 HnzB HnzA Hin HdA.
  ab_records A B C.
  pose proof (leb_true _ _ Hin) as Hin'.
  assert (Hx : (w <? sub32 tA tA) = false)
    by (rewrite sub32_diag; apply ltb_false; assumption).
  apply leb_true in HdA. apply eqb_false in HnzA, HnzB.
  ab_unfold. cbn.
  repeat (first [rewrite HdA | rewrite HnzA | rewrite HnzB | rewrite Hin'
                | rewrite Hx | rewrite Hf]; cbn).
  reflexivity.
Qed.

(** The combo triggers also when its second member is pressed first, but
    not with the same outcome.  Take the system of two keys A, B and
    their combo; both keys have been clicked once and read released
    throughout, no window is open.  The press of B is observed at the
    call with tick [tB], that of A at the call with tick [tA], not more
    than [w] ms later.  The run invokes the combo callback exactly once
    and no key callback, and clears both pending events.  But the combo
    is not left closed: the member loop, having matched on A, goes on to
    B, whose press is cleared only after the loop, and opens a new window
    at [tA] that holds the bit of B. *)
Theorem combo_triggers_second_member_first
        (ra rb : nat) (w : Z) (f : nat) (s : nn_state) (tB tA : Z)
        (ioB ioA : nat -> bool) (mid : list (Z * (nat -> bool))) :
  ab_system ra rb w f s -> 0 <= w ->
  combo_mem_first (combs s 0%nat) = 0 ->
  combo_value_now (combs s 0%nat) = 0 ->
  clicked (keys s 0%nat) -> clicked (keys s 1%nat) ->
  tB <> 0 -> tA <> 0 ->
  multi_time (keys s 1%nat) <= sub32 tB (key_last_time (keys s 1%nat)) ->
  Forall (fun c => sub32 (fst c) (key_last_time (keys s 0%nat))
                   < multi_time (keys s 0%nat)) ((tB, ioB) :: mid) ->
  Forall (fun c => sub32 (fst c) tB <= w) (mid ++ [(tA, ioA)]) ->
  multi_time (keys s 0%nat) <= sub32 tA (key_last_time (keys s 0%nat)) ->
  Forall (fun c => snd c ra = false /\ snd c rb = false)
         ((tB, ioB) :: mid ++ [(tA, ioA)]) ->
  exists s',
    run_handler ((tB, ioB) :: mid ++ [(tA, ioA)]) s = Some s' /\
    trace s'
    = trace s ++ [ComboCallback f 0%nat
                    (user_data (combo_cb (combs s 0%nat)))] /\
    event (keys s' 0%nat) = KEY_EVENT_INIT /\
    event (keys s' 1%nat) = KEY_EVENT_INIT /\
    lock_flag (keys s' 0%nat) = false /\
    lock_flag (keys s' 1%nat) = false /\
    combo_mem_first (combs s' 0%nat) = tA /\
    combo_value_now (combs s' 0%nat) = 2.
Proof.
  intros Hab Hw Hfi Hno HcA HcB HnzB HnzA HdB HwA Hin HdA Hio.
  pose proof (ab_system_closed ra rb w f s Hab Hfi Hno) as Hcl.
  set (A := keys s 0%nat) in *. set (B := keys s 1%nat) in *.
  set (C := combs s 0%nat) in *.
  assert (Hat : ab_at A B C (trace s) s) by (repeat split).
  inversion HwA as [|? ? HwB HwM]; subst. cbn [fst] in HwB.
  inversion Hio as [|? ? [HioB1 HioB2] Hio']; subst. cbn [snd] in *.
  apply Forall_app in Hin. destruct Hin as [HinM HinA].
  inversion HinA as [|? ? HinA' _]; subst. cbn [fst] in HinA'.
  apply Forall_app in Hio'. destruct Hio' as [HioM HioA].
  inversion HioA as [|? ? [HioA1 HioA2] _]; subst. cbn [snd] in *.
  destruct (handler_AB_to ra rb w f tB ioB s A B C (trace s) _ _ _ _
              Hab Hat (clicked_at_rest A HcA) (clicked_at_rest B HcB)
              HioB1 HioB2
              (ab_step_open_B_first w f tB A B C HcA HcB Hcl Hw HnzB HdB HwB))
    as (s1 & E1 & Hab1 & Hat1 & HrA1 & HrB1).
  rewrite app_nil_r in Hat1.
  destruct (run_fixed ra rb w f
                      (with_lock_flag true A)
                      (with_lock_flag true (press_pending tB B))
                      (window_open tB 1 C)
                      mid HrA1 HrB1) with (s := s1) (tr := trace s)
    as (s2 & E2 & Hab2 & Hat2); [|assumption|assumption|].
  { intros t io Hi.
    rewrite Forall_forall in HwM, HinM, HioM.
    destruct (HioM (t, io) Hi) as [H1 H2]. split; [exact H1|].
    split; [exact H2|].
    apply (ab_step_hold_B_first w f tB t A B C HcA Hcl HnzB).
    - apply (HinM (t, io) Hi).
    - apply (HwM (t, io) Hi). }
  destruct (handler_AB_to ra rb w f tA ioA s2 _ _ _ (trace s) _ _ _ _
              Hab2 Hat2 HrA1 HrB1 HioA1 HioA2
              (ab_step_trigger_first_member w f tB tA A B C HcA Hcl Hw HnzB
                 HnzA HinA' HdA))
    as (s3 & E3 & Hab3 & (KA & KB & KC & KT) & _).
  exists s3. split.
  { cbn [run_handler]. rewrite E1. cbn [bind snd].
    rewrite run_handler_app, E2. cbn [bind run_handler].
    rewrite E3. reflexivity. }
  rewrite KA, KB, KC, KT. unfold C in *.
  split; [reflexivity|].
  split; [destruct A; reflexivity|]. split; [destruct B; reflexivity|].
  split; [destruct A; reflexivity|]. split; [destruct B; reflexivity|].
  split; [destruct (combs s 0%nat); reflexivity|].
  destruct (combs s 0%nat); reflexivity.
Qed.

(** With a window open that holds the bit of B only, A waiting and B
    idle, the members are locked and nothing else changes. *)
Lemma ab_step_stale_hold w f tG t A B C :
  clicked A -> idle B -> combo_closed w f C -> tG <> 0 ->
  sub32 t tG <= w ->
  sub32 t (key_last_time A) < multi_time A ->
  ab_step t false false A B (window_open tG 1 C)
  = (with_lock_flag true A, with_lock_flag true B, window_open tG 1 C, []).
Proof.
  intros (HsA & HcA & HeA) (HsB & HeB)
         (Hm & Hn & He & Ht & Hw & Hf & Hfi & Hno) Hnz Hin HdA.
  ab_records A B C.
  pose proof (leb_true _ _ Hin) as Hin'.
  pose proof (ltb_false _ _ Hin) as Hx.
  apply leb_false in HdA. apply eqb_false in Hnz.
  ab_unfold. cbn.
  repeat (first [rewrite HdA | rewrite Hnz | rewrite Hin' | rewrite Hx]; cbn).
  reflexivity.
Qed.

(** With such a window open, the press of A alone completes the combo. *)
Lemma ab_step_stale_trigger w f tG tc A B C :
  clicked A -> idle B -> combo_closed w f C -> tG <> 0 ->
  sub32 tc tG <= w ->
  multi_time A <= sub32 tc (key_last_time A) ->
  ab_step tc false false A B (window_open tG 1 C)
  = (with_lock_flag false (press_done tc A), with_lock_flag false B, C,
     [ComboCallback f 0%nat (user_data (combo_cb C))]).
Proof.
  intros (HsA & HcA & HeA) (HsB & HeB)
         (Hm & Hn & He & Ht & Hw & Hf & Hfi & Hno) Hnz Hin HdA.
  ab_records A B C.
  pose proof (leb_true _ _ Hin) as Hin'.
  apply leb_true in HdA. apply eqb_false in Hnz.
  ab_unfold. cbn.
  repeat (first [rewrite HdA | rewrite Hnz | rewrite Hin' | rewrite Hf]; cbn).
  reflexivity.
Qed.

Lemma clicked_lock b k : clicked k -> clicked (with_lock_flag b k).
Proof. unfold clicked. destruct k; exact (fun H => H). Qed.

Lemma idle_lock b k : idle k -> idle (with_lock_flag b k).
Proof. unfold idle. destruct k; exact (fun H => H). Qed.

Lemma idle_at_rest k : idle k -> at_rest k.
Proof.
  intros [Hs He]. split; [right; exact Hs|rewrite He; discriminate].
Qed.

(** A window that holds the bit of B from an earlier match lets A
    trigger the combo alone.  Take the system of two keys A, B and their
    combo with a window open since [tG] that holds the bit of B only, as
    a match completed by A leaves it; B is idle, A has
    been clicked and both keys read released.  When the press of A is
    observed within [w] ms of [tG], the combo callback is invoked,
    although B has no press pending and is not pressed during the
    run. *)
Theorem stale_window_triggers_alone
        (ra rb : nat) (w : Z) (f : nat) (s : nn_state) (tG tc : Z)
        (ioc : nat -> bool) (mid : list (Z * (nat -> bool))) :
  ab_system ra rb w f s ->
  combo_mem_first (combs s 0%nat) = tG -> tG <> 0 ->
  combo_value_now (combs s 0%nat) = 2 ->
  clicked (keys s 0%nat) -> idle (keys s 1%nat) ->
  Forall (fun c => sub32 (fst c) (key_last_time (keys s 0%nat))
                   < multi_time (keys s 0%nat)) mid ->
  Forall (fun c => sub32 (fst c) tG <= w) (mid ++ [(tc, ioc)]) ->
  multi_time (keys s 0%nat) <= sub32 tc (key_last_time (keys s 0%nat)) ->
  Forall (fun c => snd c ra = false /\ snd c rb = false)
         (mid ++ [(tc, ioc)]) ->
  exists s',
    run_handler (mid ++ [(tc, ioc)]) s = Some s' /\
    trace s'
    = trace s ++ [ComboCallback f 0%nat
                    (user_data (combo_cb (combs s 0%nat)))] /\
    event (keys s' 0%nat) = KEY_EVENT_INIT /\
    keys s' 1%nat = with_lock_flag false (keys s 1%nat) /\
    combo_mem_first (combs s' 0%nat) = 0 /\
    combo_value_now (combs s' 0%nat) = 0.
Proof.
  intros Hab Hfi Hnz Hno HcA HiB HwA Hin HdA Hio.
  set (A := keys s 0%nat) in *. set (B := keys s 1%nat) in *.
  set (C := with_value_now 0 (with_mem_first 0 (combs s 0%nat))).
  assert (Hcl : combo_closed w f C).
  { destruct Hab as (_ & _ & Hm & Hn & He & Ht & Hw & Hf & _).
    subst C. destruct (combs s 0%nat); cbn in *. repeat split; assumption. }
  assert (HC : combs s 0%nat = window_open tG 1 C).
  { subst C. unfold window_open. destruct (combs s 0%nat); cbn in *.
    subst. reflexivity. }
  assert (Hcb : combo_cb C = combo_cb (combs s 0%nat))
    by (subst C; destruct (combs s 0%nat); reflexivity).
  apply Forall_app in Hin. destruct Hin as [HinM HinC].
  inversion HinC as [|? ? HinC' _]; subst. cbn [fst] in HinC'.
  apply Forall_app in Hio. destruct Hio as [HioM HioC].
  inversion HioC as [|? ? [HioC1 HioC2] _]; subst. cbn [snd] in *.
  rewrite Forall_forall in HwA, HinM, HioM.
  assert (Hat : ab_at A B (window_open (combo_mem_first (combs s 0%nat)) 1 C)
                      (trace s) s)
    by (repeat split; exact HC).
  (* the members are locked while the window is open *)
  assert (Hmid : exists s2,
             run_handler mid s = Some s2 /\ ab_system ra rb w f s2 /\
             exists la lb,
               ab_at (with_lock_flag la A) (with_lock_flag lb B)
                     (window_open (combo_mem_first (combs s 0%nat)) 1 C)
                     (trace s) s2).
  { destruct mid as [|[t0 io0] mid].
    - exists s. split; [reflexivity|]. split; [exact Hab|].
      exists (lock_flag A), (lock_flag B).
      destruct Hat as (KA & KB & KC & KT). repeat split; try assumption.
      + rewrite KA. destruct A; reflexivity.
      + rewrite KB. destruct B; reflexivity.
    - destruct (HioM (t0, io0) (or_introl eq_refl)) as [I1 I2].
      cbn [snd] in I1, I2.
      destruct (handler_AB_to ra rb w f t0 io0 s A B _ (trace s) _ _ _ _
                  Hab Hat (clicked_at_rest A HcA) (idle_at_rest B HiB) I1 I2
                  (ab_step_stale_hold w f _ t0 A B C HcA HiB Hcl Hnz
                     (HinM (t0, io0) (or_introl eq_refl))
                     (HwA (t0, io0) (or_introl eq_refl))))
        as (s1 & E1 & Hab1 & Hat1 & HrA1 & HrB1).
      rewrite app_nil_r in Hat1.
      destruct (run_fixed ra rb w f
                          (with_lock_flag true A) (with_lock_flag true B)
                          (window_open (combo_mem_first (combs s 0%nat)) 1 C)
                          mid HrA1 HrB1) with (s := s1) (tr := trace s)
        as (s2 & E2 & Hab2 & Hat2); [|assumption|assumption|].
      { intros t io Hi.
        destruct (HioM (t, io) (or_intror Hi)) as [H1 H2].
        split; [exact H1|]. split; [exact H2|].
        rewrite (ab_step_stale_hold w f _ t (with_lock_flag true A)
                   (with_lock_flag true B) C
                   (clicked_lock true A HcA) (idle_lock true B HiB) Hcl Hnz
                   (HinM (t, io) (or_intror Hi))).
        - rewrite !lock_idem. reflexivity.
        - pose proof (HwA (t, io) (or_intror Hi)) as H.
          destruct A; exact H. }
      exists s2. split.
      { cbn [run_handler]. rewrite E1. cbn [bind snd]. exact E2. }
      split; [exact Hab2|]. exists true, true. exact Hat2. }
  destruct Hmid as (s2 & E2 & Hab2 & la & lb & Hat2).
  assert (HdA' : multi_time (with_lock_flag la A)
                 <= sub32 tc (key_last_time (with_lock_flag la A)))
    by (destruct A; exact HdA).
  destruct (handler_AB_to ra rb w f tc ioc s2 _ _ _ (trace s) _ _ _ _
              Hab2 Hat2
              (clicked_at_rest _ (clicked_lock la A HcA))
              (idle_at_rest _ (idle_lock lb B HiB)) HioC1 HioC2
              (ab_step_stale_trigger w f _ tc _ _ C
                 (clicked_lock la A HcA) (idle_lock lb B HiB) Hcl Hnz
                 HinC' HdA'))
    as (s3 & E3 & Hab3 & (KA & KB & KC & KT) & _).
  exists s3. split.
  { rewrite run_handler_app, E2. cbn [bind run_handler].
    rewrite E3. reflexivity. }
  rewrite KA, KB, KC, KT, Hcb.
  split; [reflexivity|].
  split; [destruct A; reflexivity|].
  split; [destruct B; reflexivity|].
  destruct Hcl as (_ & _ & _ & _ & _ & _ & H1 & H2). split; assumption.
Qed.

Lemma ab_system_clicked_B_first : ab_system 0 1 300 99 clicked_B_first.
Proof. unfold ab_system. repeat split; vm_compute; reflexivity. Qed.

(** Witness of [combo_triggers_second_member_first]: on
    [clicked_B_first] the press of B is observed at tick 1050 and that of
    A at tick 1300. *)
Lemma combo_triggers_second_member_first_witness :
  exists s',
    run_handler ((1050, released) :: idle_ticks 1060 24 ++ [(1300, released)])
                clicked_B_first = Some s' /\
    trace s' = [ComboCallback 99 0%nat None] /\
    combo_mem_first (combs s' 0%nat) = 1300 /\
    combo_value_now (combs s' 0%nat) = 2.
Proof.
  destruct (combo_triggers_second_member_first
              0 1 300 99 clicked_B_first 1050 1300 released released
              (idle_ticks 1060 24))
    as (s' & E & Ht & _ & _ & _ & _ & Hf & Hv).
  - exact ab_system_clicked_B_first.
  - discriminate.
  - vm_compute; reflexivity.
  - vm_compute; reflexivity.
  - repeat split; vm_compute; reflexivity.
  - repeat split; vm_compute; reflexivity.
  - discriminate.
  - discriminate.
  - vm_compute; discriminate.
  - apply (Forall_forallb _
             (fun c => sub32 (fst c) (key_last_time (keys clicked_B_first 0%nat))
                       <? multi_time (keys clicked_B_first 0%nat))).
    + intros x Hx. apply Z.ltb_lt. exact Hx.
    + vm_compute; reflexivity.
  - apply (Forall_forallb _ (fun c => sub32 (fst c) 1050 <=? 300)).
    + intros x Hx. apply Z.leb_le. exact Hx.
    + vm_compute; reflexivity.
  - vm_compute; discriminate.
  - apply Forall_released. constructor; [reflexivity|].
    apply Forall_app; split; [apply idle_ticks_released|].
    constructor; [reflexivity|constructor].
  - exists s'. split; [exact E|]. split; [exact Ht|]. split; assumption.
Defined.

Lemma ab_system_second_click_due : ab_system 0 1 1000 99 second_click_due.
Proof. unfold ab_system. repeat split; vm_compute; reflexivity. Qed.

(** Witness of [stale_window_triggers_alone]: on [second_click_due] the
    combo has triggered once, at tick 1150; the call at tick 1550
    observes the press of the second click of A and invokes the combo
    callback again. *)
Lemma stale_window_triggers_alone_witness :
  trace second_click_due = [ComboCallback 99 0%nat None] /\
  exists s',
    run_handler [(1550, released)] second_click_due = Some s' /\
    trace s' = [ComboCallback 99 0%nat None; ComboCallback 99 0%nat None].
Proof.
  split; [vm_compute; reflexivity|].
  destruct (stale_window_triggers_alone
              0 1 1000 99 second_click_due 1150 1550 released [])
    as (s' & E & Ht & _).
  - exact ab_system_second_click_due.
  - vm_compute; reflexivity.
  - discriminate.
  - vm_compute; reflexivity.
  - repeat split; vm_compute; reflexivity.
  - split; vm_compute; reflexivity.
  - constructor.
  - constructor; [vm_compute; discriminate|constructor].
  - vm_compute; discriminate.
  - constructor; [split; reflexivity|constructor].
  - exists s'. split; [exact E|]. rewrite Ht. vm_compute. reflexivity.
Defined.

(** ** Dispatch in a system without combos *)

Lemma filter_call_of_key_other p l d :
  ~ In p l -> Forall (key_call_in l) d -> filter (call_of_key p) d = [].
Proof.
  intros Hp. induction 1 as [|c d (f & q & ev & ud & -> & Hq) _ IH];
    [reflexivity|].
  cbn. destruct (Nat.eqb_spec q p) as [->|_]; [contradiction|exact IH].
Qed.

Lemma filter_key_calls p k :
  filter (call_of_key p) (key_calls p k) = key_calls p k.
Proof.
  unfold key_calls. destruct (event_eqb (event k) KEY_EVENT_INIT);
    [reflexivity|].
  destruct (if mask_has k (event k) then func (callback_at k (event k))
            else None); [|reflexivity].
  cbn. rewrite Nat.eqb_refl. reflexivity.
Qed.

(** A key that is locked or has nothing pending gets no callback from the
    third loop and stays as it is. *)
Lemma dispatch_key_done tick p l :
  forall r s,
    lock_flag (keys s p) = true \/ event (keys s p) = KEY_EVENT_INIT ->
    exists d,
      trace (snd (fold_left (dispatch tick) l (r, s))) = trace s ++ d /\
      filter (call_of_key p) d = [] /\
      keys (snd (fold_left (dispatch tick) l (r, s))) p = keys s p.
Proof.
  induction l as [|a l IH]; intros r s Hq.
  - exists []. rewrite app_nil_r. repeat split.
  - cbn [fold_left].
    assert (H1 : exists d1,
               trace (snd (dispatch tick (r, s) a)) = trace s ++ d1 /\
               filter (call_of_key p) d1 = [] /\
               keys (snd (dispatch tick (r, s) a)) p = keys s p).
    { destruct (Nat.eq_dec a p) as [->|Hne].
      - unfold dispatch. destruct (lock_flag (keys s p)) eqn:El.
        + exists []. rewrite app_nil_r. repeat split.
        + destruct Hq as [Hq|Hq]; [discriminate|].
          rewrite (Key_Event_idle s p tick Hq). cbn [snd].
          exists []. rewrite app_nil_r. repeat split.
      - destruct (dispatch_effect tick r s a)
          as (_ & _ & _ & _ & Ho & _ & _ & _ & d1 & T1 & D1 & _).
        exists d1. split; [exact T1|]. split.
        + apply (filter_call_of_key_other p [a]); [|exact D1].
          intros [E|[]]. apply Hne; exact E.
        + apply Ho. congruence. }
    destruct H1 as (d1 & T1 & F1 & K1).
    destruct (dispatch tick (r, s) a) as [r1 s1]. cbn [snd] in *.
    destruct (IH r1 s1) as (d2 & T2 & F2 & K2); [rewrite K1; exact Hq|].
    exists (d1 ++ d2). rewrite T2, T1, app_assoc, filter_app, F1, F2, K2, K1.
    repeat split.
Qed.

Lemma dispatched_done k :
  lock_flag (dispatched k) = true \/ event (dispatched k) = KEY_EVENT_INIT.
Proof.
  unfold dispatched. destruct (lock_flag k) eqn:E; [left; exact E|right].
  destruct k; reflexivity.
Qed.

(** The third loop gives a listed key, whose pending event is not the
    continuous one, exactly the callback of that event, once. *)
Lemma dispatch_key_calls tick p l :
  forall r s,
    event (keys s p) <> KEY_EVENT_LONG_PRESSED_ALWS -> In p l ->
    exists d,
      trace (snd (fold_left (dispatch tick) l (r, s))) = trace s ++ d /\
      filter (call_of_key p) d = dispatched_calls p (keys s p) /\
      keys (snd (fold_left (dispatch tick) l (r, s))) p
      = dispatched (keys s p).
Proof.
  induction l as [|a l IH]; intros r s He Hin; [destruct Hin|].
  cbn [fold_left].
  destruct (Nat.eq_dec a p) as [->|Hne].
  - destruct (dispatch_spec tick r s p He) as (_ & _ & _ & _ & _ & T1 & K1 & _).
    destruct (dispatch tick (r, s) p) as [r1 s1]. cbn [snd] in *.
    destruct (dispatch_key_done tick p l r1 s1) as (d2 & T2 & F2 & K2);
      [rewrite K1; apply dispatched_done|].
    exists (dispatched_calls p (keys s p) ++ d2).
    rewrite T2, T1, app_assoc, filter_app, F2, app_nil_r, K2, K1.
    split; [reflexivity|]. split; [|reflexivity].
    unfold dispatched_calls. destruct (lock_flag (keys s p));
      [reflexivity|apply filter_key_calls].
  - destruct Hin as [E|Hin]; [contradiction|].
    destruct (dispatch_effect tick r s a)
      as (_ & _ & _ & _ & Ho & _ & _ & _ & d1 & T1 & D1 & _).
    assert (K1 : keys (snd (dispatch tick (r, s) a)) p = keys s p)
      by (apply Ho; congruence).
    destruct (dispatch tick (r, s) a) as [r1 s1]. cbn [snd] in *.
    destruct (IH r1 s1) as (d2 & T2 & F2 & K2);
      [rewrite K1; exact He|exact Hin|].
    exists (d1 ++ d2). rewrite T2, T1, app_assoc, filter_app, F2, K2, K1.
    rewrite (filter_call_of_key_other p [a] d1); [repeat split| |exact D1].
    intros [E|[]]. apply Hne; exact E.
Qed.

(** One call on a system without combos, seen from one registered key. *)
Lemma no_combo_key_step tick io s r s' p :
  _nn_combo_list s = [] ->
  NN_Key_Handler tick io s = Some (r, s') ->
  In p (_nn_key_list s) ->
  event (after_state_machine tick io s p) <> KEY_EVENT_LONG_PRESSED_ALWS ->
  exists d,
    trace s' = trace s ++ d /\
    filter (call_of_key p) d
    = dispatched_calls p (after_state_machine tick io s p) /\
    keys s' p = dispatched (after_state_machine tick io s p).
Proof.
  unfold NN_Key_Handler, after_state_machine. intros Hnc H Hin He.
  destruct (reset_phase (_nn_key_list s) s) as (_ & L1 & CL1 & _ & T1 & K1).
  set (s1 := fold_left reset_lock (_nn_key_list s) s) in *.
  destruct (foldM (run_state_machine tick io) (_nn_key_list s1) s1)
    as [s2|] eqn:E2; cbn [bind] in H; [|discriminate].
  apply sm_phase in E2. destruct E2 as (_ & L2 & CL2 & _ & T2 & K2).
  rewrite Combo_Process_none in H by (rewrite CL2, CL1; exact Hnc).
  cbn [bind] in H. inversion H as [H']. clear H.
  assert (Hex : existsb (Nat.eqb p) (_nn_key_list s) = true)
    by (apply existsb_exists; exists p; split;
        [exact Hin|apply Nat.eqb_refl]).
  assert (Ek : keys s2 p
               = Nat.iter (count_occ Nat.eq_dec (_nn_key_list s) p)
                          (sm_step tick io)
                          (if is_member (keys s p)
                           then with_lock_flag false (keys s p)
                           else keys s p)).
  { rewrite (K2 p), L1, (K1 p), Hex. reflexivity. }
  destruct (dispatch_key_calls tick p (_nn_key_list s2) true s2)
    as (d & T & F & K).
  { rewrite Ek. exact He. }
  { rewrite L2, L1. exact Hin. }
  rewrite H' in T, K. cbn [snd] in T, K.
  rewrite T2, T1 in T. exists d. rewrite F, K, Ek.
  repeat split. exact T.
Qed.

(** Without combos every event is dispatched in the call that produces
    it, once.  For a registered key whose record after the state machine
    has an event other than the continuous one, the callbacks of that key
    invoked by the call are: none if the key is locked or the event is
    [KEY_EVENT_INIT] or has no callback, otherwise the callback
    registered for the event, once; and the event is cleared unless the
    key is locked. *)
Theorem no_combo_dispatch
        (tick : Z) (io : nat -> bool) (s : nn_state) (r : bool)
        (s' : nn_state) (p : ptr) :
  _nn_combo_list s = [] ->
  NN_Key_Handler tick io s = Some (r, s') ->
  In p (_nn_key_list s) ->
  event (after_state_machine tick io s p) <> KEY_EVENT_LONG_PRESSED_ALWS ->
  filter (call_of_key p) (new_calls s s')
  = dispatched_calls p (after_state_machine tick io s p) /\
  keys s' p = dispatched (after_state_machine tick io s p).
Proof.
  intros Hnc H Hin He.
  destruct (no_combo_key_step tick io s r s' p Hnc H Hin He)
    as (d & T & F & K).
  rewrite (new_calls_app s s' d T). split; assumption.
Qed.

(** Witness of [no_combo_dispatch]: key A of [two_keys], clicked at tick
    1000 and polled at 1050 and 1400; the call at 1400 closes its
    multi-click window and invokes its press callback. *)
Lemma no_combo_dispatch_witness :
  filter (call_of_key 0%nat)
         (new_calls (state_after [(1000, only 0%nat); (1050, released)]
                                 two_keys)
                    (state_after [(1000, only 0%nat); (1050, released);
                                  (1400, released)] two_keys))
  = [KeyCallback 10 0%nat KEY_EVENT_PRESSED None].
Proof.
  destruct (no_combo_dispatch
              1400 released
              (state_after [(1000, only 0%nat); (1050, released)] two_keys)
              true
              (state_after [(1000, only 0%nat); (1050, released);
                            (1400, released)] two_keys) 0%nat)
    as [H _].
  - vm_compute; reflexivity.
  - vm_compute; reflexivity.
  - vm_compute. left; reflexivity.
  - vm_compute; discriminate.
  - rewrite H. vm_compute. reflexivity.
Defined.

(** ** Keys on their own *)

Lemma unlocked_fixed k : lock_flag k = false -> with_lock_flag false k = k.
Proof. destruct k; cbn; intros ->; reflexivity. Qed.

Lemma count_occ_one_in (l : list ptr) p :
  count_occ Nat.eq_dec l p = 1%nat -> In p l.
Proof. intros H. apply (count_occ_In Nat.eq_dec). lia. Qed.

(** A run of handler calls on a system without combos, seen from a key
    that is registered once and not locked. *)
Lemma no_combo_key_run p r calls :
  forall s s',
    _nn_combo_list s = [] ->
    count_occ Nat.eq_dec (_nn_key_list s) p = 1%nat ->
    key_read (keys s p) = Some r ->
    lock_flag (keys s p) = false ->
    never_continuous (keys s p) (samples_of r calls) ->
    run_handler calls s = Some s' ->
    exists d,
      trace s' = trace s ++ d /\
      filter (call_of_key p) d
      = snd (key_run p (keys s p) (samples_of r calls)) /\
      keys s' p = fst (key_run p (keys s p) (samples_of r calls)).
Proof.
  induction calls as [|[t io] calls IH]; intros s s' Hnc Hocc Hrd Hlk Hq H.
  - cbn in H. inversion H; subst. exists []. rewrite app_nil_r.
    repeat split.
  - cbn [run_handler] in H.
    destruct (NN_Key_Handler t io s) as [[r1 s1]|] eqn:E; cbn [bind snd] in H;
      [|discriminate].
    cbn [samples_of map fst snd key_run never_continuous] in *.
    fold (samples_of r calls) in *.
    destruct Hq as [He Hq].
    assert (Ea : after_state_machine t io s p
                 = _NN_Key_StateMachine (keys s p) t (io r)).
    { unfold after_state_machine. rewrite Hocc.
      change (Nat.iter 1 (sm_step t io) ?k) with (sm_step t io k).
      rewrite (unlocked_fixed _ Hlk).
      destruct (is_member (keys s p)); unfold sm_step; rewrite Hrd;
        reflexivity. }
    destruct (no_combo_key_step t io s r1 s1 p Hnc E
                (count_occ_one_in _ p Hocc))
      as (d1 & T1 & F1 & K1); [rewrite Ea; exact He|].
    rewrite Ea in F1, K1.
    destruct (handler_effect t io s r1 s1 E) as (_ & L1 & CL1 & _).
    destruct (SM_static (keys s p) t (io r)) as (Sr & _ & Sl & _).
    cbv zeta in Sr, Sl.
    destruct (IH s1 s') as (d2 & T2 & F2 & K2).
    + rewrite CL1; exact Hnc.
    + rewrite L1; exact Hocc.
    + rewrite K1. rewrite (proj1 (dispatched_static _)), Sr. exact Hrd.
    + rewrite K1. unfold dispatched. rewrite Sl, Hlk.
      destruct (_NN_Key_StateMachine (keys s p) t (io r)) eqn:Ek.
      cbn in Sl |- *. congruence.
    + rewrite K1. exact Hq.
    + exact H.
    + exists (d1 ++ d2). rewrite T2, T1, app_assoc, filter_app, F1, F2, K2, K1.
      repeat split.
Qed.

(** Without combos the keys do not interfere, as long as the continuous
    event stays out of play: over any run of handler calls, the callbacks
    invoked for a key that is registered once, and its final record, are
    those of the key run on its own over the samples of its read
    function; the inputs of the other keys do not matter. *)
Theorem no_combo_keys_independent
        (p : ptr) (r : nat) (calls : list (Z * (nat -> bool)))
        (s s' : nn_state) :
  _nn_combo_list s = [] ->
  count_occ Nat.eq_dec (_nn_key_list s) p = 1%nat ->
  key_read (keys s p) = Some r ->
  lock_flag (keys s p) = false ->
  never_continuous (keys s p) (samples_of r calls) ->
  run_handler calls s = Some s' ->
  filter (call_of_key p) (new_calls s s')
  = snd (key_run p (keys s p) (samples_of r calls)) /\
  keys s' p = fst (key_run p (keys s p) (samples_of r calls)).
Proof.
  intros Hnc Hocc Hrd Hlk Hq H.
  destruct (no_combo_key_run p r calls s s' Hnc Hocc Hrd Hlk Hq H)
    as (d & T & F & K).
  rewrite (new_calls_app s s' d T). split; assumption.
Qed.

(** *** Clicks on a key on its own *)

Lemma run_samples_fixed (P : nn_key_t -> Prop) k v ts :
  P k -> Forall (fun t => _NN_Key_StateMachine k t v = k) ts ->
  Forall P (run_samples k (map (fun t => (t, v)) ts)).
Proof.
  intros HP. induction 1 as [|t ts Ht _ IH]; [constructor|].
  cbn [map run_samples]. rewrite Ht. constructor; assumption.
Qed.

Lemma quiet_dispatched k :
  event k = KEY_EVENT_INIT -> dispatched k = k.
Proof.
  unfold dispatched. intros H. destruct (lock_flag k); [reflexivity|].
  destruct k; cbn in H |- *; rewrite H; reflexivity.
Qed.

Lemma quiet_dispatched_calls p k :
  event k = KEY_EVENT_INIT -> dispatched_calls p k = [].
Proof.
  unfold dispatched_calls, key_calls. intros ->.
  destruct (lock_flag k); reflexivity.
Qed.

(** Samples after each of which nothing is pending: the key run on its
    own is the state machine, and no callback is invoked. *)
Lemma key_run_quiet p samples :
  forall k,
    Forall (fun k' => event k' = KEY_EVENT_INIT) (run_samples k samples) ->
    key_run p k samples = (after_samples k samples, []) /\
    never_continuous k samples.
Proof.
  induction samples as [|[t v] samples IH]; intros k H.
  - split; [reflexivity|exact I].
  - cbn [run_samples] in H. inversion H as [|k1 l He Hrest]; subst.
    cbn [key_run never_continuous fst snd].
    rewrite (quiet_dispatched _ He), (quiet_dispatched_calls p _ He).
    destruct (IH _ Hrest) as [E Q]. rewrite E. cbn [fst snd app].
    split; [reflexivity|]. split; [rewrite He; discriminate|exact Q].
Qed.

Lemma key_run_app p l1 l2 :
  forall k,
    key_run p k (l1 ++ l2)
    = (fst (key_run p (fst (key_run p k l1)) l2),
       snd (key_run p k l1) ++ snd (key_run p (fst (key_run p k l1)) l2)).
Proof.
  induction l1 as [|c l1 IH]; intros k.
  - cbn [app key_run fst snd]. destruct (key_run p k l2); reflexivity.
  - cbn [app key_run fst snd]. rewrite IH. cbn [fst snd].
    rewrite app_assoc. reflexivity.
Qed.

Lemma never_continuous_app l1 l2 :
  forall p k,
    never_continuous k l1 ->
    never_continuous (fst (key_run p k l1)) l2 ->
    never_continuous k (l1 ++ l2).
Proof.
  induction l1 as [|c l1 IH]; intros p k H1 H2; [exact H2|].
  cbn [app never_continuous key_run fst] in *.
  destruct H1 as [He H1]. split; [exact He|]. exact (IH p _ H1 H2).
Qed.

(** During one short click nothing is pending after any sample. *)
Lemma click_quiet id rd lt db lg la mt st ev im lk mm mc cm cbs c :
  st = KEY_STATE_RELEASED \/ (st = KEY_STATE_MULTI_PRESSED /\ ev = KEY_EVENT_INIT) ->
  lg <= la ->
  clicks_ok db lg mt lt [c] ->
  Forall (fun k' => event k' = KEY_EVENT_INIT)
         (run_samples (mk_key id rd lt db lg la mt st ev im lk mm mc cm cbs)
                      (click_samples c)).
Proof.
  intros Hst Hla (Hp & Hh & Hr & Hi & _).
  unfold click_samples. cbn [run_samples].
  assert (E1 : _NN_Key_StateMachine
                 (mk_key id rd lt db lg la mt st ev im lk mm mc cm cbs)
                 (c_press c) true
               = mk_key id rd (c_press c) db lg la mt KEY_STATE_PRESSED
                        KEY_EVENT_INIT im lk mm mc cm cbs).
  { unfold _NN_Key_StateMachine. cbn.
    destruct (Z.leb_spec db (sub32 (c_press c) lt)); [|lia].
    destruct Hst as [->|[-> ->]]; reflexivity. }
  rewrite E1. constructor; [reflexivity|].
  assert (Hfix : Forall (fun t => _NN_Key_StateMachine
                   (mk_key id rd (c_press c) db lg la mt KEY_STATE_PRESSED
                           KEY_EVENT_INIT im lk mm mc cm cbs) t true
                 = mk_key id rd (c_press c) db lg la mt KEY_STATE_PRESSED
                          KEY_EVENT_INIT im lk mm mc cm cbs) (c_held c)).
  { eapply Forall_impl; [|exact Hh]. intros t Ht. cbn beta in Ht.
    unfold _NN_Key_StateMachine. cbn.
    destruct (Z.leb_spec lg (sub32 t (c_press c))); [lia|].
    destruct (Z.leb_spec la (sub32 t (c_press c))); [lia|]. reflexivity. }
  rewrite run_samples_app, (after_samples_fixed _ _ _ Hfix).
  apply Forall_app. split; [apply run_samples_fixed; [reflexivity|exact Hfix]|].
  cbn [run_samples].
  assert (E2 : _NN_Key_StateMachine
                 (mk_key id rd (c_press c) db lg la mt KEY_STATE_PRESSED
                         KEY_EVENT_INIT im lk mm mc cm cbs)
                 (c_release c) false
               = mk_key id rd (c_release c) db lg la mt
                        KEY_STATE_MULTI_PRESSED KEY_EVENT_INIT im lk mm
                        ((mc + 1) mod 16) cm cbs).
  { unfold _NN_Key_StateMachine. cbn.
    destruct (Z.leb_spec lg (sub32 (c_release c) (c_press c))); [lia|].
    reflexivity. }
  rewrite E2. constructor; [reflexivity|].
  apply run_samples_fixed; [reflexivity|].
  eapply Forall_impl; [|exact Hi]. intros t Ht. cbn beta in Ht.
  unfold _NN_Key_StateMachine. cbn.
  destruct (Z.leb_spec mt (sub32 t (c_release c))); [lia|]. reflexivity.
Qed.

Lemma clicks_quiet cs :
  forall id rd lt db lg la mt st ev im lk mm mc cm cbs,
    st = KEY_STATE_RELEASED \/
    (st = KEY_STATE_MULTI_PRESSED /\ ev = KEY_EVENT_INIT) ->
    lg <= la ->
    clicks_ok db lg mt lt cs ->
    Forall (fun k' => event k' = KEY_EVENT_INIT)
           (run_samples (mk_key id rd lt db lg la mt st ev im lk mm mc cm cbs)
                        (flat_map click_samples cs)).
Proof.
  induction cs as [|c cs IH];
    intros id rd lt db lg la mt st ev im lk mm mc cm cbs Hst Hla Hok;
    [constructor|].
  cbn [flat_map]. rewrite run_samples_app.
  destruct Hok as (Hp & Hh & Hr & Hi & Hrest).
  assert (Hc : clicks_ok db lg mt lt [c]) by (cbn; repeat split; assumption).
  apply Forall_app. split; [apply click_quiet; assumption|].
  rewrite (click_counted id rd lt db lg la mt st ev im lk mm mc cm cbs c
             Hst Hla Hc).
  apply IH; [right; split; reflexivity|exact Hla|exact Hrest].
Qed.

(** Clicking a key invokes the callback of the click count, once.  In a
    system without combos, take a key that is registered once, released
    with no click counted, and a run of handler calls during which its
    read function samples short clicks in quick succession and then the
    end of the multi-click window; the other keys may do anything.  Over
    the run the callbacks invoked for the key are: the one registered for
    the event of the click count modulo 16, once, at the end; nothing if
    that event has no callback or the count is a multiple of 16. *)
Theorem clicks_invoke_callback
        (p : ptr) (r : nat) (calls : list (Z * (nat -> bool)))
        (s s' : nn_state) (cs : list click) (t : Z) :
  _nn_combo_list s = [] ->
  count_occ Nat.eq_dec (_nn_key_list s) p = 1%nat ->
  key_read (keys s p) = Some r ->
  lock_flag (keys s p) = false ->
  state (keys s p) = KEY_STATE_RELEASED -> multi_count (keys s p) = 0 ->
  long_time (keys s p) <= long_alws_time (keys s p) ->
  cs <> [] ->
  clicks_ok (debounce_time (keys s p)) (long_time (keys s p))
            (multi_time (keys s p)) (key_last_time (keys s p)) cs ->
  multi_time (keys s p)
  <= sub32 t (last_release (key_last_time (keys s p)) cs) ->
  samples_of r calls = flat_map click_samples cs ++ [(t, false)] ->
  run_handler calls s = Some s' ->
  filter (call_of_key p) (new_calls s s')
  = key_calls p (with_event
                   (click_event (Z.of_nat (List.length cs) mod 16))
                   (keys s p)) /\
  event (keys s' p) = KEY_EVENT_INIT /\
  state (keys s' p) = KEY_STATE_RELEASED /\
  multi_count (keys s' p) = 0.
Proof.
  intros Hnc Hocc Hrd Hlk Hst Hmc Hla Hne Hok Hclose Hsam H.
  destruct (keys s p) as [id rd lt db lg la mt st ev im lk mm mc cm cbs]
    eqn:Ek.
  cbn in Hrd, Hlk, Hst, Hmc, Hla, Hok, Hclose. subst rd lk st mc.
  pose proof (clicks_quiet cs id (Some r) lt db lg la mt KEY_STATE_RELEASED
                ev im false mm 0 cm cbs (or_introl eq_refl) Hla Hok) as Hq.
  destruct (key_run_quiet p _ _ Hq) as [E1 Q1].
  rewrite (clicks_counted cs id (Some r) lt db lg la mt KEY_STATE_RELEASED ev
             im false mm 0 cm cbs Hne (or_introl eq_refl) Hla Hok) in E1.
  cbn [Z.add] in E1.
  pose proof (Z.mod_pos_bound (Z.of_nat (List.length cs)) 16 ltac:(lia))
    as Hm.
  set (n := Z.of_nat (List.length cs) mod 16) in *.
  assert (E2 : _NN_Key_StateMachine
                 (mk_key id (Some r) (last_release lt cs) db lg la mt
                         KEY_STATE_MULTI_PRESSED KEY_EVENT_INIT im false mm
                         n cm cbs) t false
               = mk_key id (Some r) t db lg la mt KEY_STATE_RELEASED
                        (click_event n) im false mm 0 cm cbs).
  { unfold _NN_Key_StateMachine, click_event. cbn.
    destruct (Z.leb_spec mt (sub32 t (last_release lt cs))); [|lia].
    destruct (Z.eqb_spec n 1), (Z.eqb_spec n 2), (Z.eqb_spec n 3),
      (Z.ltb_spec 3 n), (Z.eqb_spec n 0); try lia; reflexivity. }
  assert (Hev : click_event n <> KEY_EVENT_LONG_PRESSED_ALWS).
  { unfold click_event.
    destruct (n =? 0), (n =? 1), (n =? 2), (n =? 3); discriminate. }
  destruct (no_combo_key_run p r calls s s' Hnc Hocc) as (d & T & F & K).
  - rewrite Ek; reflexivity.
  - rewrite Ek; reflexivity.
  - rewrite Ek, Hsam.
    apply (never_continuous_app _ _ p); [exact Q1|].
    rewrite E1. cbn [fst never_continuous snd]. rewrite E2.
    split; [exact Hev|exact I].
  - exact H.
  - rewrite (new_calls_app s s' d T), F, K, Ek, Hsam, key_run_app, E1.
    cbn [fst snd key_run app]. rewrite E2.
    unfold dispatched, dispatched_calls. cbn. rewrite app_nil_r.
    repeat split.
Qed.

(** Witness of [no_combo_keys_independent]: key A of [two_keys], clicked
    while B is held; its press callback is invoked when its multi-click
    window closes. *)
Lemma no_combo_keys_independent_witness :
  filter (call_of_key 0%nat)
         (new_calls two_keys_idle (state_after click_A_hold_B two_keys_idle))
  = [KeyCallback 10 0%nat KEY_EVENT_PRESSED None].
Proof.
  destruct (no_combo_keys_independent
              0%nat 0%nat click_A_hold_B two_keys_idle
              (state_after click_A_hold_B two_keys_idle))
    as [H _].
  - vm_compute; reflexivity.
  - vm_compute; reflexivity.
  - vm_compute; reflexivity.
  - vm_compute; reflexivity.
  - vm_compute. repeat split; discriminate.
  - vm_compute; reflexivity.
  - rewrite H. vm_compute. reflexivity.
Defined.

(** Witness of [clicks_invoke_callback]: a double click on [one_key]
    invokes the callback registered with [NN_Key_OnDoubleClick]. *)
Lemma clicks_invoke_callback_witness :
  filter (call_of_key 0%nat)
         (new_calls one_key_idle (state_after double_click_calls one_key_idle))
  = [KeyCallback 2 0%nat KEY_EVENT_DOUBLE_PRESSED None].
Proof.
  destruct (clicks_invoke_callback
              0%nat 0%nat double_click_calls one_key_idle
              (state_after double_click_calls one_key_idle)
              double_click 1400)
    as [H _].
  - vm_compute; reflexivity.
  - vm_compute; reflexivity.
  - vm_compute; reflexivity.
  - vm_compute; reflexivity.
  - vm_compute; reflexivity.
  - vm_compute; reflexivity.
  - vm_compute; discriminate.
  - discriminate.
  - split; [vm_compute; discriminate|].
    split; [repeat (constructor; [vm_compute; reflexivity|]); constructor|].
    split; [vm_compute; reflexivity|].
    split; [repeat (constructor; [vm_compute; reflexivity|]); constructor|].
    split; [vm_compute; discriminate|].
    split; [repeat (constructor; [vm_compute; reflexivity|]); constructor|].
    split; [vm_compute; reflexivity|].
    split; [repeat (constructor; [vm_compute; reflexivity|]); constructor|].
    exact I.
  - vm_compute; discriminate.
  - vm_compute; reflexivity.
  - vm_compute; reflexivity.
  - rewrite H. vm_compute. reflexivity.
Defined.
